(* ===== verification/_CoqProject ===== *)
-Q . S2P
Prelude.v
TonUtils.v
Config.v
Models.v
Core.v
Db.v
AddressBook.v
Fixtures.v
Repository.v
WithdrawalRepository.v
Ledger.v
BlockScanner.v
BlockScannerFacts.v
Saving.v
Protocol.v
Lifecycle.v
Tasks.v
Shard.v
Messages.v
Processor.v
ProcessorFacts.v
Loops.v
Sending.v
Wallets.v
Notify.v
Blockchain.v
Incomes.v
Acceptance.v
Settlement.v
Sweeps.v
Follow.v
FollowJetton.v
Api.v
ApiFacts.v
Reports.v
Deposits.v
Router.v
Processes.v
Progress.v
Restart.v
Pipeline.v
Delivery.v
Service.v
Main.v
AuditLog.v
Witnesses.v
RunWitnesses.v
ChainWitnesses.v
FollowWitnesses.v
