(* ===== verification/Prelude.v ===== *)
(** * Quadrocycle payment processor: a verification development

    ** The program

    Quadrocycle takes payments in TONs and jettons for an online service. It
    gives each user deposit addresses, follows one shard of the TON workchain,
    records what the deposits receive, sweeps the deposits into a hot wallet
    and pays withdrawal requests from it. Its state is a PostgreSQL database;
    around it run the goroutines [cmd/processor/main.go] starts: the shard
    tracker, which sends block headers on a channel; the block scanner, which
    turns each block into events and saves them in one transaction; the
    withdrawal processor, with three loops (batches from the hot wallet,
    withdrawals from TON deposits, expiration); and the HTTP interface.

    ** The files, and the code they model

    - [Prelude]: outcomes of a Go call ([res]: a value, an error, a panic, the
      end of the process), the state and error monad [ST] in which an error does
      not undo the state, loops with their invariant rules, sums, machine
      integers, time in nanoseconds.
    - [TonUtils]: the libraries. Addresses, cells, wallets, UUIDs, the order in
      which Go visits a map, the encoding of parameters by the database driver:
      classes of operations, the behaviour some theorems rely on as classes of
      laws, and the module [Toy] with concrete instances.
    - [Config] ([config/config.go]), [Models] ([models/models.go]), [Core] (the
      interfaces [Blockchain] and [Wallet] of [core/types.go]).
    - [Db] ([deploy/db/01_init.up.sql], [db/tx.go]): rows, tables as lists with
      their unique constraints, a statement as a function on the tables that may
      fail in the driver, transactions, [RunInTx]. [World] is the state of an
      effectful call: tables, transaction, the schedule of driver failures, the
      clock, random identifiers, what was sent.
    - [AddressBook] ([db/addressbook.go]), [Repository] ([db/repository.go]),
      [WithdrawalRepository] ([db/withdrawal-repository.go]): one definition per
      method, with the name of the method. The interfaces of [db/types.go] are
      the records [AddressBook], [Repo], [WithdrawalRepo] and [RequestRepo]:
      clients take one as an argument, the implementations are [book_ops],
      [repository], [withdrawal_repo] and [request_repo], and the nil values with
      which the constructors leave them are [nil_AddressBook] and the like.
    - [Ledger]: the abstract view of the tables. [db_inv] is their invariant,
      [evolves] what may change, [calm] that nothing new is being paid; each
      method of the repositories refines [ledger].
    - [BlockScanner] ([core/block_scanner.go], [core/helper.go]) and
      [BlockScannerFacts], [Saving]: decoding, the three kinds of accounts,
      grouping, notifications, saving.
    - [Protocol] ([cmd/processor/main.go]): the processes as a step relation over
      the tables; a step is one call of a repository in any world (any failures,
      any clock), in any order; the tasks picked and not yet paid are state.
      [Lifecycle]: the abstract machine of payments that it refines. [Processes]:
      one turn of each goroutine, composed of the definitions of the components,
      makes steps of [Protocol]. [Progress]: passes of the withdrawal processor
      that take up every request. [Restart]: a start after such turns. [Service]:
      the life of a service withdrawal under
      the two loops of the withdrawal processor that share its table.
    - [Pipeline] ([core/shard_tracker.go], [core/block_scanner.go] and the
      shutdown of [cmd/processor/main.go]): the tracker and the scanner over their
      unbuffered channel, statement by statement, with the signal that cancels
      the contexts and closes the channel. [Delivery]: the pipeline on a chain of
      blocks, which blocks are handed over, scanned and saved.
    - [Tasks]: which requests and deposits the task queries return.
    - [Shard] ([core/shard_tracker.go]): prefixes of shards as 64-bit words, the
      walk back over parents, retries.
    - [Messages] ([core/withdrawal.go], [core/proxy.go]), [Processor]
      ([core/withdrawal_processor.go]), [ProcessorFacts], [Loops], the three
      loops until they are stopped, and [Sending], the order in which a pass records
      and sends.
    - [Wallets] ([core/wallet/]);
      [Blockchain] ([core/blockchain.go]), where [connection_ops] implements the
      interface [Blockchain] over the client; [Notify] ([webhook/webhook.go],
      [queue/queue.go]).
    - [Incomes], [Settlement], [Sweeps]: from the chain to the tables. The incomes
      of a deposit through the connection, the scanner and the repository; the
      payments of a batch from the transaction of the hot wallet to their rows;
      the two sides of a sweep. [Follow] and [FollowJetton]: the processor and the
      scanner composed over what is sent and what the chain then shows, for
      payments, for sweeps of TONs and for those of jettons. [Acceptance]: why the
      scanner understands every batch of the processor.
    - [Api] ([api/]), [ApiFacts], [Deposits] (a new deposit from the interface
      over the searches of the wallets to the tables), [Reports] (the report of
      the incomes of a user against a definition of what it should hold), and
      [Router] (the routes of [api/handlers/handlers.go]).
    - [Main] ([cmd/processor/main.go]): the start of the program, and the nil
      interfaces its constructors leave. [AuditLog] ([audit/log.go],
      [cmd/testwebhook/main.go]): what is only printed.
    - [Fixtures], [Witnesses], [RunWitnesses], [ChainWitnesses],
      [FollowWitnesses]: concrete inputs and the theorems applied to them.

    ** What the theorems show

    - Money is not paid twice: [no_double_payment], [offered_unpaid],
      [reachable_ledger] hold in every state the processes can reach, with any
      interleaving and any driver failure; [failure_is_final] and [records_stay]
      bound what may change; [only_requested_paid]. They rest on [Ledger], whose
      lemmas say that each method keeps the invariant.
    - Refinement: [payments_refine], from the processes to the machine of
      [Lifecycle]; [turns_step], from the code of each goroutine to the processes.
    - Requests are served: [requests_drain] (passes of the withdrawal processor
      take up each idle request, as long as the hot wallet covers them, their
      destinations are outside the program and messages have room),
      [oldest_first], [ton_tasks_due], [jetton_tasks_due] (the queries return
      exactly what is due), [sent_is_recorded] (nothing is sent before it is
      recorded).
    - Incomes are exact: [ton_incomes_exact], from the pages of the server to the
      table of one block; [payments_reach_the_table], along any run of the tracker
      and the scanner; [jetton_accounting].
    - From end to end: [payment_followed], from the pass that records and sends a
      batch to the block that settles each of its payments; [sweep_followed], from
      the task of a deposit to the block that finishes its withdrawal;
      [jetton_sweep_followed], the same for jettons through the proxy, with the
      income of the hot wallet.
    - Processor and scanner agree: [batch_accepted], no batch pays an address twice
      or holds what the scanner can not read, as long as the tables of wallets are
      sound and the book knows the hot wallets and the wallets in use;
      [deposits_sound], creating deposits keeps them so, and [loadAddressBook]
      reads such a book from them.
    - Batches are settled: [batch_settles], every payment of a batch seen on the
      chain is marked as the chain says; [batch_outcome]. Sweeps are settled and
      credited: [sweep_settles], [sweep_received], [deposit_external_paired].
    - Service withdrawals: [service_life], each goes once through its life and no
      two loops hold it; [service_passes], the code of the loops keeps to that.
    - Blocks are saved exactly once and as a whole: [block_saved_once],
      [processBlock_atomic], [SaveParsedBlockData_ledger].
    - The scanner: [block_events], the events of a block are those of its known
      accounts, each by the type of its wallet; [filterTXs_groups],
      [parseExternalMessage_unique].
    - The withdrawal processor: [buildWithdrawalMessages_budget],
      [decreaseBalances_spec], [jetton_payment_read_back] (what the processor
      writes, the scanner reads), [waitSync_synced], [processor_stops] (its loops end
      once the shutdown flag is set).
    - The tracker and the node: [filterByShard_split], [getShardBlocks_catches_up],
      [getCurrentMasterBlock_first], [GetTransactionIDs_complete]; [walk_drains],
      the tracker and the scanner come through every block between the last known
      one and the newest; [connection_honest], what [Delivery] asks of the node is
      what the connection gives.
    - Wallets, configuration and the interface: [find_subwallet_first],
      [find_proxy_first], [InitWallets_restart] (a later start, whatever ran in
      between, changes nothing), [GetConfig_reads_back],
      [loadAddressBook_spec], [create_ton_deposit],
      [create_jetton_deposit], [income_report_exact], [checkToken_spec],
      [webhook_Publish_attempts].
    - What the code gets wrong: [main_never_runs], [wired_with_nil],
      [NewAddressBook_knows_nothing], [NewHandler_answers_500],
      [identifiers_never_read], [createWithdrawal_forgets], [waitSync_panics],
      [deployed_schema_blocks], [large_query_id_blocks], [notified_not_saved],
      [cold_request_repeats], [interrupted_walk_resends],
      [unreadable_parents_panic], [jetton_income_not_counted],
      [uninitialised_parent_fails], [restart_loses_blocks],
      [older_block_rescans], [shutdown_panics].

    ** Fuel and inputs

    Loops without a bound in the code take fuel or the list of answers their
    environment gives. [find_subwallet] and [find_proxy] end with fuel for the
    identifiers below the largest [uint32]; [getShardBlocks] with more fuel than
    there are headers back to the known block; the pages of a block with as much
    fuel as there are pages. [getCurrentMasterBlock], [until_ready] and [waitSync]
    consume one answer per turn and yield [None] when they run out while still
    waiting; the loops of the withdrawal processor end with one more fuel than the
    flag is read before it is set. [requests_drain] needs
    as many passes as there are idle requests.

    ** The two schemas

    The statements use columns of [withdrawal_requests] the deployed tables do not
    have. [deployed_schema] is the deployment, [query_schema] one on which every
    statement can run; theorems hold for both unless they name one.

    ** What is not modelled

    Amounts are integers: every [decimal.Decimal] the program builds is one. The
    contexts with timeouts, sleeping and logging have no effect on the state, and
    the components leave out the calls of the audit log; a timeout is one of the
    driver failures or node errors. JSON, HTTP, AMQP, the router and the parsing
    of environment variables are library code. [main] is modelled up to the
    goroutines, and its shutdown in [Pipeline]; the HTTP server is left out. The load test
    under [tests/] is a client of the service, not part of it. An error text that
    includes another error is its constant part.

    ** Plan

    Every operation of the service that changes its state is a definition. What is
    left is library code and the client under [tests/], for the reasons given
    above. *)

From stdpp Require Export base gmap sets list strings sorting.
From Stdlib Require Export ZArith Lia.

#[global] Set Default Goal Selector "!".
#[global] Open Scope Z_scope.

Declare Scope go_scope.
Delimit Scope go_scope with go.

(** ** Outcomes of a Go call

    A Go function that returns [(T, error)] returns normally with a value,
    returns normally with an error, panics (nil dereference, index out of
    range, explicit [panic]), or ends the process with [log.Fatalf]. *)

Inductive err : Set :=
| EText (s : string)      (** an error built by the program: [fmt.Errorf], [errors.New] *)
| ENotFound               (** [models.ErrNotFound] *)
| ETimeoutExceeded        (** [models.ErrTimeoutExceeded] *)
| ELib (s : string).      (** an error a library or the database driver returned *)

#[export] Instance err_eq_dec : EqDecision err.
Proof. solve_decision. Defined.

Inductive res (A : Type) : Type :=
| Ok (a : A)
| Err (e : err)
| Panic
| Fatal.
Arguments Ok {A} _.
Arguments Err {A} _.
Arguments Panic {A}.
Arguments Fatal {A}.

#[export] Instance res_eq_dec {A} `{EqDecision A} : EqDecision (res A).
Proof. solve_decision. Defined.

Definition is_Ok {A} (r : res A) : bool := match r with Ok _ => true | _ => false end.

Definition res_bind {A B} (m : res A) (k : A → res B) : res B :=
  match m with
  | Ok a => k a
  | Err e => Err e
  | Panic => Panic
  | Fatal => Fatal
  end.

Definition res_map {A B} (f : A → B) (m : res A) : res B :=
  res_bind m (λ a, Ok (f a)).

(** [if err != nil { return ..., e' }] where the caller replaces the error. *)
Definition res_wrap {A} (e' : err) (m : res A) : res A :=
  match m with Err _ => Err e' | r => r end.

(** A library call that returns [(T, error)], its error text not inspected. *)
Definition of_option {A} (e : err) (o : option A) : res A :=
  match o with Some a => Ok a | None => Err e end.

Notation "'let!' x := m 'in' k" := (res_bind m (fun x => k))
  (at level 10, x pattern, m at level 100, k at level 200) : go_scope.
#[global] Open Scope go_scope.

Lemma res_bind_Ok {A B} (m : res A) (k : A → res B) b :
  res_bind m k = Ok b ↔ ∃ a, m = Ok a ∧ k a = Ok b.
Proof. destruct m; naive_solver. Qed.

Lemma res_map_Ok {A B} (f : A → B) (m : res A) b :
  res_map f m = Ok b ↔ ∃ a, m = Ok a ∧ b = f a.
Proof. destruct m; naive_solver. Qed.

Lemma res_wrap_Ok {A} e (m : res A) a : res_wrap e m = Ok a ↔ m = Ok a.
Proof. destruct m; naive_solver. Qed.

Lemma of_option_Ok {A} e (o : option A) a : of_option e o = Ok a ↔ o = Some a.
Proof. destruct o; naive_solver. Qed.

Lemma res_bind_assoc {A B C} (m : res A) (f : A → res B) (g : B → res C) :
  res_bind (res_bind m f) g = res_bind m (λ a, res_bind (f a) g).
Proof. by destruct m. Qed.

(** ** Loops

    [for_res f b l] is [for _, x := range l { b, err = f(b, x); if err != nil
    { return err } }]; a [continue] is an iteration that returns [Ok b]. *)

Fixpoint for_res {A B} (f : B → A → res B) (b : B) (l : list A) : res B :=
  match l with
  | [] => Ok b
  | x :: l => res_bind (f b x) (λ b', for_res f b' l)
  end.

Lemma for_res_app {A B} (f : B → A → res B) b l1 l2 :
  for_res f b (l1 ++ l2) = res_bind (for_res f b l1) (λ b', for_res f b' l2).
Proof.
  revert b. induction l1 as [|x l1 IH]; intros b; [done|].
  simpl. destruct (f b x); simpl; auto.
Qed.

(** The invariant rule: [P done b] holds of the prefix already processed. *)
Lemma for_res_inv {A B} (P : list A → B → Prop) (f : B → A → res B) l b0 b1 :
  P [] b0 →
  (∀ done x b b', x ∈ l → P done b → f b x = Ok b' → P (done ++ [x]) b') →
  for_res f b0 l = Ok b1 → P l b1.
Proof.
  intros H0 Hstep.
  assert (∀ done rest b, done ++ rest = l → P done b → for_res f b rest = Ok b1 → P l b1)
    as Hgen; [|by apply (Hgen [] l b0)].
  intros done rest. revert done. induction rest as [|x rest IH]; intros done b Hl HP Hf.
  - simpl in Hf. simplify_eq. by rewrite app_nil_r.
  - simpl in Hf. apply res_bind_Ok in Hf as (b' & Hb & Hf).
    apply (IH (done ++ [x]) b'); [by rewrite <- app_assoc| |done].
    eapply Hstep; [|done|done]. rewrite <- Hl. set_solver.
Qed.

(** Every iteration succeeds as soon as each one does from any state. *)
Lemma for_res_total {A B} (f : B → A → res B) l b :
  (∀ b x, x ∈ l → ∃ b', f b x = Ok b') → ∃ b', for_res f b l = Ok b'.
Proof.
  revert b. induction l as [|x l IH]; intros b H; [by eexists|].
  destruct (H b x) as [b' Hb]; [set_solver|]. simpl. rewrite Hb. simpl.
  apply IH. intros. apply H. set_solver.
Qed.

(** ** State and errors

    Effectful code threads one state and may leave early. The state is kept
    when the code leaves early: an error does not undo what was done. *)

Definition ST (S A : Type) : Type := S → res A * S.

Definition st_ret {S A} (a : A) : ST S A := λ s, (Ok a, s).
Definition st_lift {S A} (r : res A) : ST S A := λ s, (r, s).
Definition st_fail {S A} (e : err) : ST S A := λ s, (Err e, s).
Definition st_bind {S A B} (m : ST S A) (k : A → ST S B) : ST S B := λ s,
  match m s with
  | (Ok a, s') => k a s'
  | (Err e, s') => (Err e, s')
  | (Panic, s') => (Panic, s')
  | (Fatal, s') => (Fatal, s')
  end.

(** [x, err := m]: the error is a value the code goes on with. *)
Definition st_try {S A} (m : ST S A) : ST S (A + err) := λ s,
  match m s with
  | (Ok a, s') => (Ok (inl a), s')
  | (Err e, s') => (Ok (inr e), s')
  | (Panic, s') => (Panic, s')
  | (Fatal, s') => (Fatal, s')
  end.

(** [if err != nil { log.Fatalf(...) }]. *)
Definition st_fatal {S A} (m : ST S A) : ST S A := λ s,
  match m s with
  | (Err _, s') => (Fatal, s')
  | r => r
  end.

Notation "'do!' x <- m ; k" := (st_bind m (fun x => k))
  (at level 10, x pattern, m at level 100, k at level 200) : go_scope.

Fixpoint for_st {S A B} (f : B → A → ST S B) (b : B) (l : list A) : ST S B :=
  match l with
  | [] => st_ret b
  | x :: l => st_bind (f b x) (λ b', for_st f b' l)
  end.

(** A loop whose body only has effects. *)
Definition each_st {S A} (f : A → ST S unit) (l : list A) : ST S unit :=
  for_st (λ _ x, f x) tt l.

Lemma st_bind_Ok {S A B} (m : ST S A) (k : A → ST S B) s b s'' :
  st_bind m k s = (Ok b, s'') ↔ ∃ a s', m s = (Ok a, s') ∧ k a s' = (Ok b, s'').
Proof. unfold st_bind. destruct (m s) as [[] ?]; naive_solver. Qed.

(** The invariant rule for effectful loops. *)
Lemma for_st_inv {S A B} (P : list A → B → Prop) (f : B → A → ST S B) l b0 b1 s0 s1 :
  P [] b0 →
  (∀ done x b b' s s', x ∈ l → P done b → f b x s = (Ok b', s') → P (done ++ [x]) b') →
  for_st f b0 l s0 = (Ok b1, s1) → P l b1.
Proof.
  intros H0 Hstep.
  assert (∀ done rest b s, done ++ rest = l → P done b → for_st f b rest s = (Ok b1, s1) → P l b1)
    as Hgen; [|by apply (Hgen [] l b0 s0)].
  intros done rest. revert done. induction rest as [|x rest IH]; intros done b s Hl HP Hf.
  - simpl in Hf. unfold st_ret in Hf. simplify_eq. by rewrite app_nil_r.
  - simpl in Hf. apply st_bind_Ok in Hf as (b' & s' & Hb & Hf).
    apply (IH (done ++ [x]) b' s'); [by rewrite <- app_assoc| |done].
    eapply Hstep; [|done|done]. rewrite <- Hl. set_solver.
Qed.

(** ** Invariants of effectful code *)

Definition preserves {S A} (R : S → S → Prop) (m : ST S A) : Prop :=
  ∀ s, R s (m s).2.

Section preserves.
Context {S : Type} (R : S → S → Prop) `{!PreOrder R}.

Lemma preserves_ret {A} (a : A) : preserves R (st_ret a).
Proof. intros s. simpl. reflexivity. Qed.
Lemma preserves_lift {A} (r : res A) : preserves R (st_lift r).
Proof. intros s. simpl. reflexivity. Qed.
Lemma preserves_fail {A} e : preserves R (st_fail (A:=A) e).
Proof. intros s. simpl. reflexivity. Qed.
Lemma preserves_bind {A B} (m : ST S A) (k : A → ST S B) :
  preserves R m → (∀ a, preserves R (k a)) → preserves R (st_bind m k).
Proof.
  intros Hm Hk s. specialize (Hm s). unfold st_bind.
  destruct (m s) as [[a|e| |] s'] eqn:E; simpl in *; try done.
  etrans; [exact Hm|apply Hk].
Qed.
Lemma preserves_try {A} (m : ST S A) : preserves R m → preserves R (st_try m).
Proof.
  intros Hm s. specialize (Hm s). unfold st_try.
  by destruct (m s) as [[] ?].
Qed.
Lemma preserves_fatal {A} (m : ST S A) : preserves R m → preserves R (st_fatal m).
Proof.
  intros Hm s. specialize (Hm s). unfold st_fatal.
  by destruct (m s) as [[] ?].
Qed.
Lemma preserves_for {A B} (f : B → A → ST S B) l b :
  (∀ b x, x ∈ l → preserves R (f b x)) → preserves R (for_st f b l).
Proof.
  revert b. induction l as [|x l IH]; intros b H; [apply preserves_ret|].
  simpl. apply preserves_bind; [apply H; set_solver|].
  intros b'. apply IH. intros. apply H. set_solver.
Qed.
Lemma preserves_each {A} (f : A → ST S unit) l :
  (∀ x, x ∈ l → preserves R (f x)) → preserves R (each_st f l).
Proof. intros H. apply preserves_for. auto. Qed.
End preserves.

Lemma st_fatal_Ok {S A} (m : ST S A) s a s' : st_fatal m s = (Ok a, s') → m s = (Ok a, s').
Proof. unfold st_fatal. destruct (m s) as [[] ?]; naive_solver. Qed.

(** What every turn of a loop establishes holds at its end, when later turns
    keep it. *)
Lemma each_st_all {S A} (f : A → ST S unit) (R : S → S → Prop) `{!PreOrder R} (P : A → S → Prop) l s s' :
  (∀ x, x ∈ l → preserves R (f x)) → (∀ x s1 s2, f x s1 = (Ok tt, s2) → P x s2) →
  (∀ x s1 s2, R s1 s2 → P x s1 → P x s2) →
  each_st f l s = (Ok tt, s') → ∀ x, x ∈ l → P x s'.
Proof.
  intros HR HP Hkeep. unfold each_st. generalize tt at 1 as u. revert s.
  induction l as [|y l IH]; intros s u H x Hx; [set_solver|].
  simpl in H. apply st_bind_Ok in H as ([] & s1 & H1 & H).
  apply elem_of_cons in Hx as [->|Hx].
  - eapply Hkeep; [|by eapply HP].
    pose proof (preserves_each R f l (λ x Hx, HR x (list_elem_of_further x _ _ Hx)) s1) as Hr.
    unfold each_st in Hr. by rewrite H in Hr.
  - eapply IH; [|exact H|done]. intros. apply HR. set_solver.
Qed.

Create HintDb go.
Create Rewrite HintDb go.
#[export] Hint Resolve preserves_ret preserves_lift preserves_fail preserves_bind
  preserves_try preserves_fatal preserves_for preserves_each : go.
#[export] Hint Rewrite @res_bind_Ok @res_map_Ok @res_wrap_Ok @of_option_Ok @st_bind_Ok : go.

(** Opens the hypotheses that say a monadic computation succeeded. *)
Ltac inv_res :=
  repeat match goal with
  | H : res_bind _ _ = Ok _ |- _ => apply res_bind_Ok in H as (? & ? & ?)
  | H : res_map _ _ = Ok _ |- _ => apply res_map_Ok in H as (? & ? & ?)
  | H : res_wrap _ _ = Ok _ |- _ => apply res_wrap_Ok in H
  | H : of_option _ _ = Ok _ |- _ => apply of_option_Ok in H
  | H : st_bind _ _ _ = (Ok _, _) |- _ => apply st_bind_Ok in H as (? & ? & ? & ?)
  | H : Ok _ = Ok _ |- _ => injection H as H
  | H : Err _ = Ok _ |- _ => discriminate H
  | H : Panic = Ok _ |- _ => discriminate H
  | H : Fatal = Ok _ |- _ => discriminate H
  end; simplify_eq/=.

(** Splits the [if]s and [match]es of one hypothesis, closing dead branches. *)
Ltac split_in H :=
  repeat (case_match; try discriminate H; simplify_eq/=).

(** ** Sums *)

Definition sumZ {A} (f : A → Z) (l : list A) : Z := foldr (λ x acc, f x + acc) 0 l.

Lemma sumZ_nil {A} (f : A → Z) : sumZ f [] = 0.
Proof. done. Qed.
Lemma sumZ_cons {A} (f : A → Z) x l : sumZ f (x :: l) = f x + sumZ f l.
Proof. done. Qed.
Lemma sumZ_app {A} (f : A → Z) l1 l2 : sumZ f (l1 ++ l2) = sumZ f l1 + sumZ f l2.
Proof. induction l1 as [|x l1 IH]; simpl; [done|]. unfold sumZ in *. simpl. lia. Qed.
Lemma sumZ_snoc {A} (f : A → Z) l x : sumZ f (l ++ [x]) = sumZ f l + f x.
Proof. rewrite sumZ_app. unfold sumZ at 2. simpl. lia. Qed.
Lemma sumZ_const0 {A} (f : A → Z) l : (∀ x, x ∈ l → f x = 0) → sumZ f l = 0.
Proof.
  induction l as [|x l IH]; intros H; [done|]. rewrite sumZ_cons, H, IH; [done| |set_solver].
  intros. apply H. set_solver.
Qed.
Lemma sumZ_nonneg {A} (f : A → Z) l : (∀ x, x ∈ l → 0 ≤ f x) → 0 ≤ sumZ f l.
Proof.
  induction l as [|x l IH]; intros H; [done|]. rewrite sumZ_cons.
  assert (0 ≤ f x) by (apply H; set_solver).
  assert (0 ≤ sumZ f l) by (apply IH; intros; apply H; set_solver). lia.
Qed.
#[export] Instance sumZ_perm {A} (f : A → Z) : Proper ((≡ₚ) ==> eq) (sumZ f).
Proof. intros l1 l2 H. induction H; rewrite ?sumZ_cons; lia. Qed.
#[export] Hint Rewrite @sumZ_nil @sumZ_cons @sumZ_app : go.

(** ** Machine integers and time

    [uint32] and [uint64] values are integers with the wrap-around written
    out; instants and durations are nanoseconds. *)

Definition max_uint32 : Z := 2 ^ 32 - 1.
Definition max_int64 : Z := 2 ^ 63 - 1.
Definition min_int64 : Z := - 2 ^ 63.
Definition wrap32 (z : Z) : Z := z `mod` 2 ^ 32.
Definition wrap64 (z : Z) : Z := z `mod` 2 ^ 64.

Definition second : Z := 10 ^ 9.
(** [time.Unix(s, 0)] *)
Definition time_Unix (s : Z) : Z := s * second.
(** [t.Sub(u)]: saturates at the bounds of an int64 duration. *)
Definition time_Sub (t u : Z) : Z := Z.max min_int64 (Z.min max_int64 (t - u)).
(** [t.Unix()]: seconds, rounded down. *)
Definition time_to_Unix (t : Z) : Z := t `div` second.

Lemma wrap32_small z : 0 ≤ z < 2 ^ 32 → wrap32 z = z.
Proof. apply Z.mod_small. Qed.
Lemma wrap32_range z : 0 ≤ wrap32 z < 2 ^ 32.
Proof. apply Z.mod_pos_bound. lia. Qed.

(** ** Byte arrays of a fixed length *)

(** A byte is an integer; [Bytes n] is a Go [[n]byte] array. *)
Definition Bytes (n : nat) : Type := dsig (λ l : list Z, length l = n).

#[export] Instance Bytes_eq_dec n : EqDecision (Bytes n).
Proof. unfold Bytes, dsig. apply _. Defined.
#[export] Instance Bytes_countable n : Countable (Bytes n).
Proof. unfold Bytes, dsig. apply _. Defined.

(** The array holding [l], when it has the right length. *)
Definition mk_bytes (n : nat) (l : list Z) : option (Bytes n) :=
  match decide (length l = n) with
  | left H => Some (dexist l H)
  | right _ => None
  end.

Lemma mk_bytes_Some n l b : mk_bytes n l = Some b ↔ `b = l.
Proof.
  unfold mk_bytes. destruct (decide _) as [H|H]; split.
  - intros [= <-]. done.
  - intros Hb. f_equal. by apply dsig_eq.
  - done.
  - intros <-. destruct H. apply (proj2_dsig b).
Qed.

Lemma mk_bytes_None n l : mk_bytes n l = None ↔ length l ≠ n.
Proof. unfold mk_bytes. destruct (decide _); naive_solver. Qed.

(** The zero value of the array type. *)
Program Definition zero_bytes (n : nat) : Bytes n := dexist (replicate n 0) _.
Next Obligation. intros. apply length_replicate. Qed.

(** ** Lists *)

Lemma NoDup_map_finer {A B C} (f : A → B) (g : A → C) l :
  (∀ x y, x ∈ l → y ∈ l → g x = g y → f x = f y) → NoDup (map f l) → NoDup (map g l).
Proof.
  induction l as [|x l IH]; intros H Hn; simpl in *; [constructor|].
  apply NoDup_cons in Hn as [Hx Hn]. constructor.
  - intros (y & Hg & Hy)%list_elem_of_fmap. destruct Hx. apply list_elem_of_fmap. exists y.
    split; [|done]. apply H; [apply list_elem_of_here|by apply list_elem_of_further|done].
  - apply IH; [|done]. intros y z Hy Hz. apply H; by apply list_elem_of_further.
Qed.

(** The filter of the Standard Library. *)
Lemma List_filter_sublist {A} (f : A → bool) l : List.filter f l `sublist_of` l.
Proof. induction l as [|x l IH]; simpl; [done|]. destruct (f x); by constructor. Qed.

Lemma List_filter_decide {A} (P : A → Prop) `{∀ x, Decision (P x)} l :
  List.filter (λ x, bool_decide (P x)) l = filter P l.
Proof.
  induction l as [|x l IH]; [done|]. simpl. rewrite IH, filter_cons. destruct (decide (P x)) as [Hx|Hx].
  - by rewrite bool_decide_true.
  - by rewrite bool_decide_false.
Qed.

Lemma filter_keep {A} (P : A → Prop) `{∀ x, Decision (P x)} (l : list A) :
  (∀ x, x ∈ l → P x) → filter P l = l.
Proof.
  induction l as [|x l IH]; intros Hl; [done|].
  rewrite filter_cons_True by (apply Hl, list_elem_of_here).
  f_equal. apply IH. intros y Hy. by apply Hl, list_elem_of_further.
Qed.

Lemma filter_nil_iff {A} (P : A → Prop) `{∀ x, Decision (P x)} (l : list A) :
  filter P l = [] ↔ ∀ x, x ∈ l → ¬ P x.
Proof.
  split.
  - intros Hf x Hx HP. assert (x ∈ filter P l) by (by apply list_elem_of_filter).
    rewrite Hf in *. set_solver.
  - intros Hn. destruct (filter P l) as [|y ys] eqn:E; [done|].
    assert (y ∈ filter P l) as Hy by (rewrite E; set_solver).
    apply list_elem_of_filter in Hy as [??]. naive_solver.
Qed.

(** The first element a query returns, in the order it returned them. *)
Lemma head_filter {A} (P : A → Prop) `{∀ x, Decision (P x)} (l : list A) x :
  head (filter P l) = Some x → P x ∧ x ∈ l.
Proof.
  intros Hh. apply (list_elem_of_filter P l x). destruct (filter P l); [done|].
  simpl in Hh. simplify_eq. set_solver.
Qed.
