(* ===== verification/TonUtils.v ===== *)
(** * The libraries the processor calls

    The processor reads chain data through [xssnick/tonutils-go], identifiers
    through [gofrs/uuid] and stores through [jackc/pgx] over PostgreSQL. None
    of that code is in the repository, so it is a parameter here: three
    classes of operations, with the documented behaviour some theorems rely on
    stated apart as classes of laws, and one concrete instance of everything
    that the witnesses evaluate on. The records are the views of library
    values the program reads: one field per accessor it calls. *)

From S2P Require Import Prelude.

Local Open Scope string_scope.
Local Open Scope list_scope.
Local Open Scope Z_scope.

(** ** Addresses ([tonutils-go/address]) *)

Inductive AddrType : Set := NoneAddress | ExtAddress | StdAddress | VarAddress.

#[export] Instance AddrType_eq_dec : EqDecision AddrType.
Proof. solve_decision. Defined.

Class AddrLib : Type := {
  tonaddr : Type;                              (** [address.Address] *)
  addr_Type : tonaddr → AddrType;
  addr_Data : tonaddr → list Z;
  addr_Workchain : tonaddr → Z;
  addr_IsTestnetOnly : tonaddr → bool;
  addr_IsBounceable : tonaddr → bool;
  addr_SetTestnetOnly : bool → tonaddr → tonaddr;
  addr_SetBounce : bool → tonaddr → tonaddr;
  addr_String : tonaddr → string;
  NewAddress : Z → Z → list Z → tonaddr;       (** flags, workchain byte, data *)
  ParseAddr : string → option tonaddr;
}.

(** [NewAddress] builds a std address that carries the data it was given. *)
Class AddrLaws `{AL : AddrLib} : Prop := {
  NewAddress_Type f w d : addr_Type (NewAddress f w d) = StdAddress;
  NewAddress_Data f w d : addr_Data (NewAddress f w d) = d;
}.

(** ** UUIDs ([gofrs/uuid]) *)

Definition UUID : Type := Bytes 16.

Class UuidLib : Type := {
  uuid_FromString : string → option UUID;
  uuid_FromBytes : list Z → option UUID;
  uuid_String : UUID → string;
}.

Class UuidLaws `{UL : UuidLib} : Prop := {
  uuid_FromString_String u : uuid_FromString (uuid_String u) = Some u;
}.

(** ** Messages and transactions ([tonutils-go/tlb], [tonutils-go/ton]) *)

Record InternalMessage (A C : Type) := {
  im_SrcAddr : option A;
  im_DstAddr : option A;
  im_Amount : Z;              (** [Amount.NanoTON()] *)
  im_CreatedLT : Z;
  im_CreatedAt : Z;
  im_Payload : option C;      (** [Payload()], nil when there is no body *)
  im_Comment : string;        (** [Comment()] *)
}.
Arguments im_SrcAddr {A C}. Arguments im_DstAddr {A C}. Arguments im_Amount {A C}.
Arguments im_CreatedLT {A C}. Arguments im_CreatedAt {A C}.
Arguments im_Payload {A C}. Arguments im_Comment {A C}.

Record ExternalMessage (A C : Type) := {
  em_DstAddr : option A;
  em_Payload : option C;
}.
Arguments em_DstAddr {A C}. Arguments em_Payload {A C}.

(** [MsgType] with the value [AsInternal] or [AsExternalIn] returns. *)
Inductive Message (A C : Type) :=
| MsgTypeInternal (m : InternalMessage A C)
| MsgTypeExternalIn (m : ExternalMessage A C)
| MsgTypeExternalOut.
Arguments MsgTypeInternal {A C}. Arguments MsgTypeExternalIn {A C}.
Arguments MsgTypeExternalOut {A C}.

Record MessagesList (A C : Type) := {
  ml_ToSlice : res (list (Message A C));   (** what [ToSlice()] returns *)
  ml_All : list C;                         (** [List.All()] *)
}.
Arguments ml_ToSlice {A C}. Arguments ml_All {A C}.

Inductive TxDescription : Set :=
| TransactionDescriptionOrdinary
| TransactionDescriptionTickTock
| TransactionDescriptionOther.

Record Transaction (A C : Type) := {
  tx_Now : Z;
  tx_LT : Z;
  tx_In : option (Message A C);
  tx_Out : option (MessagesList A C);
  tx_Description : TxDescription;
}.
Arguments tx_Now {A C}. Arguments tx_LT {A C}. Arguments tx_In {A C}.
Arguments tx_Out {A C}. Arguments tx_Description {A C}.

Record BlockIDExt : Set := {
  blk_Workchain : Z;
  blk_Shard : Z;             (** int64 *)
  blk_SeqNo : Z;             (** uint32 *)
  blk_RootHash : list Z;
  blk_FileHash : list Z;
}.

#[export] Instance BlockIDExt_eq_dec : EqDecision BlockIDExt.
Proof. solve_decision. Defined.

Record TransactionShortInfo : Set := {
  ti_Account : list Z;
  ti_LT : Z;
  ti_Hash : list Z;
}.

(** ** The structures the program decodes from cells

    The anonymous structs of [core/block_scanner.go] whose [tlb] tags drive
    [tlb.LoadFromCell]; the fields the program does not read are kept. *)

Record notification_tlb (A C : Type) := {
  nt_QueryID : Z;
  nt_Amount : Z;
  nt_Sender : option A;
  nt_ForwardPayload : option C;
}.
Arguments nt_QueryID {A C}. Arguments nt_Amount {A C}.
Arguments nt_Sender {A C}. Arguments nt_ForwardPayload {A C}.

Record transfer_tlb (A C : Type) := {
  tr_QueryID : Z;
  tr_Amount : Z;
  tr_Destination : option A;
  tr_ResponseDestination : option A;
  tr_CustomPayload : option C;
  tr_ForwardTonAmount : Z;
  tr_ForwardPayload : option C;
}.
Arguments tr_QueryID {A C}. Arguments tr_Amount {A C}. Arguments tr_Destination {A C}.
Arguments tr_ResponseDestination {A C}. Arguments tr_CustomPayload {A C}.
Arguments tr_ForwardTonAmount {A C}. Arguments tr_ForwardPayload {A C}.

Record highload_tlb (C : Type) := {
  hl_Sign : list Z;
  hl_SubwalletID : Z;
  hl_BoundedID : Z;
  hl_Messages : list C;       (** the values of [Messages.All()] *)
}.
Arguments hl_Sign {C}. Arguments hl_SubwalletID {C}.
Arguments hl_BoundedID {C}. Arguments hl_Messages {C}.

(** ** What the program writes

    A call of the cell builder ([MustStoreUInt], ...); [tlb.StateInit]; the
    [tlb.InternalMessage]s the program builds ([IHRDisabled] is always set) and
    [wallet.Message]. *)

Inductive store (A C : Type) :=
| StoreUInt (v bits : Z)
| StoreBigCoins (v : Z)
| StoreAddr (a : A)
| StoreBoolBit (b : bool)
| StoreRef (c : C)
| StoreStringSnake (s : string).
Arguments StoreUInt {A C}. Arguments StoreBigCoins {A C}. Arguments StoreAddr {A C}.
Arguments StoreBoolBit {A C}. Arguments StoreRef {A C}. Arguments StoreStringSnake {A C}.

Record StateInit (C : Type) := { si_Code : C; si_Data : C }.
Arguments si_Code {C}. Arguments si_Data {C}. Arguments Build_StateInit {C}.

Record OutMessage (A C : Type) := {
  om_Bounce : bool;
  om_DstAddr : A;
  om_Amount : Z;
  om_Body : option C;
  om_StateInit : option (StateInit C);
}.
Arguments om_Bounce {A C}. Arguments om_DstAddr {A C}. Arguments om_Amount {A C}.
Arguments om_Body {A C}. Arguments om_StateInit {A C}. Arguments Build_OutMessage {A C}.

Record WalletMessage (A C : Type) := { wm_Mode : Z; wm_Message : OutMessage A C }.
Arguments wm_Mode {A C}. Arguments wm_Message {A C}. Arguments Build_WalletMessage {A C}.

(** ** Cells ([tonutils-go/tvm/cell], [tlb.LoadFromCell]) *)

Class TvmLib `{AL : AddrLib} : Type := {
  Cell : Type;
  Slice : Type;
  BeginParse : Cell → Slice;
  LoadRef : Slice → option Slice;
  cell_Hash : Cell → list Z;
  LoadUInt : Z → Slice → option (Z * Slice);
  LoadStringSnake : Slice → option string;
  LoadFromCell_message : Slice → option (InternalMessage tonaddr Cell);
  LoadFromCell_notification : Slice → option (notification_tlb tonaddr Cell);
  LoadFromCell_transfer : Slice → option (transfer_tlb tonaddr Cell);
  LoadFromCell_excesses : Slice → option Z;
  LoadFromCell_highload : Slice → option (highload_tlb Cell);
  (** Methods called on nil pointers: [ToSlice] on the list of a transaction
      without out messages, [Type] and [String] on an absent address,
      [BeginParse] on an absent body. *)
  ToSlice_nil : res (list (Message tonaddr Cell));
  Type_nil : res AddrType;
  String_nil : res string;
  BeginParse_nil : res Slice;
  (** [BeginCell()], the stores, [EndCell()]: a [Must...] that does not fit
      panics, [StoreStringSnake] returns its error. *)
  EndCell : list (store tonaddr Cell) → res Cell;
  ToCell_message : OutMessage tonaddr Cell → option Cell;
  ToCell_stateInit : StateInit Cell → option Cell;
  FromBOC : list Z → option Cell;
}.

(** A comment cell, and a jetton transfer, as their schemas lay them out. *)
Definition comment_stores {A C} (comment : string) : list (store A C) :=
  [StoreUInt 0 32; StoreStringSnake comment].

Definition transfer_stores {A C} (queryId amount forwardAmount : Z) (destination responseDest : A)
    (comment : option C) : list (store A C) :=
  [StoreUInt 0x0f8a7ea5 32; StoreUInt queryId 64; StoreBigCoins amount; StoreAddr destination;
   StoreAddr responseDest; StoreBoolBit false; StoreBigCoins forwardAmount] ++
  match comment with
  | Some c => [StoreBoolBit true; StoreRef c]
  | None => [StoreBoolBit false]
  end.

(** [LoadFromCell] reads back what was stored. *)
Class TvmLaws `{TL : TvmLib} : Prop := {
  load_comment s c :
    EndCell (comment_stores s) = Ok c →
    ∃ sl, LoadUInt 32 (BeginParse c) = Some (0, sl) ∧ LoadStringSnake sl = Some s;
  load_transfer q a f d r oc c :
    0 ≤ a → EndCell (transfer_stores q a f d r oc) = Ok c →
    ∃ t, LoadFromCell_transfer (BeginParse c) = Some t ∧ tr_Amount t = a ∧
         tr_Destination t = Some d ∧
         match oc with
         | Some p => tr_ForwardPayload t = Some p
         | None => ∀ p, tr_ForwardPayload t = Some p → LoadUInt 32 (BeginParse p) = None
         end;
}.

(** A message as its cell is read back, and as the chain delivers it. *)
Definition carries {A C} (m : OutMessage A C) (im : InternalMessage A C) : Prop :=
  im_DstAddr im = Some (om_DstAddr m) ∧ im_Payload im = om_Body m.

(** The structures are told apart: neither a comment nor a cell without bits
    is a jetton transfer; a message stored by reference is read back. *)
Class MessageLaws `{TL : TvmLib} : Prop := {
  comment_no_transfer s c :
    EndCell (comment_stores s) = Ok c → LoadFromCell_transfer (BeginParse c) = None;
  ref_no_transfer c b :
    EndCell [StoreRef c] = Ok b → LoadFromCell_transfer (BeginParse b) = None;
  load_ref_message m c b :
    ToCell_message m = Some c → EndCell [StoreRef c] = Ok b →
    ∃ sl im, LoadRef (BeginParse b) = Some sl ∧ LoadFromCell_message sl = Some im ∧ carries m im;
}.

(** ** The Go runtime

    The order in which [range] visits a map, which the language leaves
    unspecified, and [sort.Slice] by a key, which is not stable. *)

Class GoRuntime : Type := {
  map_order : ∀ {A : Type}, list A → list A;
  map_order_perm : ∀ {A : Type} (l : list A), map_order l ≡ₚ l;
  sort_Slice : ∀ {A : Type}, (A → Z) → list A → list A;
  sort_Slice_perm : ∀ {A : Type} (key : A → Z) l, sort_Slice key l ≡ₚ l;
  sort_Slice_sorted : ∀ {A : Type} (key : A → Z) l,
    StronglySorted (λ a b, key a ≤ key b) (sort_Slice key l);
}.

Lemma elem_of_map_order `{GR : GoRuntime} {A} (l : list A) x : x ∈ map_order l ↔ x ∈ l.
Proof. by rewrite map_order_perm. Qed.

(** ** PostgreSQL through pgx

    [plan] is the order in which a query without [ORDER BY] returns its rows,
    which PostgreSQL leaves unspecified; [text_of_int64] is how the driver
    encodes a Go [int64] for a [text] parameter, if it does; [text_ok] is
    whether the server accepts a byte string as [text] in its encoding;
    [int8_of_string] is how the driver encodes a Go string for a [bigint]. *)

Class PgLib : Type := {
  plan : ∀ {A : Type}, list A → list A;
  plan_perm : ∀ {A : Type} (l : list A), plan l ≡ₚ l;
  text_of_int64 : Z → option string;
  text_ok : string → bool;
  int8_of_string : string → option Z;
}.

Lemma elem_of_plan `{PG : PgLib} {A} (l : list A) x : x ∈ plan l ↔ x ∈ l.
Proof. by rewrite plan_perm. Qed.

Lemma plan_nil `{PG : PgLib} {A} : plan ([] : list A) = [].
Proof. apply Permutation_nil. symmetry. apply plan_perm. Qed.

(** ** Wallets and accounts ([tonutils-go/ton/wallet], [tonutils-go/ton]) *)

Inductive AccountStatus : Set :=
| AccountStatusActive | AccountStatusUninit | AccountStatusFrozen | AccountStatusNonExist.

#[export] Instance AccountStatus_eq_dec : EqDecision AccountStatus.
Proof. solve_decision. Defined.

(** An entry of the tuple a get method returns. *)
Inductive StackValue : Set := StackInt (z : Z) | StackOther.

(** The specs a wallet's [GetSpec()] may have, as far as the program asserts
    their types. *)
Inductive SpecKind : Set := SpecHighloadV2R2 | SpecV4R2 | SpecOther.

#[export] Instance SpecKind_eq_dec : EqDecision SpecKind.
Proof. solve_decision. Defined.

Class WalletLib : Type := {
  DefaultSubwallet : Z;     (** [wallet.DefaultSubwallet], a uint32 *)
}.

Class TonWalletLib `{AL : AddrLib} : Type := {
  TonWallet : Type;         (** [wallet.Wallet] *)
  Version : Type;
  HighloadV2R2 : Version;
  w_Address : TonWallet → tonaddr;
  w_Spec : TonWallet → SpecKind;
  GetSubwallet : TonWallet → Z → option TonWallet;
  FromSeed : list string → Version → option TonWallet;
}.

Definition key_le {A} (key : A → Z) (a b : A) : Prop := key a ≤ key b.
#[export] Instance key_le_dec {A} (key : A → Z) a b : Decision (key_le key a b).
Proof. unfold key_le. apply _. Defined.

Lemma sort_by_sorted {A} (key : A → Z) l :
  StronglySorted (λ a b, key a ≤ key b) (merge_sort (key_le key) l).
Proof.
  assert (Transitive (key_le key)) by (intros a b c; unfold key_le; lia).
  assert (Total (key_le key)) by (intros a b; unfold key_le; lia).
  apply (StronglySorted_merge_sort (key_le key)).
Qed.

(** ** A concrete instance

    A toy library on which every definition evaluates: addresses are records,
    cells are trees whose nodes say which structure they encode. *)

Module Toy.

Record addr : Set := {
  a_type : AddrType; a_wc : Z; a_data : list Z; a_testnet : bool; a_bounce : bool;
}.

(** Printing writes the workchain and the bytes as characters. *)
Definition str_of_bytes (l : list Z) : string :=
  foldr (λ b s, String (Ascii.ascii_of_nat (Z.to_nat b)) s) "" l.
Fixpoint bytes_of_str (s : string) : list Z :=
  match s with
  | "" => []
  | String c s => Z.of_nat (Ascii.nat_of_ascii c) :: bytes_of_str s
  end.

#[export] Instance addr_lib : AddrLib := {|
  tonaddr := addr;
  addr_Type := a_type;
  addr_Data := a_data;
  addr_Workchain := a_wc;
  addr_IsTestnetOnly := a_testnet;
  addr_IsBounceable := a_bounce;
  addr_SetTestnetOnly b a := {| a_type := a_type a; a_wc := a_wc a; a_data := a_data a;
                                a_testnet := b; a_bounce := a_bounce a |};
  addr_SetBounce b a := {| a_type := a_type a; a_wc := a_wc a; a_data := a_data a;
                           a_testnet := a_testnet a; a_bounce := b |};
  addr_String a := str_of_bytes (a_data a);
  NewAddress f w d := {| a_type := StdAddress; a_wc := w; a_data := d;
                         a_testnet := false; a_bounce := false |};
  ParseAddr s := if decide (String.length s = 32%nat) then
      Some {| a_type := StdAddress; a_wc := 0; a_data := bytes_of_str s;
              a_testnet := false; a_bounce := false |} else None;
|}.

#[export] Instance addr_laws : AddrLaws.
Proof. split; done. Qed.

(** An identifier is printed as the digits of its encoding. *)
Fixpoint str_of_pos (p : positive) : string :=
  match p with
  | xH => ""
  | xO p => String (Ascii.ascii_of_nat 48) (str_of_pos p)
  | xI p => String (Ascii.ascii_of_nat 49) (str_of_pos p)
  end.
Fixpoint pos_of_str (s : string) : positive :=
  match s with
  | "" => xH
  | String c s => if decide (c = Ascii.ascii_of_nat 49) then xI (pos_of_str s) else xO (pos_of_str s)
  end.

Lemma pos_of_str_of_pos p : pos_of_str (str_of_pos p) = p.
Proof. induction p as [p IH|p IH|]; simpl; by rewrite ?IH. Qed.

#[export] Instance uuid_lib : UuidLib := {|
  uuid_FromString s := l ← decode (pos_of_str s); mk_bytes 16 l;
  uuid_FromBytes l := mk_bytes 16 l;
  uuid_String u := str_of_pos (encode (`u));
|}.

#[export] Instance uuid_laws : UuidLaws.
Proof.
  split. intros u. cbn [uuid_String uuid_FromString uuid_lib]. rewrite pos_of_str_of_pos, decode_encode.
  by apply mk_bytes_Some.
Qed.

(** A cell is the list of stores that built it, a slice what is left. *)
#[local] Set Warnings "-register-all".
Inductive cell : Type := mkCell (l : list (store addr cell)).
Definition slice : Type := list (store addr cell).
Definition stores (c : cell) : slice := match c with mkCell l => l end.

(** [either . ^] *)
Definition either_payload (sl : slice) : option cell :=
  match sl with
  | StoreBoolBit true :: StoreRef c :: _ => Some c
  | StoreBoolBit false :: rest => Some (mkCell rest)
  | _ => None
  end.

Definition note_of (sl : slice) : option (notification_tlb addr cell) :=
  match sl with
  | StoreUInt m 32 :: StoreUInt q 64 :: StoreBigCoins a :: StoreAddr s :: rest =>
      if decide (m = 0x7362d09c)%Z then
        p ← either_payload rest;
        Some {| nt_QueryID := q; nt_Amount := a; nt_Sender := Some s; nt_ForwardPayload := Some p |}
      else None
  | _ => None
  end.
Definition transfer_of (sl : slice) : option (transfer_tlb addr cell) :=
  match sl with
  | StoreUInt m 32 :: StoreUInt q 64 :: StoreBigCoins a :: StoreAddr d :: StoreAddr r ::
    StoreBoolBit false :: StoreBigCoins f :: rest =>
      if decide (m = 0x0f8a7ea5)%Z then
        p ← either_payload rest;
        Some {| tr_QueryID := q; tr_Amount := a; tr_Destination := Some d;
                tr_ResponseDestination := Some r; tr_CustomPayload := None;
                tr_ForwardTonAmount := f; tr_ForwardPayload := Some p |}
      else None
  | _ => None
  end.
Definition excesses_of (sl : slice) : option Z :=
  match sl with
  | [StoreUInt m 32; StoreUInt q 64] => if decide (m = 0xd53276db)%Z then Some q else None
  | _ => None
  end.
Definition msg_cell (m : OutMessage addr cell) : cell :=
  mkCell ([StoreBoolBit (om_Bounce m); StoreAddr (om_DstAddr m); StoreBigCoins (om_Amount m)]
          ++ match om_Body m with Some c => [StoreRef c] | None => [] end).
Definition msg_of (sl : slice) : option (InternalMessage addr cell) :=
  match sl with
  | StoreBoolBit _ :: StoreAddr d :: StoreBigCoins a :: body =>
      Some {| im_SrcAddr := None; im_DstAddr := Some d; im_Amount := a;
              im_CreatedLT := 0; im_CreatedAt := 0;
              im_Payload := match body with StoreRef c :: _ => Some c | _ => None end;
              im_Comment := "" |}
  | _ => None
  end.
Definition refs_of (sl : slice) : list cell :=
  omap (λ s, match s with StoreRef c => Some c | _ => None end) sl.
Definition highload_of (sl : slice) : option (highload_tlb cell) :=
  match sl with
  | StoreUInt sub 32 :: StoreUInt b 64 :: rest =>
      Some {| hl_Sign := []; hl_SubwalletID := sub; hl_BoundedID := b;
              hl_Messages := refs_of rest |}
  | _ => None
  end.
(** The hash repeats the first number stored. *)
Fixpoint hash_of (sl : slice) : list Z :=
  match sl with
  | [] => replicate 32 0%Z
  | StoreUInt v _ :: _ => replicate 32 (v `mod` 256)%Z
  | _ :: sl => hash_of sl
  end.

#[export] Instance tvm_lib : TvmLib := {|
  Cell := cell;
  Slice := slice;
  BeginParse := stores;
  LoadRef sl := match sl with StoreRef c :: _ => Some (stores c) | _ => None end;
  cell_Hash c := hash_of (stores c);
  LoadUInt n sl := match sl with
    | StoreUInt v m :: rest => if decide (n = m) then Some (v, rest) else None
    | _ => None
    end;
  LoadStringSnake sl := match sl with [StoreStringSnake s] => Some s | _ => None end;
  LoadFromCell_message := msg_of;
  LoadFromCell_notification := note_of;
  LoadFromCell_transfer := transfer_of;
  LoadFromCell_excesses := excesses_of;
  LoadFromCell_highload := highload_of;
  ToSlice_nil := Ok [];
  Type_nil := Ok NoneAddress;
  String_nil := Panic;
  BeginParse_nil := Panic;
  EndCell l := Ok (mkCell l);
  ToCell_message m := Some (msg_cell m);
  ToCell_stateInit si := Some (mkCell (stores (si_Data si)));
  FromBOC _ := Some (mkCell []);
|}.

#[export] Instance tvm_laws : TvmLaws.
Proof.
  split.
  - intros s c [= <-]. by exists [StoreStringSnake s].
  - intros q a f d r [p|] c _ [= <-]; simpl; eexists; split_and!; try done.
    by intros p [= <-].
Qed.

#[export] Instance message_laws : MessageLaws.
Proof.
  split.
  - by intros s c [= <-].
  - by intros c b [= <-].
  - intros m c b [= <-] [= <-]. eexists _, _. split_and!; [done..|].
    split; [done|]. by destruct m as [? ? ? [c|] ?].
Qed.

#[export] Instance go_runtime : GoRuntime := {|
  map_order A l := l;
  map_order_perm A l := Permutation_refl l;
  sort_Slice A key l := merge_sort (key_le key) l;
  sort_Slice_perm A key l := merge_sort_Permutation _ l;
  sort_Slice_sorted A key l := sort_by_sorted key l;
|}.

#[export] Instance pg_lib : PgLib := {|
  plan A l := l;
  plan_perm A l := Permutation_refl l;
  text_of_int64 _ := None;
  text_ok s := forallb (λ b, (0 <? b)%Z && (b <? 128)%Z) (bytes_of_str s);
  int8_of_string _ := None;
|}.

#[export] Instance wallet_lib : WalletLib := {| DefaultSubwallet := 698983191 |}.

(** A wallet is the number its address repeats. *)
#[export] Instance ton_wallet_lib : TonWalletLib := {|
  TonWallet := Z;
  Version := Z;
  HighloadV2R2 := 2%Z;
  w_Address w := {| a_type := StdAddress; a_wc := 0; a_data := replicate 32 (w `mod` 256)%Z;
                    a_testnet := false; a_bounce := false |};
  w_Spec w := if decide (w = 7)%Z then SpecHighloadV2R2 else SpecV4R2;
  GetSubwallet w id := Some id;
  FromSeed ws v := if decide (ws = [""]) then None else
                   Some (if decide (v = 2)%Z then 7%Z else v);
|}.

(** An address, and an identifier, made of one repeated byte. *)
Definition addr32 (b : Z) : Bytes 32 := default (zero_bytes 32) (mk_bytes 32 (replicate 32 b)).
Definition uuid16 (b : Z) : UUID := default (zero_bytes 16) (mk_bytes 16 (replicate 16 b)).
Definition std (b : Z) : addr :=
  {| a_type := StdAddress; a_wc := 0; a_data := replicate 32 b;
     a_testnet := false; a_bounce := false |}.

End Toy.
