(* ===== verification/Config.v ===== *)
(** * [config/config.go]: constants and the configuration value

    The package-level durations and amounts, the [Config] variable as a
    record, and the checks of [GetConfig]. Environment parsing ([env.Parse]),
    [decimal.NewFromString] and [address.ParseAddr] are library code: they are
    parameters of the parsers. A [log.Fatalf] is the outcome [Fatal]. *)

From S2P Require Import Prelude TonUtils.
From Stdlib Require Import Ascii.

Local Open Scope string_scope.
Local Open Scope list_scope.
Local Open Scope Z_scope.

(** nanoTONs *)
Definition JettonTransferTonAmount : Z := 100000000.
Definition JettonForwardAmount : Z := 20000000.

(** nanoseconds *)
Definition ExternalMessageLifetime : Z := 50 * second.
Definition ExternalWithdrawalPeriod : Z := 80 * second.
Definition InternalWithdrawalPeriod : Z := 30 * second.
Definition ExpirationProcessorPeriod : Z := 5 * second.
Definition AllowableBlockchainLagging : Z := 15 * second.
Definition AllowableServiceToNodeTimeDiff : Z := 2 * second.

Section config.
Context `{AL : AddrLib}.

Record Jetton := {
  j_Master : tonaddr;
  j_WithdrawalCutoff : Z;
  j_HotWalletMaxCutoff : Z;
}.

Record Cutoffs := {
  c_HotWalletMin : Z;
  c_HotWalletMax : Z;
  c_Withdrawal : Z;
}.

Record Config := {
  cfg_Seed : string;
  cfg_APIToken : string;
  cfg_Testnet : bool;
  cfg_IsDepositSideCalculation : bool;
  cfg_Jettons : gmap string Jetton;
  cfg_Ton : Cutoffs;
  cfg_ColdWallet : option tonaddr;
}.

(** [strings.Split(s, sep)] for a one-character separator: always at least
    one field, a separator at either end giving an empty field. *)
Fixpoint Split (sep : Ascii.ascii) (s : string) : list string :=
  match s with
  | "" => [""]
  | String c s' =>
      if decide (c = sep) then "" :: Split sep s'
      else match Split sep s' with
           | f :: fs => String c f :: fs
           | [] => [String c ""]
           end
  end.

(** [decimal.NewFromString] followed by [BigInt()] where the cutoff is read,
    and [Cmp] where two cutoffs are compared. *)
Class DecimalLib : Type := {
  decimal : Type;
  decimal_NewFromString : string → option decimal;
  decimal_BigInt : decimal → Z;
  decimal_Cmp : decimal → decimal → comparison;
}.

Context `{DL : DecimalLib}.

Definition parse_decimal (s : string) : res decimal :=
  match decimal_NewFromString s with Some d => Ok d | None => Fatal end.

(** One entry of the [JETTONS] variable. *)
Definition parseJetton (acc : gmap string Jetton) (j : string) : res (gmap string Jetton) :=
  match Split ":"%char j with
  | [cur; a; mx; wd] =>
      match ParseAddr a with
      | None => Fatal
      | Some addr =>
          let! maxCutoff := parse_decimal mx in
          let! withdrawalCutoff := parse_decimal wd in
          Ok (<[cur := {| j_Master := addr;
                          j_WithdrawalCutoff := decimal_BigInt withdrawalCutoff;
                          j_HotWalletMaxCutoff := decimal_BigInt maxCutoff |}]> acc)
      end
  | _ => Fatal
  end.

Definition parseJettonString (s : string) : res (gmap string Jetton) :=
  if decide (s = "") then Ok ∅ else for_res parseJetton ∅ (Split ","%char s).

Definition parseTonString (s : string) : res Cutoffs :=
  match Split ":"%char s with
  | [mn; mx; wd] =>
      let! hotWalletMin := parse_decimal mn in
      let! hotWalletMax := parse_decimal mx in
      let! withdrawal := parse_decimal wd in
      match decimal_Cmp hotWalletMin hotWalletMax with
      | Gt => Fatal
      | _ => Ok {| c_HotWalletMin := decimal_BigInt hotWalletMin;
                   c_HotWalletMax := decimal_BigInt hotWalletMax;
                   c_Withdrawal := decimal_BigInt withdrawal |}
      end
  | _ => Fatal
  end.

(** The cold wallet part of [GetConfig]. *)
Definition parseColdWallet (testnet : bool) (s : string) : res (option tonaddr) :=
  if decide (s = "") then Ok None else
  match ParseAddr s with
  | None => Fatal
  | Some coldAddr =>
      if decide (addr_Type coldAddr ≠ StdAddress) then Fatal
      else if addr_IsTestnetOnly coldAddr && negb testnet then Fatal
      else Ok (Some coldAddr)
  end.

(** The variables [env.Parse] fills, but the wallet version. *)
Record EnvConfig := {
  env_Seed : string;
  env_APIToken : string;
  env_Testnet : bool;
  env_ColdWalletString : string;
  env_JettonString : string;
  env_TonString : string;
  env_IsDepositSideCalculation : bool;
  env_QueueURI : string;
  env_QueueName : string;
  env_QueueEnabled : bool;
  env_WebhookEndpoint : string;
  env_WebhookToken : string;
}.

(** [None]: [env.Parse] failed. *)
Definition GetConfig (env : option EnvConfig) : res Config :=
  match env with
  | None => Fatal
  | Some e =>
      let! jettons := parseJettonString (env_JettonString e) in
      let! ton := parseTonString (env_TonString e) in
      let! coldWallet := parseColdWallet (env_Testnet e) (env_ColdWalletString e) in
      Ok {| cfg_Seed := env_Seed e; cfg_APIToken := env_APIToken e; cfg_Testnet := env_Testnet e;
            cfg_IsDepositSideCalculation := env_IsDepositSideCalculation e;
            cfg_Jettons := jettons; cfg_Ton := ton; cfg_ColdWallet := coldWallet |}
  end.
End config.

(** ** Facts about [Split] *)

Fixpoint Join (sep : Ascii.ascii) (fs : list string) : string :=
  match fs with
  | [] => ""
  | [f] => f
  | f :: fs => f +:+ String sep (Join sep fs)
  end.

Fixpoint occurs (c : Ascii.ascii) (s : string) : bool :=
  match s with
  | "" => false
  | String d s => bool_decide (d = c) || occurs c s
  end.

Lemma Split_not_nil sep s : Split sep s ≠ [].
Proof. destruct s; simpl; [done|]. case_decide; [done|]. by destruct (Split _ _). Qed.

Lemma Join_cons sep f fs : fs ≠ [] → Join sep (f :: fs) = f +:+ String sep (Join sep fs).
Proof. by destruct fs. Qed.

Lemma Join_Split sep s : Join sep (Split sep s) = s.
Proof.
  induction s as [|c s IH]; [done|]. simpl. case_decide as Hc.
  - subst. rewrite Join_cons by apply Split_not_nil. by rewrite IH.
  - pose proof (Split_not_nil sep s) as Hn.
    destruct (Split sep s) as [|f fs] eqn:E; [done|].
    rewrite <- IH. by destruct fs.
Qed.

Lemma Split_no_sep sep s : Forall (λ f, occurs sep f = false) (Split sep s).
Proof.
  induction s as [|c s IH]; simpl; [by repeat constructor|].
  case_decide as Hc; [by constructor|].
  pose proof (Split_not_nil sep s) as Hn.
  destruct (Split sep s) as [|f fs]; simpl; [done|].
  inversion IH; subst. constructor; [|done]. simpl. by rewrite bool_decide_false.
Qed.

(** Splitting is the inverse of joining fields that do not hold the separator. *)
Lemma Split_Join sep fs :
  fs ≠ [] → Forall (λ f, occurs sep f = false) fs → Split sep (Join sep fs) = fs.
Proof.
  assert (∀ f, occurs sep f = false → Split sep f = [f]) as Hone.
  { induction f as [|c f IH]; simpl; [done|]. intros Ho.
    apply orb_false_iff in Ho as [Hc Ho]. apply bool_decide_eq_false in Hc.
    rewrite decide_False by done. by rewrite IH. }
  assert (∀ f r, occurs sep f = false → Split sep (f +:+ String sep r) = f :: Split sep r) as Happ.
  { induction f as [|c f IH]; intros r Ho; simpl; [by rewrite decide_True|].
    simpl in Ho. apply orb_false_iff in Ho as [Hc Ho]. apply bool_decide_eq_false in Hc.
    rewrite decide_False by done. by rewrite IH. }
  intros Hn Hf. induction Hf as [|f fs Ho Hf IH]; [done|].
  destruct fs as [|g fs]; [by apply Hone|].
  rewrite Join_cons by done. rewrite Happ by done. by rewrite IH.
Qed.

(** ** Round trips

    The settings as an operator writes them: fields joined by colons, jettons
    joined by commas. *)

Section roundtrip.
Context `{AL : AddrLib} `{DL : DecimalLib}.

(** A jetton entry, with what the libraries read in its last three fields. *)
Record jetton_entry := {
  je_currency : string; je_address : string; je_max : string; je_withdrawal : string;
}.

Definition colon : Ascii.ascii := ":"%char.
Definition comma : Ascii.ascii := ","%char.

Definition jetton_fields (j : jetton_entry) : list string :=
  [je_currency j; je_address j; je_max j; je_withdrawal j].
Definition show_jetton (j : jetton_entry) : string := Join colon (jetton_fields j).
Definition show_jettons (js : list jetton_entry) : string := Join comma (map show_jetton js).

(** The entry stands for the jetton [v]. *)
Definition reads_as (j : jetton_entry) (v : Jetton) : Prop :=
  ParseAddr (je_address j) = Some (j_Master v) ∧
  decimal_BigInt <$> decimal_NewFromString (je_max j) = Some (j_HotWalletMaxCutoff v) ∧
  decimal_BigInt <$> decimal_NewFromString (je_withdrawal j) = Some (j_WithdrawalCutoff v).

Definition plain (j : jetton_entry) : Prop :=
  Forall (λ f, occurs colon f = false ∧ occurs comma f = false) (jetton_fields j).

Lemma occurs_app c s1 s2 : occurs c (s1 +:+ s2) = occurs c s1 || occurs c s2.
Proof. induction s1 as [|d s1 IH]; simpl; [done|]. rewrite IH. by destruct (bool_decide _). Qed.

Lemma occurs_Join c sep fs :
  c ≠ sep → Forall (λ f, occurs c f = false) fs → occurs c (Join sep fs) = false.
Proof.
  intros Hc Hf. induction Hf as [|f fs Ho Hf IH]; [done|]. destruct fs as [|g fs]; [done|].
  rewrite Join_cons by done. rewrite occurs_app, Ho. cbn [orb occurs].
  by rewrite bool_decide_false by congruence.
Qed.

Lemma parseJetton_show acc j v :
  plain j → reads_as j v → parseJetton acc (show_jetton j) = Ok (<[je_currency j := v]> acc).
Proof.
  intros Hp (Ha & Hm & Hw). unfold parseJetton, show_jetton. fold colon.
  rewrite Split_Join; [|done|].
  2: { eapply Forall_impl; [exact Hp|]. by intros f []. }
  simpl. rewrite Ha. unfold parse_decimal.
  destruct (decimal_NewFromString (je_max j)) as [m|]; [|done].
  destruct (decimal_NewFromString (je_withdrawal j)) as [x|]; [|done].
  destruct v. simpl in *. congruence.
Qed.

Lemma show_jettons_empty js : show_jettons js = "" → js = [].
Proof.
  destruct js as [|j js]; [done|]. intros H. assert (occurs colon (show_jettons (j :: js)) = true) as Ho.
  - assert (occurs colon (show_jetton j) = true) as Hj.
    { unfold show_jetton, jetton_fields. rewrite Join_cons, occurs_app by done. cbn [occurs].
      by rewrite bool_decide_true, orb_true_r. }
    unfold show_jettons. simpl map. destruct (map show_jetton js) as [|x xs]; [done|].
    rewrite Join_cons by done. by rewrite occurs_app, Hj.
  - by rewrite H in Ho.
Qed.

(** An entry for a currency given twice replaces the earlier one. *)
Definition jetton_map (js : list jetton_entry) (vs : list Jetton) : gmap string Jetton :=
  foldl (λ m jv, <[je_currency jv.1 := jv.2]> m) ∅ (zip js vs).

Lemma parseJettonString_show js vs :
  Forall plain js → Forall2 reads_as js vs →
  parseJettonString (show_jettons js) = Ok (jetton_map js vs).
Proof.
  intros Hp Hr. unfold parseJettonString. case_decide as He.
  { apply show_jettons_empty in He as ->. by inversion Hr. }
  unfold show_jettons in *. fold comma. rewrite Split_Join.
  2: { by destruct js. }
  2: { apply Forall_fmap. eapply Forall_impl; [exact Hp|]. intros j Hj.
       apply (occurs_Join comma colon (jetton_fields j)); [done|]. eapply Forall_impl; [exact Hj|]. by intros f []. }
  clear He. unfold jetton_map. generalize (∅ : gmap string Jetton) as acc. revert Hp.
  induction Hr as [|j v js vs Hj Hr IH]; intros Hp acc; [done|].
  apply Forall_cons in Hp as [Hpj Hp]. simpl. rewrite (parseJetton_show acc j v) by done. simpl. auto.
Qed.

(** What [decimal.NewFromString] reads, rounded down by [BigInt]. *)
Definition reads_decimal (s : string) (d : decimal) : Prop :=
  decimal_NewFromString s = Some d ∧ occurs colon s = false.

Lemma parseTonString_show mn mx wd dmn dmx dwd :
  reads_decimal mn dmn → reads_decimal mx dmx → reads_decimal wd dwd →
  parseTonString (Join colon [mn; mx; wd]) =
    if decide (decimal_Cmp dmn dmx = Gt) then Fatal
    else Ok {| c_HotWalletMin := decimal_BigInt dmn; c_HotWalletMax := decimal_BigInt dmx;
               c_Withdrawal := decimal_BigInt dwd |}.
Proof.
  intros [H1 O1] [H2 O2] [H3 O3]. unfold parseTonString. fold colon.
  rewrite Split_Join by (done || by repeat constructor). unfold parse_decimal. rewrite H1, H2, H3. simpl.
  by destruct (decimal_Cmp dmn dmx).
Qed.

(** C30. The processor works with what the operator configures: settings
    written from jettons, cutoffs and an address, whose fields hold no
    separator, are read back as those jettons (the last one when a currency is
    given twice), those cutoffs and that address; a minimum above the maximum
    ends the process. *)
Theorem GetConfig_reads_back e js vs mn mx wd dmn dmx dwd cold :
  Forall plain js → Forall2 reads_as js vs → env_JettonString e = show_jettons js →
  reads_decimal mn dmn → reads_decimal mx dmx → reads_decimal wd dwd →
  env_TonString e = Join colon [mn; mx; wd] →
  env_ColdWalletString e ≠ "" → ParseAddr (env_ColdWalletString e) = Some cold →
  addr_Type cold = StdAddress → (addr_IsTestnetOnly cold = true → env_Testnet e = true) →
  GetConfig (Some e) =
    if decide (decimal_Cmp dmn dmx = Gt) then Fatal
    else Ok {| cfg_Seed := env_Seed e; cfg_APIToken := env_APIToken e;
               cfg_Testnet := env_Testnet e;
               cfg_IsDepositSideCalculation := env_IsDepositSideCalculation e;
               cfg_Jettons := jetton_map js vs;
               cfg_Ton := {| c_HotWalletMin := decimal_BigInt dmn;
                             c_HotWalletMax := decimal_BigInt dmx;
                             c_Withdrawal := decimal_BigInt dwd |};
               cfg_ColdWallet := Some cold |}.
Proof.
  intros Hp Hr Hj H1 H2 H3 Ht Hne Hc Hty Htest. unfold GetConfig. rewrite Hj, Ht.
  rewrite (parseJettonString_show js vs) by done. cbn [res_bind].
  rewrite (parseTonString_show mn mx wd dmn dmx dwd) by done. case_decide; [done|]. simpl.
  unfold parseColdWallet. rewrite decide_False, Hc by done. rewrite decide_False by naive_solver.
  destruct (addr_IsTestnetOnly cold); [rewrite Htest by done|]; done.
Qed.
End roundtrip.
