(* ===== verification/Models.v ===== *)
(** * [models/models.go]: the data of the processor

    Addresses, wallet types, the events a block yields and the records that
    pass between the components, with the conversions between the library's
    addresses and the processor's. *)

From S2P Require Import Prelude TonUtils Config.

Local Open Scope string_scope.
Local Open Scope list_scope.
Local Open Scope Z_scope.

Definition TonSymbol : string := "TON".
Definition DefaultWorkchain : Z := 0.

Definition SideHotWallet : string := "hot_wallet".
Definition SideDeposit : string := "deposit".

Inductive WalletType : Set :=
| TonHotWallet | JettonHotWallet | TonDepositWallet | JettonDepositWallet | JettonOwner.

#[export] Instance WalletType_eq_dec : EqDecision WalletType.
Proof. solve_decision. Defined.

Inductive WithdrawalStatus : Set :=
| WithdrawalStatusPending | WithdrawalStatusProcessing
| WithdrawalStatusDone | WithdrawalStatusCancelled.

#[export] Instance WithdrawalStatus_eq_dec : EqDecision WithdrawalStatus.
Proof. solve_decision. Defined.

(** The values of [WalletType] and [WithdrawalStatus] as the tables hold them. *)
Definition WalletType_string (t : WalletType) : string :=
  match t with
  | TonHotWallet => "ton_hot" | JettonHotWallet => "jetton_hot"
  | TonDepositWallet => "ton_deposit" | JettonDepositWallet => "jetton_deposit"
  | JettonOwner => "owner"
  end.

Definition WithdrawalStatus_string (s : WithdrawalStatus) : string :=
  match s with
  | WithdrawalStatusPending => "pending" | WithdrawalStatusProcessing => "processing"
  | WithdrawalStatusDone => "done" | WithdrawalStatusCancelled => "cancelled"
  end.

(** A column read back as one of these types is the value that was stored. *)
#[export] Instance WalletType_string_inj : Inj (=) (=) WalletType_string.
Proof. intros [] []; done. Qed.
#[export] Instance WithdrawalStatus_string_inj : Inj (=) (=) WithdrawalStatus_string.
Proof. intros [] []; done. Qed.

(** ** Addresses *)

(** [type Address [32]byte] *)
Definition Address : Type := Bytes 32.

(** [Address.Scan]: [None] is a driver value that is not a byte slice. *)
Definition Scan (src : option (list Z)) : res Address :=
  match src with
  | None => Err (EText "can't scan into Address")
  | Some srcB => of_option (EText "can't scan []byte into Address") (mk_bytes 32 srcB)
  end.

(** [Address.Value] and [Address.ToBytes] *)
Definition Value (a : Address) : list Z := `a.
Definition ToBytes (a : Address) : list Z := `a.

Definition AddressFromBytes (data : list Z) : res Address :=
  of_option (EText "invalid address len. Std addr len must be 32 bytes") (mk_bytes 32 data).

Section addresses.
Context `{AL : AddrLib}.

Definition ToTonutilsAddressStd (flags : Z) (a : Address) : tonaddr :=
  NewAddress flags DefaultWorkchain (ToBytes a).

Definition ToUserFormat (testnet : bool) (a : Address) : string :=
  let addr := ToTonutilsAddressStd 0 a in
  addr_String (addr_SetBounce false (addr_SetTestnetOnly testnet addr)).

(** The address it formats is updated in place: the second component. *)
Definition TonutilsAddressToUserFormat (testnet : bool) (a : tonaddr) : string * tonaddr :=
  let a := addr_SetBounce false (addr_SetTestnetOnly testnet a) in
  (addr_String a, a).

Definition AddressFromTonutilsAddress (addr : option tonaddr) : res Address :=
  match addr with
  | None => Err (EText "nil tonutils address")
  | Some addr =>
      if decide (addr_Type addr ≠ StdAddress) then Err (EText "only std address supported")
      else AddressFromBytes (addr_Data addr)
  end.

Definition AddressMustFromTonutilsAddress (addr : option tonaddr) : res Address :=
  match AddressFromTonutilsAddress addr with Err _ => Panic | r => r end.
End addresses.

(** ** Amounts

    [Coins] is [decimal.Decimal]; every amount the modelled code builds comes
    from [NewCoins] of an integer, so it is that integer. *)

Definition Coins : Type := Z.
Definition NewCoins (int : Z) : Coins := int.
Definition ZeroCoins : Coins := 0.
Definition BigInt (c : Coins) : Z := c.

(** ** Records *)

Record AddressInfo := { ai_Type : WalletType; ai_Owner : option Address }.

Record OwnerWallet := { ow_Address : Address; ow_Currency : string }.

Record WalletData := {
  wd_SubwalletID : Z;
  wd_UserID : string;
  wd_Currency : string;
  wd_Type : WalletType;
  wd_Address : Address;
}.

Record WithdrawalRequest := {
  wq_QueryID : string;
  wq_UserID : string;
  wq_Currency : string;
  wq_Amount : Coins;
  wq_Bounceable : bool;
  wq_IsInternal : bool;
  wq_Destination : Address;
  wq_Comment : string;
}.

Record ServiceWithdrawalRequest := {
  sr_From : Address;
  sr_JettonMaster : option Address;
}.

Record ServiceWithdrawalTask := {
  st_From : Address;
  st_JettonMaster : option Address;
  st_JettonAmount : Coins;
  st_Memo : UUID;
  st_SubwalletID : Z;
}.

Record ExternalWithdrawalTask := {
  et_QueryID : Z;
  et_Currency : string;
  et_Amount : Coins;
  et_Destination : Address;
  et_Bounceable : bool;
  et_Comment : string;
}.

Record InternalWithdrawalTask := {
  it_From : Address;
  it_SubwalletID : Z;
  it_Lt : Z;
  it_Currency : string;
}.

Record InternalWithdrawal := {
  iw_Utime : Z;
  iw_Lt : Z;
  iw_From : Address;
  iw_Amount : Coins;
  iw_Memo : string;
  iw_IsFailed : bool;
}.

Record SendingConfirmation := { sc_Lt : Z; sc_From : Address; sc_Memo : string }.

Record ExternalWithdrawal := {
  ew_ExtMsgUuid : UUID;
  ew_Utime : Z;
  ew_Lt : Z;
  ew_To : Address;
  ew_Amount : Coins;
  ew_Comment : string;
  ew_IsFailed : bool;
}.

Record JettonWithdrawalConfirmation := { jc_QueryId : Z }.

Record InternalIncome := {
  ii_Utime : Z;
  ii_Lt : Z;
  ii_From : Address;
  ii_To : Address;
  ii_Amount : Coins;
  ii_Memo : string;
  ii_IsFailed : bool;
}.

Record ExternalIncome := {
  ei_Utime : Z;
  ei_Lt : Z;
  ei_From : option (list Z);          (** a byte slice, nil when unknown *)
  ei_FromWorkchain : option Z;
  ei_To : Address;
  ei_Amount : Coins;
  ei_Comment : string;
}.

Record TotalIncome := { ti_Deposit : Address; ti_Amount : Coins; ti_Currency : string }.

Record JettonWallet `{AL : AddrLib} := { jwal_Address : tonaddr; jwal_Currency : string }.

(** ** Events *)

Record Events := {
  ExternalIncomes : list ExternalIncome;
  InternalIncomes : list InternalIncome;
  SendingConfirmations : list SendingConfirmation;
  InternalWithdrawals : list InternalWithdrawal;
  ExternalWithdrawals : list ExternalWithdrawal;
  WithdrawalConfirmations : list JettonWithdrawalConfirmation;
}.

Definition no_events : Events := Build_Events [] [] [] [] [] [].

(** [Events.Append] *)
Definition Append (e ae : Events) : Events := {|
  ExternalIncomes := ExternalIncomes e ++ ExternalIncomes ae;
  InternalIncomes := InternalIncomes e ++ InternalIncomes ae;
  SendingConfirmations := SendingConfirmations e ++ SendingConfirmations ae;
  InternalWithdrawals := InternalWithdrawals e ++ InternalWithdrawals ae;
  ExternalWithdrawals := ExternalWithdrawals e ++ ExternalWithdrawals ae;
  WithdrawalConfirmations := WithdrawalConfirmations e ++ WithdrawalConfirmations ae;
|}.

Record ShardBlockHeader := {
  sb_BlockIDExt : option BlockIDExt;   (** embedded pointer *)
  sb_NotMaster : bool;
  sb_GenUtime : Z;
  sb_StartLt : Z;
  sb_EndLt : Z;
  sb_Parent : option BlockIDExt;
}.

(** The zero value, which a failed conversion returns. *)
Definition zero_header : ShardBlockHeader := Build_ShardBlockHeader None false 0 0 0 None.

Record BlockEvents := { be_Events : Events; be_Block : ShardBlockHeader }.

(** [ShardBlockHeader.IsExpired] at the instant [now]. *)
Definition IsExpired (now : Z) (b : ShardBlockHeader) : bool :=
  bool_decide (time_Sub now (time_Unix (sb_GenUtime b)) > AllowableBlockchainLagging).

(** ** Facts *)

Lemma AddressFromBytes_Ok data a : AddressFromBytes data = Ok a ↔ `a = data.
Proof. unfold AddressFromBytes. rewrite of_option_Ok. apply mk_bytes_Some. Qed.

Lemma AddressFromBytes_ToBytes a : AddressFromBytes (ToBytes a) = Ok a.
Proof. by apply AddressFromBytes_Ok. Qed.

Lemma Address_length (a : Address) : length (`a) = 32%nat.
Proof. apply (proj2_dsig a). Qed.

Lemma AddressFromTonutilsAddress_Std `{ALW : AddrLaws} f a :
  AddressFromTonutilsAddress (Some (ToTonutilsAddressStd f a)) = Ok a.
Proof.
  unfold AddressFromTonutilsAddress, ToTonutilsAddressStd.
  rewrite NewAddress_Type, decide_False by auto.
  rewrite NewAddress_Data. apply AddressFromBytes_ToBytes.
Qed.

Lemma Append_nil_l e : Append no_events e = e.
Proof. by destruct e. Qed.

Lemma Append_nil_r e : Append e no_events = e.
Proof. destruct e. unfold Append. simpl. by rewrite !app_nil_r. Qed.

Lemma Append_assoc e1 e2 e3 : Append e1 (Append e2 e3) = Append (Append e1 e2) e3.
Proof. unfold Append. simpl. by rewrite !app_assoc. Qed.

#[export] Hint Rewrite @Append_nil_l @Append_nil_r : go.
