(* ===== verification/Core.v ===== *)
(** * [core/types.go]: what the core asks of the blockchain and the wallets

    The [Blockchain] and [Wallet] interfaces as records of operations. A value
    of one of these records is what the chain answers during one pass of the
    code that uses it: an operation is a function of its arguments that may
    fail. [core/blockchain.go] and [core/wallet] implement them in the files
    Blockchain and Wallets; the scanner and the processor are written against
    the records alone. *)

From S2P Require Import Prelude TonUtils Config Models.

Local Open Scope string_scope.
Local Open Scope list_scope.
Local Open Scope Z_scope.

Section interfaces.
Context `{TL : TvmLib} `{TW : !TonWalletLib}.

(** [core.Blockchain], the operations the modelled code calls;
    [JettonClient(master).GetJettonWallet(owner).Address()] is one. *)
Record Blockchain := {
  GetTransactionIDsFromBlock : option BlockIDExt → res (list TransactionShortInfo);
  GetTransactionFromBlock : option BlockIDExt → TransactionShortInfo →
                            res (Transaction tonaddr Cell);
  GenerateWallet : string → Version → res (TonWallet * Z * Z);
  GenerateHighloadWallet : string → res (TonWallet * Z * Z);
  GetAccountCurrentState : tonaddr → res (Z * AccountStatus);
  GetWalletData : tonaddr → option BlockIDExt → res (list StackValue);
  GetLastWalletData : tonaddr → res (list StackValue);
  JettonClient_GetJettonWallet : tonaddr → tonaddr → res tonaddr;
  WaitStatus : tonaddr → AccountStatus → res unit;
}.

(** [core.Wallet] *)
Record Wallet := {
  GetJettonWalletAddress : tonaddr → tonaddr → res tonaddr;
  GetJettonBalance : tonaddr → option BlockIDExt → res Z;
  GetLastJettonBalance : tonaddr → res Z;
  TonHotWalletOf : TonWallet;
  TonBasicWalletOf : TonWallet;
  JettonHotWallets : gmap string JettonWallet;
  Shard : Z;
}.
End interfaces.
