(* ===== verification/Db.v ===== *)
(** * The database: tables, statements, transactions

    The tables of [deploy/db/01_init.up.sql] as lists of rows with their
    [UNIQUE] constraints, and what executing one SQL statement from Go means.
    A statement may fail in the driver: the world carries the schedule of
    those failures, one flag per statement, so that a theorem about any world
    covers any pattern of lost connections and timeouts. *)

From S2P Require Import Prelude TonUtils Config Models.

Local Open Scope string_scope.
Local Open Scope list_scope.
Local Open Scope Z_scope.

(** ** Rows *)

Record ton_wallet_row := {
  tw_subwallet_id : Z; tw_user_id : string; tw_type : WalletType; tw_address : Address;
}.

Record jetton_wallet_row := {
  jw_subwallet_id : Z; jw_user_id : string; jw_currency : string;
  jw_type : WalletType; jw_address : Address;
}.

Record internal_income_row := {
  in_lt : Z; in_utime : Z; in_deposit_address : Address; in_amount : Coins; in_memo : UUID;
}.

Record external_income_row := {
  xi_lt : Z; xi_utime : Z; xi_payer_workchain : option Z; xi_deposit_address : Address;
  xi_payer_address : option (list Z); xi_amount : Coins; xi_comment : string;
}.

Record external_withdrawal_row := {
  xw_msg_uuid : UUID; xw_query_id : Z; xw_expired_at : option Z; xw_processed_at : option Z;
  xw_processed_lt : option Z; xw_confirmed : bool; xw_failed : bool; xw_address : Address;
}.

Record withdrawal_request_row := {
  wr_query_id : Z; wr_bounceable : bool; wr_status : option WithdrawalStatus;
  wr_processing : bool; wr_processed : bool; wr_is_internal : bool; wr_amount : Coins;
  wr_user_id : string; wr_user_query_id : string; wr_currency : string;
  wr_dest_address : Address; wr_comment : string;
}.

Record block_row := {
  bl_shard : Z; bl_seqno : Z; bl_gen_utime : Z; bl_root_hash : list Z; bl_file_hash : list Z;
}.

Record internal_withdrawal_row := {
  iwr_failed : bool; iwr_since_lt : Z; iwr_sending_lt : option Z; iwr_finish_lt : option Z;
  iwr_finished_at : option Z; iwr_expired_at : option Z; iwr_amount : Coins;
  iwr_from_address : Address; iwr_memo : UUID;
}.

Record service_request_row := {
  sv_memo : UUID; sv_expired_at : option Z; sv_filled : bool; sv_processed : bool;
  sv_ton_amount : Coins; sv_jetton_amount : Coins; sv_from_address : Address;
  sv_jetton_master : option Address;
}.

(** The columns of [payments.withdrawal_requests] the statements disagree on:
    whether [status] exists and what its default is, and whether [processing]
    and [processed] exist. *)
Record Schema := {
  s_status : bool;
  s_status_default : option WithdrawalStatus;
  s_flags : bool;
}.

(** [deploy/db/01_init.up.sql]: [status text not null], no [processing]. *)
Definition deployed_schema : Schema :=
  {| s_status := true; s_status_default := None; s_flags := false |}.

(** A schema on which every statement of the repositories can run. *)
Definition query_schema : Schema :=
  {| s_status := true; s_status_default := Some WithdrawalStatusPending; s_flags := true |}.

Record DB := {
  db_schema : Schema;
  ton_wallets : list ton_wallet_row;
  jetton_wallets : list jetton_wallet_row;
  internal_incomes : list internal_income_row;
  external_incomes : list external_income_row;
  external_withdrawals : list external_withdrawal_row;
  withdrawal_requests : list withdrawal_request_row;
  block_data : list block_row;
  internal_withdrawals : list internal_withdrawal_row;
  service_withdrawal_requests : list service_request_row;
  withdrawal_requests_seq : Z;      (** next value of the bigserial *)
}.

Definition empty_db (s : Schema) : DB := Build_DB s [] [] [] [] [] [] [] [] [] 1.

Definition set_ton_wallets (t : list ton_wallet_row) (d : DB) : DB :=
  Build_DB (db_schema d) t (jetton_wallets d) (internal_incomes d) (external_incomes d)
    (external_withdrawals d) (withdrawal_requests d) (block_data d) (internal_withdrawals d)
    (service_withdrawal_requests d) (withdrawal_requests_seq d).
Definition set_jetton_wallets (t : list jetton_wallet_row) (d : DB) : DB :=
  Build_DB (db_schema d) (ton_wallets d) t (internal_incomes d) (external_incomes d)
    (external_withdrawals d) (withdrawal_requests d) (block_data d) (internal_withdrawals d)
    (service_withdrawal_requests d) (withdrawal_requests_seq d).
Definition set_internal_incomes (t : list internal_income_row) (d : DB) : DB :=
  Build_DB (db_schema d) (ton_wallets d) (jetton_wallets d) t (external_incomes d)
    (external_withdrawals d) (withdrawal_requests d) (block_data d) (internal_withdrawals d)
    (service_withdrawal_requests d) (withdrawal_requests_seq d).
Definition set_external_incomes (t : list external_income_row) (d : DB) : DB :=
  Build_DB (db_schema d) (ton_wallets d) (jetton_wallets d) (internal_incomes d) t
    (external_withdrawals d) (withdrawal_requests d) (block_data d) (internal_withdrawals d)
    (service_withdrawal_requests d) (withdrawal_requests_seq d).
Definition set_external_withdrawals (t : list external_withdrawal_row) (d : DB) : DB :=
  Build_DB (db_schema d) (ton_wallets d) (jetton_wallets d) (internal_incomes d)
    (external_incomes d) t (withdrawal_requests d) (block_data d) (internal_withdrawals d)
    (service_withdrawal_requests d) (withdrawal_requests_seq d).
Definition set_withdrawal_requests (t : list withdrawal_request_row) (d : DB) : DB :=
  Build_DB (db_schema d) (ton_wallets d) (jetton_wallets d) (internal_incomes d)
    (external_incomes d) (external_withdrawals d) t (block_data d) (internal_withdrawals d)
    (service_withdrawal_requests d) (withdrawal_requests_seq d).
Definition set_block_data (t : list block_row) (d : DB) : DB :=
  Build_DB (db_schema d) (ton_wallets d) (jetton_wallets d) (internal_incomes d)
    (external_incomes d) (external_withdrawals d) (withdrawal_requests d) t
    (internal_withdrawals d) (service_withdrawal_requests d) (withdrawal_requests_seq d).
Definition set_internal_withdrawals (t : list internal_withdrawal_row) (d : DB) : DB :=
  Build_DB (db_schema d) (ton_wallets d) (jetton_wallets d) (internal_incomes d)
    (external_incomes d) (external_withdrawals d) (withdrawal_requests d) (block_data d) t
    (service_withdrawal_requests d) (withdrawal_requests_seq d).
Definition set_service_requests (t : list service_request_row) (d : DB) : DB :=
  Build_DB (db_schema d) (ton_wallets d) (jetton_wallets d) (internal_incomes d)
    (external_incomes d) (external_withdrawals d) (withdrawal_requests d) (block_data d)
    (internal_withdrawals d) t (withdrawal_requests_seq d).
Definition set_seq (n : Z) (d : DB) : DB :=
  Build_DB (db_schema d) (ton_wallets d) (jetton_wallets d) (internal_incomes d)
    (external_incomes d) (external_withdrawals d) (withdrawal_requests d) (block_data d)
    (internal_withdrawals d) (service_withdrawal_requests d) n.

(** ** Statements *)

Definition EDriver : err := ELib "driver".
Definition ENoRows : err := ELib "no rows in result set".
Definition EUnique : err := ELib "unique_violation".
Definition ENotNull : err := ELib "not_null_violation".
Definition EUndefinedColumn : err := ELib "undefined_column".
Definition EEncode : err := ELib "can not encode parameter".

(** A Go integer as a [bigint] parameter. *)
Definition bigint (z : Z) : res Z :=
  if decide (min_int64 ≤ z ≤ max_int64) then Ok z else Err EEncode.

(** [UPDATE ... SET f WHERE P]. *)
Definition update_where {R} (P : R → bool) (f : R → R) (l : list R) : list R :=
  map (λ r, if P r then f r else r) l.

(** [l LEFT JOIN r ON on]. *)
Definition left_join {A B} (on : A → B → bool) (l : list A) (r : list B) : list (A * option B) :=
  flat_map (λ a, match List.filter (on a) r with
                 | [] => [(a, None)]
                 | bs => map (λ b, (a, Some b)) bs
                 end) l.

(** [l JOIN r ON on]. *)
Definition join {A B} (on : A → B → bool) (l : list A) (r : list B) : list (A * B) :=
  flat_map (λ a, map (λ b, (a, b)) (List.filter (on a) r)) l.

(** [SELECT MAX(x)]: NULL over no rows. *)
Definition maxZ (l : list Z) : option Z :=
  match l with [] => None | x :: l => Some (foldr Z.max x l) end.

(** The value of each key, once. *)
Definition distinct {K} `{EqDecision K} (l : list K) : list K := remove_dups l.

(** [INSERT]: rejected when [key] is already there. *)
Definition insert_unique {R K} `{EqDecision K} (key : R → K) (r : R) (l : list R) : res (list R) :=
  if decide (key r ∈ map key l) then Err EUnique else Ok (l ++ [r]).

(** The columns a statement names must exist. *)
Definition need_flags (d : DB) : res unit :=
  if s_flags (db_schema d) then Ok tt else Err EUndefinedColumn.
Definition need_status (d : DB) : res unit :=
  if s_status (db_schema d) then Ok tt else Err EUndefinedColumn.

(** ** The world of an effectful call *)

(** Where the connection in use stands: a statement that fails inside a
    transaction aborts it, and the server then refuses every statement until
    the transaction ends. *)
Inductive TxState : Set := NoTx | InTx | TxAborted.

#[export] Instance TxState_eq_dec : EqDecision TxState.
Proof. solve_decision. Defined.

(** Errors raised on the client, which leave the transaction alone. *)
Definition client_error (e : err) : bool := bool_decide (e ∈ [ENoRows; EEncode; ENotFound]).

Record World (O : Type) := {
  w_db : DB;
  w_tx : TxState;
  w_faults : list bool;     (** [true]: the next statement fails in the driver *)
  w_now : Z;                (** [time.Now()] *)
  w_rand : list UUID;       (** what [uuid.NewV4] and [gen_random_uuid] return next *)
  w_out : list O;           (** messages and notifications sent, oldest first *)
}.
Arguments w_db {O}. Arguments w_tx {O}. Arguments w_faults {O}. Arguments w_now {O}.
Arguments w_rand {O}. Arguments w_out {O}. Arguments Build_World {O}.

Section world.
Context {O : Type}.
Implicit Types w : World O.

Definition with_db (d : DB) w : World O :=
  Build_World d (w_tx w) (w_faults w) (w_now w) (w_rand w) (w_out w).
Definition with_tx (t : TxState) w : World O :=
  Build_World (w_db w) t (w_faults w) (w_now w) (w_rand w) (w_out w).
Definition with_faults (fs : list bool) w : World O :=
  Build_World (w_db w) (w_tx w) fs (w_now w) (w_rand w) (w_out w).
Definition with_rand (us : list UUID) w : World O :=
  Build_World (w_db w) (w_tx w) (w_faults w) (w_now w) us (w_out w).
Definition with_out (o : list O) w : World O :=
  Build_World (w_db w) (w_tx w) (w_faults w) (w_now w) (w_rand w) o.

Definition abort_tx (e : err) w : World O :=
  match w_tx w with
  | InTx => if client_error e then w else with_tx TxAborted w
  | _ => w
  end.

(** One statement: it may fail in the driver, be rejected by the database
    with the tables unchanged, or succeed. *)
Definition exec {A} (f : DB → res (A * DB)) : ST (World O) A := λ w,
  let w' := with_faults (tail (w_faults w)) w in
  if decide (w_tx w = TxAborted) then (Err EDriver, w')
  else if default false (head (w_faults w)) then (Err EDriver, abort_tx EDriver w')
  else
    match f (w_db w) with
    | Ok (a, d) => (Ok a, with_db d w')
    | Err e => (Err e, abort_tx e w')
    | Panic => (Panic, w')
    | Fatal => (Fatal, w')
    end.

(** A statement that only reads. *)
Definition query {A} (f : DB → res A) : ST (World O) A :=
  exec (λ d, res_map (λ a, (a, d)) (f d)).

Definition now : ST (World O) Z := λ w, (Ok (w_now w), w).

(** [uuid.NewV4()]: fails when the source of randomness does. *)
Definition NewV4 : ST (World O) UUID := λ w,
  match w_rand w with
  | u :: us => (Ok u, with_rand us w)
  | [] => (Err (ELib "uuid"), w)
  end.

Definition output (o : O) : ST (World O) unit := λ w,
  (Ok tt, with_out (w_out w ++ [o]) w).

(** [Begin], [Commit]: statements that leave the tables alone. *)
Definition tx_control : ST (World O) unit := exec (λ d, Ok (tt, d)).

(** A body between [Begin] and [Commit] of a transaction of its own: unless
    the commit succeeds the tables are those of before. [lost] is what the
    caller returns when the commit fails. *)
Definition transaction {A} (lost : A → res A) (body : ST (World O) A) : ST (World O) A := λ w,
  match tx_control (with_tx NoTx w) with
  | (Ok _, w1) =>
      let undo w' := with_tx (w_tx w) (with_db (w_db w1) w') in
      match body (with_tx InTx w1) with
      | (Ok a, w2) =>
          match tx_control w2 with
          | (Ok _, w3) => (Ok a, with_tx (w_tx w) w3)
          | (_, w3) => (lost a, undo w3)
          end
      | (Err e, w2) => (Err e, undo w2)
      | (Panic, w2) => (Panic, undo w2)
      | (Fatal, w2) => (Fatal, undo w2)
      end
  | (Err e, w1) => (Err e, with_tx (w_tx w) w1)
  | (Panic, w1) => (Panic, with_tx (w_tx w) w1)
  | (Fatal, w1) => (Fatal, with_tx (w_tx w) w1)
  end.

(** [defer tx.Rollback(ctx)] and [return tx.Commit(ctx)]. *)
Definition in_tx {A} (body : ST (World O) A) : ST (World O) A :=
  transaction (λ _, Err EDriver) body.

(** [useTx.RunInTx]: the result of [tx.Commit(ctx)] is dropped. *)
Definition RunInTx (f : ST (World O) unit) : ST (World O) unit := transaction Ok f.
End world.

(** ** Relations between databases kept by effectful code

    [db_rel R m]: whatever the outcome of [m], the databases before and after
    are related. [db_ok R m]: they are when [m] succeeds inside a transaction,
    which is what a transaction body has to guarantee. *)

Section db_rel.
Context {O : Type} (R : DB → DB → Prop) `{!PreOrder R}.

Definition wrel (w w' : World O) : Prop :=
  R (w_db w) (w_db w') ∧ (w_tx w' = NoTx ↔ w_tx w = NoTx).
#[export] Instance wrel_preorder : PreOrder wrel.
Proof.
  split; [intros w; by split|]. intros w1 w2 w3 [R1 T1] [R2 T2].
  split; [by etrans|]. by rewrite T2.
Qed.

Definition db_rel {A} (m : ST (World O) A) : Prop := preserves wrel m.
Definition db_ok {A} (m : ST (World O) A) : Prop :=
  ∀ w a w', w_tx w ≠ NoTx → m w = (Ok a, w') → wrel w w'.

Lemma db_rel_ok {A} (m : ST (World O) A) : db_rel m → db_ok m.
Proof. intros H w a w' _ Hm. specialize (H w). rewrite Hm in H. apply H. Qed.

Lemma abort_tx_rel e w : wrel w (abort_tx e w).
Proof.
  unfold abort_tx. destruct (w_tx w) eqn:E; try done. destruct (client_error e); [done|].
  split; [done|]. simpl. by rewrite E.
Qed.

Lemma db_rel_exec {A} (f : DB → res (A * DB)) :
  (∀ d a d', f d = Ok (a, d') → R d d') → db_rel (exec f).
Proof.
  intros H w. unfold exec. case_decide; simpl; [by split|].
  destruct (default false (head (w_faults w))); simpl; [apply (abort_tx_rel _ (with_faults _ w))|].
  destruct (f (w_db w)) as [[a d]|e| |] eqn:E; simpl; try done.
  - split; simpl; [by eapply H|done].
  - apply (abort_tx_rel _ (with_faults _ w)).
Qed.

Lemma db_rel_query {A} (f : DB → res A) : db_rel (query f).
Proof.
  apply db_rel_exec. intros d a d' H. apply res_map_Ok in H as (? & ? & ?).
  by simplify_eq.
Qed.

Lemma db_rel_tx_control : db_rel tx_control.
Proof. apply db_rel_exec. intros. by simplify_eq. Qed.

Lemma db_rel_now : db_rel now.
Proof. intros w. done. Qed.
Lemma db_rel_NewV4 : db_rel NewV4.
Proof. intros w. unfold NewV4. by destruct (w_rand w). Qed.
Lemma db_rel_output o : db_rel (output o).
Proof. intros w. done. Qed.

Lemma tx_control_db w r w' : tx_control w = (r, w') → w_db (O:=O) w' = w_db w.
Proof.
  unfold tx_control, exec. case_decide; simpl; [naive_solver|].
  destruct (default false (head (w_faults w))); simpl; [|naive_solver].
  unfold abort_tx. simpl. destruct (w_tx w); naive_solver.
Qed.

(** A transaction keeps the relation when its body does on success. *)
Lemma db_rel_transaction {A} lost (f : ST (World O) A) : db_ok f → db_rel (transaction lost f).
Proof.
  intros Hf w. unfold transaction.
  destruct (tx_control _) as [[[]|e| |] w1] eqn:E1; apply tx_control_db in E1; simpl in *;
    try (split; [by rewrite <- E1|done]).
  destruct (f _) as [[a|e| |] w2] eqn:E2; simpl; try (split; simpl; [by rewrite E1|done]).
  destruct (tx_control w2) as [[[]|e| |] w3] eqn:E3; apply tx_control_db in E3; simpl;
    try (split; simpl; [by rewrite E1|done]).
  apply Hf in E2 as [HR _]; [|done]. simpl in HR. split; simpl; [by rewrite E3, <- E1|done].
Qed.

Lemma db_rel_RunInTx f : db_ok f → db_rel (RunInTx f).
Proof. apply db_rel_transaction. Qed.
Lemma db_rel_in_tx {A} (f : ST (World O) A) : db_ok f → db_rel (in_tx f).
Proof. apply db_rel_transaction. Qed.

Lemma db_ok_bind {A B} (m : ST (World O) A) (k : A → ST (World O) B) :
  db_ok m → (∀ a, db_ok (k a)) → db_ok (st_bind m k).
Proof.
  intros Hm Hk w b w'' Ht H. apply st_bind_Ok in H as (a & w' & H1 & H2).
  pose proof (Hm _ _ _ Ht H1) as HR. etrans; [exact HR|].
  apply (Hk a w' b w''); [|done]. intros Hn. by apply Ht, HR.
Qed.
Lemma db_ok_ret {A} (a : A) : db_ok (st_ret a).
Proof. intros w ? w' _ [= _ <-]. done. Qed.
Lemma db_ok_lift {A} (r : res A) : db_ok (st_lift r).
Proof. intros w ? w' _ [= _ <-]. done. Qed.
Lemma db_ok_for {A B} (f : B → A → ST (World O) B) l b :
  (∀ b x, x ∈ l → db_ok (f b x)) → db_ok (for_st f b l).
Proof.
  revert b. induction l as [|x l IH]; intros b H; [apply db_ok_ret|].
  simpl. apply db_ok_bind; [apply H; set_solver|]. intros b'. apply IH.
  intros. apply H. set_solver.
Qed.
Lemma db_ok_each {A} (f : A → ST (World O) unit) l :
  (∀ x, x ∈ l → db_ok (f x)) → db_ok (each_st f l).
Proof. intros H. apply db_ok_for. auto. Qed.
End db_rel.

(** Goes through the statements of a call to those that say of themselves
    what they keep. *)
Ltac db_steps :=
  repeat first
    [ progress intros
    | progress cbn zeta
    | apply preserves_bind; [apply _| |]
    | apply preserves_each; [apply _|]
    | apply preserves_for; [apply _|]
    | apply preserves_try | apply preserves_fatal
    | apply db_rel_in_tx; [apply _|apply db_rel_ok]
    | apply db_rel_query, _ | apply db_rel_now, _ | apply db_rel_NewV4, _
    | apply db_rel_exec; [apply _|intros; inv_res; repeat case_match; simplify_eq/=; reflexivity]
    | apply preserves_ret, _ | apply preserves_fail, _ | apply preserves_lift, _
    | assumption
    | case_match ].
#[export] Hint Resolve wrel_preorder : typeclass_instances.

(** What a transaction did: nothing, or all of its body. *)
Lemma transaction_cases {O A} lost (f : ST (World O) A) w r w' :
  transaction lost f w = (r, w') →
  (w_db w' = w_db w ∧ ∀ a, r ≠ Ok a) ∨
  ∃ a w1 w2, w_db w1 = w_db w ∧ w_tx w1 = InTx ∧ f w1 = (Ok a, w2) ∧
    (r = Ok a ∧ w_db w' = w_db w2 ∨ r = lost a ∧ w_db w' = w_db w).
Proof.
  unfold transaction.
  destruct (tx_control _) as [r1 w1] eqn:E1. apply tx_control_db in E1. simpl in E1.
  destruct r1 as [[]| | |]; [|intros [= <- <-]; left; by split..].
  destruct (f _) as [r2 w2] eqn:E2.
  destruct r2 as [a| | |]; [|intros [= <- <-]; left; by split..].
  destruct (tx_control w2) as [r3 w3] eqn:E3. apply tx_control_db in E3.
  destruct r3; intros [= <- <-]; right; exists a, (with_tx InTx w1), w2; split_and!;
    try done; [by left|right; by split..].
Qed.

(** Whatever the body does, a transaction that does not succeed leaves the
    tables as they were. *)
Lemma RunInTx_error {O} (f : ST (World O) unit) w r w' :
  RunInTx f w = (r, w') → r ≠ Ok tt → w_db w' = w_db w.
Proof.
  intros [[]|([] & w1 & w2 & ? & ? & ? & [[]|[]])]%transaction_cases; naive_solver.
Qed.

(** A transaction that succeeds ran all of its body; the commit may be lost. *)
Lemma RunInTx_Ok {O} (f : ST (World O) unit) w w' :
  RunInTx f w = (Ok tt, w') →
  ∃ w1 w2, w_db w1 = w_db w ∧ w_tx w1 = InTx ∧ f w1 = (Ok tt, w2) ∧
           (w_db w' = w_db w ∨ w_db w' = w_db w2).
Proof.
  intros [[_ H]|([] & w1 & w2 & ? & ? & ? & H)]%transaction_cases; [by destruct (H tt)|].
  exists w1, w2. naive_solver.
Qed.

(** A body that can not succeed: the transaction fails and changes nothing. *)
Lemma RunInTx_never {O} (f : ST (World O) unit) w r w' :
  (∀ w1 w2, w_db w1 = w_db w → w_tx w1 = InTx → f w1 ≠ (Ok tt, w2)) →
  RunInTx f w = (r, w') → r ≠ Ok tt ∧ w_db w' = w_db w.
Proof.
  intros Hn H. assert (r ≠ Ok tt) as Hr; [|split; [done|by eapply RunInTx_error]].
  intros ->. apply RunInTx_Ok in H as (w1 & w2 & H1 & H2 & H3 & _). by eapply Hn.
Qed.

Lemma in_tx_error {O A} (f : ST (World O) A) w r w' :
  in_tx f w = (r, w') → (∀ a, r ≠ Ok a) → w_db w' = w_db w.
Proof. intros [[]|(a & ? & ? & ? & ? & ? & [[]|[]])]%transaction_cases; naive_solver. Qed.

Lemma in_tx_Ok {O A} (f : ST (World O) A) w a w' :
  in_tx f w = (Ok a, w') →
  ∃ w1 w2, w_db w1 = w_db w ∧ w_tx w1 = InTx ∧ f w1 = (Ok a, w2) ∧ w_db w' = w_db w2.
Proof. intros [[_ H]|(? & w1 & w2 & ? & ? & ? & [[]|[]])]%transaction_cases; naive_solver. Qed.

(** Statements and transactions send nothing. *)
Section same_out.
Context {O : Type}.
Definition same_out (w w' : World O) : Prop := w_out w' = w_out w.
#[export] Instance same_out_preorder : PreOrder same_out.
Proof. split; [done|]. intros w1 w2 w3 H1 H2. unfold same_out in *. congruence. Qed.

Lemma exec_same_out {A} (f : DB → res (A * DB)) : preserves same_out (exec f).
Proof.
  intros w. unfold exec, same_out, abort_tx. case_decide; [done|].
  repeat (case_match; simplify_eq/=; try done).
Qed.
Lemma query_same_out {A} (f : DB → res A) : preserves same_out (query f).
Proof. apply exec_same_out. Qed.
Lemma transaction_same_out {A} lost (f : ST (World O) A) :
  preserves same_out f → preserves same_out (transaction lost f).
Proof.
  intros Hf w. unfold transaction, same_out.
  pose proof (exec_same_out (λ d, Ok (tt, d)) (with_tx NoTx w)) as H1. fold (tx_control (O:=O)) in H1.
  destruct (tx_control _) as [r1 w1]. unfold same_out in H1. simpl in H1.
  destruct r1 as [[]| | |]; try done.
  pose proof (Hf (with_tx InTx w1)) as H2. destruct (f _) as [r2 w2].
  unfold same_out in H2. simpl in H2. destruct r2 as [a| | |]; simpl; try congruence.
  pose proof (exec_same_out (λ d, Ok (tt, d)) w2) as H3. fold (tx_control (O:=O)) in H3.
  destruct (tx_control w2) as [r3 w3]. unfold same_out in H3. simpl in H3.
  destruct r3; simpl; congruence.
Qed.
End same_out.
#[export] Hint Resolve exec_same_out query_same_out transaction_same_out same_out_preorder : go.

(** ** Statements that run: no driver failure, and what they return *)

Definition no_faults {O} (w : World O) : Prop := w_faults w = [] ∧ w_tx w ≠ TxAborted.

Lemma exec_no_faults {O A} (f : DB → res (A * DB)) (w : World O) :
  no_faults w →
  exec f w = match f (w_db w) with
             | Ok (a, d) => (Ok a, with_db d w)
             | Err e => (Err e, abort_tx e w)
             | Panic => (Panic, w)
             | Fatal => (Fatal, w)
             end.
Proof.
  destruct w as [d t fs n r o]. intros [Hf Ht]. simpl in *. subst fs.
  unfold exec. simpl. rewrite decide_False by done. by destruct (f d) as [[]| | |].
Qed.

Lemma query_run {O A} (f : DB → res A) (w : World O) a :
  no_faults w → f (w_db w) = Ok a → query f w = (Ok a, w).
Proof.
  intros Hn Hf. unfold query. rewrite exec_no_faults by done. rewrite Hf. by destruct w.
Qed.

Lemma tx_control_run {O} (w : World O) : no_faults w → tx_control w = (Ok tt, w).
Proof. intros H. unfold tx_control. rewrite exec_no_faults by done. by destruct w. Qed.

(** A transaction that meets no failure is its body. *)
Lemma in_tx_run {O A} (body : ST (World O) A) w w2 a :
  no_faults w → body (with_tx InTx w) = (Ok a, w2) → no_faults w2 →
  in_tx body w = (Ok a, with_tx (w_tx w) w2).
Proof.
  intros Hn Hb H2. destruct w as [d t fs n r o]. destruct Hn as [Hf Ht]. simpl in *. subst fs.
  unfold in_tx, transaction. rewrite tx_control_run by done. simpl.
  unfold with_tx in Hb |- *. simpl in *. rewrite Hb. by rewrite tx_control_run.
Qed.

Lemma exec_Ok {O A} (f : DB → res (A * DB)) (w w' : World O) a :
  exec f w = (Ok a, w') →
  ∃ d, f (w_db w) = Ok (a, d) ∧ w' = with_db d (with_faults (tail (w_faults w)) w).
Proof.
  unfold exec. case_decide; [done|]. destruct (default _ _); [done|].
  destruct (f (w_db w)) as [[]| | |]; intros; simplify_eq; eauto.
Qed.

Lemma query_Ok {O A} (f : DB → res A) (w w' : World O) a :
  query f w = (Ok a, w') → f (w_db w) = Ok a ∧ w_db w' = w_db w ∧ w_tx w' = w_tx w.
Proof.
  intros (d & Hf & ->)%exec_Ok. apply res_map_Ok in Hf as (? & ? & ?). by simplify_eq.
Qed.

(** A query that fails without aborting the transaction found no row. *)
Lemma query_Err {O A} (f : DB → res A) (w w' : World O) e :
  query f w = (Err e, w') → w_db w' = w_db w ∧
  (w_tx w ≠ NoTx → w_tx w' = TxAborted ∨ f (w_db w) = Err e).
Proof.
  unfold query, exec. case_decide as Ht; [intros [= <- <-]; split; [done|]; simpl; auto|].
  assert (∀ e (w : World O), w_db (abort_tx e w) = w_db w) as Hdb.
  { intros e' w0. unfold abort_tx. destruct (w_tx w0); try done. by destruct (client_error e'). }
  destruct (default _ _).
  - intros [= <- <-]. rewrite Hdb. split; [done|]. intros Hi. left.
    unfold abort_tx. simpl. by destruct (w_tx w).
  - destruct (f (w_db w)) as [|e'| |] eqn:Ef; simpl; intros [= <- <-]. rewrite Hdb. auto.
Qed.

Lemma exec_alive {O A} (f : DB → res (A * DB)) (w w' : World O) a :
  exec f w = (Ok a, w') → w_tx w ≠ TxAborted.
Proof. unfold exec. by case_decide. Qed.

Lemma with_db_no_faults {O} d (w : World O) : no_faults w → no_faults (with_db d w).
Proof. done. Qed.
#[export] Hint Resolve with_db_no_faults : go.

(** ** Facts on rows *)

Lemma elem_of_update_where {R} (P : R → bool) f l (r : R) :
  r ∈ update_where P f l ↔ ∃ r0, r0 ∈ l ∧ r = (if P r0 then f r0 else r0).
Proof. unfold update_where. rewrite list_elem_of_fmap. naive_solver. Qed.

(** An update that keeps the key keeps the keys. *)
Lemma map_key_update_where {R K} (key : R → K) (P : R → bool) f l :
  (∀ r, key (f r) = key r) → map key (update_where P f l) = map key l.
Proof.
  intros H. unfold update_where. rewrite map_map. apply map_ext. intros r.
  destruct (P r); auto.
Qed.

Lemma insert_unique_Ok {R K} `{EqDecision K} (key : R → K) r l l' :
  insert_unique key r l = Ok l' → (key r ∉ map key l) ∧ l' = (l ++ [r]).
Proof. unfold insert_unique. case_decide; naive_solver. Qed.

Lemma insert_unique_NoDup {R K} `{EqDecision K} (key : R → K) r l l' :
  insert_unique key r l = Ok l' → NoDup (map key l) → NoDup (map key l').
Proof.
  intros [Hk ->]%insert_unique_Ok Hl. rewrite map_app.
  apply NoDup_app. split_and!; [done| |apply NoDup_singleton].
  intros x Hx Hx'. apply list_elem_of_singleton in Hx'. by subst.
Qed.

Lemma bigint_Ok z z' : bigint z = Ok z' ↔ z' = z ∧ min_int64 ≤ z ≤ max_int64.
Proof. unfold bigint. case_decide; naive_solver. Qed.

Lemma elem_of_left_join {A B} (on : A → B → bool) l r a (ob : option B) :
  (a, ob) ∈ left_join on l r ↔
  a ∈ l ∧ match ob with
          | Some b => b ∈ r ∧ on a b = true
          | None => ∀ b, b ∈ r → on a b = false
          end.
Proof.
  unfold left_join. rewrite list_elem_of_In, in_flat_map.
  assert (∀ a', In (a, ob) match List.filter (on a') r with
                   | [] => [(a', None)] | bs => map (λ b, (a', Some b)) bs end ↔
           a' = a ∧ match ob with
                    | Some b => b ∈ r ∧ on a b = true
                    | None => ∀ b, b ∈ r → on a b = false end) as Hrow.
  { intros a'. assert (∀ b, In b (List.filter (on a') r) ↔ b ∈ r ∧ on a' b = true) as Hf.
    { intros b. by rewrite filter_In, list_elem_of_In. }
    destruct (List.filter (on a') r) as [|b0 bs] eqn:E.
    - simpl. split.
      + intros [[= -> <-]|[]]. split; [done|]. intros b Hb.
        destruct (on a b) eqn:Eo; [|done]. by destruct (proj2 (Hf b)).
      + intros [-> Hob]. destruct ob as [b|]; [|by left].
        by destruct (proj2 (Hf b)).
    - rewrite in_map_iff. split.
      + intros (b & [= -> <-] & Hb). split; [done|]. by apply Hf.
      + intros [-> Hob]. destruct ob as [b|].
        * exists b. split; [done|]. by apply Hf.
        * assert (In b0 (b0 :: bs)) as [Hb0 Ho]%Hf by by left.
          by rewrite Hob in Ho. }
  setoid_rewrite Hrow. split; [intros (a' & Hin & -> & Hm)|intros [Hin Hm]].
  - by rewrite list_elem_of_In.
  - exists a. by rewrite <- list_elem_of_In.
Qed.

Lemma elem_of_join {A B} (on : A → B → bool) l r a (b : B) :
  (a, b) ∈ join on l r ↔ a ∈ l ∧ b ∈ r ∧ on a b = true.
Proof.
  unfold join. rewrite list_elem_of_In, in_flat_map. split.
  - intros (a' & Ha & Hb). apply in_map_iff in Hb as (b' & [= -> ->] & Hb).
    apply filter_In in Hb. rewrite !list_elem_of_In. naive_solver.
  - intros (Ha & Hb & Ho). apply list_elem_of_In in Ha. apply list_elem_of_In in Hb. exists a. split; [done|].
    apply in_map_iff. exists b. split; [done|]. by apply filter_In.
Qed.

Lemma maxZ_spec l m : maxZ l = Some m ↔ m ∈ l ∧ ∀ x, x ∈ l → x ≤ m.
Proof.
  destruct l as [|y l]; simpl; [set_solver|].
  assert (∀ y, foldr Z.max y l ∈ y :: l ∧ ∀ x, x ∈ y :: l → x ≤ foldr Z.max y l) as Hmax.
  { clear. intros y. induction l as [|z l [IH1 IH2]]; simpl.
    - split; [set_solver|]. intros x Hx. apply list_elem_of_singleton in Hx. lia.
    - split.
      + destruct (Z.max_spec z (foldr Z.max y l)) as [[_ ->]|[_ ->]]; set_solver.
      + intros x Hx. assert (x = z ∨ x ∈ y :: l) as [->|H] by set_solver; [lia|].
        apply IH2 in H. lia. }
  split.
  - intros [= <-]. apply Hmax.
  - intros [H1 H2]. f_equal. destruct (Hmax y) as [H3 H4].
    specialize (H4 _ H1). specialize (H2 _ H3). lia.
Qed.

Lemma maxZ_None l : maxZ l = None ↔ l = [].
Proof. by destruct l. Qed.
