(* ===== verification/AddressBook.v ===== *)
(** * [db/addressbook.go]: which addresses the processor knows

    The [AddressBook] interface of [db/types.go] as a record of operations,
    the [addressBook] type that implements it over a map, and the loading of
    that map from the wallet tables. The mutex around the map only serialises
    single reads and writes, which are single steps here. *)

From S2P Require Import Prelude TonUtils Config Models Db.

Local Open Scope string_scope.
Local Open Scope list_scope.
Local Open Scope Z_scope.

Section interface.
Context `{AL : AddrLib}.

(** [db.AddressBook]; a lookup result [None] is Go's [ok = false]. *)
Record AddressBook := {
  GetWalletType : Address → res (option WalletType);
  GetWalletTypeByTonutilsAddress : option tonaddr → res (option WalletType);
  GetOwner : Address → res (option Address);
}.

(** A nil interface value: every call dereferences nil. *)
Definition nil_AddressBook : AddressBook :=
  {| GetWalletType _ := Panic; GetWalletTypeByTonutilsAddress _ := Panic; GetOwner _ := Panic |}.
End interface.

Section book.
Context `{AL : AddrLib} {O : Type} `{PG : PgLib}.

(** The [addresses] field: [None] is the nil map of [&addressBook{}]. *)
Abbreviation addressBook := (option (gmap Address AddressInfo)).

Definition ab_get (ab : addressBook) (address : Address) : option AddressInfo :=
  m ← ab; m !! address.

(** Writing to a nil map panics. *)
Definition ab_put (ab : addressBook) (address : Address) (t : AddressInfo) : res addressBook :=
  match ab with
  | Some m => Ok (Some (<[address := t]> m))
  | None => Panic
  end.

Definition ab_GetWalletType (ab : addressBook) (address : Address) : res (option WalletType) :=
  Ok (ai_Type <$> ab_get ab address).

(** A jetton deposit without an owner stops the process. *)
Definition ab_GetOwner (ab : addressBook) (address : Address) : res (option Address) :=
  match ab_get ab address with
  | Some info =>
      match ai_Type info, ai_Owner info with
      | JettonDepositWallet, None => Fatal
      | _, owner => Ok owner
      end
  | None => Ok None
  end.

Definition ab_GetWalletTypeByTonutilsAddress (ab : addressBook) (address : option tonaddr)
    : res (option WalletType) :=
  match AddressFromTonutilsAddress address with
  | Ok a => ab_GetWalletType ab a
  | _ => Ok None
  end.

Definition book_ops (ab : addressBook) : AddressBook := {|
  GetWalletType := ab_GetWalletType ab;
  GetWalletTypeByTonutilsAddress := ab_GetWalletTypeByTonutilsAddress ab;
  GetOwner := ab_GetOwner ab;
|}.

(** ** Loading *)

Definition ton_entry (m : gmap Address AddressInfo) (r : ton_wallet_row)
    : gmap Address AddressInfo :=
  <[tw_address r := {| ai_Type := tw_type r; ai_Owner := None |}]> m.

(** A NULL owner can not be scanned into an address. *)
Definition jetton_entry (m : gmap Address AddressInfo) (r : jetton_wallet_row * option ton_wallet_row)
    : res (gmap Address AddressInfo) :=
  let! owner := Scan (Value <$> (tw_address <$> r.2)) in
  Ok (<[jw_address r.1 := {| ai_Type := jw_type r.1; ai_Owner := Some owner |}]> m).

Definition owner_rows (d : DB) : list (jetton_wallet_row * option ton_wallet_row) :=
  plan (left_join (λ jw tw, bool_decide (jw_subwallet_id jw = tw_subwallet_id tw))
          (jetton_wallets d) (ton_wallets d)).

Definition loadAddressBook : ST (World O) (gmap Address AddressInfo) :=
  do! tons <- query (λ d, Ok (plan (ton_wallets d)));
  do! jettons <- query (λ d, Ok (owner_rows d));
  st_lift (for_res jetton_entry (foldl ton_entry ∅ tons) jettons).

(** The loaded map is dropped: the book returned is [&addressBook{}]. *)
Definition NewAddressBook : ST (World O) addressBook :=
  do! _ <- loadAddressBook;
  st_ret None.
End book.

(** ** Theorems *)

Lemma jetton_entry_Ok m r m' :
  jetton_entry m r = Ok m' ↔
  ∃ tw, r.2 = Some tw ∧
    m' = <[jw_address r.1 := {| ai_Type := jw_type r.1; ai_Owner := Some (tw_address tw) |}]> m.
Proof.
  unfold jetton_entry. rewrite res_bind_Ok. destruct (r.2) as [tw|]; simpl; [|naive_solver].
  setoid_rewrite of_option_Ok. setoid_rewrite mk_bytes_Some. split.
  - intros (a & Ha & [= <-]). exists tw. split; [done|]. by apply dsig_eq in Ha as ->.
  - intros (? & [= <-] & ->). eauto.
Qed.

Lemma ton_entries_lookup tons m a :
  foldl ton_entry m tons !! a = m !! a ∧ (∀ t, t ∈ tons → tw_address t ≠ a) ∨
  ∃ t, t ∈ tons ∧ tw_address t = a ∧
    foldl ton_entry m tons !! a = Some {| ai_Type := tw_type t; ai_Owner := None |}.
Proof.
  induction tons as [|t tons IH] using rev_ind; [left; set_solver|].
  rewrite foldl_app. simpl. unfold ton_entry at 1 3.
  destruct (decide (tw_address t = a)) as [<-|Hne].
  - right. exists t. rewrite lookup_insert_eq. set_solver.
  - rewrite lookup_insert_ne by done. destruct IH as [[-> H]|(t' & H1 & H2 & H3)].
    + left. set_solver.
    + right. exists t'. set_solver.
Qed.

(** What one loaded book says of one address. *)
Definition load_spec (d : DB) (m : gmap Address AddressInfo) : Prop :=
  (∀ j, j ∈ jetton_wallets d → ∃ t, t ∈ ton_wallets d ∧
      jw_subwallet_id j = tw_subwallet_id t ∧
      m !! jw_address j = Some {| ai_Type := jw_type j; ai_Owner := Some (tw_address t) |}) ∧
  (∀ a, (∀ j, j ∈ jetton_wallets d → jw_address j ≠ a) → is_Some (m !! a) →
      ∃ t, t ∈ ton_wallets d ∧ tw_address t = a ∧
           m !! a = Some {| ai_Type := tw_type t; ai_Owner := None |}) ∧
  (∀ t, t ∈ ton_wallets d → is_Some (m !! tw_address t)).

Lemma jetton_entries_lookup rows m m' :
  for_res jetton_entry m rows = Ok m' → ∀ a,
  m' !! a = m !! a ∧ (∀ r, r ∈ rows → jw_address r.1 ≠ a) ∨
  ∃ r tw, r ∈ rows ∧ jw_address r.1 = a ∧ r.2 = Some tw ∧
    m' !! a = Some {| ai_Type := jw_type r.1; ai_Owner := Some (tw_address tw) |}.
Proof.
  intros Hf. eapply (for_res_inv (λ done b, ∀ a,
      b !! a = m !! a ∧ (∀ r, r ∈ done → jw_address r.1 ≠ a) ∨
      ∃ r tw, r ∈ done ∧ jw_address r.1 = a ∧ r.2 = Some tw ∧
        b !! a = Some {| ai_Type := jw_type r.1; ai_Owner := Some (tw_address tw) |}));
    [| |exact Hf].
  - intros a. left. set_solver.
  - intros done r b b' _ IH (tw & Hr & ->)%jetton_entry_Ok a.
    destruct (decide (jw_address r.1 = a)) as [<-|Hne].
    + right. exists r, tw. rewrite lookup_insert_eq. set_solver.
    + rewrite lookup_insert_ne by done. destruct (IH a) as [[-> H]|(r' & tw' & H1 & H2 & H3 & H4)].
      * left. set_solver.
      * right. exists r', tw'. set_solver.
Qed.

Section theorems.
Context {O : Type} `{PG : PgLib}.

(** Loading the address book reads the wallet tables faithfully: a
    jetton wallet maps to its type and to the TON wallet with its
    subwallet id as owner, any other known address to the type of a TON
    wallet row that has it and no owner, and no TON wallet is missing. *)
Theorem loadAddressBook_spec (w w' : World O) m :
  NoDup (map jw_address (jetton_wallets (w_db w))) →
  loadAddressBook w = (Ok m, w') → load_spec (w_db w) m ∧ w_db w' = w_db w.
Proof.
  intros Hnd H. unfold loadAddressBook in H.
  apply st_bind_Ok in H as (tons & w1 & H1 & H).
  apply st_bind_Ok in H as (rows & w2 & H2 & H). unfold st_lift in H.
  apply query_Ok in H1 as [[= <-] [Hw1 _]]. apply query_Ok in H2 as [[= <-] [Hw2 _]].
  rewrite Hw1 in Hw2. rewrite Hw1 in H.
  injection H as Hf <-. split; [|done].
  assert (∀ j ot, (j, ot) ∈ owner_rows (w_db w) ↔ j ∈ jetton_wallets (w_db w) ∧
    match ot with Some t => t ∈ ton_wallets (w_db w) ∧ jw_subwallet_id j = tw_subwallet_id t
             | None => ∀ t, t ∈ ton_wallets (w_db w) → jw_subwallet_id j ≠ tw_subwallet_id t end) as Hrows.
  { intros j ot. unfold owner_rows. rewrite elem_of_plan, elem_of_left_join.
    destruct ot; [by rewrite bool_decide_eq_true|by setoid_rewrite bool_decide_eq_false]. }
  pose proof (jetton_entries_lookup _ _ _ Hf) as Hl.
  assert (∀ j, j ∈ jetton_wallets (w_db w) → ∃ ot, (j, ot) ∈ owner_rows (w_db w)) as Hall.
  { intros j Hj. destruct (decide (Exists (λ t, jw_subwallet_id j = tw_subwallet_id t)
      (ton_wallets (w_db w)))) as [(t & Ht & He)%Exists_exists|Hn].
    - exists (Some t). apply Hrows. auto.
    - exists None. apply Hrows. split; [done|]. intros t Ht He. apply Hn, Exists_exists. eauto. }
  split_and!.
  - intros j Hj. destruct (Hall j Hj) as [ot Hot].
    destruct (Hl (jw_address j)) as [[_ Hn]|([j' ot'] & tw & Hr & Ha & Hs & Hm)];
      [by destruct (Hn _ Hot)|]. simpl in *. subst ot'.
    apply Hrows in Hr as (Hj' & Ht & Hid).
    assert (j' = j) as ->; [|by exists tw].
    apply list_elem_of_lookup in Hj as [i Hi]. apply list_elem_of_lookup in Hj' as [i' Hi'].
    assert (i = i') as ->; [|by simplify_eq].
    eapply NoDup_lookup; [exact Hnd| |]; rewrite list_lookup_fmap.
    + by rewrite Hi.
    + rewrite Hi'. simpl. by rewrite Ha.
  - intros a Hn Hs. destruct (Hl a) as [[Hm _]|([j ot] & tw & Hr & Ha & _)].
    + rewrite Hm in *. destruct (ton_entries_lookup (plan (ton_wallets (w_db w))) ∅ a)
        as [[He _]|(t & Ht & Ha & He)].
      * rewrite He, lookup_empty in Hs. by destruct Hs.
      * exists t. by rewrite elem_of_plan in Ht.
    + apply Hrows in Hr as [Hj _]. by destruct (Hn j Hj).
  - intros t Ht. destruct (Hl (tw_address t)) as [[-> _]|(? & ? & _ & _ & _ & ->)]; [|eauto].
    destruct (ton_entries_lookup (plan (ton_wallets (w_db w))) ∅ (tw_address t))
      as [[_ Hn]|(t' & _ & _ & ->)]; [|eauto].
    by destruct (Hn t); [rewrite elem_of_plan|].
Qed.

(** The book [NewAddressBook] returns never knows an address, whatever
    the wallet tables hold: the loaded map is dropped. *)
Theorem NewAddressBook_knows_nothing `{AL : AddrLib} (w w' : World O) ab (a : Address) :
  NewAddressBook w = (Ok ab, w') →
  GetWalletType (book_ops ab) a = Ok None ∧ GetOwner (book_ops ab) a = Ok None.
Proof. intros (m & w1 & _ & [= <- _])%st_bind_Ok. done. Qed.
End theorems.
