(* ===== verification/Fixtures.v ===== *)
(** * Concrete inputs for the witnesses

    A configuration, a node, wallets, address books and tables over the toy
    instances of [TonUtils], small enough that the definitions evaluate. The
    witnesses of the other files apply the theorems to them. *)

From S2P Require Import Prelude TonUtils Config Models Core Db AddressBook.
From stdpp Require Import pretty.

Local Open Scope string_scope.
Local Open Scope list_scope.
Local Open Scope Z_scope.

Module Fix.
Import Toy.

(** Addresses by their repeated byte: [1] the hot wallet, [2] a TON deposit,
    [3] a jetton deposit, [4] its owner, [9] a stranger. *)
Definition config : Config := {|
  cfg_Seed := "seed"; cfg_APIToken := "tok"; cfg_Testnet := false;
  cfg_IsDepositSideCalculation := true;
  cfg_Jettons := {[ "USDT" := {| j_Master := std 30; j_WithdrawalCutoff := 10;
                                 j_HotWalletMaxCutoff := 1000 |} ]};
  cfg_Ton := {| c_HotWalletMin := 10; c_HotWalletMax := 100; c_Withdrawal := 50 |};
  cfg_ColdWallet := None;
|}.

Definition account (a : Z) : list Z := replicate 32 a.

Definition book_map : option (gmap Address AddressInfo) := Some (list_to_map [
  (addr32 1, {| ai_Type := TonHotWallet; ai_Owner := None |});
  (addr32 2, {| ai_Type := TonDepositWallet; ai_Owner := None |});
  (addr32 3, {| ai_Type := JettonDepositWallet; ai_Owner := Some (addr32 4) |});
  (addr32 4, {| ai_Type := JettonOwner; ai_Owner := None |})]).
Definition book : AddressBook := book_ops book_map.

Definition block_id (seqno : Z) : BlockIDExt :=
  {| blk_Workchain := 0; blk_Shard := - 2 ^ 63; blk_SeqNo := seqno;
     blk_RootHash := [seqno]; blk_FileHash := [seqno] |}.

Definition header_of (n : Z) : ShardBlockHeader :=
  {| sb_NotMaster := true; sb_GenUtime := n; sb_StartLt := 0; sb_EndLt := 1;
     sb_Parent := Some (block_id (n - 1)); sb_BlockIDExt := Some (block_id n) |}.

Definition incoming (from to amount lt : Z) (payload : option cell) : Transaction addr cell := {|
  tx_Now := 100; tx_LT := lt;
  tx_In := Some (MsgTypeInternal {|
    im_SrcAddr := Some (std from); im_DstAddr := Some (std to); im_Amount := amount;
    im_CreatedLT := lt; im_CreatedAt := 100; im_Payload := payload; im_Comment := "" |});
  tx_Out := Some {| ml_ToSlice := Ok []; ml_All := [] |}; tx_Description := TransactionDescriptionOrdinary;
|}.

(** A node that knows one block: two payments to the TON deposit around one
    to a stranger. *)
Definition ids : list TransactionShortInfo := [
  {| ti_Account := account 2; ti_LT := 5; ti_Hash := [5] |};
  {| ti_Account := account 9; ti_LT := 6; ti_Hash := [6] |};
  {| ti_Account := account 2; ti_LT := 7; ti_Hash := [7] |}].

Definition node : Blockchain := {|
  GetTransactionIDsFromBlock _ := Ok ids;
  GetTransactionFromBlock _ id :=
    Ok (incoming 9 (default 0 (head (ti_Account id))) (10 * ti_LT id) (ti_LT id) None);
  GenerateWallet _ _ := Ok (7, 0, 698983191);
  GenerateHighloadWallet _ := Ok (7, 0, 698983191);
  GetAccountCurrentState _ := Ok (1000, AccountStatusActive);
  GetWalletData a b := if decide (blk_SeqNo <$> b = Some 0) then Err (ELib "not initialised")
                       else Ok [StackInt (default 0 (blk_SeqNo <$> b) * 100)];
  GetLastWalletData _ := Ok [StackInt 500];
  JettonClient_GetJettonWallet _ owner := Ok owner;
  WaitStatus _ _ := Ok tt;
|}.

(** A wallet, from which the sub-wallets are taken. *)
Definition basic : @TonWallet addr_lib ton_wallet_lib := 7.

Definition wallets : Wallet := {|
  GetJettonWalletAddress owner _ := Ok owner;
  GetJettonBalance _ b := Ok (default 0 (blk_SeqNo <$> b) * 100);
  GetLastJettonBalance _ := Ok 500;
  TonHotWalletOf := 1;
  TonBasicWalletOf := 7;
  JettonHotWallets := ∅;
  Shard := 1;
|}.

(** The outside world without faults, at second 1000. *)
Definition world {O} (d : DB) : World O :=
  Build_World d NoTx [] (1000 * second) [uuid16 21; uuid16 22; uuid16 23; uuid16 24] [].

Definition ton_row (t : WalletType) (id a : Z) : ton_wallet_row :=
  {| tw_subwallet_id := id; tw_user_id := "u"; tw_type := t; tw_address := addr32 a |}.
Definition jetton_row (id a : Z) : jetton_wallet_row :=
  {| jw_subwallet_id := id; jw_user_id := "u"; jw_currency := "USDT";
     jw_type := JettonDepositWallet; jw_address := addr32 a |}.

(** The tables behind [book]. *)
Definition tables (s : Schema) : DB :=
  set_jetton_wallets [jetton_row 12 3]
    (set_ton_wallets [ton_row TonHotWallet 1 1; ton_row TonDepositWallet 11 2;
                      ton_row JettonOwner 12 4] (empty_db s)).

(** A block with something of everything the scanner records. *)
Definition income (lt : Z) : ExternalIncome :=
  {| ei_Utime := 100; ei_Lt := lt; ei_From := Some (account 9); ei_FromWorkchain := Some 0;
     ei_To := addr32 2; ei_Amount := 50; ei_Comment := "" |}.
Definition paid (u : UUID) (to lt : Z) (failed : bool) : ExternalWithdrawal :=
  {| ew_ExtMsgUuid := u; ew_Utime := 100; ew_Lt := lt; ew_To := addr32 to; ew_Amount := 5;
     ew_Comment := ""; ew_IsFailed := failed |}.
Definition events_of (es : Events) (n : Z) : BlockEvents := {| be_Events := es; be_Block := header_of n |}.
Definition some_events : Events :=
  Build_Events [income 5; income 7] [] [] [] [paid (uuid16 40) 9 8 false] [].

(** Tables with a block, an income and a request that one message pays. *)
Definition request_row (id dest : Z) (processing : bool) : withdrawal_request_row :=
  {| wr_query_id := id; wr_bounceable := false; wr_status := Some WithdrawalStatusPending;
     wr_processing := processing; wr_processed := false; wr_is_internal := false; wr_amount := 5;
     wr_user_id := "u"; wr_user_query_id := pretty id; wr_currency := TonSymbol;
     wr_dest_address := addr32 dest; wr_comment := "" |}.
Definition paying_row (u : UUID) (id dest : Z) : external_withdrawal_row :=
  {| xw_msg_uuid := u; xw_query_id := id; xw_expired_at := Some (2000 * second);
     xw_processed_at := None; xw_processed_lt := None; xw_confirmed := false; xw_failed := false;
     xw_address := addr32 dest |}.
Definition busy (s : Schema) : DB :=
  set_seq 3 (set_block_data [{| bl_shard := - 2 ^ 63; bl_seqno := 6; bl_gen_utime := 6;
                                bl_root_hash := [6]; bl_file_hash := [6] |}]
    (set_external_withdrawals [paying_row (uuid16 40) 1 9]
      (set_withdrawal_requests [request_row 1 9 true; request_row 2 10 false] (tables s)))).
End Fix.
