(* ===== verification/Repository.v ===== *)
(** * [db/repository.go]: the ledger

    Every method of [repository], statement by statement: the wallets, the
    incomes and withdrawals the block scanner records, and what the API reads
    back. A parameter that Go passes as [uint64] or [int64] goes through
    [bigint], a [text] parameter through [text_param]. *)

From S2P Require Import Prelude TonUtils Config Models Db.

Local Open Scope string_scope.
Local Open Scope list_scope.
Local Open Scope Z_scope.

Record FilterQuery := { fq_Page : Z; fq_PerPage : Z }.

(** [FilterQuery.Limit] *)
Definition Limit (q : FilterQuery) : Z :=
  if decide (fq_PerPage q ≠ 0) then fq_PerPage q else 20.

(** [FilterQuery.Offset]; the product is an [int]. *)
Definition Offset (q : FilterQuery) : Z :=
  let page := if decide (fq_Page q = 0) then 1 else fq_Page q in
  (Limit q * (page - 1) + 2 ^ 63) `mod` 2 ^ 64 - 2 ^ 63.

Record HistoryFilterQuery := {
  hq_FilterQuery : FilterQuery;
  hq_UserID : Z;
  hq_Currency : string;
}.

Section repository.
Context `{AL : AddrLib} `{UL : UuidLib} `{PG : PgLib} `{WL : WalletLib} {O : Type}.
Abbreviation DBM := (ST (World O)).

Definition text_param (s : string) : res string :=
  if text_ok s then Ok s else Err EEncode.

Definition int64_text_param (z : Z) : res string := of_option EEncode (text_of_int64 z).

Definition parse_memo (s : string) : res UUID := of_option (ELib "uuid") (uuid_FromString s).

(** ** Wallets *)

Definition GetLastSubwalletID : DBM Z := query (λ d,
  let id := default DefaultSubwallet (maxZ (map tw_subwallet_id (ton_wallets d))) in
  if decide (0 ≤ id ≤ max_uint32) then Ok id else Err EEncode).

Definition insert_ton_wallet (r : ton_wallet_row) (d : DB) : res (unit * DB) :=
  let! _ := text_param (tw_user_id r) in
  let! t := insert_unique tw_subwallet_id r (ton_wallets d) in
  Ok (tt, set_ton_wallets t d).

Definition SaveTonWallet (walletData : WalletData) : DBM unit :=
  exec (insert_ton_wallet {|
    tw_subwallet_id := wd_SubwalletID walletData; tw_user_id := wd_UserID walletData;
    tw_type := wd_Type walletData; tw_address := wd_Address walletData |}).

Definition GetJettonWallet (address : Address) : DBM (option WalletData) := query (λ d,
  Ok (match head (plan (filter (λ r, jw_address r = address) (jetton_wallets d))) with
      | None => None
      | Some r => Some {| wd_SubwalletID := jw_subwallet_id r; wd_UserID := jw_user_id r;
                          wd_Currency := jw_currency r; wd_Type := jw_type r;
                          wd_Address := address |}
      end)).

Definition insert_jetton_wallet (r : jetton_wallet_row) (d : DB) : res (unit * DB) :=
  let! _ := text_param (jw_user_id r) in
  let! _ := text_param (jw_currency r) in
  let! t := insert_unique jw_address r (jetton_wallets d) in
  Ok (tt, set_jetton_wallets t d).

Definition SaveJettonWallet (ownerAddress : Address) (walletData : WalletData)
    (notSaveOwner : bool) : DBM unit :=
  in_tx (
    do! _ <- (if notSaveOwner then st_ret tt
              else exec (insert_ton_wallet {|
                     tw_subwallet_id := wd_SubwalletID walletData;
                     tw_user_id := wd_UserID walletData;
                     tw_type := JettonOwner; tw_address := ownerAddress |}));
    exec (insert_jetton_wallet {|
      jw_subwallet_id := wd_SubwalletID walletData; jw_user_id := wd_UserID walletData;
      jw_currency := wd_Currency walletData; jw_type := wd_Type walletData;
      jw_address := wd_Address walletData |})).

Definition GetTonWalletsAddresses (userID : Z) (types : list WalletType) : DBM (list Address) :=
  query (λ d,
    let! uid := int64_text_param userID in
    Ok (map tw_address (plan (filter (λ r, tw_user_id r = uid ∧ tw_type r ∈ types)
                                (ton_wallets d))))).

(** A jetton wallet without a TON wallet row gives a NULL address, which
    can not be scanned. *)
Definition owner_wallet (r : jetton_wallet_row * option ton_wallet_row) : res OwnerWallet :=
  let! a := Scan (Value <$> (tw_address <$> r.2)) in
  Ok {| ow_Address := a; ow_Currency := jw_currency r.1 |}.

Definition GetJettonOwnersAddresses (userID : Z) (types : list WalletType)
    : DBM (list OwnerWallet) :=
  query (λ d,
    let! uid := int64_text_param userID in
    let rows := left_join (λ jw tw, bool_decide (jw_subwallet_id jw = tw_subwallet_id tw))
                  (filter (λ r, jw_user_id r = uid ∧ jw_type r ∈ types) (jetton_wallets d))
                  (ton_wallets d) in
    for_res (λ acc r, let! ow := owner_wallet r in Ok (acc ++ [ow])) [] (plan rows)).

Definition GetTonHotWalletAddress : DBM Address := query (λ d,
  of_option ENotFound
    (head (plan (map tw_address (filter (λ r, tw_type r = TonHotWallet) (ton_wallets d)))))).

(** ** Incomes *)

Definition SaveExternalIncome (inc : ExternalIncome) : DBM unit := exec (λ d,
  let! lt := bigint (ei_Lt inc) in
  let! comment := text_param (ei_Comment inc) in
  Ok (tt, set_external_incomes (external_incomes d ++ [{|
    xi_lt := lt; xi_utime := time_Unix (ei_Utime inc);
    xi_payer_workchain := ei_FromWorkchain inc; xi_deposit_address := ei_To inc;
    xi_payer_address := ei_From inc; xi_amount := ei_Amount inc;
    xi_comment := comment |}]) d)).

(** The owner address of a jetton income is stored as it comes: its
    conversion to the jetton wallet address is commented out. *)
Definition SaveInternalIncome (inc : InternalIncome) : DBM unit :=
  do! memo <- st_lift (parse_memo (ii_Memo inc));
  exec (λ d,
    let! lt := bigint (ii_Lt inc) in
    let! t := insert_unique (λ r, (in_memo r, in_lt r)) {|
      in_lt := lt; in_utime := time_Unix (ii_Utime inc); in_deposit_address := ii_From inc;
      in_amount := ii_Amount inc; in_memo := memo |} (internal_incomes d) in
    Ok (tt, set_internal_incomes t d)).

(** The arguments of the statement read through the embedded pointer. *)
Definition SaveBlock (block : ShardBlockHeader) : DBM unit :=
  match sb_BlockIDExt block with
  | None => st_lift Panic
  | Some b => exec (λ d,
      let! t := insert_unique (λ r, (bl_shard r, bl_seqno r)) {|
        bl_shard := blk_Shard b; bl_seqno := blk_SeqNo b;
        bl_gen_utime := time_Unix (sb_GenUtime block);
        bl_root_hash := blk_RootHash b; bl_file_hash := blk_FileHash b |} (block_data d) in
      Ok (tt, set_block_data t d))
  end.

(** ** Withdrawals *)

Definition finish_withdrawal (w : InternalWithdrawal) (r : internal_withdrawal_row)
    : internal_withdrawal_row := {|
  iwr_failed := iwr_failed r; iwr_since_lt := iwr_since_lt r;
  iwr_sending_lt := iwr_sending_lt r; iwr_finish_lt := Some (iw_Lt w);
  iwr_finished_at := Some (time_Unix (iw_Utime w)); iwr_expired_at := iwr_expired_at r;
  iwr_amount := iwr_amount r + iw_Amount w; iwr_from_address := iwr_from_address r;
  iwr_memo := iwr_memo r |}.

Definition fail_withdrawal (r : internal_withdrawal_row) : internal_withdrawal_row := {|
  iwr_failed := true; iwr_since_lt := iwr_since_lt r; iwr_sending_lt := iwr_sending_lt r;
  iwr_finish_lt := iwr_finish_lt r; iwr_finished_at := iwr_finished_at r;
  iwr_expired_at := iwr_expired_at r; iwr_amount := iwr_amount r;
  iwr_from_address := iwr_from_address r; iwr_memo := iwr_memo r |}.

Definition send_withdrawal (lt : Z) (r : internal_withdrawal_row) : internal_withdrawal_row := {|
  iwr_failed := iwr_failed r; iwr_since_lt := iwr_since_lt r; iwr_sending_lt := Some lt;
  iwr_finish_lt := iwr_finish_lt r; iwr_finished_at := iwr_finished_at r;
  iwr_expired_at := iwr_expired_at r; iwr_amount := iwr_amount r;
  iwr_from_address := iwr_from_address r; iwr_memo := iwr_memo r |}.

Definition has_memo (memo : UUID) (r : internal_withdrawal_row) : bool :=
  bool_decide (iwr_memo r = memo).

(** The error of the first query is overwritten: without a row the two
    variables keep their zero values. *)
Definition UpdateInternalWithdrawal (w : InternalWithdrawal) : DBM unit :=
  do! memo <- st_lift (parse_memo (iw_Memo w));
  do! row <- st_try (query (λ d, of_option ENoRows
               (head (plan (filter (λ r, iwr_memo r = memo) (internal_withdrawals d))))));
  let '(alreadyFailed, sendingLt) :=
    match row with
    | inl r => (iwr_failed r, iwr_sending_lt r)
    | inr _ => (false, None)
    end in
  if (alreadyFailed : bool) then
    st_fail (EText "invalid behavior of the expiration processor")
  else match sendingLt with
  | None => st_fail (EText "invalid event order")
  | Some _ =>
      if iw_IsFailed w then
        exec (λ d, Ok (tt, set_internal_withdrawals
          (update_where (has_memo memo) fail_withdrawal (internal_withdrawals d)) d))
      else
        exec (λ d,
          let! _ := bigint (iw_Lt w) in
          Ok (tt, set_internal_withdrawals
            (update_where (has_memo memo) (finish_withdrawal w) (internal_withdrawals d)) d))
  end.

Definition confirm_withdrawal (r : external_withdrawal_row) : external_withdrawal_row := {|
  xw_msg_uuid := xw_msg_uuid r; xw_query_id := xw_query_id r; xw_expired_at := xw_expired_at r;
  xw_processed_at := xw_processed_at r; xw_processed_lt := xw_processed_lt r;
  xw_confirmed := true; xw_failed := xw_failed r; xw_address := xw_address r |}.

Definition fail_external (r : external_withdrawal_row) : external_withdrawal_row := {|
  xw_msg_uuid := xw_msg_uuid r; xw_query_id := xw_query_id r; xw_expired_at := xw_expired_at r;
  xw_processed_at := xw_processed_at r; xw_processed_lt := xw_processed_lt r;
  xw_confirmed := xw_confirmed r; xw_failed := true; xw_address := xw_address r |}.

Definition process_external (lt at_ : Z) (r : external_withdrawal_row) : external_withdrawal_row := {|
  xw_msg_uuid := xw_msg_uuid r; xw_query_id := xw_query_id r; xw_expired_at := xw_expired_at r;
  xw_processed_at := Some at_; xw_processed_lt := Some lt;
  xw_confirmed := xw_confirmed r; xw_failed := xw_failed r; xw_address := xw_address r |}.

Definition set_wr_processing (b : bool) (r : withdrawal_request_row) : withdrawal_request_row := {|
  wr_query_id := wr_query_id r; wr_bounceable := wr_bounceable r; wr_status := wr_status r;
  wr_processing := b; wr_processed := wr_processed r; wr_is_internal := wr_is_internal r;
  wr_amount := wr_amount r; wr_user_id := wr_user_id r; wr_user_query_id := wr_user_query_id r;
  wr_currency := wr_currency r; wr_dest_address := wr_dest_address r; wr_comment := wr_comment r |}.

Definition set_wr_processed (b : bool) (r : withdrawal_request_row) : withdrawal_request_row := {|
  wr_query_id := wr_query_id r; wr_bounceable := wr_bounceable r; wr_status := wr_status r;
  wr_processing := wr_processing r; wr_processed := b; wr_is_internal := wr_is_internal r;
  wr_amount := wr_amount r; wr_user_id := wr_user_id r; wr_user_query_id := wr_user_query_id r;
  wr_currency := wr_currency r; wr_dest_address := wr_dest_address r; wr_comment := wr_comment r |}.

(** [UPDATE payments.withdrawal_requests SET processing = b WHERE query_id = $1] *)
Definition update_processing (b : bool) (queryID : Z) : DBM unit := exec (λ d,
  let! _ := need_flags d in
  Ok (tt, set_withdrawal_requests
    (update_where (λ r, bool_decide (wr_query_id r = queryID)) (set_wr_processing b)
       (withdrawal_requests d)) d)).

Definition update_processed (queryID : Z) : DBM unit := exec (λ d,
  let! _ := need_flags d in
  Ok (tt, set_withdrawal_requests
    (update_where (λ r, bool_decide (wr_query_id r = queryID)) (set_wr_processed true)
       (withdrawal_requests d)) d)).

Definition ApplyJettonWithdrawalConfirmation (confirm : JettonWithdrawalConfirmation)
    : DBM unit := exec (λ d,
  let! q := bigint (jc_QueryId confirm) in
  Ok (tt, set_external_withdrawals
    (update_where (λ r, bool_decide (xw_query_id r = q ∧ is_Some (xw_processed_lt r)))
       confirm_withdrawal (external_withdrawals d)) d)).

Definition is_sent_to (u : UUID) (a : Address) (r : external_withdrawal_row) : bool :=
  bool_decide (xw_msg_uuid r = u ∧ xw_address r = a).

(** [UPDATE external_withdrawals ... WHERE msg_uuid AND address RETURNING
    query_id], its first row scanned. *)
Definition update_external (u : UUID) (a : Address)
    (f : external_withdrawal_row → external_withdrawal_row) : DBM Z := exec (λ d,
  match head (plan (filter (λ r, is_sent_to u a r) (external_withdrawals d))) with
  | None => Err ENoRows
  | Some r => Ok (xw_query_id r, set_external_withdrawals
      (update_where (is_sent_to u a) f (external_withdrawals d)) d)
  end).

(** The error of the first query is overwritten as well. *)
Definition UpdateExternalWithdrawal (w : ExternalWithdrawal) : DBM unit :=
  do! row <- st_try (query (λ d, of_option ENoRows
               (head (plan (filter (λ r, is_sent_to (ew_ExtMsgUuid w) (ew_To w) r)
                              (external_withdrawals d))))));
  let alreadyFailed := match row with inl r => xw_failed r | inr _ => false end in
  if (alreadyFailed : bool) then
    st_fail (EText "invalid behavior of the expiration processor")
  else if ew_IsFailed w then
    do! queryID <- update_external (ew_ExtMsgUuid w) (ew_To w) fail_external;
    update_processing false queryID
  else
    do! lt <- st_lift (bigint (ew_Lt w));
    do! queryID <- update_external (ew_ExtMsgUuid w) (ew_To w)
                     (process_external lt (time_Unix (ew_Utime w)));
    update_processed queryID.

(** The withdrawal is marked before its failure is looked at; the error
    makes the caller roll back. *)
Definition ApplySendingConfirmations (w : SendingConfirmation) : DBM unit :=
  do! memo <- st_lift (parse_memo (sc_Memo w));
  do! alreadyFailed <- exec (λ d,
    let! lt := bigint (sc_Lt w) in
    match head (plan (filter (λ r, iwr_memo r = memo) (internal_withdrawals d))) with
    | None => Err ENoRows
    | Some r => Ok (iwr_failed r, set_internal_withdrawals
        (update_where (has_memo memo) (send_withdrawal lt) (internal_withdrawals d)) d)
    end);
  if (alreadyFailed : bool) then st_fail (EText "invalid behavior of the expiration processor")
  else st_ret tt.

(** ** Blocks *)

(** [&block.SeqNo] dereferences the embedded [BlockIDExt] pointer of a zero
    header, which is nil: the call panics before the row is scanned. *)
Definition GetLastSavedBlock : DBM ShardBlockHeader :=
  do! _ <- st_try (query (λ d, Ok (block_data d)));
  st_lift Panic.

(** ** Expiration *)

Definition before (t : Z) (o : option Z) : bool :=
  match o with Some e => bool_decide (e < t) | None => false end.

Definition expired_internal (t : Z) (r : internal_withdrawal_row) : bool :=
  before t (iwr_expired_at r) && bool_decide (iwr_sending_lt r = None) && negb (iwr_failed r).

Definition expired_external (t : Z) (r : external_withdrawal_row) : bool :=
  before t (xw_expired_at r) && bool_decide (xw_processed_lt r = None) && negb (xw_failed r).

Definition SetExpired : DBM unit :=
  do! t <- now;
  do! _ <- exec (λ d, Ok (tt, set_internal_withdrawals
             (update_where (expired_internal (t - AllowableBlockchainLagging)) fail_withdrawal
                (internal_withdrawals d)) d));
  in_tx (
    do! t <- now;
    do! ids <- exec (λ d,
      let late := expired_external (t - AllowableBlockchainLagging) in
      Ok (plan (map xw_query_id (List.filter late (external_withdrawals d))),
          set_external_withdrawals (update_where late fail_external (external_withdrawals d)) d));
    each_st (update_processing false) ids).

(** ** Reports *)

(** One row of the joins of [externalIncomeQuery] and [iternalIncomeQuery]:
    the group it falls in and the amount it adds, NULL adding nothing. *)
Definition income_key (r : ton_wallet_row * option jetton_wallet_row)
    : Address * Address * option string :=
  (match r.2 with Some jw => jw_address jw | None => tw_address r.1 end,
   tw_address r.1, jw_currency <$> r.2).

Definition income_rows {R} (deposit_of : R → Address) (incomes : list R)
    (uid : string) (types : list WalletType) (d : DB)
    : list ((Address * Address * option string) * option R) :=
  map (λ r, (income_key r.1, r.2))
    (left_join (λ r i, bool_decide (deposit_of i = (income_key r).1.1))
      (left_join (λ tw jw, bool_decide (jw_subwallet_id jw = tw_subwallet_id tw))
        (filter (λ tw, tw_user_id tw = uid ∧ tw_type tw ∈ types) (ton_wallets d))
        (jetton_wallets d))
      incomes).

Definition group_total {K R} `{EqDecision K} (amount : R → Z) (rows : list (K * option R)) (k : K) : Z :=
  sumZ (λ r, from_option amount 0 r.2) (filter (λ r, r.1 = k) rows).

Definition getIncome {R} (deposit_of : R → Address) (amount : R → Z) (table : DB → list R)
    (userID : Z) : DBM (list TotalIncome) := query (λ d,
  let! uid := int64_text_param userID in
  let rows := income_rows deposit_of (table d) uid [TonDepositWallet; JettonOwner] d in
  Ok (map (λ k, {| ti_Deposit := k.1.1; ti_Amount := group_total amount rows k;
                   ti_Currency := default TonSymbol k.2 |})
        (plan (distinct (map fst rows))))).

Definition GetExternalIncome (userID : Z) : DBM (list TotalIncome) :=
  getIncome xi_deposit_address xi_amount external_incomes userID.

Definition GetInternalIncome (userID : Z) : DBM (list TotalIncome) :=
  getIncome in_deposit_address in_amount internal_incomes userID.

Definition lt_desc (a b : external_income_row) : Prop := xi_lt b ≤ xi_lt a.
#[export] Instance lt_desc_dec a b : Decision (lt_desc a b).
Proof. unfold lt_desc. apply _. Defined.

Definition history_row (r : external_income_row) : ExternalIncome := {|
  ei_Utime := wrap32 (time_to_Unix (xi_utime r)); ei_Lt := xi_lt r;
  ei_From := xi_payer_address r; ei_FromWorkchain := xi_payer_workchain r;
  ei_To := xi_deposit_address r; ei_Amount := xi_amount r; ei_Comment := xi_comment r |}.

(** [LIMIT l OFFSET o]: both must not be negative. *)
Definition page {R} (l o : Z) (rows : list R) : res (list R) :=
  if decide (l < 0) then Err (ELib "LIMIT must not be negative")
  else if decide (o < 0) then Err (ELib "OFFSET must not be negative")
  else Ok (take (Z.to_nat l) (drop (Z.to_nat o) rows)).

Definition GetIncomeHistory (q : HistoryFilterQuery) : DBM (list ExternalIncome) := query (λ d,
  let! uid := int64_text_param (hq_UserID q) in
  let! cur := text_param (hq_Currency q) in
  let rows :=
    if decide (cur = TonSymbol) then
      map fst (join (λ i tw, bool_decide (xi_deposit_address i = tw_address tw
                                          ∧ tw_type tw = TonDepositWallet ∧ tw_user_id tw = uid))
                 (external_incomes d) (ton_wallets d))
    else
      map fst (join (λ i jw, bool_decide (xi_deposit_address i = jw_address jw
                                          ∧ jw_type jw = JettonDepositWallet ∧ jw_user_id jw = uid
                                          ∧ jw_currency jw = cur))
                 (external_incomes d) (jetton_wallets d)) in
  let! rows := page (Limit (hq_FilterQuery q)) (Offset (hq_FilterQuery q))
                 (merge_sort lt_desc (plan rows)) in
  Ok (map history_row rows)).
End repository.

(** ** [db.Repository], the operations the API and the wallets call *)

Record Repo `{AL : AddrLib} (O : Type) := {
  p_GetLastSubwalletID : ST (World O) Z;
  p_SaveTonWallet : WalletData → ST (World O) unit;
  p_SaveJettonWallet : Address → WalletData → bool → ST (World O) unit;
  p_GetTonWalletsAddresses : Z → list WalletType → ST (World O) (list Address);
  p_GetJettonOwnersAddresses : Z → list WalletType → ST (World O) (list OwnerWallet);
  p_GetInternalIncome : Z → ST (World O) (list TotalIncome);
  p_GetExternalIncome : Z → ST (World O) (list TotalIncome);
  p_GetIncomeHistory : HistoryFilterQuery → ST (World O) (list ExternalIncome);
  p_GetLastSavedBlock : ST (World O) ShardBlockHeader;
  p_GetJettonWallet : Address → ST (World O) (option WalletData);
  p_GetTonHotWalletAddress : ST (World O) Address;
}.
Arguments p_GetLastSubwalletID {AL O}. Arguments p_SaveTonWallet {AL O}.
Arguments p_SaveJettonWallet {AL O}. Arguments p_GetTonWalletsAddresses {AL O}.
Arguments p_GetJettonOwnersAddresses {AL O}. Arguments p_GetInternalIncome {AL O}.
Arguments p_GetExternalIncome {AL O}. Arguments p_GetIncomeHistory {AL O}.
Arguments p_GetLastSavedBlock {AL O}. Arguments p_GetJettonWallet {AL O}.
Arguments p_GetTonHotWalletAddress {AL O}.

Definition repository `{AL : AddrLib} `{PG : PgLib} `{WL : WalletLib} {O} : Repo O := {|
  p_GetLastSubwalletID := GetLastSubwalletID;
  p_SaveTonWallet := SaveTonWallet;
  p_SaveJettonWallet := SaveJettonWallet;
  p_GetTonWalletsAddresses := GetTonWalletsAddresses;
  p_GetJettonOwnersAddresses := GetJettonOwnersAddresses;
  p_GetInternalIncome := GetInternalIncome;
  p_GetExternalIncome := GetExternalIncome;
  p_GetIncomeHistory := GetIncomeHistory;
  p_GetLastSavedBlock := GetLastSavedBlock;
  p_GetJettonWallet := GetJettonWallet;
  p_GetTonHotWalletAddress := GetTonHotWalletAddress;
|}.

(** A nil interface value. *)
Definition nil_Repository `{AL : AddrLib} {O} : Repo O := {|
  p_GetLastSubwalletID := st_lift Panic;
  p_SaveTonWallet _ := st_lift Panic;
  p_SaveJettonWallet _ _ _ := st_lift Panic;
  p_GetTonWalletsAddresses _ _ := st_lift Panic;
  p_GetJettonOwnersAddresses _ _ := st_lift Panic;
  p_GetInternalIncome _ := st_lift Panic;
  p_GetExternalIncome _ := st_lift Panic;
  p_GetIncomeHistory _ := st_lift Panic;
  p_GetLastSavedBlock := st_lift Panic;
  p_GetJettonWallet _ := st_lift Panic;
  p_GetTonHotWalletAddress := st_lift Panic;
|}.
