(* ===== verification/WithdrawalRepository.v ===== *)
(** * [db/withdrawal-repository.go]: withdrawal requests and tasks

    Every method of [withdrawalRepository]. The task queries are the joins of
    the source, row by row; a query without a full [ORDER BY] returns its rows
    in the order [plan] gives. A sequence value that a rejected insert
    consumes in PostgreSQL is not consumed here: only its freshness matters. *)

From S2P Require Import Prelude TonUtils Config Models Db Repository.

Local Open Scope string_scope.
Local Open Scope list_scope.
Local Open Scope Z_scope.

(** [bytea] values compare byte by byte. *)
Fixpoint bytes_leb (a b : list Z) : bool :=
  match a, b with
  | [], _ => true
  | _ :: _, [] => false
  | x :: a, y :: b => if x <? y then true else if y <? x then false else bytes_leb a b
  end.

(** [SELECT DISTINCT ON (key)] over rows already ordered. *)
Fixpoint distinct_on {R K} `{EqDecision K} (key : R → K) (seen : list K) (l : list R) : list R :=
  match l with
  | [] => []
  | r :: l =>
      if decide (key r ∈ seen) then distinct_on key seen l
      else r :: distinct_on key (key r :: seen) l
  end.

Section withdrawal_repository.
Context `{PG : PgLib} {O : Type}.
Abbreviation DBM := (ST (World O)).

(** ** Requests *)

Definition GetExternalWithdrawalStatus (id : Z) : DBM WithdrawalStatus := query (λ d,
  let! _ := need_status d in
  let! r := of_option ENotFound (head (plan
    (filter (λ r, wr_query_id r = id ∧ wr_is_internal r = false) (withdrawal_requests d)))) in
  of_option EEncode (wr_status r)).

(** No row is the empty status, here [None]. *)
Definition GetInternalWithdrawalStatus (dest : Address) (currency : string)
    : DBM (option WithdrawalStatus) := query (λ d,
  let! _ := need_status d in
  match head (plan (filter (λ r, wr_dest_address r = dest ∧ wr_currency r = currency
                                ∧ wr_is_internal r = true) (withdrawal_requests d))) with
  | None => Ok None
  | Some r => let! s := of_option EEncode (wr_status r) in Ok (Some s)
  end).

Definition new_external (extMsgUuid : UUID) (expiredAt : Z) (t : ExternalWithdrawalTask)
    : external_withdrawal_row := {|
  xw_msg_uuid := extMsgUuid; xw_query_id := et_QueryID t; xw_expired_at := Some expiredAt;
  xw_processed_at := None; xw_processed_lt := None; xw_confirmed := false; xw_failed := false;
  xw_address := et_Destination t |}.

Definition insert_external (r : external_withdrawal_row) : DBM unit := exec (λ d,
  let! t := insert_unique (λ r, (xw_msg_uuid r, xw_address r)) r (external_withdrawals d) in
  Ok (tt, set_external_withdrawals t d)).

Definition CreateExternalWithdrawals (tasks : list ExternalWithdrawalTask) (extMsgUuid : UUID)
    (expiredAt : Z) : DBM unit :=
  in_tx (each_st (λ t,
    do! _ <- insert_external (new_external extMsgUuid expiredAt t);
    update_processing true (et_QueryID t)) tasks).

Definition new_internal (task : InternalWithdrawalTask) (expiredAt : Z) (memo : UUID)
    : internal_withdrawal_row := {|
  iwr_failed := false; iwr_since_lt := it_Lt task; iwr_sending_lt := None;
  iwr_finish_lt := None; iwr_finished_at := None; iwr_expired_at := Some expiredAt;
  iwr_amount := 0; iwr_from_address := it_From task; iwr_memo := memo |}.

(** [unique (from_address, since_lt, memo)] follows from [memo unique]. *)
Definition SaveInternalWithdrawalTask (task : InternalWithdrawalTask) (expiredAt : Z)
    (memo : UUID) : DBM unit := exec (λ d,
  let! _ := bigint (it_Lt task) in
  let! t := insert_unique iwr_memo (new_internal task expiredAt memo)
              (internal_withdrawals d) in
  Ok (tt, set_internal_withdrawals t d)).

(** The insert names no [status]: the column takes its default, NULL when it
    has none, and the column is [not null]. *)
Definition new_request (d : DB) (w : WithdrawalRequest) : res withdrawal_request_row :=
  let! st :=
    (if s_status (db_schema d) then
       match s_status_default (db_schema d) with
       | Some s => Ok (Some s)
       | None => Err ENotNull
       end
     else Ok None) in
  Ok {| wr_query_id := withdrawal_requests_seq d; wr_bounceable := wq_Bounceable w;
        wr_status := st; wr_processing := false; wr_processed := false;
        wr_is_internal := wq_IsInternal w; wr_amount := wq_Amount w;
        wr_user_id := wq_UserID w; wr_user_query_id := wq_QueryID w;
        wr_currency := wq_Currency w; wr_dest_address := wq_Destination w;
        wr_comment := wq_Comment w |}.

Definition request_key (r : withdrawal_request_row) : string * string * bool :=
  (wr_user_id r, wr_user_query_id r, wr_is_internal r).

Definition CreateWithdrawalRequest (w : WithdrawalRequest) : DBM Z := exec (λ d,
  let! _ := text_param (wq_UserID w) in
  let! _ := text_param (wq_QueryID w) in
  let! _ := text_param (wq_Currency w) in
  let! _ := text_param (wq_Comment w) in
  let! r := new_request d w in
  let! t := insert_unique request_key r (withdrawal_requests d) in
  Ok (wr_query_id r,
      set_seq (withdrawal_requests_seq d + 1) (set_withdrawal_requests t d))).

Definition set_wr_status (s : WithdrawalStatus) (r : withdrawal_request_row)
    : withdrawal_request_row := {|
  wr_query_id := wr_query_id r; wr_bounceable := wr_bounceable r; wr_status := Some s;
  wr_processing := wr_processing r; wr_processed := wr_processed r;
  wr_is_internal := wr_is_internal r; wr_amount := wr_amount r; wr_user_id := wr_user_id r;
  wr_user_query_id := wr_user_query_id r; wr_currency := wr_currency r;
  wr_dest_address := wr_dest_address r; wr_comment := wr_comment r |}.

(** The query id of the request is a Go string. *)
Definition UpdateWithdrawalRequest (status : WithdrawalStatus) (queryID : string) : DBM unit :=
  exec (λ d,
    let! _ := need_status d in
    let! q := of_option EEncode (int8_of_string queryID) in
    Ok (tt, set_withdrawal_requests
      (update_where (λ r, bool_decide (wr_query_id r = q)) (set_wr_status status)
         (withdrawal_requests d)) d)).

(** ** Service withdrawals *)

(** [memo] defaults to [gen_random_uuid()]. *)
Definition CreateServiceWithdrawalRequest (w : ServiceWithdrawalRequest) : DBM UUID :=
  do! memo <- NewV4;
  exec (λ d,
    let! t := insert_unique sv_memo {|
      sv_memo := memo; sv_expired_at := None; sv_filled := false; sv_processed := false;
      sv_ton_amount := 0; sv_jetton_amount := 0; sv_from_address := sr_From w;
      sv_jetton_master := sr_JettonMaster w |} (service_withdrawal_requests d) in
    Ok (memo, set_service_requests t d)).

Definition update_service (t : ServiceWithdrawalTask) (tonAmount : Coins) (expiredAt : Z)
    (filled : bool) (r : service_request_row) : service_request_row := {|
  sv_memo := sv_memo r; sv_expired_at := Some expiredAt; sv_filled := filled;
  sv_processed := negb filled; sv_ton_amount := tonAmount;
  sv_jetton_amount := st_JettonAmount t; sv_from_address := sv_from_address r;
  sv_jetton_master := sv_jetton_master r |}.

Definition UpdateServiceWithdrawalRequest (t : ServiceWithdrawalTask) (tonAmount : Coins)
    (expiredAt : Z) (filled : bool) : DBM unit := exec (λ d,
  Ok (tt, set_service_requests
    (update_where (λ r, bool_decide (sv_memo r = st_Memo t))
       (update_service t tonAmount expiredAt filled) (service_withdrawal_requests d)) d)).

(** ** Tasks *)

Definition task_of_request (r : withdrawal_request_row) : ExternalWithdrawalTask := {|
  et_QueryID := wr_query_id r; et_Currency := wr_currency r; et_Amount := wr_amount r;
  et_Destination := wr_dest_address r; et_Bounceable := wr_bounceable r;
  et_Comment := wr_comment r |}.

(** [ORDER BY dest_address, query_id] *)
Definition by_dest_query (a b : withdrawal_request_row) : Prop :=
  if decide (wr_dest_address a = wr_dest_address b) then wr_query_id a ≤ wr_query_id b
  else bytes_leb (Value (wr_dest_address a)) (Value (wr_dest_address b)) = true.
#[export] Instance by_dest_query_dec a b : Decision (by_dest_query a b).
Proof. unfold by_dest_query. case_decide; apply _. Defined.

Definition external_task_rows (limit : nat) (d : DB) : list withdrawal_request_row :=
  take limit (distinct_on wr_dest_address []
    (merge_sort by_dest_query (plan
      (filter (λ r, wr_processing r = false) (withdrawal_requests d))))).

Definition GetExternalWithdrawalTasks (limit : nat) : DBM (list ExternalWithdrawalTask) :=
  query (λ d,
    let! _ := need_flags d in
    Ok (map task_of_request (external_task_rows limit d))).

(** [ORDER BY from_address] *)
Definition by_from {T} (a b : service_request_row * T) : Prop :=
  bytes_leb (Value (sv_from_address a.1)) (Value (sv_from_address b.1)) = true.
#[export] Instance by_from_dec {T} (a b : service_request_row * T) : Decision (by_from a b).
Proof. unfold by_from. apply _. Defined.

Definition service_rows (P : service_request_row * ton_wallet_row → bool) (limit : nat) (d : DB)
    : list (service_request_row * ton_wallet_row) :=
  take limit (distinct_on (λ r, sv_from_address r.1) []
    (merge_sort by_from (plan (List.filter P
      (join (λ swr tw, bool_decide (sv_from_address swr = tw_address tw))
         (service_withdrawal_requests d) (ton_wallets d)))))).

(** [WHERE type = ...] drops the requests without a wallet row. *)
Definition GetServiceHotWithdrawalTasks (limit : nat) : DBM (list ServiceWithdrawalTask) :=
  query (λ d, Ok (map (λ r, {|
      st_From := sv_from_address r.1; st_JettonMaster := sv_jetton_master r.1;
      st_JettonAmount := ZeroCoins; st_Memo := sv_memo r.1;
      st_SubwalletID := tw_subwallet_id r.2 |})
    (service_rows (λ r, negb (sv_processed r.1) && negb (sv_filled r.1)
                        && bool_decide (tw_type r.2 ∈ [JettonOwner; TonDepositWallet])) limit d))).

Definition GetServiceDepositWithdrawalTasks (limit : nat) : DBM (list ServiceWithdrawalTask) :=
  query (λ d, Ok (map (λ r, {|
      st_From := sv_from_address r.1; st_JettonMaster := sv_jetton_master r.1;
      st_JettonAmount := sv_jetton_amount r.1; st_Memo := sv_memo r.1;
      st_SubwalletID := tw_subwallet_id r.2 |})
    (service_rows (λ r, negb (sv_processed r.1) && sv_filled r.1
                        && bool_decide (tw_type r.2 = TonDepositWallet)) limit d))).

(** The subquery [iw3]: the withdrawals whose [since_lt] is the greatest
    among the withdrawals from the same address that did not fail. *)
Definition last_since (d : DB) (from : Address) : option Z :=
  maxZ (map iwr_since_lt
    (filter (λ r, iwr_from_address r = from ∧ iwr_failed r = false) (internal_withdrawals d))).

Definition last_withdrawals (d : DB) : list internal_withdrawal_row :=
  filter (λ r, last_since d (iwr_from_address r) = Some (iwr_since_lt r)) (internal_withdrawals d).

Definition deposit_rows (d : DB) : list (external_income_row * option internal_withdrawal_row) :=
  left_join (λ di iw, bool_decide (iwr_from_address iw = xi_deposit_address di))
    (external_incomes d) (last_withdrawals d).

(** [(since_lt IS NOT NULL AND finish_lt IS NOT NULL AND lt > finish_lt) OR
    (since_lt IS NULL)] *)
Definition ton_due (r : external_income_row * option internal_withdrawal_row) : bool :=
  match r.2 with
  | None => true
  | Some iw => match iwr_finish_lt iw with
               | Some f => f <? xi_lt r.1
               | None => false
               end
  end.

(** [(since_lt IS NOT NULL AND lt > since_lt AND finish_lt IS NOT NULL) OR
    (since_lt IS NULL)] *)
Definition jetton_due (r : external_income_row * option internal_withdrawal_row) : bool :=
  match r.2 with
  | None => true
  | Some iw => (iwr_since_lt iw <? xi_lt r.1) && bool_decide (is_Some (iwr_finish_lt iw))
  end.

(** [GROUP BY] the key of the rows, with [MAX(lt)] of each group. *)
Definition group_max {R K} `{EqDecision K} (key : R → K) (val : R → Z) (rows : list R)
    : list (K * Z) :=
  map (λ k, (k, default 0 (maxZ (map val (filter (λ r, key r = k) rows)))))
    (distinct (map key rows)).

Definition ton_task_rows (d : DB)
    : list ((external_income_row * option internal_withdrawal_row) * ton_wallet_row) :=
  join (λ r tw, bool_decide (xi_deposit_address r.1 = tw_address tw
                             ∧ tw_type tw = TonDepositWallet))
    (List.filter ton_due (deposit_rows d)) (ton_wallets d).

Definition GetTonInternalWithdrawalTasks (limit : nat) : DBM (list InternalWithdrawalTask) :=
  query (λ d, Ok (map (λ g, {| it_From := g.1.1; it_SubwalletID := g.1.2; it_Lt := g.2;
                               it_Currency := TonSymbol |})
    (take limit (plan (group_max
      (λ r, (xi_deposit_address r.1.1, tw_subwallet_id r.2)) (λ r, xi_lt r.1.1)
      (ton_task_rows d)))))).

(** [NOT tw.address = ANY($2)]: NULL unless the array is empty when the
    jetton wallet has no TON wallet row. *)
Definition owner_allowed (excluded : list Address) (tw : option ton_wallet_row) : bool :=
  match tw with
  | Some tw => bool_decide (tw_address tw ∉ excluded)
  | None => bool_decide (excluded = [])
  end.

Definition jetton_task_rows (excluded : list Address) (d : DB)
    : list ((external_income_row * option internal_withdrawal_row) * jetton_wallet_row) :=
  map fst (List.filter (λ r, owner_allowed excluded r.2)
    (left_join (λ r tw, bool_decide (jw_subwallet_id r.2 = tw_subwallet_id tw))
      (join (λ r jw, bool_decide (xi_deposit_address r.1 = jw_address jw
                                  ∧ jw_type jw = JettonDepositWallet))
        (List.filter jetton_due (deposit_rows d)) (jetton_wallets d))
      (ton_wallets d))).

Definition GetJettonInternalWithdrawalTasks (forbiddenAddresses : list Address) (limit : nat)
    : DBM (list InternalWithdrawalTask) :=
  query (λ d, Ok (map (λ g, {| it_From := g.1.1.1; it_SubwalletID := g.1.1.2; it_Lt := g.2;
                               it_Currency := g.1.2 |})
    (take limit (plan (group_max
      (λ r, (xi_deposit_address r.1.1, jw_subwallet_id r.2, jw_currency r.2))
      (λ r, xi_lt r.1.1) (jetton_task_rows forbiddenAddresses d)))))).
End withdrawal_repository.
