(* ===== verification/Ledger.v ===== *)
(** * The ledger: what every repository operation keeps

    The invariant of the tables ([db_inv]: the unique constraints, and the rule
    against paying a request twice) and the way rows may change over time
    ([evolves]: rows are never deleted, a failed withdrawal is final, a
    processed one stays processed), proved of every operation that commits. *)

From S2P Require Import Prelude TonUtils Config Models Db Repository WithdrawalRepository.

Local Open Scope string_scope.
Local Open Scope list_scope.
Local Open Scope Z_scope.

(** ** Growing tables *)

Section grows.
Context {R : Type} (S : R → R → Prop) `{!PreOrder S}.

(** Every old row is still there, changed as [S] allows; new rows follow. *)
Definition grows (l l' : list R) : Prop := ∃ l1 new, l' = l1 ++ new ∧ Forall2 S l l1.

#[export] Instance grows_preorder : PreOrder grows.
Proof.
  split.
  - intros l. exists l, []. rewrite app_nil_r. split; [done|]. reflexivity.
  - intros l1 l2 l3 (a & x & -> & Ha) (b & y & -> & Hb).
    apply Forall2_app_inv_l in Hb as (b1 & b2 & Hb1 & Hb2 & ->).
    exists b1, (b2 ++ y). rewrite <- app_assoc. split; [done|]. by etrans.
Qed.

Lemma grows_snoc l r : grows l (l ++ [r]).
Proof. exists l, [r]. split; [done|]. reflexivity. Qed.

Lemma grows_update P f l :
  (∀ r, r ∈ l → P r = true → S r (f r)) → grows l (update_where P f l).
Proof.
  intros H. exists (update_where P f l), []. rewrite app_nil_r. split; [done|].
  unfold update_where. apply Forall2_fmap_r, Forall_Forall2_diag, Forall_forall.
  intros r Hr. cbn. destruct (P r) eqn:E; [auto|reflexivity].
Qed.

Lemma grows_elem l l' r : grows l l' → r ∈ l → ∃ r', r' ∈ l' ∧ S r r'.
Proof.
  intros (l1 & new & -> & H) Hr. apply list_elem_of_lookup in Hr as [i Hi].
  eapply Forall2_lookup_l in H as (r' & Hr' & HS); [|done].
  exists r'. split; [|done]. apply elem_of_app. left. by eapply list_elem_of_lookup_2.
Qed.
End grows.

(** ** How rows change *)

(** An internal withdrawal keeps its identity; once failed it is final, once
    sent or finished it stays so. *)
Record iw_step (r r' : internal_withdrawal_row) : Prop := {
  iws_memo : iwr_memo r' = iwr_memo r;
  iws_from : iwr_from_address r' = iwr_from_address r;
  iws_since : iwr_since_lt r' = iwr_since_lt r;
  iws_expired : iwr_expired_at r' = iwr_expired_at r;
  iws_final : iwr_failed r = true → r' = r;
  iws_sent : is_Some (iwr_sending_lt r) → is_Some (iwr_sending_lt r');
  iws_finished : is_Some (iwr_finish_lt r) → is_Some (iwr_finish_lt r');
}.

#[export] Instance iw_step_preorder : PreOrder iw_step.
Proof.
  split; [by intros r; split|].
  intros a b c [] []; split; [congruence..| |auto|auto]. naive_solver.
Qed.

(** An external withdrawal keeps its identity; once failed it is never
    processed, once processed or confirmed it stays so. *)
Record xw_step (r r' : external_withdrawal_row) : Prop := {
  xws_uuid : xw_msg_uuid r' = xw_msg_uuid r;
  xws_query : xw_query_id r' = xw_query_id r;
  xws_address : xw_address r' = xw_address r;
  xws_failed : xw_failed r = true → xw_failed r' = true ∧ xw_processed_lt r' = xw_processed_lt r;
  xws_processed : is_Some (xw_processed_lt r) → is_Some (xw_processed_lt r');
  xws_confirmed : xw_confirmed r = true → xw_confirmed r' = true;
}.

#[export] Instance xw_step_preorder : PreOrder xw_step.
Proof.
  split; [by intros r; split|].
  intros a b c [] []; split; [congruence..| |auto|auto].
  intros Ha. destruct (xws_failed0 Ha) as [Hb Hp]. destruct (xws_failed1 Hb). split; congruence.
Qed.

(** A request keeps what was asked; once processed it stays so. *)
Record wr_step (r r' : withdrawal_request_row) : Prop := {
  wrs_query : wr_query_id r' = wr_query_id r;
  wrs_amount : wr_amount r' = wr_amount r;
  wrs_currency : wr_currency r' = wr_currency r;
  wrs_dest : wr_dest_address r' = wr_dest_address r;
  wrs_key : request_key r' = request_key r;
  wrs_processed : wr_processed r = true → wr_processed r' = true;
}.

#[export] Instance wr_step_preorder : PreOrder wr_step.
Proof. split; [by intros r; split|]. intros a b c [] []; split; [congruence..|auto]. Qed.

Record evolves (d d' : DB) : Prop := {
  ev_schema : db_schema d' = db_schema d;
  ev_ton_wallets : grows eq (ton_wallets d) (ton_wallets d');
  ev_jetton_wallets : grows eq (jetton_wallets d) (jetton_wallets d');
  ev_internal_incomes : grows eq (internal_incomes d) (internal_incomes d');
  ev_external_incomes : grows eq (external_incomes d) (external_incomes d');
  ev_blocks : grows eq (block_data d) (block_data d');
  ev_internal : grows iw_step (internal_withdrawals d) (internal_withdrawals d');
  ev_external : grows xw_step (external_withdrawals d) (external_withdrawals d');
  ev_requests : grows wr_step (withdrawal_requests d) (withdrawal_requests d');
}.

#[export] Instance evolves_preorder : PreOrder evolves.
Proof.
  split.
  - intros d. by split.
  - intros a b c [] []. split; [congruence|by etrans..].
Qed.

(** ** The invariant *)

(** The withdrawals that may still pay: the rows not marked failed. *)
Definition live (l : list external_withdrawal_row) : list external_withdrawal_row :=
  filter (λ r, xw_failed r = false) l.
Definition live_ids (l : list external_withdrawal_row) : list Z := map xw_query_id (live l).

Record db_inv (d : DB) : Prop := {
  inv_subwallet : NoDup (map tw_subwallet_id (ton_wallets d));
  inv_jetton : NoDup (map jw_address (jetton_wallets d));
  inv_income : NoDup (map (λ r, (in_memo r, in_lt r)) (internal_incomes d));
  inv_external : NoDup (map (λ r, (xw_msg_uuid r, xw_address r)) (external_withdrawals d));
  inv_query : NoDup (map wr_query_id (withdrawal_requests d));
  inv_request : NoDup (map request_key (withdrawal_requests d));
  inv_block : NoDup (map (λ r, (bl_shard r, bl_seqno r)) (block_data d));
  inv_memo : NoDup (map iwr_memo (internal_withdrawals d));
  inv_service : NoDup (map sv_memo (service_withdrawal_requests d));
  (** a request is being paid by one message at most *)
  inv_once : NoDup (live_ids (external_withdrawals d));
  (** a request that may be picked up is being paid by none *)
  inv_idle : ∀ r, r ∈ withdrawal_requests d → wr_processing r = false →
    wr_query_id r ∉ live_ids (external_withdrawals d);
  (** query ids come from the sequence *)
  inv_seq : ∀ r, r ∈ withdrawal_requests d → wr_query_id r < withdrawal_requests_seq d;
  inv_ids : ∀ r, r ∈ external_withdrawals d → xw_query_id r < withdrawal_requests_seq d;
}.

(** No message starts to pay anything: no withdrawal is added, and the live
    ones are among those of before. *)
Record calm (d d' : DB) : Prop := {
  calm_live : live_ids (external_withdrawals d') ⊆ live_ids (external_withdrawals d);
  calm_seq : withdrawal_requests_seq d ≤ withdrawal_requests_seq d';
  calm_rows : length (external_withdrawals d') = length (external_withdrawals d);
}.

#[export] Instance calm_preorder : PreOrder calm.
Proof. split; [intros d; by split|]. intros a b c [] []. split; [set_solver|lia|congruence]. Qed.

Definition ledger (d d' : DB) : Prop := db_inv d → db_inv d' ∧ evolves d d' ∧ calm d d'.

#[export] Instance ledger_preorder : PreOrder ledger.
Proof.
  split; [intros d; done|]. intros a b c H1 H2 Ha.
  destruct (H1 Ha) as (Hb & E1 & C1). destruct (H2 Hb) as (Hc & E2 & C2).
  split_and!; [done|by etrans..].
Qed.

Lemma empty_db_inv s : db_inv (empty_db s).
Proof. split; simpl; try apply NoDup_nil_2; set_solver. Qed.

(** ** Live withdrawals *)

Lemma elem_of_live_ids q l : q ∈ live_ids l ↔ ∃ r, r ∈ l ∧ xw_failed r = false ∧ xw_query_id r = q.
Proof.
  unfold live_ids, live. rewrite list_elem_of_fmap. setoid_rewrite list_elem_of_filter.
  naive_solver.
Qed.

Lemma live_ids_same P f l :
  (∀ r, xw_failed (f r) = xw_failed r ∧ xw_query_id (f r) = xw_query_id r) →
  live_ids (update_where P f l) = live_ids l.
Proof.
  intros Hf. unfold live_ids, live, update_where. induction l as [|r l IH]; [done|].
  simpl. destruct (Hf r) as [H1 H2]. destruct (P r).
  - rewrite !filter_cons, H1. case_decide; simpl; [|done]. by rewrite H2, IH.
  - rewrite !filter_cons. case_decide; simpl; [|done]. by rewrite IH.
Qed.

Lemma live_ids_fail_sub P l : live_ids (update_where P fail_external l) `sublist_of` live_ids l.
Proof.
  unfold live_ids, live, update_where. induction l as [|r l IH]; [done|].
  simpl. rewrite !filter_cons. destruct (P r); simpl.
  - case_decide; simpl; [by constructor|done].
  - case_decide; simpl; [by constructor|done].
Qed.

Lemma NoDup_map_eq {A K} (key : A → K) l a b :
  NoDup (map key l) → a ∈ l → b ∈ l → key a = key b → a = b.
Proof.
  intros Hn [i Hi]%list_elem_of_lookup [j Hj]%list_elem_of_lookup Hk.
  assert (i = j) as ->; [|congruence].
  eapply (NoDup_lookup (map key l)); [done| |].
  - rewrite list_lookup_fmap, Hi. done.
  - rewrite list_lookup_fmap, Hj. simpl. by rewrite Hk.
Qed.

(** Failing the live row of a request leaves the request without one. *)
Lemma live_ids_fail_notin (P : external_withdrawal_row → bool) l r :
  NoDup (live_ids l) → r ∈ l → P r = true → xw_failed r = false →
  xw_query_id r ∉ live_ids (update_where P fail_external l).
Proof.
  intros Hn Hr HP Hf (r' & Hr' & Hl' & Hq)%elem_of_live_ids.
  apply elem_of_update_where in Hr' as (r0 & Hr0 & ->).
  destruct (P r0) eqn:E; [done|].
  assert (r0 = r) as ->; [|congruence].
  eapply (NoDup_map_eq xw_query_id (live l)); [done| | |done];
    by apply list_elem_of_filter.
Qed.

Lemma live_ids_snoc l r :
  live_ids (l ++ [r]) = live_ids l ++ (if xw_failed r then [] else [xw_query_id r]).
Proof.
  unfold live_ids, live. rewrite filter_app, map_app. f_equal.
  rewrite filter_cons. by destruct (xw_failed r).
Qed.

(** ** One table at a time *)

Ltac table_step :=
  let I := fresh "I" in
  intros I; split;
  [destruct I; split; simpl; auto
  |split; [split; simpl; try reflexivity|split; simpl; [try reflexivity|try lia|try apply length_map; try reflexivity]]].

Lemma ledger_ton_wallets d r t :
  insert_unique tw_subwallet_id r (ton_wallets d) = Ok t → ledger d (set_ton_wallets t d).
Proof.
  intros H. pose proof (insert_unique_NoDup _ _ _ _ H) as Hn.
  apply insert_unique_Ok in H as [_ ->]. table_step. apply grows_snoc; apply _.
Qed.

Lemma ledger_jetton_wallets d r t :
  insert_unique jw_address r (jetton_wallets d) = Ok t → ledger d (set_jetton_wallets t d).
Proof.
  intros H. pose proof (insert_unique_NoDup _ _ _ _ H) as Hn.
  apply insert_unique_Ok in H as [_ ->]. table_step. apply grows_snoc; apply _.
Qed.

Lemma ledger_internal_incomes d r t :
  insert_unique (λ r, (in_memo r, in_lt r)) r (internal_incomes d) = Ok t →
  ledger d (set_internal_incomes t d).
Proof.
  intros H. pose proof (insert_unique_NoDup _ _ _ _ H) as Hn.
  apply insert_unique_Ok in H as [_ ->]. table_step. apply grows_snoc; apply _.
Qed.

Lemma ledger_external_incomes d r : ledger d (set_external_incomes (external_incomes d ++ [r]) d).
Proof. table_step. apply grows_snoc; apply _. Qed.

Lemma ledger_block_data d r t :
  insert_unique (λ r, (bl_shard r, bl_seqno r)) r (block_data d) = Ok t →
  ledger d (set_block_data t d).
Proof.
  intros H. pose proof (insert_unique_NoDup _ _ _ _ H) as Hn.
  apply insert_unique_Ok in H as [_ ->]. table_step. apply grows_snoc; apply _.
Qed.

Lemma ledger_service d t :
  (NoDup (map sv_memo (service_withdrawal_requests d)) → NoDup (map sv_memo t)) →
  ledger d (set_service_requests t d).
Proof. intros H. table_step. Qed.

Lemma ledger_new_internal d r t :
  insert_unique iwr_memo r (internal_withdrawals d) = Ok t →
  ledger d (set_internal_withdrawals t d).
Proof.
  intros H. pose proof (insert_unique_NoDup _ _ _ _ H) as Hn.
  apply insert_unique_Ok in H as [_ ->]. table_step. apply grows_snoc; apply _.
Qed.

Lemma ledger_update_internal d P f :
  (db_inv d → ∀ r, r ∈ internal_withdrawals d → P r = true → iw_step r (f r)) →
  (∀ r, iwr_memo (f r) = iwr_memo r) →
  ledger d (set_internal_withdrawals (update_where P f (internal_withdrawals d)) d).
Proof.
  intros H1 H2 I. specialize (H1 I). revert I.
  table_step; [by rewrite map_key_update_where|]. apply grows_update; [apply _|done].
Qed.

(** An update of external withdrawals that keeps keys and adds no live row. *)
Lemma ledger_update_external d P f :
  (db_inv d → ∀ r, r ∈ external_withdrawals d → P r = true → xw_step r (f r)) →
  (∀ r, xw_msg_uuid (f r) = xw_msg_uuid r ∧ xw_address (f r) = xw_address r
        ∧ xw_query_id (f r) = xw_query_id r) →
  live_ids (update_where P f (external_withdrawals d)) `sublist_of`
    live_ids (external_withdrawals d) →
  ledger d (set_external_withdrawals (update_where P f (external_withdrawals d)) d).
Proof.
  intros H1 H2 H3 I. specialize (H1 I). revert I. table_step.
  - rewrite map_key_update_where; [done|]. intros r. destruct (H2 r) as (-> & -> & _). done.
  - by eapply sublist_NoDup.
  - intros r Hr Hp Hi. eapply inv_idle0; [done..|]. eapply elem_of_submseteq; [done|]. by apply sublist_submseteq.
  - intros r (r0 & Hr0 & ->)%elem_of_update_where.
    destruct (P r0); [destruct (H2 r0) as (_ & _ & ->)|]; auto.
  - apply grows_update; [apply _|done].
  - intros q Hq. eapply elem_of_submseteq; [done|]. by apply sublist_submseteq.
Qed.

(** Changing [processing] or [processed] of the rows of one request. *)
Lemma ledger_update_requests d P f :
  (∀ r, wr_step r (f r)) →
  (db_inv d → ∀ r, r ∈ withdrawal_requests d → P r = true → wr_processing (f r) = false →
        wr_query_id r ∉ live_ids (external_withdrawals d)) →
  ledger d (set_withdrawal_requests (update_where P f (withdrawal_requests d)) d).
Proof.
  intros H1 H2 I. specialize (H2 I). revert I. table_step.
  - rewrite map_key_update_where; [done|]. intros r. apply H1.
  - rewrite map_key_update_where; [done|]. intros r. apply H1.
  - intros r (r0 & Hr0 & ->)%elem_of_update_where. destruct (P r0) eqn:E; [|by auto].
    intros Hp. rewrite (wrs_query _ _ (H1 r0)). by apply H2.
  - intros r (r0 & Hr0 & ->)%elem_of_update_where. destruct (P r0); [|by auto].
    rewrite (wrs_query _ _ (H1 r0)). auto.
  - apply grows_update; [apply _|]. intros. apply H1.
Qed.

(** ** The operations a block's transaction runs *)

Section operations.
Context `{AL : AddrLib} `{UL : UuidLib} `{PG : PgLib} `{WL : WalletLib} {O : Type}.

(** The row a query by a unique key returned is the row with that key. *)
Lemma head_plan_unique {R K} (key : R → K) (P : R → Prop) `{∀ r, Decision (P r)} l r0 r :
  NoDup (map key l) → (∀ r1 r2, P r1 → P r2 → key r1 = key r2) →
  head (plan (filter P l)) = Some r0 → r ∈ l → P r → r = r0.
Proof.
  intros Hn Hk Hh Hr HP.
  assert (r0 ∈ filter P l) as [HP0 Hr0]%list_elem_of_filter.
  { rewrite <- elem_of_plan. destruct (plan (filter P l)); [done|].
    simpl in Hh. simplify_eq. set_solver. }
  by eapply (NoDup_map_eq key); [| | |apply Hk].
Qed.

Lemma SaveExternalIncome_ledger inc : db_rel (O:=O) ledger (SaveExternalIncome inc).
Proof.
  apply db_rel_exec; [apply _|]. intros d a d' H. inv_res. apply ledger_external_incomes.
Qed.

Lemma SaveInternalIncome_ledger inc : db_rel (O:=O) ledger (SaveInternalIncome inc).
Proof.
  apply preserves_bind; [apply _|apply preserves_lift; apply _|]. intros memo.
  apply db_rel_exec; [apply _|]. intros d a d' H. inv_res. by eapply ledger_internal_incomes.
Qed.

Lemma SaveBlock_ledger b : db_rel (O:=O) ledger (SaveBlock b).
Proof.
  unfold SaveBlock. destruct (sb_BlockIDExt b); [|apply preserves_lift; apply _].
  apply db_rel_exec; [apply _|]. intros d a d' H. inv_res. by eapply ledger_block_data.
Qed.

Lemma ApplyJettonWithdrawalConfirmation_ledger c :
  db_rel (O:=O) ledger (ApplyJettonWithdrawalConfirmation c).
Proof.
  apply db_rel_exec; [apply _|]. intros d a d' H. inv_res. apply ledger_update_external.
  - intros _ r _ _. by split.
  - done.
  - by rewrite live_ids_same.
Qed.

(** What a row keeps when it has not failed. *)
Lemma iw_step_live f r :
  iwr_failed r = false → iwr_memo (f r) = iwr_memo r →
  iwr_from_address (f r) = iwr_from_address r → iwr_since_lt (f r) = iwr_since_lt r →
  iwr_expired_at (f r) = iwr_expired_at r →
  (is_Some (iwr_sending_lt r) → is_Some (iwr_sending_lt (f r))) →
  (is_Some (iwr_finish_lt r) → is_Some (iwr_finish_lt (f r))) → iw_step r (f r).
Proof. intros; split; try done. congruence. Qed.

Lemma has_memo_true m r : has_memo m r = true ↔ iwr_memo r = m.
Proof. apply bool_decide_eq_true. Qed.

(** The rows with a memo are the one row a query by memo returned. *)
Lemma memo_row d memo r0 r :
  db_inv d → head (plan (filter (λ r, iwr_memo r = memo) (internal_withdrawals d))) = Some r0 →
  r ∈ internal_withdrawals d → has_memo memo r = true → r = r0.
Proof.
  intros I Hh Hr Hm%has_memo_true. eapply head_plan_unique; [apply I| |done..]. congruence.
Qed.

Lemma ApplySendingConfirmations_ledger sc : db_ok (O:=O) ledger (ApplySendingConfirmations sc).
Proof.
  intros w a w' Ht H. apply st_bind_Ok in H as (memo & w1 & H1 & H). unfold st_lift in H1.
  simplify_eq/=. apply st_bind_Ok in H as (failed & w2 & (d & Hf & ->)%exec_Ok & H).
  destruct failed; [done|]. unfold st_ret in H. simplify_eq/=.
  apply res_bind_Ok in Hf as (lt & _ & Hf).
  destruct (head _) as [r0|] eqn:Eh; [|done]. injection Hf as Hr0 <-.
  split; [|done]. apply ledger_update_internal; [|done]. intros I r Hr Hm.
  rewrite (memo_row _ _ _ _ I Eh Hr Hm). by apply iw_step_live.
Qed.

Lemma UpdateInternalWithdrawal_ledger w : db_ok (O:=O) ledger (UpdateInternalWithdrawal w).
Proof.
  intros w0 a w' Ht H. apply st_bind_Ok in H as (memo & w1 & H1 & H). unfold st_lift in H1.
  simplify_eq/=. apply st_bind_Ok in H as (row & w2 & Hq & H). unfold st_try in Hq.
  destruct (query _ w1) as [[r0|e| |] w3] eqn:Eq; simplify_eq/=; try done.
  apply query_Ok in Eq as (Eh & Hw & Htx). apply of_option_Ok in Eh. rewrite <- Hw in *.
  destruct (iwr_failed r0) eqn:Hf; [done|].
  destruct (iwr_sending_lt r0) eqn:Hs; [|done].
  assert (∀ f, (∀ r, iwr_memo (f r) = iwr_memo r) → iw_step r0 (f r0) →
    ledger (w_db w2) (set_internal_withdrawals
      (update_where (has_memo memo) f (internal_withdrawals (w_db w2))) (w_db w2))) as Hupd.
  { intros f Hm Hstep. apply ledger_update_internal; [|done]. intros I r Hr Hhas.
    by rewrite (memo_row _ _ _ _ I Eh Hr Hhas). }
  unfold wrel. rewrite <- Hw, <- Htx.
  destruct (iw_IsFailed w); apply exec_Ok in H as (d & H & ->); inv_res; (split; [|done]).
  - apply Hupd; [done|]. by apply iw_step_live.
  - apply Hupd; [done|]. apply iw_step_live; naive_solver.
Qed.

Lemma is_sent_to_true u a r : is_sent_to u a r = true ↔ xw_msg_uuid r = u ∧ xw_address r = a.
Proof. apply bool_decide_eq_true. Qed.

Definition sent_rows (u : UUID) (a : Address) (d : DB) : list external_withdrawal_row :=
  filter (λ r, is_sent_to u a r) (external_withdrawals d).

Lemma sent_row d u a r0 r :
  db_inv d → head (plan (sent_rows u a d)) = Some r0 →
  r ∈ external_withdrawals d → is_sent_to u a r = true → r = r0.
Proof.
  intros I Hh Hr Hs. eapply (head_plan_unique (λ r, (xw_msg_uuid r, xw_address r)));
    [apply I| |exact Hh|done|by apply Is_true_true].
  intros r1 r2 H1 H2. apply Is_true_true, is_sent_to_true in H1, H2.
  destruct H1, H2. congruence.
Qed.

Lemma sent_row_elem d u a r0 :
  head (plan (sent_rows u a d)) = Some r0 →
  r0 ∈ external_withdrawals d ∧ is_sent_to u a r0 = true.
Proof.
  intros Hh. assert (r0 ∈ sent_rows u a d) as [?%Is_true_true ?]%list_elem_of_filter; [|done].
  rewrite <- elem_of_plan. destruct (plan _); [done|]. simpl in Hh. simplify_eq. set_solver.
Qed.

(** Updating the row of one message and one address. *)
Lemma update_external_Ok u a f (w w' : World O) q :
  update_external u a f w = (Ok q, w') →
  w_tx w ≠ TxAborted ∧ w_tx w' = w_tx w ∧ ∃ r0, head (plan (sent_rows u a (w_db w))) = Some r0 ∧ q = xw_query_id r0 ∧
    w_db w' = set_external_withdrawals
      (update_where (is_sent_to u a) f (external_withdrawals (w_db w))) (w_db w).
Proof.
  intros H. split; [by eapply exec_alive|]. apply exec_Ok in H as (d & Hf & ->).
  unfold sent_rows.
  destruct (head _) as [r0|] eqn:Eh; [|done]. simplify_eq/=. split; [done|]. by exists r0.
Qed.

(** The first query of [UpdateExternalWithdrawal]: when the code goes on
    and the transaction is alive, the row did not fail. *)
Lemma first_query_not_failed u a (w w2 : World O) row :
  w_tx w ≠ NoTx →
  st_try (query (λ d, of_option ENoRows (head (plan (sent_rows u a d))))) w = (Ok row, w2) →
  match row with inl r => xw_failed r | inr _ => false end = false →
  w_db w2 = w_db w ∧ w_tx w2 ≠ NoTx ∧ ∀ r0,
  w_tx w2 ≠ TxAborted → head (plan (sent_rows u a (w_db w2))) = Some r0 → xw_failed r0 = false.
Proof.
  intros Ht Hq Hrow. unfold st_try in Hq.
  destruct (query _ w) as [[r1|e| |] w3] eqn:Eq; simplify_eq/=.
  - apply query_Ok in Eq as (Eh & Hw & ->). apply of_option_Ok in Eh. rewrite Hw.
    split_and!; [done..|]. intros r0 _ Hh. congruence.
  - pose proof (db_rel_query ledger (O:=O)
      (λ d, of_option ENoRows (head (plan (sent_rows u a d)))) w) as [_ Htx].
    rewrite Eq in Htx. simpl in Htx.
    apply query_Err in Eq as [Hw He]. rewrite Hw. split_and!; [done|by rewrite Htx|].
    intros r0 Hna Hh. destruct (He Ht) as [|Hf]; [done|]. by rewrite Hh in Hf.
Qed.

(** Marking the request of a row that has just failed as idle again. *)
Lemma ledger_idle d q :
  (q ∉ live_ids (external_withdrawals d)) →
  ledger d (set_withdrawal_requests
    (update_where (λ r, bool_decide (wr_query_id r = q)) (set_wr_processing false)
       (withdrawal_requests d)) d).
Proof.
  intros Hq. apply ledger_update_requests; [intros r; by split|].
  intros _ r _ Hr%bool_decide_eq_true _. by subst.
Qed.

Lemma ledger_processed d q :
  ledger d (set_withdrawal_requests
    (update_where (λ r, bool_decide (wr_query_id r = q)) (set_wr_processed true)
       (withdrawal_requests d)) d).
Proof.
  apply ledger_update_requests; [intros r; by split|].
  intros I r Hr _ Hp. by apply (inv_idle d I).
Qed.

(** The failed row first, then its request: both together keep the ledger. *)
Lemma ledger_fail_one d u a r0 :
  head (plan (sent_rows u a d)) = Some r0 → xw_failed r0 = false →
  let d1 := set_external_withdrawals
    (update_where (is_sent_to u a) fail_external (external_withdrawals d)) d in
  ledger d (set_withdrawal_requests
    (update_where (λ r, bool_decide (wr_query_id r = xw_query_id r0)) (set_wr_processing false)
       (withdrawal_requests d1)) d1).
Proof.
  intros Hh Hf d1 I. revert I. destruct (sent_row_elem _ _ _ _ Hh) as [Hr Hs].
  intros I. assert (ledger d d1) as H1.
  { apply ledger_update_external; [|done|apply live_ids_fail_sub].
    intros _ r Hr' Hs'. rewrite (sent_row _ _ _ _ _ I Hh Hr' Hs').
    split; [done..| |done|done]. by rewrite Hf. }
  assert (ledger d1 (set_withdrawal_requests
    (update_where (λ r, bool_decide (wr_query_id r = xw_query_id r0)) (set_wr_processing false)
       (withdrawal_requests d1)) d1)) as H2.
  { apply ledger_idle. eapply live_ids_fail_notin; [apply I|done..]. }
  by apply (transitivity H1 H2).
Qed.

Lemma UpdateExternalWithdrawal_ledger w : db_ok (O:=O) ledger (UpdateExternalWithdrawal w).
Proof.
  intros w0 a w' Ht H. apply st_bind_Ok in H as (row & w2 & Hq & H). cbv zeta in H.
  destruct (match row with inl r => xw_failed r | inr _ => false end) eqn:Hrow; [done|].
  destruct (first_query_not_failed _ _ _ _ _ Ht Hq Hrow) as (Hw & Ht2 & Hlive).
  unfold wrel. rewrite <- Hw. destruct (ew_IsFailed w).
  - apply st_bind_Ok in H as (q & w3 & Hu & H).
    apply update_external_Ok in Hu as (Hna & Htx & r0 & Hh & -> & Hd).
    apply exec_Ok in H as (d & H & ->). inv_res.
    split; [|by rewrite Htx; tauto]. rewrite Hd. apply ledger_fail_one; auto.
  - apply st_bind_Ok in H as (lt & w3 & Hlt & H). unfold st_lift in Hlt. simplify_eq/=.
    apply st_bind_Ok in H as (q & w4 & Hu & H).
    apply update_external_Ok in Hu as (Hna & Htx & r0 & Hh & -> & Hd).
    apply exec_Ok in H as (d & H & ->). inv_res.
    split; [|by rewrite Htx; tauto]. rewrite Hd. etrans; [|apply ledger_processed].
    apply ledger_update_external; [|done|by rewrite live_ids_same].
    intros I r Hr Hs. rewrite (sent_row _ _ _ _ _ I Hh Hr Hs).
    split; [done..| | |done]; [by rewrite (Hlive r0)|done].
Qed.

(** ** The operations outside a block's transaction *)

Lemma SaveTonWallet_ledger wd : db_rel (O:=O) ledger (SaveTonWallet wd).
Proof.
  apply db_rel_exec; [apply _|]. intros d a d' H. unfold insert_ton_wallet in H. inv_res.
  by eapply ledger_ton_wallets.
Qed.

Lemma SaveJettonWallet_ledger o wd b : db_rel (O:=O) ledger (SaveJettonWallet o wd b).
Proof.
  apply db_rel_in_tx; [apply _|]. apply db_ok_bind; [apply _|destruct b|].
  - apply db_ok_ret, _.
  - apply db_rel_ok, db_rel_exec; [apply _..|]. intros d a d' H. unfold insert_ton_wallet in H.
    inv_res. by eapply ledger_ton_wallets.
  - intros _. apply db_rel_ok, db_rel_exec; [apply _..|]. intros d a d' H.
    unfold insert_jetton_wallet in H. inv_res. by eapply ledger_jetton_wallets.
Qed.

Lemma SaveInternalWithdrawalTask_ledger t e m :
  db_rel (O:=O) ledger (SaveInternalWithdrawalTask t e m).
Proof.
  apply db_rel_exec; [apply _|]. intros d a d' H. inv_res. by eapply ledger_new_internal.
Qed.

Lemma CreateServiceWithdrawalRequest_ledger s :
  db_rel (O:=O) ledger (CreateServiceWithdrawalRequest s).
Proof.
  apply preserves_bind; [apply _|apply db_rel_NewV4; apply _|]. intros memo.
  apply db_rel_exec; [apply _|]. intros d a d' H. inv_res. apply ledger_service.
  by eapply insert_unique_NoDup.
Qed.

Lemma UpdateServiceWithdrawalRequest_ledger t c e f :
  db_rel (O:=O) ledger (UpdateServiceWithdrawalRequest t c e f).
Proof.
  apply db_rel_exec; [apply _|]. intros d a d' H. inv_res. apply ledger_service.
  by rewrite map_key_update_where.
Qed.

Lemma UpdateWithdrawalRequest_ledger s q : db_rel (O:=O) ledger (UpdateWithdrawalRequest s q).
Proof.
  apply db_rel_exec; [apply _|]. intros d a d' H. inv_res.
  apply ledger_update_requests; [intros r; by split|].
  intros I r Hr _ Hp. by apply (inv_idle d I).
Qed.

(** A new request takes the next query id, which no message pays. *)
Lemma CreateWithdrawalRequest_ledger wq : db_rel (O:=O) ledger (CreateWithdrawalRequest wq).
Proof.
  apply db_rel_exec; [apply _|]. intros d a d' H. inv_res.
  match goal with H : new_request _ _ = Ok _ |- _ => rename H into Hn end.
  match goal with H : insert_unique _ _ _ = Ok _ |- _ => rename H into Hi end.
  assert (wr_query_id x3 = withdrawal_requests_seq d) as Hq.
  { unfold new_request in Hn. apply res_bind_Ok in Hn as (? & _ & [= <-]). done. }
  pose proof (insert_unique_NoDup _ _ _ _ Hi) as Hnd. apply insert_unique_Ok in Hi as [_ ->].
  table_step.
  - rewrite map_app. apply NoDup_app. split_and!; [done| |apply NoDup_singleton].
    intros q Hq1 Hq2. apply list_elem_of_singleton in Hq2. subst q.
    apply list_elem_of_fmap in Hq1 as (r & Hr1 & Hr2). apply inv_seq0 in Hr2. lia.
  - intros r [Hr| ->%list_elem_of_singleton]%elem_of_app; [by apply inv_idle0|].
    intros _ (r & Hr & _ & Hr')%elem_of_live_ids. apply inv_ids0 in Hr. lia.
  - intros r [Hr| ->%list_elem_of_singleton]%elem_of_app; [|lia].
    apply inv_seq0 in Hr. lia.
  - intros r Hr%inv_ids0. lia.
  - apply grows_snoc; apply _.
Qed.

(** Marking idle the requests of rows that have failed. *)
Definition ledger_off (ids : list Z) (d d' : DB) : Prop :=
  (∀ q, q ∈ ids → q ∉ live_ids (external_withdrawals d)) →
  ledger d d' ∧ (∀ q, q ∈ ids → q ∉ live_ids (external_withdrawals d')).

#[local] Instance ledger_off_preorder ids : PreOrder (ledger_off ids).
Proof.
  split; [intros d; done|]. intros a b c H1 H2 Ha. destruct (H1 Ha) as [L1 Hb].
  destruct (H2 Hb) as [L2 Hc]. split; [by etrans|done].
Qed.

Lemma update_processing_off ids q :
  q ∈ ids → db_rel (O:=O) (ledger_off ids) (update_processing false q).
Proof.
  intros Hq. apply db_rel_exec; [apply _|]. intros d a d' H. inv_res. intros Hoff.
  split; [|done]. apply ledger_idle. auto.
Qed.

Lemma idle_all_off ids : db_ok (O:=O) (ledger_off ids) (each_st (update_processing false) ids).
Proof.
  apply db_ok_each; [apply _|]. intros q Hq. by apply db_rel_ok, update_processing_off.
Qed.

Lemma fail_late_ledger d late :
  (∀ r, late r = true → xw_failed r = false) →
  let d1 := set_external_withdrawals
              (update_where late fail_external (external_withdrawals d)) d in
  ledger d d1 ∧ (db_inv d → ∀ q,
    q ∈ plan (map xw_query_id (List.filter late (external_withdrawals d))) →
    q ∉ live_ids (external_withdrawals d1)).
Proof.
  intros Hl d1. split.
  - apply ledger_update_external; [|done|apply live_ids_fail_sub].
    intros _ r _ Hr%Hl. split; [done..| |done|done]. by rewrite Hr.
  - intros I q Hq. rewrite elem_of_plan in Hq. apply list_elem_of_fmap in Hq as (r & -> & Hr).
    apply list_elem_of_In, filter_In in Hr as [Hr Hlr]. apply list_elem_of_In in Hr.
    eapply live_ids_fail_notin; [apply I|done|done|auto].
Qed.

Lemma expired_external_live t r : expired_external t r = true → xw_failed r = false.
Proof. unfold expired_external. by destruct (xw_failed r), (before _ _), (bool_decide _). Qed.

Lemma expired_internal_live t r : expired_internal t r = true → iwr_failed r = false.
Proof. unfold expired_internal. by destruct (iwr_failed r), (before _ _), (bool_decide _). Qed.

Lemma SetExpired_ledger : db_rel (O:=O) ledger SetExpired.
Proof.
  apply preserves_bind; [apply _|apply db_rel_now; apply _|]. intros t.
  apply preserves_bind; [apply _| |intros _].
  { apply db_rel_exec; [apply _|]. intros d a d' H. simplify_eq.
    apply ledger_update_internal; [|done]. intros _ r _ Hr%expired_internal_live.
    by apply iw_step_live. }
  apply db_rel_in_tx; [apply _|]. intros w [] w' Ht H.
  apply st_bind_Ok in H as (t' & w1 & [= <- <-] & H).
  apply st_bind_Ok in H as (ids & w2 & (d & Hd & ->)%exec_Ok & H).
  injection Hd as <- <-.
  destruct (fail_late_ledger (w_db w)
    (expired_external (w_now w - AllowableBlockchainLagging)) (expired_external_live _))
    as [Hl Hoff].
  apply idle_all_off in H as [HR HT]; [|done].
  split; [|done]. intros I. destruct (HR (Hoff I)) as [HL _]. by apply (transitivity Hl HL).
Qed.

(** ** Starting to pay: [CreateExternalWithdrawals] *)

(** What the caller must know of the tasks: each request once, and none of
    them being paid. *)
Definition payable (ids : list Z) (d : DB) : Prop :=
  NoDup ids ∧ ∀ q, q ∈ ids →
    (q ∉ live_ids (external_withdrawals d)) ∧ q < withdrawal_requests_seq d.

Lemma pay_one_ledger t u e d d1 :
  db_inv d → (et_QueryID t ∉ live_ids (external_withdrawals d)) →
  et_QueryID t < withdrawal_requests_seq d →
  insert_unique (λ r, (xw_msg_uuid r, xw_address r)) (new_external u e t)
    (external_withdrawals d) = Ok d1 →
  let d' := set_withdrawal_requests
    (update_where (λ r, bool_decide (wr_query_id r = et_QueryID t)) (set_wr_processing true)
       (withdrawal_requests d)) (set_external_withdrawals d1 d) in
  db_inv d' ∧ evolves d d' ∧
  live_ids (external_withdrawals d') = live_ids (external_withdrawals d) ++ [et_QueryID t].
Proof.
  intros I Hq Hs Hi d'. pose proof (insert_unique_NoDup _ _ _ _ Hi (inv_external d I)) as Hnd.
  apply insert_unique_Ok in Hi as [_ ->].
  assert (live_ids (external_withdrawals d') =
          live_ids (external_withdrawals d) ++ [et_QueryID t]) as Hlive.
  { apply live_ids_snoc. }
  split_and!; [|split; simpl; try reflexivity|done].
  - destruct I; split; simpl in *; auto; rewrite ?Hlive.
    + by rewrite map_key_update_where.
    + by rewrite map_key_update_where.
    + apply NoDup_app. split_and!; [done| |apply NoDup_singleton]. set_solver.
    + intros r (r0 & Hr0 & ->)%elem_of_update_where.
      case_bool_decide as Hd; [done|]. intros Hp. specialize (inv_idle0 _ Hr0 Hp). set_solver.
    + intros r (r0 & Hr0 & ->)%elem_of_update_where. case_bool_decide; simpl; auto.
    + intros r [Hr| ->%list_elem_of_singleton]%elem_of_app; auto.
  - apply grows_snoc; apply _.
  - apply grows_update; [apply _|]. intros r _ _. by split.
Qed.
End operations.
