(* ===== verification/BlockScanner.v ===== *)
(** * [core/block_scanner.go], [core/helper.go]: what a block means

    The scanner turns the transactions of one block into events and saves them
    in one database transaction. The [process...] methods only read, so they
    are functions that return [res]; [processBlock] runs in the world. The
    audit and log lines are left out, except for the calls their arguments
    make, which can panic. *)

From S2P Require Import Prelude TonUtils Config Models Core Db AddressBook Repository.
From stdpp Require Import pretty.

Local Open Scope string_scope.
Local Open Scope list_scope.
Local Open Scope Z_scope.

(** [incomeNotification] *)
Record incomeNotification := {
  n_Deposit : string;
  n_Timestamp : Z;
  n_Amount : string;
  n_Source : string;
  n_Comment : string;
}.

#[export] Instance incomeNotification_eq_dec : EqDecision incomeNotification.
Proof. solve_decision. Defined.

Section decode.
Context `{TL : TvmLib} `{UL : UuidLib}.

(** [core/helper.go] *)
Definition LoadComment (c : option Cell) : string :=
  match c with
  | None => ""
  | Some c =>
      match LoadUInt 32 (BeginParse c) with
      | Some (v, l) => if decide (v = 0) then default "" (LoadStringSnake l) else ""
      | None => ""
      end
  end.

Record jettonTransferNotificationMsg := {
  jn_Amount : Coins; jn_Sender : option tonaddr; jn_Comment : string;
}.

Record JettonTransferMsg := {
  jt_Amount : Coins; jt_Destination : option tonaddr; jt_Comment : string;
}.

Record HighLoadWalletExtMsgInfo := {
  hi_UUID : UUID; hi_TTL : Z; hi_Messages : list Cell;
}.

(** [msg.Payload()] of a message that may be nil. *)
Definition payload_of (msg : option (InternalMessage tonaddr Cell)) : res Cell :=
  match msg with
  | None => Err (EText "nil msg")
  | Some m => of_option (EText "empty payload") (im_Payload m)
  end.

Definition decodeJettonTransferNotification (msg : option (InternalMessage tonaddr Cell))
    : res jettonTransferNotificationMsg :=
  let! payload := payload_of msg in
  let! n := of_option (ELib "tlb") (LoadFromCell_notification (BeginParse payload)) in
  Ok {| jn_Amount := NewCoins (nt_Amount n); jn_Sender := nt_Sender n;
        jn_Comment := LoadComment (nt_ForwardPayload n) |}.

Definition DecodeJettonTransfer (msg : option (InternalMessage tonaddr Cell))
    : res JettonTransferMsg :=
  let! payload := payload_of msg in
  let! t := of_option (ELib "tlb") (LoadFromCell_transfer (BeginParse payload)) in
  Ok {| jt_Amount := NewCoins (tr_Amount t); jt_Destination := tr_Destination t;
        jt_Comment := LoadComment (tr_ForwardPayload t) |}.

Definition decodeJettonExcesses (msg : option (InternalMessage tonaddr Cell)) : res Z :=
  let! payload := payload_of msg in
  of_option (ELib "tlb") (LoadFromCell_excesses (BeginParse payload)).

(** The identifier is the first half of the hash of the body; slicing a
    shorter hash panics. *)
Definition getHighLoadWalletExtMsgInfo (extMsg : ExternalMessage tonaddr Cell)
    : res HighLoadWalletExtMsgInfo :=
  let! body := of_option (EText "nil body for external message") (em_Payload extMsg) in
  let hash := cell_Hash body in
  if decide (length hash < 16)%nat then Panic else
  let! u := of_option (ELib "uuid") (uuid_FromBytes (take 16 hash)) in
  let! data := of_option (ELib "tlb") (LoadFromCell_highload (BeginParse body)) in
  Ok {| hi_UUID := u;
        hi_TTL := time_Unix (Z.land (Z.shiftr (hl_BoundedID data) 32) 0xFFFFFFFF);
        hi_Messages := hl_Messages data |}.

(** The address one message of the batch pays. [None]: not a valid one. *)
Definition batch_address (m : Cell) : res (option Address) :=
  let! msgCell := of_option (ELib "cell") (LoadRef (BeginParse m)) in
  let! intMsg := of_option (ELib "tlb") (LoadFromCell_message msgCell) in
  let dst := match DecodeJettonTransfer (Some intMsg) with
             | Ok jettonTransfer => jt_Destination jettonTransfer
             | _ => im_DstAddr intMsg
             end in
  match AddressFromTonutilsAddress dst with
  | Ok addr => Ok (Some addr)
  | _ => Ok None
  end.

(** The loop of [parseExternalMessage]: it stops at the first address that
    is not usable or already there. *)
Fixpoint batch_addresses (addrMap : gset Address) (ms : list Cell) : res (option (gset Address)) :=
  match ms with
  | [] => Ok (Some addrMap)
  | m :: ms =>
      let! a := batch_address m in
      match a with
      | None => Ok None
      | Some addr =>
          if decide (addr ∈ addrMap) then Ok None
          else batch_addresses ({[ addr ]} ∪ addrMap) ms
      end
  end.

(** [None]: [isValidWithdrawal] is false. *)
Definition parseExternalMessage (msg : option (ExternalMessage tonaddr Cell))
    : res (option (UUID * gset Address)) :=
  match msg with
  | None => Err (EText "nil msg")
  | Some msg =>
      let! info := getHighLoadWalletExtMsgInfo msg in
      let! m := batch_addresses ∅ (hi_Messages info) in
      Ok (match m with Some addrMap => Some (hi_UUID info, addrMap) | None => None end)
  end.

(** [tx.IO.Out.ToSlice()] and [tx.IO.Out.List.All()]; the field of a nil
    list can not be read. *)
Definition out_messages (tx : Transaction tonaddr Cell) : res (list (Message tonaddr Cell)) :=
  match tx_Out tx with
  | None => ToSlice_nil
  | Some l => ml_ToSlice l
  end.

Definition out_list_all (tx : Transaction tonaddr Cell) : res (list Cell) :=
  match tx_Out tx with
  | None => Panic
  | Some l => Ok (ml_All l)
  end.

(** [addr.String()], for a log line. *)
Definition log_addr (a : option tonaddr) : res unit :=
  match a with
  | Some _ => Ok tt
  | None => res_map (λ _, tt) String_nil
  end.
End decode.

(** Every kind of transaction is successful. *)
Definition isTxSuccessful {A C} (tx : Transaction A C) : bool :=
  match tx_Description tx with
  | TransactionDescriptionOrdinary => true
  | TransactionDescriptionTickTock => true
  | TransactionDescriptionOther => true
  end.

Section scanner.
Context `{TL : TvmLib} `{UL : UuidLib} `{GR : GoRuntime}.
Context (addressBook : AddressBook).

(** [transactions] *)
Record transactions := {
  ts_Address : Address;
  ts_WalletType : option WalletType;    (** [None] is the empty type *)
  ts_Transactions : list (Transaction tonaddr Cell);
}.

Definition failed_withdrawal (u : UUID) (a : Address) : ExternalWithdrawal := {|
  ew_ExtMsgUuid := u; ew_Utime := 0; ew_Lt := 0; ew_To := a; ew_Amount := 0;
  ew_Comment := ""; ew_IsFailed := true |}.

Definition failedWithdrawals (inMap outMap : gset Address) (u : UUID)
    : res (list ExternalWithdrawal) :=
  for_res (λ w i,
    let! dst := GetWalletType addressBook i in
    Ok (if decide ((i ∉ outMap) ∧ dst = None) then w ++ [failed_withdrawal u i] else w))
  [] (map_order (elements inMap)).

Definition EInvalidAddress : err := EText "invalid address in withdrawal message".

Definition processTonHotWalletProxyMsg (msg : InternalMessage tonaddr Cell) : res Events :=
  let! body := match im_Payload msg with
               | Some b => Ok (BeginParse b)
               | None => BeginParse_nil
               end in
  let! internalPayload := of_option (EText "no internal payload to proxy contract") (LoadRef body) in
  let! intMsg := of_option (EText "can not decode payload message for proxy contract")
                   (LoadFromCell_message internalPayload) in
  let! destType := GetWalletTypeByTonutilsAddress addressBook (im_DstAddr intMsg) in
  if decide (destType = Some JettonDepositWallet) then
    let! jettonTransfer := res_wrap (EText "invalid jetton transfer message to deposit jetton wallet")
                             (DecodeJettonTransfer (Some intMsg)) in
    let! a := res_wrap EInvalidAddress
                (AddressFromTonutilsAddress (jt_Destination jettonTransfer)) in
    Ok (Build_Events [] [] [{| sc_Lt := im_CreatedLT msg; sc_From := a;
                               sc_Memo := jt_Comment jettonTransfer |}] [] [] [])
  else Ok no_events.

Definition sent_withdrawal (u : UUID) (msg : InternalMessage tonaddr Cell) (to : Address)
    (amount : Coins) (comment : string) : ExternalWithdrawal := {|
  ew_ExtMsgUuid := u; ew_Utime := im_CreatedAt msg; ew_Lt := im_CreatedLT msg; ew_To := to;
  ew_Amount := amount; ew_Comment := comment; ew_IsFailed := false |}.

(** One out message of the hot wallet: the events so far and the addresses
    the out messages paid. *)
Definition hot_wallet_out (u : UUID) (acc : Events * gset Address) (m : Message tonaddr Cell)
    : res (Events * gset Address) :=
  let '(events, addrMapOut) := acc in
  match m with
  | MsgTypeInternal msg =>
      let! addr := res_wrap EInvalidAddress (AddressFromTonutilsAddress (im_DstAddr msg)) in
      let! dstType := GetWalletTypeByTonutilsAddress addressBook (im_DstAddr msg) in
      match dstType with
      | Some JettonHotWallet =>
          let! jettonTransfer :=
            res_wrap (EText "invalid jetton transfer message to hot jetton wallet")
              (DecodeJettonTransfer (Some msg)) in
          let! a := res_wrap EInvalidAddress
                      (AddressFromTonutilsAddress (jt_Destination jettonTransfer)) in
          Ok (Append events (Build_Events [] [] [] []
                [sent_withdrawal u msg a (jt_Amount jettonTransfer) (jt_Comment jettonTransfer)] []),
              {[ a ]} ∪ addrMapOut)
      | Some JettonOwner =>
          let! e := res_wrap (EText "jetton withdrawal error") (processTonHotWalletProxyMsg msg) in
          Ok (Append events e, {[ addr ]} ∪ addrMapOut)
      | Some _ => Ok (events, {[ addr ]} ∪ addrMapOut)
      | None =>
          Ok (Append events (Build_Events [] [] [] []
                [sent_withdrawal u msg addr (NewCoins (im_Amount msg)) (im_Comment msg)] []),
              {[ addr ]} ∪ addrMapOut)
      end
  | _ => Err (EText "anomalous behavior of the TON hot wallet")
  end.

Definition processTonHotWalletExternalInMsg (inMsg : ExternalMessage tonaddr Cell)
    (tx : Transaction tonaddr Cell) : res Events :=
  let! parsed := parseExternalMessage (Some inMsg) in
  match parsed with
  | None => Err (EText "not valid message")
  | Some (u, addrMapIn) =>
      let! messages := out_messages tx in
      let! (events, addrMapOut) := for_res (hot_wallet_out u) (no_events, ∅) messages in
      let! failed := failedWithdrawals addrMapIn addrMapOut u in
      Ok (Append events (Build_Events [] [] [] [] failed []))
  end.

Definition internal_income (inMsg : InternalMessage tonaddr Cell) (from to : Address)
    (amount : Coins) (memo : string) (failed : bool) : InternalIncome := {|
  ii_Utime := im_CreatedAt inMsg; ii_Lt := im_CreatedLT inMsg; ii_From := from; ii_To := to;
  ii_Amount := amount; ii_Memo := memo; ii_IsFailed := failed |}.

Definition processTonHotWalletInternalInMsg (inMsg : InternalMessage tonaddr Cell)
    (tx : Transaction tonaddr Cell) : res Events :=
  let! srcAddr := AddressFromTonutilsAddress (im_SrcAddr inMsg) in
  let! dstAddr := AddressFromTonutilsAddress (im_DstAddr inMsg) in
  let! srcType := GetWalletType addressBook srcAddr in
  match srcType with
  | None =>
      match decodeJettonExcesses (Some inMsg) with
      | Ok queryID => Ok (Build_Events [] [] [] [] [] [{| jc_QueryId := queryID |}])
      | _ => Ok no_events
      end
  | Some TonDepositWallet =>
      Ok (Build_Events [] [internal_income inMsg srcAddr dstAddr (NewCoins (im_Amount inMsg))
                             (im_Comment inMsg) (negb (isTxSuccessful tx))] [] [] [] [])
  | Some JettonHotWallet =>
      match decodeJettonTransferNotification (Some inMsg) with
      | Ok income =>
          let! sender := AddressFromTonutilsAddress (jn_Sender income) in
          let! fromType := GetWalletType addressBook sender in
          if decide (fromType = Some JettonOwner) then
            Ok (Build_Events [] [internal_income inMsg sender srcAddr (jn_Amount income)
                                   (jn_Comment income) false] [] [] [] [])
          else Ok no_events
      | _ => Ok no_events
      end
  | Some _ => Ok no_events
  end.

Definition EHotAnomaly : err := EText "anomalous behavior of the TON hot wallet".
Definition EDepositAnomaly : err := EText "anomalous behavior of the deposit TON wallet".

Definition processTonHotWalletTX (tx : Transaction tonaddr Cell) : res Events :=
  match tx_In tx with
  | None => Err EHotAnomaly
  | Some (MsgTypeExternalIn m) => processTonHotWalletExternalInMsg m tx
  | Some (MsgTypeInternal m) => processTonHotWalletInternalInMsg m tx
  | Some MsgTypeExternalOut => Err EHotAnomaly
  end.

Definition processTonHotWalletTXs (txs : transactions) : res Events :=
  for_res (λ events tx, let! e := processTonHotWalletTX tx in Ok (Append events e))
    no_events (ts_Transactions txs).

(** One out message of a TON deposit. *)
Definition deposit_out (dstAddr : Address) (events : Events) (o : Message tonaddr Cell)
    : res Events :=
  match o with
  | MsgTypeInternal msg =>
      let! t := GetWalletTypeByTonutilsAddress addressBook (im_DstAddr msg) in
      if decide (t = Some TonHotWallet) then
        Ok (Append events (Build_Events [] []
          [{| sc_Lt := im_CreatedLT msg; sc_From := dstAddr; sc_Memo := im_Comment msg |}]
          [{| iw_Utime := im_CreatedAt msg; iw_Lt := im_CreatedLT msg; iw_From := dstAddr;
              iw_Amount := NewCoins (im_Amount msg); iw_Memo := im_Comment msg;
              iw_IsFailed := false |}] [] []))
      else
        let! _ := log_addr (im_SrcAddr msg) in
        let! _ := log_addr (im_DstAddr msg) in
        Ok events
  | _ => Err EDepositAnomaly
  end.

Definition processTonDepositWalletExternalInMsg (inMsg : ExternalMessage tonaddr Cell)
    (tx : Transaction tonaddr Cell) : res Events :=
  let! dstAddr := AddressFromTonutilsAddress (em_DstAddr inMsg) in
  let! messages := out_messages tx in
  for_res (deposit_out dstAddr) no_events messages.

Definition processTonDepositWalletInternalInMsg (inMsg : InternalMessage tonaddr Cell)
    : res Events :=
  let! dstAddr := AddressFromTonutilsAddress (im_DstAddr inMsg) in
  let! srcType := match im_SrcAddr inMsg with Some a => Ok (addr_Type a) | None => Type_nil end in
  let! (from, known, fromWorkchain) :=
    (if decide (srcType = StdAddress) then
       let! from := AddressFromTonutilsAddress (im_SrcAddr inMsg) in
       let! t := GetWalletType addressBook from in
       Ok (from, bool_decide (t ≠ None), addr_Workchain <$> im_SrcAddr inMsg)
     else Ok (zero_bytes 32, false, None)) in
  if (known : bool) then Ok no_events
  else Ok (Build_Events [{|
    ei_Utime := im_CreatedAt inMsg; ei_Lt := im_CreatedLT inMsg; ei_From := Some (ToBytes from);
    ei_FromWorkchain := fromWorkchain; ei_To := dstAddr; ei_Amount := NewCoins (im_Amount inMsg);
    ei_Comment := im_Comment inMsg |}] [] [] [] [] []).

Definition processTonDepositWalletTX (tx : Transaction tonaddr Cell) : res Events :=
  match tx_In tx with
  | None => Err EDepositAnomaly
  | Some m =>
      if negb (isTxSuccessful tx) then Ok no_events else
      match m with
      | MsgTypeExternalIn e => processTonDepositWalletExternalInMsg e tx
      | MsgTypeInternal i =>
          let! outs := out_list_all tx in
          if decide (outs ≠ []) then Err EDepositAnomaly
          else processTonDepositWalletInternalInMsg i
      | MsgTypeExternalOut => Err EDepositAnomaly
      end
  end.

Definition processTonDepositWalletTXs (txs : transactions) : res Events :=
  for_res (λ events tx, let! e := processTonDepositWalletTX tx in Ok (Append events e))
    no_events (ts_Transactions txs).

(** ** Jetton deposits *)

Definition sender_source (sender : option tonaddr) : option (list Z) * option Z :=
  match sender with
  | Some a =>
      if decide (addr_Type a = StdAddress ∨ addr_Type a = VarAddress)
      then (Some (addr_Data a), Some (addr_Workchain a)) else (None, None)
  | None => (None, None)
  end.

(** One out message of a jetton deposit: the events, the amount the known
    incomes add and whether some message was not understood. *)
Definition jetton_out (acc : Events * Z * bool) (m : Message tonaddr Cell)
    : res (Events * Z * bool) :=
  let '(events, knownIncomeAmount, unknownMsgFound) := acc in
  match m with
  | MsgTypeInternal outMsg =>
      let! srcAddr := AddressFromTonutilsAddress (im_SrcAddr outMsg) in
      match decodeJettonTransferNotification (Some outMsg) with
      | Ok notify =>
          let! sender := GetWalletTypeByTonutilsAddress addressBook (jn_Sender notify) in
          match sender with
          | Some _ => Ok (events, knownIncomeAmount, unknownMsgFound)
          | None =>
              let! dstAddr := AddressFromTonutilsAddress (im_DstAddr outMsg) in
              let! owner := GetOwner addressBook srcAddr in
              match owner with
              | None => Err (EText "no owner for Jetton deposit in addressbook")
              | Some owner =>
                  if decide (dstAddr ≠ owner) then Ok (events, knownIncomeAmount, true) else
                  let '(from, fromWorkchain) := sender_source (jn_Sender notify) in
                  Ok (Append events (Build_Events [{|
                        ei_Utime := im_CreatedAt outMsg; ei_Lt := im_CreatedLT outMsg;
                        ei_From := from; ei_FromWorkchain := fromWorkchain; ei_To := srcAddr;
                        ei_Amount := jn_Amount notify; ei_Comment := jn_Comment notify |}]
                        [] [] [] [] []),
                      knownIncomeAmount + BigInt (jn_Amount notify), unknownMsgFound)
              end
          end
      | _ => Ok (events, knownIncomeAmount, true)
      end
  | _ => Ok (events, knownIncomeAmount, true)
  end.

Definition processJettonDepositOutMsgs (tx : Transaction tonaddr Cell)
    : res (Events * Z * bool) :=
  let! messages := out_messages tx in
  for_res jetton_out (no_events, 0, false) messages.

Definition jetton_withdrawal (inMsg : InternalMessage tonaddr Cell) (from : Address)
    (transfer : JettonTransferMsg) (failed : bool) : InternalWithdrawal := {|
  iw_Utime := im_CreatedAt inMsg; iw_Lt := im_CreatedLT inMsg; iw_From := from;
  iw_Amount := jt_Amount transfer; iw_Memo := jt_Comment transfer; iw_IsFailed := failed |}.

(** The events, the amount withdrawn and whether the message was not
    understood. *)
Definition processJettonDepositInMsg (tx : Transaction tonaddr Cell)
    : res (Events * Z * bool) :=
  match tx_In tx with
  | Some (MsgTypeInternal inMsg) =>
      let! dstAddr := AddressFromTonutilsAddress (im_DstAddr inMsg) in
      match DecodeJettonTransfer (Some inMsg) with
      | Ok transfer =>
          if negb (isTxSuccessful tx) then
            Ok (Build_Events [] [] [] [jetton_withdrawal inMsg dstAddr transfer true] [] [],
                0, false)
          else
          let! outs := out_list_all tx in
          if decide (length outs < 1)%nat then
            Err (EText "anomalous behavior of the deposit Jetton wallet")
          else
          let! destType := GetWalletTypeByTonutilsAddress addressBook (jt_Destination transfer) in
          if decide (destType = Some TonHotWallet) then
            Ok (Build_Events [] [] [] [jetton_withdrawal inMsg dstAddr transfer false] [] [],
                BigInt (jt_Amount transfer), false)
          else
            let! _ := log_addr (im_DstAddr inMsg) in
            let! _ := log_addr (jt_Destination transfer) in
            Ok (no_events, BigInt (jt_Amount transfer), false)
      | _ => Ok (no_events, 0, true)
      end
  | _ => Ok (no_events, 0, true)
  end.

(** What the loop over the transactions of a jetton deposit has gathered. *)
Record JettonPass := {
  jp_events : Events;
  jp_knownIncomeAmount : Z;
  jp_totalWithdrawalsAmount : Z;
  jp_unknownTransactions : list (Transaction tonaddr Cell);
}.

Definition jetton_pass_start : JettonPass := Build_JettonPass no_events 0 0 [].

Definition processJettonDepositTX (p : JettonPass) (tx : Transaction tonaddr Cell)
    : res JettonPass :=
  let! (eo, knownAmount, outUnknownFound) := processJettonDepositOutMsgs tx in
  let! (ei, totalAmount, inUnknownFound) := processJettonDepositInMsg tx in
  Ok {| jp_events := Append (Append (jp_events p) eo) ei;
        jp_knownIncomeAmount := jp_knownIncomeAmount p + knownAmount;
        jp_totalWithdrawalsAmount := jp_totalWithdrawalsAmount p + totalAmount;
        jp_unknownTransactions :=
          if outUnknownFound || inUnknownFound then jp_unknownTransactions p ++ [tx]
          else jp_unknownTransactions p |}.

Definition unknown_income (addr : Address) (amount : Coins) (tx : Transaction tonaddr Cell)
    : ExternalIncome := {|
  ei_Utime := tx_Now tx; ei_Lt := tx_LT tx; ei_From := None; ei_FromWorkchain := None;
  ei_To := addr; ei_Amount := amount; ei_Comment := "" |}.

(** A zero income for each transaction, and the amount with the first one. *)
Definition convertUnknownJettonTxs (txs : list (Transaction tonaddr Cell)) (addr : Address)
    (amount : Z) : list ExternalIncome :=
  map (unknown_income addr ZeroCoins) txs ++
  match txs with
  | [] => []
  | tx :: _ => [unknown_income addr (NewCoins amount) tx]
  end.

Context `{TW : !TonWalletLib} (wallets : Wallet).

Definition calculateJettonAmounts (address : Address) (prevBlockID blockID : option BlockIDExt)
    (knownIncomeAmount totalWithdrawalsAmount : Z) : res Z :=
  let! prevBalance := GetJettonBalance wallets (ToTonutilsAddressStd 0 address) prevBlockID in
  let! currentBalance := GetJettonBalance wallets (ToTonutilsAddressStd 0 address) blockID in
  let diff := currentBalance - prevBalance in
  let totalIncomeAmount := diff + totalWithdrawalsAmount in
  Ok (totalIncomeAmount - knownIncomeAmount).

Definition processJettonDepositWalletTXs (txs : transactions)
    (blockID prevBlockID : option BlockIDExt) : res Events :=
  let! p := for_res processJettonDepositTX jetton_pass_start (ts_Transactions txs) in
  let! unknownIncomeAmount := calculateJettonAmounts (ts_Address txs) prevBlockID blockID
                                (jp_knownIncomeAmount p) (jp_totalWithdrawalsAmount p) in
  if decide (unknownIncomeAmount > 0) then
    Ok (Append (jp_events p) (Build_Events
          (convertUnknownJettonTxs (jp_unknownTransactions p) (ts_Address txs) unknownIncomeAmount)
          [] [] [] [] []))
  else Ok (jp_events p).

(** ** Blocks *)

Definition process_group (block : ShardBlockHeader) (t : transactions) : res Events :=
  match ts_WalletType t with
  | Some TonHotWallet => processTonHotWalletTXs t
  | Some TonDepositWallet => processTonDepositWalletTXs t
  | Some JettonDepositWallet =>
      processJettonDepositWalletTXs t (sb_BlockIDExt block) (sb_Parent block)
  | _ => Ok no_events
  end.

Definition processTXs (txs : list transactions) (block : ShardBlockHeader) : res BlockEvents :=
  let! e := for_res (λ events t, let! e := process_group block t in Ok (Append events e))
              no_events txs in
  Ok {| be_Events := e; be_Block := block |}.

Context (blockchain : Blockchain).

Abbreviation tx_map := (gmap Address (list (Transaction tonaddr Cell))).

Definition filter_tx (blockID : option BlockIDExt) (txMap : tx_map) (id : TransactionShortInfo)
    : res tx_map :=
  let! a := AddressFromBytes (ti_Account id) in
  let! t := GetWalletType addressBook a in
  match t with
  | None => Ok txMap
  | Some _ =>
      let! tx := GetTransactionFromBlock blockchain blockID id in
      Ok (<[a := default [] (txMap !! a) ++ [tx]]> txMap)
  end.

Definition filterTXs (blockID : option BlockIDExt) (ids : list TransactionShortInfo)
    : res (list transactions) :=
  let! txMap := for_res (filter_tx blockID) ∅ ids in
  for_res (λ acc at_,
    let! wType := GetWalletType addressBook at_.1 in
    Ok (acc ++ [{| ts_Address := at_.1; ts_WalletType := wType; ts_Transactions := at_.2 |}]))
  [] (map_order (map_to_list txMap)).

(** ** Notifications *)

Context `{PG : PgLib} {O : Type} (config : Config).
Abbreviation DBM := (ST (World O)).
(** The [models.Notificator]s of the scanner: their [Publish] methods. *)
Context (notificators : list (incomeNotification → DBM unit)).

Definition notification (deposit : Address) (amount : Coins) (timestamp : Z)
    (from : option (list Z)) (fromWorkchain : option Z) (comment : string) : incomeNotification := {|
  n_Deposit := ToUserFormat (cfg_Testnet config) deposit;
  n_Timestamp := timestamp;
  n_Amount := pretty amount;
  n_Source :=
    match from, fromWorkchain with
    | Some from, Some wc =>
        if decide (length from = 32%nat) then
          addr_String (addr_SetTestnetOnly (cfg_Testnet config) (NewAddress 0 (wc `mod` 256) from))
        else ""
    | _, _ => ""
    end;
  n_Comment := comment |}.

Definition pushNotification (addr : Address) (amount : Coins) (timestamp : Z)
    (from : option (list Z)) (fromWorkchain : option Z) (comment : string) : DBM unit :=
  do! owner <- st_lift (GetOwner addressBook addr);
  let addr := default addr owner in
  each_st (λ publish, publish (notification addr amount timestamp from fromWorkchain comment))
    notificators.

Definition pushNotifications (e : BlockEvents) : DBM unit :=
  if decide (length notificators = 0%nat) then st_ret tt
  else if cfg_IsDepositSideCalculation config then
    each_st (λ ei, pushNotification (ei_To ei) (ei_Amount ei) (ei_Utime ei) (ei_From ei)
                     (ei_FromWorkchain ei) (ei_Comment ei)) (ExternalIncomes (be_Events e))
  else
    each_st (λ ii, pushNotification (ii_From ii) (ii_Amount ii) (ii_Utime ii) None None "")
      (InternalIncomes (be_Events e)).

Definition save_lists (e : Events) : DBM unit :=
  do! _ <- each_st SaveExternalIncome (ExternalIncomes e);
  do! _ <- each_st SaveInternalIncome (InternalIncomes e);
  do! _ <- each_st ApplySendingConfirmations (SendingConfirmations e);
  do! _ <- each_st UpdateInternalWithdrawal (InternalWithdrawals e);
  do! _ <- each_st UpdateExternalWithdrawal (ExternalWithdrawals e);
  each_st ApplyJettonWithdrawalConfirmation (WithdrawalConfirmations e).

(** The body of the transaction. *)
Definition save_events (events : BlockEvents) : DBM unit :=
  do! _ <- save_lists (be_Events events);
  SaveBlock (be_Block events).

Definition SaveParsedBlockData (events : BlockEvents) : DBM unit := RunInTx (save_events events).

(** What reading a block yields, before anything is sent or saved. *)
Definition parse_block (block : ShardBlockHeader) : res BlockEvents :=
  let! txIDs := GetTransactionIDsFromBlock blockchain (sb_BlockIDExt block) in
  let! filteredTXs := filterTXs (sb_BlockIDExt block) txIDs in
  processTXs filteredTXs block.

(** [log.Infof] reads [block.SeqNo] through the embedded pointer. *)
Definition processBlock (block : ShardBlockHeader) : DBM unit :=
  if decide (sb_BlockIDExt block = None) then st_lift Panic else
  do! e <- st_lift (parse_block block);
  do! _ <- pushNotifications e;
  SaveParsedBlockData e.

(** One turn of [Start]: an error is logged and the block is left behind. *)
Definition scan_one (block : option ShardBlockHeader) : DBM unit :=
  match block with
  | None => st_ret tt
  | Some b => do! _ <- st_try (processBlock b); st_ret tt
  end.

(** [Start] over the blocks the channel delivers. *)
Definition scan (blocks : list (option ShardBlockHeader)) : DBM unit := each_st scan_one blocks.
End scanner.
