(* ===== verification/BlockScannerFacts.v ===== *)
(** * What the scanner promises

    The theorems about [core/block_scanner.go]: the accounting of jetton
    deposits, the outcome reported for every payment of a batch, the pairing of
    confirmations and withdrawals, the grouping of transactions whatever the order
    of Go maps, and what the events of a block are. *)

From S2P Require Import Prelude TonUtils Config Models Core Db AddressBook Repository BlockScanner.

Local Open Scope string_scope.
Local Open Scope list_scope.
Local Open Scope Z_scope.

(** ** Events as accumulators *)

(** The events a loop [for tx { e := f(tx); events.Append(e) }] gathers. *)
Lemma for_append {A} (f : A → res Events) l e0 e :
  for_res (λ events x, let! e := f x in Ok (Append events e)) e0 l = Ok e ↔
  ∃ es, Forall2 (λ x e, f x = Ok e) l es ∧ e = foldl Append e0 es.
Proof.
  revert e0. induction l as [|x l IH]; intros e0; simpl.
  - split; [intros [= <-]; by exists []|]. intros (es & H & ->). by inversion H.
  - rewrite res_bind_Ok. split.
    + intros (e1 & H1 & H2). apply res_bind_Ok in H1 as (ex & Hx & [= <-]).
      apply IH in H2 as (es & Hes & ->). exists (ex :: es). split; [by constructor|done].
    + intros (es & H & ->). apply Forall2_cons_inv_l in H as (ex & es' & Hx & Hes & ->).
      exists (Append e0 ex). rewrite Hx. split; [done|]. apply IH. eauto.
Qed.

(** ** Jetton deposits: incomes add up to the balance *)

Section jettons.
Context `{TL : TvmLib} `{TW : !TonWalletLib}.
Context (ab : AddressBook) (ws : Wallet).

Lemma jetton_out_amount acc m acc' :
  jetton_out ab acc m = Ok acc' →
  sumZ ei_Amount (ExternalIncomes acc.1.1) = acc.1.2 →
  sumZ ei_Amount (ExternalIncomes acc'.1.1) = acc'.1.2.
Proof.
  destruct acc as [[e k] u]. simpl. intros H Hk. destruct m as [msg| |]; simplify_eq/=; try done.
  apply res_bind_Ok in H as (src & _ & H).
  destruct (decodeJettonTransferNotification _) as [n| | |]; simplify_eq/=; try done.
  apply res_bind_Ok in H as ([] & _ & H); [by simplify_eq/=|].
  apply res_bind_Ok in H as (dst & _ & H). apply res_bind_Ok in H as ([o|] & _ & H); [|done].
  case_decide; [by simplify_eq/=|]. destruct (sender_source _). simplify_eq/=.
  rewrite sumZ_snoc. simpl. unfold BigInt. lia.
Qed.

Lemma out_msgs_amount tx e k u :
  processJettonDepositOutMsgs ab tx = Ok (e, k, u) → sumZ ei_Amount (ExternalIncomes e) = k.
Proof.
  intros (ms & _ & H)%res_bind_Ok.
  change (sumZ ei_Amount (ExternalIncomes (e, k, u).1.1) = (e, k, u).1.2).
  eapply (for_res_inv (λ _ acc, sumZ ei_Amount (ExternalIncomes acc.1.1) = acc.1.2));
    [| |exact H]; [done|]. intros done x b b' _ Hb Hx. by eapply jetton_out_amount.
Qed.

(** The in message of a jetton deposit yields withdrawals only: at most one,
    of an amount that is part of the amount withdrawn. *)
Lemma in_msg_amount tx e w u :
  processJettonDepositInMsg ab tx = Ok (e, w, u) →
  ExternalIncomes e = [] ∧
  (InternalWithdrawals e = [] ∨ ∃ iw, InternalWithdrawals e = [iw] ∧ iw_Amount iw = w).
Proof.
  unfold processJettonDepositInMsg. intros H.
  destruct (tx_In tx) as [[msg| |]|]; simplify_eq/=; auto.
  apply res_bind_Ok in H as (dst & _ & H).
  destruct (DecodeJettonTransfer _) as [t| | |]; simplify_eq/=; auto.
  assert (isTxSuccessful tx = true) as Hs by (unfold isTxSuccessful; by destruct (tx_Description tx)).
  rewrite Hs in H. simpl in H. apply res_bind_Ok in H as (outs & _ & H).
  case_decide; [done|]. apply res_bind_Ok in H as (dt & _ & H). case_decide.
  - simplify_eq/=. split; [done|]. right. by eexists.
  - apply res_bind_Ok in H as (? & _ & H). apply res_bind_Ok in H as (? & _ & H). simplify_eq/=. auto.
Qed.

(** What the loop keeps: the incomes sum to the known amount, the reported
    withdrawals to no more than the total withdrawn. *)
Definition pass_ok (p : JettonPass) : Prop :=
  sumZ ei_Amount (ExternalIncomes (jp_events p)) = jp_knownIncomeAmount p.

Lemma pass_amounts txs p :
  for_res (processJettonDepositTX ab) jetton_pass_start txs = Ok p → pass_ok p.
Proof.
  apply (for_res_inv (λ _ p, pass_ok p)); [done|].
  unfold pass_ok. intros done tx b b' _ Hb Hx. unfold processJettonDepositTX in Hx.
  apply res_bind_Ok in Hx as ([[eo k] uo] & Ho & Hx).
  apply res_bind_Ok in Hx as ([[ei w] ui] & Hi & [= <-]). simpl.
  apply out_msgs_amount in Ho. apply in_msg_amount in Hi as [Hi _].
  rewrite Hi, app_nil_r, sumZ_app. lia.
Qed.

Lemma convertUnknown_amount txs a u :
  sumZ ei_Amount (convertUnknownJettonTxs txs a u) = match txs with [] => 0 | _ => u end.
Proof.
  unfold convertUnknownJettonTxs. rewrite sumZ_app.
  rewrite (sumZ_const0 _ (map _ _)).
  - destruct txs; [done|]. unfold sumZ, NewCoins. simpl. lia.
  - intros x (tx & -> & _)%list_elem_of_fmap. done.
Qed.

(** C23. Accounting of a jetton deposit: the incomes recorded for a block sum
    to what came in according to the balance (the growth of the balance plus
    what was withdrawn) whenever that exceeds the notified incomes and some
    message was not understood, and to the notified incomes otherwise. *)
Theorem jetton_accounting txs blk prv e :
  processJettonDepositWalletTXs ab ws txs blk prv = Ok e →
  ∃ p before after,
    for_res (processJettonDepositTX ab) jetton_pass_start (ts_Transactions txs) = Ok p ∧
    GetJettonBalance ws (ToTonutilsAddressStd 0 (ts_Address txs)) prv = Ok before ∧
    GetJettonBalance ws (ToTonutilsAddressStd 0 (ts_Address txs)) blk = Ok after ∧
    let income := after - before + jp_totalWithdrawalsAmount p in
    sumZ ei_Amount (ExternalIncomes e) =
      if decide (income > jp_knownIncomeAmount p ∧ jp_unknownTransactions p ≠ [])
      then income else jp_knownIncomeAmount p.
Proof.
  intros (p & Hp & H)%res_bind_Ok. apply res_bind_Ok in H as (u & Hu & H).
  unfold calculateJettonAmounts in Hu. apply res_bind_Ok in Hu as (before & Hb & Hu).
  apply res_bind_Ok in Hu as (after & Ha & [= <-]).
  exists p, before, after. split_and!; [done..|].
  pose proof (pass_amounts _ _ Hp) as Hk. unfold pass_ok in Hk. cbv zeta.
  case_decide as Hpos; simplify_eq/=.
  - rewrite sumZ_app, Hk, convertUnknown_amount.
    destruct (jp_unknownTransactions p); case_decide as Hc; try lia.
    + naive_solver.
    + destruct Hc. split; [lia|done].
  - rewrite decide_False; [done|]. lia.
Qed.
End jettons.

(** ** Batches of the hot wallet: every payment gets one outcome *)

Section batches.
Context `{TL : TvmLib} `{UL : UuidLib} `{GR : GoRuntime}.
Context (ab : AddressBook).

(** The addresses a batch pays, read one message at a time. *)
Lemma batch_addresses_Ok acc ms m :
  batch_addresses acc ms = Ok (Some m) →
  ∃ addrs, Forall2 (λ c a, batch_address c = Ok (Some a)) ms addrs ∧ NoDup addrs ∧
    (∀ a, a ∈ addrs → a ∉ acc) ∧ m = list_to_set addrs ∪ acc.
Proof.
  revert acc. induction ms as [|c ms IH]; intros acc H; simpl in H.
  - simplify_eq. exists []. split_and!; [done|constructor|set_solver|set_solver].
  - apply res_bind_Ok in H as ([a|] & Ha & H); [|done]. case_decide as Hin; [done|].
    apply IH in H as (addrs & Hf & Hnd & Hacc & ->). exists (a :: addrs). split_and!.
    + by constructor.
    + constructor; [|done]. intros Ha'. apply Hacc in Ha'. set_solver.
    + intros b [->|Hb]%elem_of_cons; [done|]. apply Hacc in Hb. set_solver.
    + set_solver.
Qed.

(** A batch is accepted only when its messages pay pairwise different
    addresses, and the set it yields is the set of those addresses. *)
Theorem parseExternalMessage_unique msg u addrs :
  parseExternalMessage (Some msg) = Ok (Some (u, addrs)) →
  ∃ info l, getHighLoadWalletExtMsgInfo msg = Ok info ∧ u = hi_UUID info ∧
    Forall2 (λ c a, batch_address c = Ok (Some a)) (hi_Messages info) l ∧
    NoDup l ∧ addrs = list_to_set l.
Proof.
  intros (info & Hi & H)%res_bind_Ok. apply res_bind_Ok in H as ([m|] & Hm & [=]).
  subst. apply batch_addresses_Ok in Hm as (l & Hf & Hnd & _ & ->).
  exists info, l. split_and!; [done..|]. set_solver.
Qed.

Lemma failedWithdrawals_spec inMap outMap u ws :
  failedWithdrawals ab inMap outMap u = Ok ws →
  (∀ w, w ∈ ws ↔ ∃ a, w = failed_withdrawal u a ∧ a ∈ inMap ∧ (a ∉ outMap) ∧
                      GetWalletType ab a = Ok None) ∧
  NoDup (map ew_To ws).
Proof.
  intros H. unfold failedWithdrawals in H.
  assert ((∀ w, w ∈ ws ↔ ∃ a, w = failed_withdrawal u a ∧ a ∈ map_order (elements inMap) ∧
             (a ∉ outMap) ∧ GetWalletType ab a = Ok None) ∧
          (map ew_To ws) `sublist_of` map_order (elements inMap)) as [Hw Hsub].
  { revert H. apply (for_res_inv (λ done ws,
      (∀ w, w ∈ ws ↔ ∃ a, w = failed_withdrawal u a ∧ a ∈ done ∧ (a ∉ outMap) ∧
         GetWalletType ab a = Ok None) ∧ (map ew_To ws) `sublist_of` done)).
    - split; [set_solver|done].
    - intros done x b b' _ [IH1 IH2] (t & Ht & [= <-])%res_bind_Ok. case_decide as Hc.
      + destruct Hc as [Hx ->]. split.
        * intros w. rewrite elem_of_app, IH1, list_elem_of_singleton. split.
          -- intros [(a & ? & ? & ?)| ->]; [|by exists x; set_solver].
             exists a. set_solver.
          -- intros (a & -> & [Ha| ->%list_elem_of_singleton]%elem_of_app & ?); eauto.
        * rewrite map_app. by apply sublist_app.
      + split; [|by apply sublist_inserts_r].
        intros w. rewrite IH1. split; intros (a & -> & Ha & Ho & Hn); exists a; [set_solver|].
        split_and!; try done. apply elem_of_app in Ha as [Ha| ->%list_elem_of_singleton]; [done|].
        destruct Hc. split; [done|congruence]. }
  split.
  - intros w. rewrite Hw. setoid_rewrite elem_of_map_order. by setoid_rewrite elem_of_elements.
  - eapply sublist_NoDup; [|done]. rewrite map_order_perm. apply NoDup_elements.
Qed.

(** What the loop over the out messages keeps: every payment recorded so far
    carries the identifier of the batch, succeeded, and its address is among
    the addresses paid. *)
Definition outs_ok (u : UUID) (acc : Events * gset Address) : Prop :=
  ∀ w, w ∈ ExternalWithdrawals acc.1 →
    ew_ExtMsgUuid w = u ∧ ew_IsFailed w = false ∧ ew_To w ∈ acc.2.

Lemma proxy_no_external msg e :
  processTonHotWalletProxyMsg ab msg = Ok e → ExternalWithdrawals e = [].
Proof.
  unfold processTonHotWalletProxyMsg. intros H.
  apply res_bind_Ok in H as (? & _ & H). apply res_bind_Ok in H as (? & _ & H).
  apply res_bind_Ok in H as (? & _ & H). apply res_bind_Ok in H as (? & _ & H).
  case_decide; [|by simplify_eq]. inv_res. done.
Qed.

Lemma outs_ok_add u e addrs e' a :
  outs_ok u (e, addrs) →
  (∀ w, w ∈ ExternalWithdrawals e' →
     ew_ExtMsgUuid w = u ∧ ew_IsFailed w = false ∧ ew_To w = a) →
  outs_ok u (Append e e', {[ a ]} ∪ addrs).
Proof.
  intros Hok H w [Hw|Hw]%elem_of_app.
  - destruct (Hok w Hw) as (? & ? & ?). split_and!; [done..|]. simpl in *. set_solver.
  - destruct (H w Hw) as (? & ? & ->). split_and!; [done..|]. simpl. set_solver.
Qed.

Lemma hot_wallet_out_ok u acc m acc' :
  hot_wallet_out ab u acc m = Ok acc' → outs_ok u acc → outs_ok u acc'.
Proof.
  destruct acc as [e addrs]. unfold hot_wallet_out. intros H Hok.
  destruct m as [msg| |]; try done.
  apply res_bind_Ok in H as (addr & _ & H). apply res_bind_Ok in H as (t & _ & H).
  assert (outs_ok u (e, {[ addr ]} ∪ addrs)) as Hskip.
  { rewrite <- (Append_nil_r e). by apply outs_ok_add; [|set_solver]. }
  destruct t as [[]|]; try (injection H as <-; exact Hskip).
  - inv_res. apply outs_ok_add; [done|]. intros w ->%list_elem_of_singleton. done.
  - apply res_bind_Ok in H as (e' & He%res_wrap_Ok%proxy_no_external & H). simplify_eq/=.
    apply outs_ok_add; [done|]. rewrite He. set_solver.
  - simplify_eq/=. apply outs_ok_add; [done|]. intros w ->%list_elem_of_singleton. done.
Qed.

(** The outcome of a batch: every payment reported carries the batch's
    identifier; an address reported as failed was to be paid, was paid by no
    out message and is not one of the processor's own, and is reported once;
    and every address the batch was to pay is reported, as failed, unless an
    out message paid it or it is the processor's own. *)
Theorem batch_outcome inMsg tx e u addrsIn :
  parseExternalMessage (Some inMsg) = Ok (Some (u, addrsIn)) →
  processTonHotWalletExternalInMsg ab inMsg tx = Ok e →
  ∃ messages events addrsOut,
    out_messages tx = Ok messages ∧
    for_res (hot_wallet_out ab u) (no_events, ∅) messages = Ok (events, addrsOut) ∧
    (∀ w, w ∈ ExternalWithdrawals e → ew_ExtMsgUuid w = u) ∧
    (∀ w, w ∈ ExternalWithdrawals e → ew_IsFailed w = false → ew_To w ∈ addrsOut) ∧
    (∀ w, w ∈ ExternalWithdrawals e → ew_IsFailed w = true →
       ew_To w ∈ addrsIn ∧ (ew_To w ∉ addrsOut) ∧ GetWalletType ab (ew_To w) = Ok None) ∧
    NoDup (map ew_To (filter (λ w, ew_IsFailed w = true) (ExternalWithdrawals e))) ∧
    (∀ a, a ∈ addrsIn → a ∉ addrsOut → GetWalletType ab a = Ok None →
       failed_withdrawal u a ∈ ExternalWithdrawals e).
Proof.
  intros Hp H. unfold processTonHotWalletExternalInMsg in H. rewrite Hp in H. simpl in H.
  apply res_bind_Ok in H as (messages & Hm & H).
  apply res_bind_Ok in H as ([events addrsOut] & Ho & H).
  apply res_bind_Ok in H as (failed & Hf & [= <-]).
  exists messages, events, addrsOut. split_and!; [done..| | | | |]; simpl.
  all: apply failedWithdrawals_spec in Hf as [Hf Hnd].
  all: assert (outs_ok u (events, addrsOut)) as Hok
    by (eapply (for_res_inv (λ _ acc, outs_ok u acc)); [| |exact Ho];
        [intros w; set_solver|intros ? x b b' _ Hb Hx; by eapply hot_wallet_out_ok]).
  - intros w [Hw|Hw]%elem_of_app; [by apply Hok|]. by apply Hf in Hw as (a & -> & _).
  - intros w [Hw|Hw]%elem_of_app; [by intros; apply Hok|]. by apply Hf in Hw as (a & -> & _).
  - intros w [Hw|Hw]%elem_of_app Hfail.
    + apply Hok in Hw as (_ & ? & _). congruence.
    + by apply Hf in Hw as (a & -> & ? & ? & ?).
  - rewrite filter_app, map_app.
    assert (filter (λ w, ew_IsFailed w = true) (ExternalWithdrawals events) = []) as ->.
    { apply filter_nil_iff. intros w Hw. apply Hok in Hw as (_ & -> & _). done. }
    eapply sublist_NoDup; [exact Hnd|]. apply (fmap_sublist ew_To), sublist_filter.
  - intros a Ha Hna Hn. apply elem_of_app. right. apply Hf. eauto.
Qed.
End batches.

(** ** Grouping the transactions of a block by account *)

Section grouping.
Context `{TL : TvmLib} `{UL : UuidLib} `{GR : GoRuntime} `{TW : !TonWalletLib}.
Context (ab : AddressBook) (bc : Blockchain).

(** The entries of a block that concern one account, in the block's order. *)
Definition ids_of (a : Address) (ids : list TransactionShortInfo) : list TransactionShortInfo :=
  filter (λ id, ti_Account id = Value a) ids.

Definition known (a : Address) : Prop := ∃ t, GetWalletType ab a = Ok (Some t).

Definition group_inv (blk : option BlockIDExt) (done : list TransactionShortInfo)
    (m : gmap Address (list (Transaction tonaddr Cell))) : Prop :=
  (∀ a txs, m !! a = Some txs → known a ∧
     Forall2 (λ id tx, GetTransactionFromBlock bc blk id = Ok tx) (ids_of a done) txs) ∧
  (∀ id a, id ∈ done → ti_Account id = Value a → known a → is_Some (m !! a)) ∧
  (∀ a, m !! a = None → known a → ids_of a done = []).

Lemma ids_of_snoc a done id :
  ids_of a (done ++ [id]) = ids_of a done ++ (if decide (ti_Account id = Value a) then [id] else []).
Proof. unfold ids_of. rewrite filter_app, filter_cons, filter_nil. by case_decide. Qed.

Lemma Value_inj (a b : Address) : Value a = Value b → a = b.
Proof. intros H. by apply dsig_eq. Qed.

Lemma filter_tx_inv blk done m id m' :
  filter_tx ab bc blk m id = Ok m' → group_inv blk done m → group_inv blk (done ++ [id]) m'.
Proof.
  intros (a & Ha%AddressFromBytes_Ok & H)%res_bind_Ok (I1 & I2 & I3).
  apply res_bind_Ok in H as (t & Ht & H).
  assert (∀ b, ti_Account id = Value b ↔ b = a) as Hacc.
  { intros b. rewrite <- Ha. split; [intros Hb; by apply Value_inj|by intros ->]. }
  destruct t as [t|]; simplify_eq/=.
  - apply res_bind_Ok in H as (tx & Htx & [= <-]). split_and!.
    + intros b txs. rewrite ids_of_snoc. destruct (decide (b = a)) as [->|Hne].
      * rewrite lookup_insert_eq, decide_True by (by apply Hacc). intros [= <-].
        split; [by exists t|]. apply Forall2_app; [|by repeat constructor].
        destruct (m !! a) as [txs|] eqn:E; simpl; [by apply I1|].
        rewrite I3; [constructor|done|by exists t].
      * rewrite lookup_insert_ne by done. rewrite decide_False by (by rewrite Hacc).
        rewrite app_nil_r. apply I1.
    + intros id' b [Hin|Hin]%elem_of_app Hb Hk.
      * destruct (decide (b = a)) as [->|Hne]; [rewrite lookup_insert_eq; eauto|].
        rewrite lookup_insert_ne by done. by eapply I2.
      * apply list_elem_of_singleton in Hin as ->. apply Hacc in Hb as ->.
        rewrite lookup_insert_eq. eauto.
    + intros b Hb Hk. rewrite ids_of_snoc. destruct (decide (b = a)) as [->|Hne].
      * by rewrite lookup_insert_eq in Hb.
      * rewrite lookup_insert_ne in Hb by done. rewrite decide_False by (by rewrite Hacc).
        rewrite app_nil_r. auto.
  - assert (¬ known a) as Hna by (intros [t Hk]; congruence). split_and!.
    + intros b txs Hb. destruct (I1 b txs Hb) as [Hk HF]. split; [done|].
      rewrite ids_of_snoc, decide_False, app_nil_r; [done|]. rewrite Hacc. by intros ->.
    + intros id' b [Hin| ->%list_elem_of_singleton]%elem_of_app Hb Hk; [by eapply I2|].
      apply Hacc in Hb as ->. done.
    + intros b Hb Hk. rewrite ids_of_snoc, decide_False, app_nil_r; [auto|].
      rewrite Hacc. by intros ->.
Qed.

Lemma filter_txs_inv blk ids m : for_res (filter_tx ab bc blk) ∅ ids = Ok m → group_inv blk ids m.
Proof.
  apply (for_res_inv (λ done m, group_inv blk done m)).
  - split_and!; intros *; by rewrite ?lookup_empty; try set_solver.
  - intros done x b b' _ HI Hx. by eapply filter_tx_inv.
Qed.

Lemma groups_of_map l gs :
  for_res (λ acc (at_ : Address * list (Transaction tonaddr Cell)),
    let! wType := GetWalletType ab at_.1 in
    Ok (acc ++ [{| ts_Address := at_.1; ts_WalletType := wType; ts_Transactions := at_.2 |}]))
    [] l = Ok gs →
  map (λ g, (ts_Address g, ts_Transactions g)) gs = l ∧
  ∀ g, g ∈ gs → GetWalletType ab (ts_Address g) = Ok (ts_WalletType g).
Proof.
  apply (for_res_inv (λ done gs, map (λ g, (ts_Address g, ts_Transactions g)) gs = done ∧
    ∀ g, g ∈ gs → GetWalletType ab (ts_Address g) = Ok (ts_WalletType g))); [set_solver|].
  intros done [a txs] gs' gs'' _ [<- IH] (t & Ht & [= <-])%res_bind_Ok. split.
  - by rewrite map_app.
  - intros g [Hg| ->%list_elem_of_singleton]%elem_of_app; auto.
Qed.

(** Grouping by account is exact, whatever the order of Go maps: one
    group for each account the address book knows and the block has
    transactions of, holding the type the book gives and the account's
    transactions, all of them, in the order of the block. *)
Theorem filterTXs_groups blk ids gs :
  filterTXs ab bc blk ids = Ok gs →
  NoDup (map ts_Address gs) ∧
  (∀ g, g ∈ gs → (∃ t, GetWalletType ab (ts_Address g) = Ok (Some t) ∧ ts_WalletType g = Some t) ∧
     Forall2 (λ id tx, GetTransactionFromBlock bc blk id = Ok tx)
       (ids_of (ts_Address g) ids) (ts_Transactions g)) ∧
  (∀ id a, id ∈ ids → ti_Account id = Value a → known a → ∃ g, g ∈ gs ∧ ts_Address g = a).
Proof.
  intros (m & (I1 & I2 & _)%filter_txs_inv & [Hmap Ht]%groups_of_map)%res_bind_Ok.
  assert (∀ a txs, (a, txs) ∈ map (λ g, (ts_Address g, ts_Transactions g)) gs ↔ m !! a = Some txs)
    as Hin.
  { intros a txs. by rewrite Hmap, elem_of_map_order, elem_of_map_to_list. }
  split_and!.
  - replace (map ts_Address gs) with (map fst (map (λ g, (ts_Address g, ts_Transactions g)) gs))
      by (by rewrite map_map).
    rewrite Hmap, map_order_perm. apply NoDup_fst_map_to_list.
  - intros g Hg. assert (m !! ts_Address g = Some (ts_Transactions g)) as Hm.
    { apply Hin, list_elem_of_fmap. eauto. }
    apply I1 in Hm as [[t Hk] HF]. split; [|done]. exists t. split; [done|].
    apply Ht in Hg. congruence.
  - intros id a Hid Ha Hk. destruct (I2 id a Hid Ha Hk) as [txs Hm].
    apply Hin, list_elem_of_fmap in Hm as (g & [= -> _] & Hg). eauto.
Qed.
End grouping.

(** ** The events of a block *)

Section block.
Context `{TL : TvmLib} `{UL : UuidLib} `{GR : GoRuntime} `{TW : !TonWalletLib}.
Context (ab : AddressBook) (ws : Wallet) (bc : Blockchain).

(** What the transactions [txs] of the account [a], all those of a block in
    order, mean: each transaction of the hot wallet and of a TON deposit by
    itself, those of a jetton deposit together with its balances in the parent and
    in the block; nothing for the other wallets. *)
Inductive account_meaning (h : ShardBlockHeader) (a : Address) (txs : list (Transaction tonaddr Cell))
    : WalletType → Events → Prop :=
| events_hot es : Forall2 (λ tx e, processTonHotWalletTX ab tx = Ok e) txs es →
    account_meaning h a txs TonHotWallet (foldl Append no_events es)
| events_deposit es : Forall2 (λ tx e, processTonDepositWalletTX ab tx = Ok e) txs es →
    account_meaning h a txs TonDepositWallet (foldl Append no_events es)
| events_jetton p before after e :
    for_res (processJettonDepositTX ab) jetton_pass_start txs = Ok p →
    GetJettonBalance ws (ToTonutilsAddressStd 0 a) (sb_Parent h) = Ok before →
    GetJettonBalance ws (ToTonutilsAddressStd 0 a) (sb_BlockIDExt h) = Ok after →
    (let rest := after - before + jp_totalWithdrawalsAmount p - jp_knownIncomeAmount p in
     e = if decide (0 < rest)
         then Append (jp_events p) (Build_Events (convertUnknownJettonTxs (jp_unknownTransactions p) a rest) [] [] [] [] [])
         else jp_events p) →
    account_meaning h a txs JettonDepositWallet e
| events_other t : t = JettonHotWallet ∨ t = JettonOwner → account_meaning h a txs t no_events.

Lemma process_group_events h g t e :
  ts_WalletType g = Some t → process_group ab ws h g = Ok e → account_meaning h (ts_Address g) (ts_Transactions g) t e.
Proof.
  intros Ht H. unfold process_group in H. rewrite Ht in H. destruct t.
  - apply for_append in H as (es & Hes & ->). by apply events_hot.
  - injection H as <-. apply events_other. by left.
  - apply for_append in H as (es & Hes & ->). by apply events_deposit.
  - unfold processJettonDepositWalletTXs in H. apply res_bind_Ok in H as (p & Hp & H).
    apply res_bind_Ok in H as (rest & Hr & H). unfold calculateJettonAmounts in Hr.
    apply res_bind_Ok in Hr as (before & Hb & Hr). apply res_bind_Ok in Hr as (after & Ha & [= <-]).
    eapply events_jetton; [exact Hp|exact Hb|exact Ha|]. cbv zeta.
    repeat case_decide; try lia; by injection H as <-.
  - injection H as <-. apply events_other. by right.
Qed.

(** An account is grouped for the transactions it has. *)
Lemma filter_txs_nonempty blk ids m :
  for_res (filter_tx ab bc blk) ∅ ids = Ok m → ∀ a txs, m !! a = Some txs → txs ≠ [].
Proof.
  apply (for_res_inv (λ _ m, ∀ a txs, m !! a = Some txs → txs ≠ [])); [by intros a txs; rewrite lookup_empty|].
  intros _ id m0 m1 _ IH (a & _ & H)%res_bind_Ok. apply res_bind_Ok in H as ([t|] & _ & H); [|by injection H as <-].
  apply res_bind_Ok in H as (tx & _ & [= <-]). intros b txs. destruct (decide (b = a)) as [->|Hne].
  - rewrite lookup_insert_eq. intros [= <-]. by destruct (default [] _).
  - rewrite lookup_insert_ne by done. apply IH.
Qed.

Lemma groups_nonempty blk ids gs g : filterTXs ab bc blk ids = Ok gs → g ∈ gs → ts_Transactions g ≠ [].
Proof.
  intros (m & Hm & [Hmap _]%groups_of_map)%res_bind_Ok Hg. apply (filter_txs_nonempty _ _ _ Hm (ts_Address g)).
  rewrite <- elem_of_map_to_list, <- elem_of_map_order, <- Hmap. apply list_elem_of_fmap. by exists g.
Qed.

(** C5. The events of a block are those of its accounts. When a block is parsed,
    the accounts of its entries that the address book knows are taken once each,
    in some order; each with all the transactions listed under it, in the order of
    the block, gives the events that the type of its wallet and those transactions
    mean; and the events of the block are these, one account after the other, with
    nothing left out and nothing added. *)
Theorem block_events h e :
  parse_block ab ws bc h = Ok e →
  be_Block e = h ∧ ∃ ids accounts es,
    GetTransactionIDsFromBlock bc (sb_BlockIDExt h) = Ok ids ∧ NoDup accounts ∧
    (∀ a, a ∈ accounts ↔ known ab a ∧ ∃ id, id ∈ ids ∧ ti_Account id = Value a) ∧
    Forall2 (λ a ev, ∃ t txs, GetWalletType ab a = Ok (Some t) ∧
      Forall2 (λ id tx, GetTransactionFromBlock bc (sb_BlockIDExt h) id = Ok tx) (ids_of a ids) txs ∧
      account_meaning h a txs t ev) accounts es ∧
    be_Events e = foldl Append no_events es.
Proof.
  intros (ids & Hids & H)%res_bind_Ok. apply res_bind_Ok in H as (gs & Hgs & H).
  pose proof Hgs as (Hn & Hg & Hall)%filterTXs_groups. apply res_bind_Ok in H as (ev & Hev & [= <-]).
  apply for_append in Hev as (es & Hes & ->). split; [done|]. exists ids, (map ts_Address gs), es.
  split_and!; [done|done| | |done].
  - intros a. split; [|intros [Hk (id & Hid & Ha)]; destruct (Hall id a Hid Ha Hk) as (g & Hin & <-); by apply list_elem_of_fmap_2].
    intros (g & -> & Hin)%list_elem_of_fmap. pose proof (groups_nonempty _ _ _ _ Hgs Hin) as Hne.
    apply Hg in Hin as [(t & Ht & _) HF]. split; [by exists t|].
    destruct (ids_of (ts_Address g) ids) as [|id l] eqn:E; [by inversion HF|].
    assert (id ∈ ids_of (ts_Address g) ids) as [? ?]%list_elem_of_filter by (rewrite E; set_solver). by exists id.
  - apply Forall2_fmap_l, Forall2_same_length_lookup_2; [by eapply Forall2_length|]. intros i g ev Hi He.
    eapply Forall2_lookup_lr in Hes; [|exact Hi|exact He]. apply list_elem_of_lookup_2, Hg in Hi as [(t & Ht & Hty) HF].
    exists t, (ts_Transactions g). split_and!; [done|exact HF|]. by apply process_group_events.
Qed.
End block.

(** ** TON deposits *)

Section deposits.
Context `{TL : TvmLib} `{UL : UuidLib} `{GR : GoRuntime}.
Context (ab : AddressBook).

Definition confirmation_of (w : InternalWithdrawal) : SendingConfirmation :=
  {| sc_Lt := iw_Lt w; sc_From := iw_From w; sc_Memo := iw_Memo w |}.

(** A transfer out of a TON deposit is confirmed and finished by the
    same message: confirmations and withdrawals correspond one to one, none
    of them failed, and nothing else is recorded. *)
Theorem deposit_external_paired inMsg tx e :
  processTonDepositWalletExternalInMsg ab inMsg tx = Ok e →
  SendingConfirmations e = map confirmation_of (InternalWithdrawals e) ∧
  (∀ w, w ∈ InternalWithdrawals e → iw_IsFailed w = false ∧
     AddressFromTonutilsAddress (em_DstAddr inMsg) = Ok (iw_From w)) ∧
  ExternalIncomes e = [] ∧ InternalIncomes e = [] ∧
  ExternalWithdrawals e = [] ∧ WithdrawalConfirmations e = [].
Proof.
  intros (dst & Hd & H)%res_bind_Ok. apply res_bind_Ok in H as (ms & _ & H).
  revert H. apply (for_res_inv (λ _ e,
    SendingConfirmations e = map confirmation_of (InternalWithdrawals e) ∧
    (∀ w, w ∈ InternalWithdrawals e → iw_IsFailed w = false ∧
       AddressFromTonutilsAddress (em_DstAddr inMsg) = Ok (iw_From w)) ∧
    ExternalIncomes e = [] ∧ InternalIncomes e = [] ∧
    ExternalWithdrawals e = [] ∧ WithdrawalConfirmations e = [])).
  - split_and!; try done. set_solver.
  - intros done m b b' _ (Hs & Hw & H1 & H2 & H3 & H4) H.
    destruct m as [msg| |]; try done. apply res_bind_Ok in H as (t & _ & H). case_decide.
    + simplify_eq/=. rewrite map_app, Hs, H1, H2, H3, H4. split_and!; try done.
      intros w [Hin| ->%list_elem_of_singleton]%elem_of_app; [by apply Hw|done].
    + apply res_bind_Ok in H as (? & _ & H). apply res_bind_Ok in H as (? & _ & H).
      by simplify_eq/=.
Qed.
End deposits.
