(* ===== verification/Saving.v ===== *)
(** * Saving a block: once, entirely or not at all

    The theorems about [SaveParsedBlockData] and [processBlock]: a block that
    is saved keeps the ledger, a block that is not leaves the tables alone, a
    block already saved is never saved again, and what makes a block
    impossible to save. *)

From S2P Require Import Prelude TonUtils Config Models Core Db AddressBook Repository.
From S2P Require Import WithdrawalRepository Ledger BlockScanner.

Local Open Scope string_scope.
Local Open Scope list_scope.
Local Open Scope Z_scope.

(** That the loops of a block keep the ledger. *)
Ltac solve_saves :=
  repeat first
    [ apply db_rel_ok, SaveExternalIncome_ledger
    | apply db_rel_ok, SaveInternalIncome_ledger
    | apply db_rel_ok, ApplyJettonWithdrawalConfirmation_ledger
    | apply db_rel_ok, SaveBlock_ledger
    | apply ApplySendingConfirmations_ledger
    | apply UpdateInternalWithdrawal_ledger
    | apply UpdateExternalWithdrawal_ledger
    | apply db_ok_each; [apply _|intros ? _]
    | apply db_ok_bind; [apply _| |intros ?] ].

Section saving.
Context `{AL : AddrLib} `{UL : UuidLib} `{PG : PgLib} `{WL : WalletLib} {O : Type}.

Lemma save_lists_ledger e : db_ok (O:=O) ledger (save_lists e).
Proof.
  unfold save_lists. solve_saves.
Qed.

Lemma save_events_ledger e : db_ok (O:=O) ledger (save_events e).
Proof.
  apply db_ok_bind; [apply _|apply save_lists_ledger|intros _].
  apply db_rel_ok, SaveBlock_ledger.
Qed.

(** Saving a block, whatever it holds, whatever its outcome and wherever
    the database fails, keeps the invariant of the ledger, deletes and
    revives nothing, and starts to pay nothing. *)
Theorem SaveParsedBlockData_ledger e (w w' : World O) r :
  db_inv (w_db w) → SaveParsedBlockData e w = (r, w') →
  db_inv (w_db w') ∧ evolves (w_db w) (w_db w') ∧ calm (w_db w) (w_db w').
Proof.
  intros I H. pose proof (db_rel_RunInTx ledger _ (save_events_ledger e) w) as [HL _].
  unfold SaveParsedBlockData in H. rewrite H in HL. by apply HL.
Qed.

Lemma each_Ok {A} (f : A → ST (World O) unit) l x (w w' : World O) a :
  each_st f l w = (Ok a, w') → x ∈ l → ∃ w1 w2, f x w1 = (Ok tt, w2).
Proof.
  revert w. unfold each_st. generalize tt at 1 as u.
  induction l as [|y l IH]; intros u w H Hx; [set_solver|].
  apply st_bind_Ok in H as ([] & w1 & H1 & H2).
  apply elem_of_cons in Hx as [->|Hx]; [by exists w, w1|]. by eapply IH.
Qed.

(** A loop that succeeds ran each of its bodies, between what the earlier
    ones and what the later ones did. *)
Lemma each_ledger {A} (f : A → ST (World O) unit) l x (w w' : World O) a :
  (∀ x, db_ok ledger (f x)) → w_tx w ≠ NoTx → each_st f l w = (Ok a, w') → x ∈ l →
  ∃ w1 w2, wrel ledger w w1 ∧ f x w1 = (Ok tt, w2) ∧ wrel ledger w2 w'.
Proof.
  intros Hf. revert w. unfold each_st. generalize tt at 1 as u.
  induction l as [|y l IH]; intros u w Ht H Hx; [by apply elem_of_nil in Hx|].
  apply st_bind_Ok in H as ([] & w1 & H1 & H2).
  pose proof (Hf _ _ _ _ Ht H1) as HR.
  assert (w_tx w1 ≠ NoTx) as Ht1 by (by intros Hn; apply Ht, HR).
  apply elem_of_cons in Hx as [->|Hx].
  - exists w, w1. split_and!; [done|exact H1|].
    eapply (db_ok_each ledger f l (λ y _, Hf y)); [exact Ht1|]. by destruct u.
  - apply IH in H2 as (w2 & w3 & HR2 & Hfx & HR3); [|done|done].
    exists w2, w3. split_and!; [by etrans|done|done].
Qed.

(** The block of [e] is among the saved ones. *)
Definition already_saved (e : BlockEvents) (d : DB) : Prop :=
  ∃ id, sb_BlockIDExt (be_Block e) = Some id ∧
    (blk_Shard id, blk_SeqNo id) ∈ map (λ r, (bl_shard r, bl_seqno r)) (block_data d).

Lemma grows_eq_keys {R K} (key : R → K) l l' k :
  grows eq l l' → k ∈ map key l → k ∈ map key l'.
Proof.
  intros (l1 & new & -> & H) Hk. apply list_eq_Forall2 in H as <-. rewrite map_app. set_solver.
Qed.

(** C21. Exactly once: a block that is already saved is never saved again. The
    second attempt fails, and none of its incomes or withdrawals is recorded. *)
Theorem block_saved_once e (w w' : World O) r :
  db_inv (w_db w) → already_saved e (w_db w) → SaveParsedBlockData e w = (r, w') →
  r ≠ Ok tt ∧ w_db w' = w_db w.
Proof.
  intros I (id & Hid & Hin). apply RunInTx_never. intros w1 w2 Hw Ht H.
  apply st_bind_Ok in H as ([] & w3 & H1 & H2).
  apply save_lists_ledger in H1 as [HL _]; [|by rewrite Ht]. rewrite Hw in HL.
  destruct (HL I) as (_ & [] & _).
  unfold SaveBlock in H2. rewrite Hid in H2. apply exec_Ok in H2 as (d & H2 & _).
  apply res_bind_Ok in H2 as (t & H2 & _). apply insert_unique_Ok in H2 as [Hn _].
  apply Hn. by eapply grows_eq_keys.
Qed.

(** A block can not be saved when it holds an excess message, from any
    unknown address, whose query id does not fit a signed 64-bit integer: the
    whole block is refused, its incomes included. *)
Theorem large_query_id_blocks e c (w w' : World O) r :
  c ∈ WithdrawalConfirmations (be_Events e) → max_int64 < jc_QueryId c →
  SaveParsedBlockData e w = (r, w') → r ≠ Ok tt ∧ w_db w' = w_db w.
Proof.
  intros Hc Hbig. apply RunInTx_never. intros w1 w2 Hw Ht H.
  apply st_bind_Ok in H as ([] & w3 & H & _). unfold save_lists in H.
  do 5 apply st_bind_Ok in H as ([] & ? & _ & H).
  eapply each_Ok in H as (w4 & w5 & H); [|exact Hc].
  apply exec_Ok in H as (d & H & _). apply res_bind_Ok in H as (q & H & _).
  apply bigint_Ok in H as [_ H]. lia.
Qed.

Lemma step_ledger {A} (m : ST (World O) A) w0 w a w' :
  wrel ledger w0 w → db_ok ledger m → w_tx w0 ≠ NoTx → m w = (Ok a, w') → wrel ledger w0 w'.
Proof.
  intros HR Hm Ht H. etrans; [exact HR|]. eapply Hm; [|exact H]. intros Hn. by apply Ht, HR.
Qed.

(** Without the columns [processing] and [processed] no external withdrawal
    can be updated. *)
Lemma UpdateExternalWithdrawal_no_flags x (w : World O) a w' :
  s_flags (db_schema (w_db w)) = false → UpdateExternalWithdrawal x w = (Ok a, w') → False.
Proof.
  intros Hs (row & w1 & Hq & H)%st_bind_Ok. cbv zeta in H.
  assert (w_db w1 = w_db w) as Hw.
  { unfold st_try in Hq. destruct (query _ w) as [[]] eqn:Eq; simplify_eq/=.
    - by apply query_Ok in Eq as (_ & ? & _).
    - by apply query_Err in Eq as [? _]. }
  assert (∀ f (w2 w3 : World O) q, update_external (ew_ExtMsgUuid x) (ew_To x) f w2 = (Ok q, w3) →
    w_db w2 = w_db w → s_flags (db_schema (w_db w3)) = false) as Hu.
  { intros f w2 w3 q (_ & _ & r0 & _ & _ & ->)%update_external_Ok ->. done. }
  destruct (match row with inl _ => _ | inr _ => _ end); [done|]. destruct (ew_IsFailed x).
  - apply st_bind_Ok in H as (q & w2 & H1 & H). apply Hu in H1; [|done].
    apply exec_Ok in H as (d & H & _). unfold need_flags in H. by rewrite H1 in H.
  - apply st_bind_Ok in H as (lt & w2 & Hl & H). unfold st_lift in Hl. simplify_eq/=.
    apply st_bind_Ok in H as (q & w3 & H1 & H). apply Hu in H1; [|done].
    apply exec_Ok in H as (d & H & _). unfold need_flags in H. by rewrite H1 in H.
Qed.

(** C38. With the tables of the deployment, which have no [processing] and no
    [processed] column, a block with an external withdrawal can not be saved:
    the whole block is refused. *)
Theorem deployed_schema_blocks e (w w' : World O) r :
  db_inv (w_db w) → db_schema (w_db w) = deployed_schema →
  ExternalWithdrawals (be_Events e) ≠ [] →
  SaveParsedBlockData e w = (r, w') → r ≠ Ok tt ∧ w_db w' = w_db w.
Proof.
  intros I Hs Hne. apply RunInTx_never. intros w1 w2 Hw Ht H.
  apply st_bind_Ok in H as ([] & w3 & H & _). unfold save_lists in H.
  assert (wrel ledger w1 w1) as HR by done. assert (w_tx w1 ≠ NoTx) as Ht1 by (by rewrite Ht).
  do 4 (apply st_bind_Ok in H as ([] & ? & Hstep & H);
        apply (step_ledger _ _ _ _ _ HR) in Hstep; [|solve_saves|exact Ht1];
        clear HR; rename Hstep into HR).
  apply st_bind_Ok in H as ([] & w8 & H & _).
  destruct (ExternalWithdrawals (be_Events e)) as [|xw xws]; [done|].
  apply st_bind_Ok in H as ([] & w9 & H & _).
  eapply UpdateExternalWithdrawal_no_flags; [|exact H].
  destruct HR as [HL _]. rewrite Hw in HL. destruct (HL I) as (_ & [Hsch] & _).
  by rewrite Hsch, Hs.
Qed.

(** ** Surviving

    Which calls return at all: neither a panic nor the end of the process. *)

Definition returns {A} (r : res A) : bool := match r with Ok _ | Err _ => true | Panic | Fatal => false end.
Definition survives {A} (m : ST (World O) A) : Prop := ∀ w, returns (m w).1 = true.

Lemma survives_ret {A} (a : A) : survives (st_ret a).
Proof. done. Qed.
Lemma survives_fail {A} e : survives (st_fail (A := A) e).
Proof. done. Qed.
Lemma survives_lift {A} (r : res A) : returns r = true → survives (st_lift r).
Proof. by intros H w. Qed.
Lemma survives_bind {A B} (m : ST (World O) A) (k : A → ST (World O) B) :
  survives m → (∀ a, survives (k a)) → survives (st_bind m k).
Proof. intros Hm Hk w. unfold st_bind. specialize (Hm w). destruct (m w) as [[] w1]; try done. apply Hk. Qed.
Lemma survives_try {A} (m : ST (World O) A) : survives m → survives (st_try m).
Proof. intros Hm w. unfold st_try. specialize (Hm w). by destruct (m w) as [[] w1]. Qed.
Lemma survives_each {A} (f : A → ST (World O) unit) l :
  (∀ x, x ∈ l → survives (f x)) → survives (each_st f l).
Proof.
  unfold each_st. generalize tt at 1 as u. induction l as [|x l IH]; intros u H; [done|].
  simpl. apply survives_bind; [apply H; set_solver|]. intros. apply IH. intros. apply H. set_solver.
Qed.
Lemma survives_exec {A} (f : DB → res (A * DB)) : (∀ d, returns (f d) = true) → survives (exec f).
Proof.
  intros H w. unfold exec. case_decide; [done|]. destruct (default _ _); [done|].
  specialize (H (w_db w)). by destruct (f (w_db w)) as [[]| | |].
Qed.
Lemma survives_query {A} (f : DB → res A) : (∀ d, returns (f d) = true) → survives (query (O:=O) f).
Proof. intros H. apply survives_exec. intros d. specialize (H d). by destruct (f d). Qed.
Lemma survives_RunInTx (f : ST (World O) unit) : survives f → survives (RunInTx f).
Proof.
  intros Hf w. unfold RunInTx, transaction.
  assert (∀ w, returns (tx_control (O:=O) w).1 = true) as Ht by by apply survives_exec.
  pose proof (Ht (with_tx NoTx w)) as H1. destruct (tx_control (with_tx NoTx w)) as [[] w1]; try done.
  specialize (Hf (with_tx InTx w1)). destruct (f (with_tx InTx w1)) as [[] w2]; try done.
  pose proof (Ht w2) as H2. by destruct (tx_control w2) as [[] w3].
Qed.

Lemma returns_bigint z : returns (bigint z) = true.
Proof. unfold bigint. by repeat case_match. Qed.

Ltac survive :=
  unfold SaveExternalIncome, SaveInternalIncome, ApplySendingConfirmations, UpdateInternalWithdrawal,
    UpdateExternalWithdrawal, ApplyJettonWithdrawalConfirmation, SaveBlock, update_external,
    update_processing, update_processed, insert_unique, need_flags, text_param, parse_memo, of_option;
  repeat first
    [ progress intros
    | apply survives_bind | apply survives_each | apply survives_try | apply survives_ret | apply survives_fail
    | apply survives_lift; (apply returns_bigint || by repeat case_match)
    | apply survives_query; intros; by repeat case_match
    | apply survives_exec; intros; unfold bigint; simpl; repeat (case_match; simpl); done
    | case_match ].

(** A parsed block never ends the process: saving it succeeds or fails. *)
Lemma SaveParsedBlockData_survives e :
  sb_BlockIDExt (be_Block e) ≠ None → survives (SaveParsedBlockData (O:=O) e).
Proof.
  intros Hb. apply survives_RunInTx. unfold save_events, save_lists. survive; done.
Qed.

(** ** Processing a block *)

Context `{TL : !TvmLib} `{GR : GoRuntime} `{TW : !TonWalletLib}.
Context (ab : AddressBook) (ws : Wallet) (bc : Blockchain) (cfg : Config).
Context (notificators : list (incomeNotification → ST (World O) unit)).

(** The block that is read is the block that is saved. *)
Lemma parse_block_header h e : parse_block ab ws bc h = Ok e → be_Block e = h.
Proof.
  intros (ids & _ & H)%res_bind_Ok. apply res_bind_Ok in H as (gs & _ & H).
  apply res_bind_Ok in H as (ev & _ & H). by injection H as <-.
Qed.

(** [Publish] talks to the network: it leaves the tables alone. *)
Definition no_db (w w' : World O) : Prop := w_db w' = w_db w.
#[export] Instance no_db_preorder : PreOrder no_db.
Proof. split; [done|]. intros w1 w2 w3 H1 H2. unfold no_db in *. congruence. Qed.

Hypothesis publish_no_db : ∀ publish n, publish ∈ notificators → preserves no_db (publish n).

Lemma pushNotification_no_db a c t f fw s :
  preserves no_db (pushNotification ab cfg notificators a c t f fw s).
Proof.
  apply preserves_bind; [apply _|apply preserves_lift; apply _|]. intros owner.
  apply preserves_each; [apply _|]. intros p Hp. by apply publish_no_db.
Qed.

Lemma pushNotifications_no_db e : preserves no_db (pushNotifications ab cfg notificators e).
Proof.
  unfold pushNotifications. case_decide; [apply preserves_ret; apply _|].
  destruct (cfg_IsDepositSideCalculation cfg); apply preserves_each; try apply _;
    intros; apply pushNotification_no_db.
Qed.

Abbreviation processBlock := (processBlock ab ws bc cfg notificators).
Abbreviation push := (pushNotifications ab cfg notificators).

(** When [processBlock] succeeds, what it read is saved, or the commit was
    lost. *)
Lemma processBlock_Ok h (w w' : World O) :
  sb_BlockIDExt h ≠ None → processBlock h w = (Ok tt, w') →
  ∃ e, parse_block ab ws bc h = Ok e ∧
    (w_db w' = w_db w ∨
     ∃ w1 w2 : World O, w_db w1 = w_db w ∧ w_tx w1 = InTx ∧ save_events e w1 = (Ok tt, w2) ∧
       w_db w' = w_db w2).
Proof.
  intros Hb H. unfold BlockScanner.processBlock in H. rewrite decide_False in H by done.
  apply st_bind_Ok in H as (e & w1 & He & H). unfold st_lift in He. injection He as He <-.
  apply st_bind_Ok in H as ([] & w2 & Hpush & H).
  pose proof (pushNotifications_no_db e w) as Hdb. rewrite Hpush in Hdb. unfold no_db in Hdb. simpl in Hdb.
  exists e. split; [done|].
  apply RunInTx_Ok in H as (w3 & w4 & H3 & ? & Hs & [H4|H4]); [left|right; exists w3, w4; split_and!]; congruence.
Qed.

(** A block is processed entirely or not at all: when [processBlock]
    returns an error, or panics, the tables are those of before; when it
    succeeds, they are those of before or of the complete save. *)
Theorem processBlock_atomic b (w w' : World O) r :
  processBlock b w = (r, w') →
  w_db w' = w_db w ∨
  r = Ok tt ∧ ∃ e (w1 w2 : World O), parse_block ab ws bc b = Ok e ∧ w_db w1 = w_db w ∧
    save_events e w1 = (Ok tt, w2) ∧ w_db w' = w_db w2.
Proof.
  unfold BlockScanner.processBlock. case_decide as Hnil; [intros [= _ <-]; by left|].
  unfold st_bind, st_lift. destruct (parse_block ab ws bc b) as [e| | |] eqn:Ep;
    [|intros [= _ <-]; by left..].
  pose proof (pushNotifications_no_db e w) as Hn. destruct (push e w) as [rp w1].
  unfold no_db in Hn. simpl in Hn. destruct rp; [|intros [= _ <-]; by left..].
  intros H. destruct (decide (r = Ok tt)) as [->|Hr].
  - pose proof H as (w2 & w3 & H1 & _ & H2 & [H3|H3])%RunInTx_Ok; [left; congruence|].
    right. split; [done|]. exists e, w2, w3. split_and!; congruence.
  - left. by rewrite (RunInTx_error _ _ _ _ H Hr).
Qed.

Lemma SaveParsedBlockData_same_out e : preserves same_out (SaveParsedBlockData (O:=O) e).
Proof.
  apply transaction_same_out. unfold save_events, save_lists, SaveBlock,
    ApplySendingConfirmations, UpdateInternalWithdrawal, UpdateExternalWithdrawal,
    SaveInternalIncome, SaveExternalIncome, ApplyJettonWithdrawalConfirmation, update_external,
    update_processing, update_processed.
  repeat first
    [ progress intros
    | apply preserves_bind; [apply _| |]
    | apply preserves_each; [apply _|]
    | apply preserves_try
    | apply exec_same_out | apply query_same_out
    | apply preserves_lift; apply _ | apply preserves_ret; apply _ | apply preserves_fail; apply _
    | case_match ].
Qed.

(** Notifications are sent before the block is saved and are not taken
    back: when the save fails, they stay sent while nothing is recorded. *)
Theorem notified_not_saved b e (w w1 w' : World O) r :
  sb_BlockIDExt b ≠ None → parse_block ab ws bc b = Ok e → push e w = (Ok tt, w1) →
  SaveParsedBlockData e w1 = (r, w') → r ≠ Ok tt →
  processBlock b w = (r, w') ∧ w_db w' = w_db w ∧ w_out w' = w_out w1.
Proof.
  intros Hb Hp Hpush Hs Hr. split_and!.
  - unfold BlockScanner.processBlock. rewrite decide_False by done.
    unfold st_bind, st_lift. by rewrite Hp, Hpush.
  - pose proof (pushNotifications_no_db e w) as Hn. rewrite Hpush in Hn. unfold no_db in Hn.
    rewrite (RunInTx_error _ _ _ _ Hs Hr). exact Hn.
  - pose proof (SaveParsedBlockData_same_out e w1) as Ho. by rewrite Hs in Ho.
Qed.

(** The scanner survives a block that can be read, whatever the database
    does with it. *)
Lemma scan_one_survives h :
  sb_BlockIDExt h ≠ None → returns (parse_block ab ws bc h) = true →
  (∀ a, returns (GetOwner ab a) = true) → (∀ publish n, publish ∈ notificators → survives (publish n)) →
  ∀ w, is_Ok (scan_one ab ws bc cfg notificators (Some h) w).1 = true.
Proof.
  clear publish_no_db. intros Hb Hp Ho Hn w. assert (survives (processBlock h)) as Hs.
  { unfold BlockScanner.processBlock. rewrite decide_False by done.
    destruct (parse_block ab ws bc h) as [e| | |] eqn:E; try done.
    assert (be_Block e = h) as He by by apply parse_block_header.
    intros w'. unfold st_bind at 1, st_lift. revert w'. fold (survives (A:=unit)).
    apply survives_bind; [|intros _; apply SaveParsedBlockData_survives; by rewrite He].
    unfold pushNotifications, pushNotification. case_decide; [done|].
    case_match; apply survives_each; intros; (apply survives_bind; [by apply survives_lift|]);
      intros; apply survives_each; auto. }
  specialize (Hs w). unfold scan_one, st_bind, st_try. by destruct (processBlock h w) as [[] w1].
Qed.

(** No error of a block stops the scanner: over any blocks it goes on to
    the end, unless the process itself ends. *)
Theorem scan_goes_on blocks (w : World O) e :
  (scan ab ws bc cfg notificators blocks w).1 ≠ Err e.
Proof.
  unfold scan, each_st. generalize tt at 1 as u. revert w.
  induction blocks as [|b bs IH]; intros w u; [done|]. simpl. unfold st_bind at 1.
  assert (∀ w e, (scan_one ab ws bc cfg notificators b w).1 ≠ Err e) as H1.
  { clear. intros w e. destruct b as [b|]; [|done]. unfold scan_one, st_bind, st_try.
    by destruct (processBlock b w) as [[] ?]. }
  specialize (H1 w). destruct (scan_one _ _ _ _ _ b w) as [[] w1];
    first [done|apply IH].
Qed.
End saving.
