(* ===== verification/Protocol.v ===== *)
(** * The processes that share the ledger

    The scanner saves blocks, the expiration processor expires withdrawals,
    the withdrawal processor picks tasks and later starts to pay them, and the
    API adds wallets and requests: a step relation whose steps are the
    repository calls, each run in any world (any driver failures, any clock)
    over the current tables, in any order. The tasks the withdrawal processor
    has picked and not yet paid are part of the state, because the tables may
    change in between. *)

From S2P Require Import Prelude TonUtils Config Models Db Repository WithdrawalRepository.
From S2P Require Import Ledger BlockScanner Saving.

Local Open Scope string_scope.
Local Open Scope list_scope.
Local Open Scope Z_scope.

(** ** Picking tasks *)

Lemma distinct_on_sublist {R K} `{EqDecision K} (key : R → K) seen l :
  distinct_on key seen l `sublist_of` l.
Proof.
  revert seen. induction l as [|r l IH]; intros seen; simpl; [done|].
  case_decide; [apply sublist_cons|constructor]; apply IH.
Qed.

Lemma distinct_on_keys {R K} `{EqDecision K} (key : R → K) seen l :
  NoDup (map key (distinct_on key seen l)) ∧ ∀ r, r ∈ distinct_on key seen l → key r ∉ seen.
Proof.
  revert seen. induction l as [|r l IH]; intros seen; simpl; [split; [constructor|set_solver]|].
  case_decide as Hs; [apply IH|]. destruct (IH (key r :: seen)) as [IH1 IH2]. split; simpl.
  - constructor; [|done]. intros (r' & Hk & Hr')%list_elem_of_fmap.
    apply IH2 in Hr'. set_solver.
  - intros r' [->|Hr']%elem_of_cons; [done|]. apply IH2 in Hr'. set_solver.
Qed.

(** The first row of each key is kept. *)
Lemma distinct_on_first {R K} `{EqDecision K} (key : R → K) seen l r :
  r ∈ l → (key r ∉ seen) →
  ∃ r' l1 l2, l = l1 ++ r' :: l2 ∧ key r' = key r ∧ r' ∈ distinct_on key seen l ∧
              ∀ x, x ∈ l1 → key x ≠ key r.
Proof.
  revert seen. induction l as [|y l IH]; intros seen Hr Hk; [set_solver|]. simpl.
  destruct (decide (key y = key r)) as [He|Hne].
  - exists y, [], l. rewrite He, decide_False by done. set_solver.
  - assert (r ∈ l) as Hr' by (apply elem_of_cons in Hr as [->|]; done).
    case_decide as Hs.
    + destruct (IH seen Hr' Hk) as (r' & l1 & l2 & -> & H1 & H2 & H3).
      exists r', (y :: l1), l2. split_and!; [done..|]. set_solver.
    + destruct (IH (key y :: seen) Hr') as (r' & l1 & l2 & -> & H1 & H2 & H3); [set_solver|].
      exists r', (y :: l1), l2. split_and!; [done..|set_solver|set_solver].
Qed.

Section tasks.
Context `{PG : PgLib} {O : Type}.

Definition idle (d : DB) : list withdrawal_request_row :=
  filter (λ r, wr_processing r = false) (withdrawal_requests d).

Lemma external_task_rows_idle limit d r :
  r ∈ external_task_rows limit d → r ∈ withdrawal_requests d ∧ wr_processing r = false.
Proof.
  unfold external_task_rows. intros Hr.
  assert (r ∈ merge_sort by_dest_query (plan (idle d))) as Hs.
  { eapply elem_of_submseteq; [exact Hr|]. apply sublist_submseteq.
    etrans; [apply sublist_take|apply distinct_on_sublist]. }
  rewrite merge_sort_Permutation, plan_perm in Hs. apply list_elem_of_filter in Hs. tauto.
Qed.

Lemma external_task_rows_NoDup limit d :
  NoDup (map wr_query_id (withdrawal_requests d)) →
  NoDup (map wr_query_id (external_task_rows limit d)).
Proof.
  intros Hn. eapply sublist_NoDup.
  2: { apply (fmap_sublist wr_query_id). unfold external_task_rows.
       etrans; [apply sublist_take|apply distinct_on_sublist]. }
  rewrite merge_sort_Permutation, plan_perm.
  eapply sublist_NoDup; [exact Hn|]. apply (fmap_sublist wr_query_id), sublist_filter.
Qed.

Lemma GetExternalWithdrawalTasks_Ok limit (w w' : World O) tasks :
  GetExternalWithdrawalTasks limit w = (Ok tasks, w') →
  tasks = map task_of_request (external_task_rows limit (w_db w)) ∧ w_db w' = w_db w.
Proof. intros (H & ? & _)%query_Ok. by inv_res. Qed.

(** The tasks picked may be paid: distinct requests, none being paid. *)
Lemma tasks_payable limit (w w' : World O) tasks :
  db_inv (w_db w) → GetExternalWithdrawalTasks limit w = (Ok tasks, w') →
  payable (map et_QueryID tasks) (w_db w).
Proof.
  intros I [-> _]%GetExternalWithdrawalTasks_Ok. rewrite map_map. split.
  - apply external_task_rows_NoDup, I.
  - intros q (r & -> & Hr)%list_elem_of_fmap. simpl.
    apply external_task_rows_idle in Hr as [Hr Hp].
    split; [by apply (inv_idle _ I)|by apply (inv_seq _ I)].
Qed.

Lemma payable_calm ids d d' : calm d d' → payable ids d → payable ids d'.
Proof.
  intros [Hl Hs] [Hn H]. split; [done|]. intros q Hq. destruct (H q Hq). split; [set_solver|lia].
Qed.

Lemma payable_sublist ids ids' d : ids' `sublist_of` ids → payable ids d → payable ids' d.
Proof.
  intros Hs [Hn H]. split; [by eapply sublist_NoDup|]. intros q Hq. apply H.
  eapply elem_of_submseteq; [done|]. by apply sublist_submseteq.
Qed.
End tasks.

(** ** Paying them *)

Section pay.
Context `{PG : PgLib} {O : Type}.

Lemma pay_all u e tasks (w w' : World O) :
  db_inv (w_db w) → payable (map et_QueryID tasks) (w_db w) →
  each_st (λ t, do! _ <- insert_external (new_external u e t);
                update_processing true (et_QueryID t)) tasks w = (Ok tt, w') →
  db_inv (w_db w') ∧ evolves (w_db w) (w_db w').
Proof.
  unfold each_st. generalize tt at 1 as x. revert w.
  induction tasks as [|t ts IH]; intros w x I [Hn Hp] H.
  { simpl in H. unfold st_ret in H. by simplify_eq. }
  apply st_bind_Ok in H as ([] & w2 & H1 & H).
  apply st_bind_Ok in H1 as ([] & w1 & (d1 & Hi & ->)%exec_Ok & (d2 & Hu & ->)%exec_Ok).
  apply res_bind_Ok in Hi as (rows & Hi & [= <-]).
  apply res_bind_Ok in Hu as ([] & _ & [= <-]).
  simpl in Hn. apply NoDup_cons in Hn as [Hnt Hn].
  destruct (Hp (et_QueryID t)) as [Hq Hseq]; [set_solver|].
  destruct (pay_one_ledger t u e _ _ I Hq Hseq Hi) as (I' & E' & L').
  apply IH in H as [I2 E2]; [|exact I'|].
  - split; [done|]. by etrans; [exact E'|].
  - split; [done|]. intros q Hin. destruct (Hp q) as [Hq' Hs']; [set_solver|].
    split; [|done]. cbn [w_db with_db]. rewrite L'. set_solver.
Qed.

Lemma CreateExternalWithdrawals_ledger tasks u e (w w' : World O) r :
  db_inv (w_db w) → payable (map et_QueryID tasks) (w_db w) →
  CreateExternalWithdrawals tasks u e w = (r, w') →
  db_inv (w_db w') ∧ evolves (w_db w) (w_db w').
Proof.
  intros I Hp H. destruct r as [[]| | |].
  - apply in_tx_Ok in H as (w1 & w2 & Hw & _ & H & ->). rewrite <- Hw in *. by eapply pay_all.
  - apply in_tx_error in H as ->; done.
  - apply in_tx_error in H as ->; done.
  - apply in_tx_error in H as ->; done.
Qed.
End pay.

(** ** The step relation *)

Section system.
Context `{AL : AddrLib} `{UL : UuidLib} `{PG : PgLib} `{WL : WalletLib} {O : Type}.

(** The tables, and the tasks the withdrawal processor is about to pay. *)
Record State := { s_db : DB; s_picked : list ExternalWithdrawalTask }.

(** The repository calls that change the tables and start to pay nothing. *)
Inductive call : ST (World O) unit → Prop :=
| call_block e : call (SaveParsedBlockData e)
| call_expire : call SetExpired
| call_ton_wallet wd : call (SaveTonWallet wd)
| call_jetton_wallet o wd b : call (SaveJettonWallet o wd b)
| call_request wq : call (do! _ <- CreateWithdrawalRequest wq; st_ret tt)
| call_status s q : call (UpdateWithdrawalRequest s q)
| call_service s : call (do! _ <- CreateServiceWithdrawalRequest s; st_ret tt)
| call_service_update t c e f : call (UpdateServiceWithdrawalRequest t c e f)
| call_internal t e m : call (SaveInternalWithdrawalTask t e m).

Inductive step : State → State → Prop :=
| step_call m s w r w' :
    call m → w_db w = s_db s → m w = (r, w') →
    step s {| s_db := w_db w'; s_picked := s_picked s |}
| step_pick limit s w tasks picked w' :
    w_db w = s_db s → s_picked s = [] →
    GetExternalWithdrawalTasks (O:=O) limit w = (Ok tasks, w') → picked `sublist_of` tasks →
    step s {| s_db := s_db s; s_picked := picked |}
| step_pay u e s w r w' :
    w_db w = s_db s → CreateExternalWithdrawals (O:=O) (s_picked s) u e w = (r, w') →
    step s {| s_db := w_db w'; s_picked := [] |}
| step_drop s : step s {| s_db := s_db s; s_picked := [] |}.

Definition initial (sch : Schema) : State := {| s_db := empty_db sch; s_picked := [] |}.
Definition reachable (sch : Schema) (s : State) : Prop := rtc step (initial sch) s.

Definition state_inv (s : State) : Prop :=
  db_inv (s_db s) ∧ payable (map et_QueryID (s_picked s)) (s_db s).

Lemma call_ledger m : call m → db_rel ledger m.
Proof.
  destruct 1; try (apply preserves_bind; [apply _| |intros; apply preserves_ret; apply _]).
  - apply db_rel_RunInTx, save_events_ledger; apply _.
  - apply SetExpired_ledger.
  - apply SaveTonWallet_ledger.
  - apply SaveJettonWallet_ledger.
  - apply CreateWithdrawalRequest_ledger.
  - apply UpdateWithdrawalRequest_ledger.
  - apply CreateServiceWithdrawalRequest_ledger.
  - apply UpdateServiceWithdrawalRequest_ledger.
  - apply SaveInternalWithdrawalTask_ledger.
Qed.

Lemma payable_nil d : payable [] d.
Proof. split; [constructor|set_solver]. Qed.

Lemma step_inv s s' : step s s' → state_inv s → state_inv s' ∧ evolves (s_db s) (s_db s').
Proof.
  intros H [I Hp]. destruct H as
    [m s w r w' Hc Hw H|limit s w tasks picked w' Hw Hs H Hsub|u e s w r w' Hw H|s]; simpl.
  - destruct (call_ledger m Hc w) as [HL _]. rewrite H, Hw in HL. destruct (HL I) as (I' & E & C).
    split; [split; [done|by eapply payable_calm]|done].
  - split; [split; [done|]|done]. rewrite <- Hw in *.
    eapply payable_sublist; [by apply (fmap_sublist et_QueryID)|]. by eapply tasks_payable.
  - rewrite <- Hw in *. eapply CreateExternalWithdrawals_ledger in H as [I' E]; [|done..].
    split; [split; [done|apply payable_nil]|done].
  - split; [split; [done|apply payable_nil]|done].
Qed.

Lemma steps_inv s s' : rtc step s s' → state_inv s → state_inv s' ∧ evolves (s_db s) (s_db s').
Proof.
  induction 1 as [|s1 s2 s3 H1 _ IH]; intros I; [done|].
  destruct (step_inv _ _ H1 I) as [I2 E2]. destruct (IH I2) as [I3 E3].
  split; [done|by etrans].
Qed.

Lemma initial_inv sch : state_inv (initial sch).
Proof. split; [apply empty_db_inv|apply payable_nil]. Qed.

Lemma reachable_inv sch s : reachable sch s → state_inv s.
Proof. intros H. by apply (steps_inv _ _ H), initial_inv. Qed.

(** C20. Whatever the processes do, in whatever order and however the
    database fails, the tables keep the ledger's invariant and the tasks about
    to be paid are distinct requests that no message pays. *)
Theorem reachable_ledger sch s :
  reachable sch s → db_inv (s_db s) ∧ payable (map et_QueryID (s_picked s)) (s_db s).
Proof. apply reachable_inv. Qed.

(** C1. No request is paid twice: of the withdrawals recorded for a request,
    at most one has not failed. *)
Theorem no_double_payment sch s r1 r2 :
  reachable sch s → r1 ∈ external_withdrawals (s_db s) → r2 ∈ external_withdrawals (s_db s) →
  xw_query_id r1 = xw_query_id r2 → xw_failed r1 = false → xw_failed r2 = false → r1 = r2.
Proof.
  intros [I _]%reachable_inv H1 H2 Hq Hf1 Hf2.
  eapply (NoDup_map_eq xw_query_id (live (external_withdrawals (s_db s))));
    [apply (inv_once _ I)| | |done]; by apply list_elem_of_filter.
Qed.

(** A request is offered for payment only while no message pays it: the
    tasks returned in any reachable state are distinct requests, marked idle,
    without a withdrawal that has not failed. *)
Theorem offered_unpaid sch s limit (w w' : World O) tasks :
  reachable sch s → w_db w = s_db s →
  GetExternalWithdrawalTasks limit w = (Ok tasks, w') →
  NoDup (map et_QueryID tasks) ∧ (length tasks ≤ limit)%nat ∧
  ∀ t, t ∈ tasks →
    (∃ r, r ∈ withdrawal_requests (s_db s) ∧ wr_processing r = false ∧ t = task_of_request r) ∧
    ∀ x, x ∈ external_withdrawals (s_db s) → xw_query_id x = et_QueryID t → xw_failed x = true.
Proof.
  intros [I _]%reachable_inv Hw H. rewrite <- Hw in *.
  pose proof (tasks_payable _ _ _ _ I H) as [Hn Hp].
  apply GetExternalWithdrawalTasks_Ok in H as [-> _]. split_and!; [done| |].
  - rewrite length_map. unfold external_task_rows. rewrite length_take. lia.
  - intros t Ht. split.
    + apply list_elem_of_fmap in Ht as (r & -> & Hr). apply external_task_rows_idle in Hr. naive_solver.
    + intros x Hx Hq. destruct (xw_failed x) eqn:Hf; [done|].
      destruct (Hp (et_QueryID t)) as [Hl _]; [apply list_elem_of_fmap; eauto|].
      destruct Hl. apply elem_of_live_ids. eauto.
Qed.

(** A failure is final: an internal withdrawal marked failed never
    changes again, and an external one marked failed stays failed and is never
    marked processed afterwards. *)
Theorem failure_is_final sch s s' :
  reachable sch s → rtc step s s' →
  (∀ r, r ∈ internal_withdrawals (s_db s) → iwr_failed r = true →
     r ∈ internal_withdrawals (s_db s')) ∧
  (∀ r, r ∈ external_withdrawals (s_db s) → xw_failed r = true →
     ∃ r', r' ∈ external_withdrawals (s_db s') ∧ xw_msg_uuid r' = xw_msg_uuid r ∧
       xw_address r' = xw_address r ∧ xw_failed r' = true ∧ xw_processed_lt r' = xw_processed_lt r).
Proof.
  intros I%reachable_inv H. destruct (steps_inv _ _ H I) as [_ E]. split; intros r Hr Hf.
  - destruct (grows_elem _ _ _ _ (ev_internal _ _ E) Hr) as (r' & Hr' & Hs).
    by rewrite (iws_final _ _ Hs Hf) in Hr'.
  - destruct (grows_elem _ _ _ _ (ev_external _ _ E) Hr) as (r' & Hr' & Hs).
    destruct (xws_failed _ _ Hs Hf). exists r'. split_and!; try done; apply Hs.
Qed.

(** C25. Nothing is lost: every income, block and request once recorded stays,
    a request as it was asked; a payment marked processed or confirmed stays
    so, and so does an internal withdrawal marked sent. *)
Theorem records_stay sch s s' :
  reachable sch s → rtc step s s' →
  external_incomes (s_db s) ⊆ external_incomes (s_db s') ∧
  internal_incomes (s_db s) ⊆ internal_incomes (s_db s') ∧
  block_data (s_db s) ⊆ block_data (s_db s') ∧
  (∀ r, r ∈ withdrawal_requests (s_db s) → ∃ r', r' ∈ withdrawal_requests (s_db s') ∧ wr_step r r') ∧
  (∀ r, r ∈ external_withdrawals (s_db s) → ∃ r', r' ∈ external_withdrawals (s_db s') ∧ xw_step r r') ∧
  (∀ r, r ∈ internal_withdrawals (s_db s) → ∃ r', r' ∈ internal_withdrawals (s_db s') ∧ iw_step r r').
Proof.
  intros I%reachable_inv H. destruct (steps_inv _ _ H I) as [_ E].
  assert (∀ R (l l' : list R), grows eq l l' → l ⊆ l') as Hsub.
  { intros R l l' Hg r Hr. by destruct (grows_elem _ _ _ _ Hg Hr) as (r' & Hr' & <-). }
  split_and!; [apply Hsub, E..| | |]; intros r Hr; (eapply grows_elem; [|done]); apply E.
Qed.
End system.
