(* ===== verification/Lifecycle.v ===== *)
(** * The life of a payment: an abstract machine and its refinement

    What the tables promise about paying requests, without tables: a request is
    unpaid, being paid by one message, or paid; the withdrawal processor picks
    unpaid requests and later starts to pay exactly those; the chain settles
    what is being paid. The theorem says that every step of the processes is a
    step of this machine under the abstraction [abs]. *)

From S2P Require Import Prelude TonUtils Config Models Db Repository WithdrawalRepository.
From S2P Require Import Ledger BlockScanner Saving Protocol.

Local Open Scope string_scope.
Local Open Scope list_scope.
Local Open Scope Z_scope.

(** ** The abstract machine *)

Inductive status : Set := Unpaid | Paying | Paid.

#[export] Instance status_eq_dec : EqDecision status.
Proof. solve_decision. Defined.

(** What may happen to a payment without a new message: it is confirmed, it
    fails or expires, or the chain reports a confirmed one as failed. *)
Inductive settles : status → status → Prop :=
| settle_stay s : settles s s
| settle_paid : settles Paying Paid
| settle_failed : settles Paying Unpaid
| settle_revoked : settles Paid Unpaid.

#[export] Instance settles_preorder : PreOrder settles.
Proof. split; [constructor|]. intros a b c [] H; inversion H; constructor. Qed.

(** The status of each request, the requests in the order they were made, and
    those the withdrawal processor holds. *)
Record AState := { a_status : Z → status; a_requests : list Z; a_picked : list Z }.

Inductive astep (a a' : AState) : Prop :=
| astep_settle new :
    (∀ q, settles (a_status a q) (a_status a' q)) →
    a_requests a' = a_requests a ++ new → NoDup (a_requests a') →
    a_picked a' = a_picked a → astep a a'
| astep_pick :
    (∀ q, a_status a' q = a_status a q) → a_requests a' = a_requests a →
    a_picked a = [] → NoDup (a_picked a') →
    (∀ q, q ∈ a_picked a' → q ∈ a_requests a ∧ a_status a q = Unpaid) → astep a a'
| astep_pay :
    (∀ q, q ∈ a_picked a → a_status a q = Unpaid) →
    (∀ q, a_status a' q = if decide (q ∈ a_picked a) then Paying else a_status a q) →
    a_requests a' = a_requests a → a_picked a' = [] → astep a a'
| astep_drop :
    (∀ q, a_status a' q = a_status a q) → a_requests a' = a_requests a →
    a_picked a' = [] → astep a a'.

Definition ainitial : AState := {| a_status := λ _, Unpaid; a_requests := []; a_picked := [] |}.

(** ** The abstraction *)

Definition rows_paying (q : Z) (l : list external_withdrawal_row) : list external_withdrawal_row :=
  filter (λ r, xw_query_id r = q) (live l).

Definition row_status (o : option external_withdrawal_row) : status :=
  match o with
  | None => Unpaid
  | Some r => match xw_processed_lt r with Some _ => Paid | None => Paying end
  end.

(** The status of a request: what the row that has not failed says. *)
Definition payment (l : list external_withdrawal_row) (q : Z) : status :=
  row_status (head (rows_paying q l)).

Definition abs (s : State) : AState := {|
  a_status := payment (external_withdrawals (s_db s));
  a_requests := map wr_query_id (withdrawal_requests (s_db s));
  a_picked := map et_QueryID (s_picked s) |}.

Lemma payment_unpaid l q : payment l q = Unpaid ↔ q ∉ live_ids l.
Proof.
  unfold payment, rows_paying, live_ids. induction (live l) as [|r rs IH]; simpl; [set_solver|].
  rewrite filter_cons. case_decide as Hq; simpl.
  - split; [by destruct (xw_processed_lt r)|]. set_solver.
  - rewrite IH. set_solver.
Qed.

Lemma rows_paying_nil l q : (q ∉ live_ids l) → rows_paying q l = [].
Proof.
  rewrite <- payment_unpaid. unfold payment. destruct (rows_paying q l) as [|r rs]; [done|].
  simpl. by destruct (xw_processed_lt r).
Qed.

(** Rows that follow count for the requests that nothing pays yet. *)
Lemma payment_app l l' q :
  payment (l ++ l') q = if decide (q ∈ live_ids l) then payment l q else payment l' q.
Proof.
  assert (rows_paying q (l ++ l') = rows_paying q l ++ rows_paying q l') as E
    by (unfold rows_paying, live; by rewrite !filter_app).
  unfold payment. rewrite E. case_decide as Hq.
  - destruct (rows_paying q l) eqn:El; [|done]. destruct (proj1 (payment_unpaid l q)); [|done].
    unfold payment. by rewrite El.
  - by rewrite rows_paying_nil.
Qed.

Lemma payment_cons r l q :
  payment (r :: l) q =
    if decide (xw_failed r = false ∧ xw_query_id r = q) then row_status (Some r)
    else payment l q.
Proof.
  unfold payment, rows_paying, live. rewrite filter_cons.
  destruct (decide (xw_failed r = false)) as [Hf|Hf].
  - rewrite filter_cons. destruct (decide (xw_query_id r = q)) as [Hq|Hq].
    + by rewrite decide_True by done.
    + by rewrite decide_False by naive_solver.
  - by rewrite decide_False by naive_solver.
Qed.

(** ** Steps of the machine *)

(** Rows that change as rows may, one live row for each request. *)
Lemma rows_settle l l' q :
  Forall2 xw_step l l' → NoDup (live_ids l) → settles (payment l q) (payment l' q).
Proof.
  induction 1 as [|r r' l l' Hr Hl IH]; intros Hn; [done|].
  assert (settles (payment l q) (payment l' q)) as Hs.
  { apply IH. unfold live_ids, live in Hn. rewrite filter_cons in Hn.
    case_decide; [by apply NoDup_cons in Hn as [_ ?]|done]. }
  rewrite !payment_cons, (xws_query _ _ Hr). destruct (decide (xw_query_id r = q)) as [<-|Hq].
  2: by rewrite !decide_False by naive_solver.
  destruct (xw_failed r) eqn:Hf.
  - destruct (xws_failed _ _ Hr Hf) as [-> _]. by rewrite !decide_False by naive_solver.
  - assert (payment l (xw_query_id r) = Unpaid) as Hu.
    { apply payment_unpaid. unfold live_ids, live in Hn. rewrite filter_cons_True in Hn by done.
      by apply NoDup_cons in Hn as [? _]. }
    rewrite decide_True by done. rewrite Hu in Hs. destruct (xw_failed r') eqn:Hf'.
    + rewrite decide_False by naive_solver. inversion Hs. simpl. destruct (xw_processed_lt r); constructor.
    + rewrite decide_True by done. simpl. pose proof (xws_processed _ _ Hr) as Hp.
      destruct (xw_processed_lt r), (xw_processed_lt r'); try constructor.
      by destruct Hp as [? ?].
Qed.

Lemma Forall2_grows_length {R} (S : R → R → Prop) l l' :
  grows S l l' → length l' = length l → Forall2 S l l'.
Proof.
  intros (l1 & new & -> & H) Hlen. pose proof (Forall2_length _ _ _ H).
  rewrite length_app in Hlen. destruct new; simpl in *; [|lia]. by rewrite app_nil_r.
Qed.

Lemma grows_map {R K} (S : R → R → Prop) (key : R → K) l l' :
  (∀ r r', S r r' → key r' = key r) → grows S l l' → ∃ new, map key l' = map key l ++ new.
Proof.
  intros Hk (l1 & new & -> & H). exists (map key new). rewrite map_app. f_equal.
  induction H; simpl; [done|]. f_equal; auto.
Qed.

(** The machine pays only what was requested. *)
Lemma asteps_known a q :
  rtc astep ainitial a → a_status a q ≠ Unpaid → q ∈ a_requests a.
Proof.
  intros H. cut ((∀ q, q ∈ a_picked a → q ∈ a_requests a) ∧
    ∀ q, a_status a q ≠ Unpaid → q ∈ a_requests a); [intros [_ Hk]; by apply Hk|].
  revert a H. apply rtc_ind_r; [split; [set_solver|done]|]. intros a a' _ Hs [IH1 IH2].
  destruct Hs as [new Hset Hr _ Hp|Hst Hr _ _ Hp|Hu Hst Hr Hp|Hst Hr Hp]; rewrite Hr, ?Hp.
  - split; [intros q' ?; apply elem_of_app; auto|]. intros q' Hq'. apply elem_of_app. left.
    apply IH2. intros Hu. specialize (Hset q'). rewrite Hu in Hset. by inversion Hset.
  - split; [naive_solver|]. intros q'. rewrite Hst. auto.
  - split; [set_solver|]. intros q'. rewrite Hst. case_decide; auto.
  - split; [set_solver|]. intros q'. rewrite Hst. auto.
Qed.

Section refinement.
Context `{AL : AddrLib} `{UL : UuidLib} `{PG : PgLib} `{WL : WalletLib} {O : Type}.

(** A call that starts to pay nothing settles what is being paid. *)
Lemma ledger_settles d d' l :
  db_inv d → ledger d d' →
  astep (abs {| s_db := d; s_picked := l |}) (abs {| s_db := d'; s_picked := l |}).
Proof.
  intros I H. destruct (H I) as (I' & E & C).
  destruct (grows_map _ wr_query_id _ _ wrs_query (ev_requests _ _ E)) as [new Hnew].
  apply astep_settle with new; simpl; [|done|apply I'|done].
  intros q. apply rows_settle; [|apply I].
  apply Forall2_grows_length; [apply E|apply C].
Qed.

Lemma pay_all_rows u e tasks (w w' : World O) :
  each_st (λ t, do! _ <- insert_external (new_external u e t);
                update_processing true (et_QueryID t)) tasks w = (Ok tt, w') →
  external_withdrawals (w_db w') = external_withdrawals (w_db w) ++ map (new_external u e) tasks ∧
  map wr_query_id (withdrawal_requests (w_db w')) = map wr_query_id (withdrawal_requests (w_db w)).
Proof.
  unfold each_st. generalize tt at 1 as x. revert w.
  induction tasks as [|t ts IH]; intros w x H.
  { simpl in H. unfold st_ret in H. simplify_eq. by rewrite app_nil_r. }
  apply st_bind_Ok in H as ([] & w2 & H1 & H).
  apply st_bind_Ok in H1 as ([] & w1 & (d1 & Hi & ->)%exec_Ok & (d2 & Hu & ->)%exec_Ok).
  apply res_bind_Ok in Hi as (rows & [_ ->]%insert_unique_Ok & [= <-]).
  apply res_bind_Ok in Hu as ([] & _ & [= <-]).
  apply IH in H as [-> ->]. simpl. rewrite <- app_assoc. split; [done|].
  by rewrite map_key_update_where.
Qed.

(** Paying: nothing happened, or the tasks were all recorded. *)
Lemma CreateExternalWithdrawals_rows tasks u e (w w' : World O) r :
  CreateExternalWithdrawals tasks u e w = (r, w') →
  (r ≠ Ok tt ∧ w_db w' = w_db w) ∨
  (r = Ok tt ∧
   external_withdrawals (w_db w') = external_withdrawals (w_db w) ++ map (new_external u e) tasks ∧
   map wr_query_id (withdrawal_requests (w_db w')) = map wr_query_id (withdrawal_requests (w_db w))).
Proof.
  intros H. destruct r as [[]| | |].
  - right. apply in_tx_Ok in H as (w1 & w2 & Hw & _ & H & ->). rewrite <- Hw.
    split; [done|]. by apply pay_all_rows.
  - left. by apply in_tx_error in H as ->.
  - left. by apply in_tx_error in H as ->.
  - left. by apply in_tx_error in H as ->.
Qed.

Lemma payment_new u e tasks q :
  payment (map (new_external u e) tasks) q =
    if decide (q ∈ map et_QueryID tasks) then Paying else Unpaid.
Proof.
  induction tasks as [|t ts IH]; [done|]. simpl map. rewrite payment_cons, IH. simpl.
  repeat case_decide; set_solver.
Qed.

(** What is picked is requested, once, and not being paid. *)
Lemma picked_payable limit d (w w' : World O) tasks picked :
  db_inv d → w_db w = d → GetExternalWithdrawalTasks limit w = (Ok tasks, w') →
  picked `sublist_of` tasks →
  NoDup (map et_QueryID picked) ∧ ∀ q, q ∈ map et_QueryID picked →
    q ∈ map wr_query_id (withdrawal_requests d) ∧ payment (external_withdrawals d) q = Unpaid.
Proof.
  intros I <- H Hsub. pose proof (tasks_payable _ _ _ _ I H) as Ht.
  apply (payable_sublist _ (map et_QueryID picked)) in Ht as [Hn Hp];
    [|by apply (fmap_sublist et_QueryID)].
  split; [done|]. intros q Hq. split; [|by apply payment_unpaid, Hp].
  apply list_elem_of_fmap in Hq as (t & -> & Hq).
  apply GetExternalWithdrawalTasks_Ok in H as [-> _].
  assert (t ∈ map task_of_request (external_task_rows limit (w_db w))) as Hin
    by (eapply elem_of_submseteq; [done|by apply sublist_submseteq]).
  apply list_elem_of_fmap in Hin as (r & -> & Hr). apply external_task_rows_idle in Hr as [Hr _].
  apply list_elem_of_fmap. eauto.
Qed.

Lemma step_refines s s' : state_inv s → step (O:=O) s s' → astep (abs s) (abs s').
Proof.
  intros [I Hp] Hstep. destruct Hstep as
    [m s0 w r w' Hc Hw H|limit s0 w tasks picked w' Hw Hs H Hsub|u e s0 w r w' Hw H|s0].
  - destruct s0 as [d l]. simpl in *. apply ledger_settles; [done|].
    destruct (call_ledger m Hc w) as [HL _]. by rewrite H, Hw in HL.
  - destruct (picked_payable _ _ _ _ _ _ I Hw H Hsub) as [Hn Hu].
    apply astep_pick; simpl; [done..|by rewrite Hs|done|done].
  - apply CreateExternalWithdrawals_rows in H as [[_ H]|(_ & H1 & H2)]; rewrite Hw in *.
    { apply astep_drop; simpl; by rewrite ?H. }
    apply astep_pay; simpl; [| |done..].
    + intros q Hq. apply payment_unpaid. by apply Hp.
    + intros q. rewrite H1, payment_app, payment_new. destruct Hp as [_ Hp]. repeat case_decide; try done.
      * by destruct (Hp q).
      * symmetry. by apply payment_unpaid.
  - by apply astep_drop.
Qed.

Lemma abs_reachable sch s : reachable (O:=O) sch s → rtc astep ainitial (abs s).
Proof.
  intros H. cut (state_inv s ∧ rtc astep ainitial (abs s)); [by intros []|].
  revert s H. apply rtc_ind_r; [split; [apply initial_inv|done]|]. intros s s' _ Hs [I IH].
  split; [by apply (step_inv _ _ Hs)|]. eapply rtc_r; [done|]. by apply step_refines.
Qed.

(** C2. The processes implement the abstract machine of payments: the
    abstraction of a reachable state is one the machine reaches, and each
    further step of any process is a step of the machine. In particular a
    request becomes one being paid only by a step of the withdrawal processor,
    at which all the requests it pays are unpaid, whatever happened since they
    were picked. *)
Theorem payments_refine sch s :
  reachable (O:=O) sch s →
  rtc astep ainitial (abs s) ∧ ∀ s', step (O:=O) s s' → astep (abs s) (abs s').
Proof.
  intros H. split; [by eapply abs_reachable|]. intros s'. apply step_refines.
  by apply (reachable_inv (O:=O) sch).
Qed.

(** C18. Nothing is paid that was not requested: in a reachable state the
    request of every withdrawal that has not failed is in the table. *)
Theorem only_requested_paid sch s x :
  reachable (O:=O) sch s → x ∈ external_withdrawals (s_db s) → xw_failed x = false →
  ∃ r, r ∈ withdrawal_requests (s_db s) ∧ wr_query_id r = xw_query_id x.
Proof.
  intros H%abs_reachable Hx Hf. apply (asteps_known _ (xw_query_id x)) in H.
  - apply list_elem_of_fmap in H as (r & Hr & ?). eauto.
  - simpl. rewrite payment_unpaid. intros []. apply elem_of_live_ids. eauto.
Qed.
End refinement.
