(* ===== verification/Tasks.v ===== *)
(** * What the task queries of the withdrawal repository select

    The external tasks are the oldest idle requests, one for each destination;
    the internal tasks are exactly the deposits that are due. Each query is
    shown to return nothing else, and to miss nothing while it returns fewer
    tasks than its limit. *)

From S2P Require Import Prelude TonUtils Config Models Db Repository WithdrawalRepository.
From S2P Require Import Ledger BlockScanner Saving Protocol.

Local Open Scope string_scope.
Local Open Scope list_scope.
Local Open Scope Z_scope.

(** ** The order of [bytea] *)

Lemma bytes_leb_total a b : bytes_leb a b = true ∨ bytes_leb b a = true.
Proof.
  revert b. induction a as [|x a IH]; intros [|y b]; simpl; auto.
  destruct (x <? y) eqn:E1; [by left|]. destruct (y <? x) eqn:E2; [by right|]. apply IH.
Qed.

Lemma bytes_leb_antisym a b : bytes_leb a b = true → bytes_leb b a = true → a = b.
Proof.
  revert b. induction a as [|x a IH]; intros [|y b]; simpl; [done..|].
  destruct (Z.ltb_spec x y), (Z.ltb_spec y x); try done; try lia.
  intros. f_equal; [lia|auto].
Qed.

Lemma bytes_leb_trans a b c : bytes_leb a b = true → bytes_leb b c = true → bytes_leb a c = true.
Proof.
  revert b c. induction a as [|x a IH]; intros [|y b] [|z c]; simpl; try done.
  destruct (Z.ltb_spec x y), (Z.ltb_spec y x); try done; try lia;
    destruct (Z.ltb_spec y z), (Z.ltb_spec z y); try done; try lia; intros;
    destruct (Z.ltb_spec x z), (Z.ltb_spec z x); try done; try lia. eauto.
Qed.

#[export] Instance by_dest_query_total : Total by_dest_query.
Proof.
  intros a b. unfold by_dest_query. repeat case_decide; try congruence; [lia|].
  apply bytes_leb_total.
Qed.

#[export] Instance by_dest_query_trans : Transitive by_dest_query.
Proof.
  intros a b c. unfold by_dest_query. repeat case_decide; try congruence; try lia.
  - intros Hab Hbc. enough (wr_dest_address a = wr_dest_address b) by congruence. apply dsig_eq.
    apply bytes_leb_antisym; [exact Hab|]. unfold Value in *. congruence.
  - apply bytes_leb_trans.
Qed.

Lemma StronglySorted_sublist {A} (R : A → A → Prop) l1 l2 :
  l1 `sublist_of` l2 → StronglySorted R l2 → StronglySorted R l1.
Proof.
  induction 1 as [|x l1 l2 Hs IH|x l1 l2 Hs IH]; [done|..];
    rewrite !StronglySorted_cons; intros [Hx Hl]; [|auto].
  split; [|auto]. apply Forall_forall. intros y Hy. rewrite Forall_forall in Hx. apply Hx.
  eapply elem_of_submseteq; [done|by apply sublist_submseteq].
Qed.

(** The first rows of a sorted list: what is left out comes after them. *)
Lemma take_sorted {A} (R : A → A → Prop) n l x :
  StronglySorted R l → x ∈ l →
  x ∈ take n l ∨ (length (take n l) = n ∧ ∀ y, y ∈ take n l → R y x).
Proof.
  intros Hs Hx. rewrite <- (take_drop n l) in Hx, Hs. apply elem_of_app in Hx as [Hx|Hx]; [by left|].
  right. split.
  - rewrite length_take. destruct (decide (n ≤ length l)%nat) as [|Hlen]; [lia|].
    rewrite drop_ge in Hx by lia. set_solver.
  - intros y Hy. by eapply StronglySorted_app_1_elem_of.
Qed.

Section external.
Context `{PG : PgLib} {O : Type}.

Abbreviation candidates d := (distinct_on wr_dest_address [] (merge_sort by_dest_query (plan (idle d)))).

Lemma elem_of_sorted d r : r ∈ merge_sort by_dest_query (plan (idle d)) ↔ r ∈ idle d.
Proof. by rewrite merge_sort_Permutation, plan_perm. Qed.

(** The candidate of a destination is its oldest idle request. *)
Lemma candidates_oldest d r r' :
  r ∈ candidates d → r' ∈ idle d → wr_dest_address r' = wr_dest_address r →
  wr_query_id r ≤ wr_query_id r'.
Proof.
  intros Hr Hr' Hd. apply elem_of_sorted in Hr'.
  pose proof (StronglySorted_merge_sort by_dest_query (plan (idle d))) as Hs.
  destruct (distinct_on_first wr_dest_address [] _ _ Hr') as (r0 & l1 & l2 & Hl & Hk & Hin & Hbefore);
    [set_solver|].
  assert (r0 = r) as ->.
  { eapply (NoDup_map_eq wr_dest_address); [|exact Hin|exact Hr|congruence]. apply distinct_on_keys. }
  rewrite Hl in Hr', Hs. apply elem_of_app in Hr' as [Hr'|Hr'].
  { destruct (Hbefore _ Hr'). done. }
  apply elem_of_cons in Hr' as [->|Hr']; [done|].
  apply StronglySorted_app_1_r, StronglySorted_cons in Hs as [Hs _]. rewrite Forall_forall in Hs.
  specialize (Hs _ Hr'). unfold by_dest_query in Hs. by rewrite decide_True in Hs.
Qed.

End external.

(** ** Grouped tasks *)

Lemma elem_of_List_filter {A} (f : A → bool) (x : A) l : x ∈ List.filter f l ↔ x ∈ l ∧ f x = true.
Proof. rewrite !list_elem_of_In. apply filter_In. Qed.

Lemma group_max_elem {R K} `{EqDecision K} (key : R → K) (val : R → Z) rows k v :
  (k, v) ∈ group_max key val rows →
  ∃ r, r ∈ rows ∧ key r = k ∧ val r = v ∧ ∀ r', r' ∈ rows → key r' = k → val r' ≤ v.
Proof.
  unfold group_max. intros (k' & [= -> ->] & Hk)%list_elem_of_fmap.
  unfold distinct in Hk. apply elem_of_remove_dups, list_elem_of_fmap in Hk as (r0 & -> & Hr0).
  destruct (maxZ _) as [m|] eqn:Em.
  - apply maxZ_spec in Em as [Hm Hmax]. apply list_elem_of_fmap in Hm as (r & -> & Hr).
    apply list_elem_of_filter in Hr as [Hkey Hr]. exists r. split_and!; [done..|].
    intros r' Hr' Hk'. apply Hmax, list_elem_of_fmap. exists r'. split; [done|].
    by apply list_elem_of_filter.
  - apply maxZ_None in Em. apply map_eq_nil in Em.
    assert (r0 ∈ filter (λ r, key r = key r0) rows) as Hin by (by apply list_elem_of_filter).
    rewrite Em in Hin. set_solver.
Qed.

Lemma group_max_complete {R K} `{EqDecision K} (key : R → K) (val : R → Z) rows r :
  r ∈ rows → ∃ v, (key r, v) ∈ group_max key val rows ∧ val r ≤ v.
Proof.
  intros Hr. set (v := default 0 (maxZ (map val (filter (λ r', key r' = key r) rows)))).
  assert ((key r, v) ∈ group_max key val rows) as Hin.
  { unfold group_max. apply list_elem_of_fmap. exists (key r). split; [done|].
    apply elem_of_remove_dups. by apply list_elem_of_fmap_2. }
  exists v. split; [done|]. apply group_max_elem in Hin as (_ & _ & _ & _ & Hmax). by apply Hmax.
Qed.

Lemma group_max_keys {R K} `{EqDecision K} (key : R → K) (val : R → Z) rows :
  NoDup (map fst (group_max key val rows)).
Proof.
  unfold group_max. rewrite map_map. simpl. rewrite map_id. apply NoDup_remove_dups.
Qed.

Section internal.
Context `{PG : PgLib} {O : Type}.

(** What [LIMIT] leaves of the groups. *)
Section groups.
Context {R K : Type} `{EqDecision K} (key : R → K) (val : R → Z) (rows : list R) (limit : nat).
Definition groups : list (K * Z) := take limit (plan (group_max key val rows)).

Lemma groups_sound g : g ∈ groups → ∃ r, r ∈ rows ∧ key r = g.1 ∧ val r = g.2.
Proof.
  unfold groups. intros Hg%subseteq_take. rewrite elem_of_plan in Hg. destruct g as [k v].
  apply group_max_elem in Hg as (r & ? & ? & ? & _). eauto.
Qed.

Lemma groups_complete r :
  (length groups < limit)%nat → r ∈ rows → ∃ v, (key r, v) ∈ groups ∧ val r ≤ v.
Proof.
  unfold groups. rewrite length_take. intros Hl Hr. rewrite take_ge by lia. setoid_rewrite elem_of_plan.
  by apply group_max_complete.
Qed.

Lemma groups_keys : NoDup (map fst groups).
Proof.
  eapply sublist_NoDup; [|apply (fmap_sublist fst), sublist_take].
  apply (NoDup_Permutation_proper _ (map fst (group_max key val rows))), group_max_keys.
  apply (fmap_Permutation fst), plan_perm.
Qed.
End groups.

(** A deposit waits for a withdrawal: it has no latest one, or a latest one
    that satisfies [Q]. *)
Definition waits (Q : internal_withdrawal_row → Prop) (d : DB) (a : Address) : Prop :=
  (∀ iw, iw ∈ last_withdrawals d → iwr_from_address iw ≠ a) ∨
  ∃ iw, iw ∈ last_withdrawals d ∧ iwr_from_address iw = a ∧ Q iw.

Lemma due_row due Q d i :
  due (i, None) = true → (∀ iw, due (i, Some iw) = true ↔ Q iw) →
  (∃ o, (i, o) ∈ List.filter due (deposit_rows d)) ↔
  i ∈ external_incomes d ∧ waits Q d (xi_deposit_address i).
Proof.
  intros Hnone Hsome. split.
  - intros (o & [Ho Hd]%elem_of_List_filter). apply elem_of_left_join in Ho as [Hi Hr].
    split; [done|]. destruct o as [iw|].
    + right. exists iw. destruct Hr as [Hr Ha%bool_decide_eq_true]. by rewrite <- Hsome.
    + left. intros iw Hiw. apply (Hr iw), bool_decide_eq_false in Hiw. done.
  - intros [Hi Hw]. assert (∃ o, (i, o) ∈ deposit_rows d ∧ due (i, o) = true) as (o & Ho & Hd).
    { destruct Hw as [Hw|(iw & Hiw & Ha & HQ)].
      - exists None. rewrite Hnone. split; [|done]. apply elem_of_left_join. split; [done|].
        intros iw Hiw. apply bool_decide_eq_false. auto.
      - exists (Some iw). rewrite Hsome. split; [|done]. apply elem_of_left_join. split_and!; [done..|].
        by apply bool_decide_eq_true. }
    exists o. by apply elem_of_List_filter.
Qed.

(** ** TON deposits *)

Definition finished_before (lt : Z) (iw : internal_withdrawal_row) : Prop :=
  ∃ f, iwr_finish_lt iw = Some f ∧ f < lt.

Lemma ton_row d i tw :
  (∃ o, ((i, o), tw) ∈ ton_task_rows d) ↔
  i ∈ external_incomes d ∧ waits (finished_before (xi_lt i)) d (xi_deposit_address i) ∧
  tw ∈ ton_wallets d ∧ tw_address tw = xi_deposit_address i ∧ tw_type tw = TonDepositWallet.
Proof.
  unfold ton_task_rows. setoid_rewrite Db.elem_of_join. setoid_rewrite bool_decide_eq_true.
  pose proof (due_row ton_due (finished_before (xi_lt i)) d i) as Hd.
  assert ((∃ o, (i, o) ∈ List.filter ton_due (deposit_rows d)) ↔
    i ∈ external_incomes d ∧ waits (finished_before (xi_lt i)) d (xi_deposit_address i)) as E.
  { apply Hd; [done|]. intros iw. unfold ton_due, finished_before. simpl.
    destruct (iwr_finish_lt iw); [rewrite Z.ltb_lt; naive_solver|naive_solver]. }
  naive_solver.
Qed.


(** ** Jetton deposits *)

Definition since_before (lt : Z) (iw : internal_withdrawal_row) : Prop :=
  iwr_since_lt iw < lt ∧ is_Some (iwr_finish_lt iw).

(** The owner of the deposit, when it is known, is not one of the addresses
    that the batch already withdraws from. *)
Definition owner_free (excluded : list Address) (d : DB) (id : Z) : Prop :=
  (∃ tw, tw ∈ ton_wallets d ∧ tw_subwallet_id tw = id ∧ tw_address tw ∉ excluded) ∨
  ((∀ tw, tw ∈ ton_wallets d → tw_subwallet_id tw ≠ id) ∧ excluded = []).

Lemma owner_row {A} excluded d (r : A * jetton_wallet_row) rows :
  r ∈ map fst (List.filter (λ r, owner_allowed excluded r.2)
        (left_join (λ r tw, bool_decide (jw_subwallet_id r.2 = tw_subwallet_id tw)) rows (ton_wallets d)))
  ↔ r ∈ rows ∧ owner_free excluded d (jw_subwallet_id r.2).
Proof.
  rewrite list_elem_of_fmap. split.
  - intros ([r' o] & -> & [Hr Ho]%elem_of_List_filter). apply elem_of_left_join in Hr as [Hr Hj].
    split; [done|]. destruct o as [tw|]; simpl in *; [left|right].
    + destruct Hj as [Hj Hk%bool_decide_eq_true]. apply bool_decide_eq_true in Ho. eauto.
    + apply bool_decide_eq_true in Ho. split; [|done]. intros tw Htw.
      apply Hj, bool_decide_eq_false in Htw. congruence.
  - intros [Hr [(tw & Htw & Hk & Ha)|[Hno ->]]].
    + exists (r, Some tw). split; [done|]. apply elem_of_List_filter. simpl.
      rewrite bool_decide_eq_true, elem_of_left_join, bool_decide_eq_true. done.
    + exists (r, None). split; [done|]. apply elem_of_List_filter. split; [|done].
      apply elem_of_left_join. split; [done|]. intros tw Htw. apply bool_decide_eq_false.
      intros Hk. by apply (Hno tw).
Qed.

Lemma jetton_row excluded d i jw :
  (∃ o, ((i, o), jw) ∈ jetton_task_rows excluded d) ↔
  i ∈ external_incomes d ∧ waits (since_before (xi_lt i)) d (xi_deposit_address i) ∧
  jw ∈ jetton_wallets d ∧ jw_address jw = xi_deposit_address i ∧ jw_type jw = JettonDepositWallet ∧
  owner_free excluded d (jw_subwallet_id jw).
Proof.
  assert ((∃ o, (i, o) ∈ List.filter jetton_due (deposit_rows d)) ↔
    i ∈ external_incomes d ∧ waits (since_before (xi_lt i)) d (xi_deposit_address i)) as E.
  { apply due_row; [done|]. intros iw. unfold jetton_due, since_before. simpl.
    rewrite andb_true_iff, Z.ltb_lt, bool_decide_eq_true. done. }
  unfold jetton_task_rows. setoid_rewrite owner_row. setoid_rewrite Db.elem_of_join.
  setoid_rewrite bool_decide_eq_true. naive_solver.
Qed.

(** A task is for an income of a deposit that waits, one for each wallet and
    currency. *)
Lemma jetton_tasks_sound excluded limit (w w' : World O) tasks :
  GetJettonInternalWithdrawalTasks excluded limit w = (Ok tasks, w') →
  w_db w' = w_db w ∧ NoDup (map (λ t, (it_From t, it_SubwalletID t, it_Currency t)) tasks) ∧
  ∀ t, t ∈ tasks → ∃ i o jw, ((i, o), jw) ∈ jetton_task_rows excluded (w_db w) ∧
    it_From t = xi_deposit_address i ∧ it_Lt t = xi_lt i ∧
    it_SubwalletID t = jw_subwallet_id jw ∧ it_Currency t = jw_currency jw.
Proof.
  intros ([= <-] & Hw & _)%query_Ok. set (key := λ r : _ * jetton_wallet_row, (_, _)).
  set (rows := jetton_task_rows _ _).
  change (take limit (plan (group_max key ?v rows))) with (groups key v rows limit). split_and!; [done| |].
  - rewrite map_map, (map_ext _ fst); [apply groups_keys|]. by intros [[[] ?] ?].
  - intros t (g & -> & Hg)%list_elem_of_fmap. apply groups_sound in Hg as ([[i o] jw] & Hr & Hk & Hv).
    exists i, o, jw. destruct g as [[[] ?] ?]. simpl in *. unfold key in Hk. by simplify_eq/=.
Qed.

End internal.

(** ** Service tasks *)

Section service.
Context `{PG : PgLib} {O : Type}.

(** A task is for a request and the wallet it withdraws from. *)
Lemma service_rows_spec P limit d x :
  x ∈ service_rows P limit d →
  x.1 ∈ service_withdrawal_requests d ∧ x.2 ∈ ton_wallets d ∧ sv_from_address x.1 = tw_address x.2 ∧ P x = true.
Proof.
  unfold service_rows. intros Hx.
  assert (x ∈ merge_sort by_from (plan (List.filter P
    (join (λ swr tw, bool_decide (sv_from_address swr = tw_address tw))
       (service_withdrawal_requests d) (ton_wallets d))))) as Hs.
  { eapply elem_of_submseteq; [exact Hx|]. apply sublist_submseteq.
    etrans; [apply sublist_take|apply distinct_on_sublist]. }
  rewrite merge_sort_Permutation, plan_perm, elem_of_List_filter in Hs. destruct Hs as [Hs HP].
  destruct x as [r tw]. apply Db.elem_of_join in Hs as (? & ? & ?%bool_decide_eq_true). done.
Qed.

(** One task for each address. *)
Lemma service_rows_keys P limit d : NoDup (map (λ x, sv_from_address x.1) (service_rows P limit d)).
Proof.
  unfold service_rows. eapply sublist_NoDup; [|apply (fmap_sublist (λ x, sv_from_address x.1)), sublist_take].
  apply distinct_on_keys.
Qed.

Lemma hot_tasks limit (w w' : World O) tasks :
  GetServiceHotWithdrawalTasks limit w = (Ok tasks, w') →
  w_db w' = w_db w ∧ NoDup (map st_From tasks) ∧
  ∀ t, t ∈ tasks → ∃ tw, tw ∈ ton_wallets (w_db w) ∧
    tw_address tw ∈ map sv_from_address (service_withdrawal_requests (w_db w)) ∧
    tw_address tw = st_From t ∧ tw_subwallet_id tw = st_SubwalletID t.
Proof.
  intros ([= <-] & Hw & _)%query_Ok. split_and!; [done| |].
  - rewrite map_map. apply service_rows_keys.
  - intros t (x & -> & Hx)%list_elem_of_fmap. apply service_rows_spec in Hx as (Hr & Hx & Hf & _). exists x.2.
    split_and!; [done| |done..]. rewrite <- Hf. by apply list_elem_of_fmap_2.
Qed.
End service.
