(* ===== verification/Shard.v ===== *)
(** * [core/shard_tracker.go]: following one shard of the workchain

    Which shard blocks concern the wallets of the processor ([isInShard],
    [filterByShard]), and the tracker that walks from the newest shard block
    back to the last one it knows and sends the headers on a channel. A call to
    the node that the code retries is given the list of the answers it gets. *)

From S2P Require Import Prelude TonUtils Config Models.

Local Open Scope string_scope.
Local Open Scope list_scope.
Local Open Scope Z_scope.

(** ** [math/bits] on 64-bit words, [strings.Contains] *)

Fixpoint count_zeros (n : nat) (x : Z) : Z :=
  match n with
  | O => 0
  | S n => if Z.testbit x 0 then 0 else 1 + count_zeros n (Z.shiftr x 1)
  end.

Definition TrailingZeros64 (x : Z) : Z := count_zeros 64 x.
Definition LeadingZeros64 (x : Z) : Z := if x =? 0 then 64 else 63 - Z.log2 x.

Fixpoint Contains (s sub : string) : bool :=
  String.prefix sub s || match s with "" => false | String _ s' => Contains s' sub end.

Definition error_text (e : err) : string :=
  match e with
  | EText s | ELib s => s
  | ENotFound => "not found"
  | ETimeoutExceeded => "timeout exceeded"
  end.

Definition ErrBlockNotApplied : string := "block is not applied".
Definition isNotReadyError (e : err) : bool := Contains (error_text e) ErrBlockNotApplied.

(** ** Shards *)

(** [isInShard]: the prefix is a [uint64], the shard a byte. *)
Definition isInShard (blockShardPrefix shard : Z) : res bool :=
  if decide (blockShardPrefix = 0) then Fatal else
  let prefixLen := 64 - 1 - TrailingZeros64 blockShardPrefix in
  if decide (prefixLen > 8) then Fatal else
  let r := Z.lxor (Z.shiftl shard (64 - 8)) blockShardPrefix in
  Ok (prefixLen <=? LeadingZeros64 r).

Fixpoint filterByShard (headers : list BlockIDExt) (shard : Z) : res BlockIDExt :=
  match headers with
  | [] => Fatal
  | h :: hs =>
      let! b := isInShard (wrap64 (blk_Shard h)) shard in
      if (b : bool) then Ok h else filterByShard hs shard
  end.

(** What the code reads of a [tlb.Block]. *)
Record Block := {
  b_NotMaster : bool;
  b_GenUtime : Z;
  b_StartLt : Z;
  b_EndLt : Z;
  b_GetParentBlocks : res (list BlockIDExt);
}.

(** An error of [GetParentBlocks] yields the zero header and no error. *)
Definition convertBlockToShardHeader (block : Block) (info : BlockIDExt) (shard : Z)
    : res ShardBlockHeader :=
  match b_GetParentBlocks block with
  | Err _ => Ok zero_header
  | Panic => Panic
  | Fatal => Fatal
  | Ok parents =>
      let! parent := filterByShard parents shard in
      Ok {| sb_NotMaster := b_NotMaster block; sb_GenUtime := b_GenUtime block;
            sb_StartLt := b_StartLt block; sb_EndLt := b_EndLt block;
            sb_Parent := Some parent; sb_BlockIDExt := Some info |}
  end.

(** ** Retries

    [None]: the answers ran out while the code was still waiting. *)
Fixpoint until_ready {A} (answers : list (res A)) : option (res A) :=
  match answers with
  | [] => None
  | Err e :: rest => if isNotReadyError e then until_ready rest else Some (Err e)
  | r :: _ => Some r
  end.

Definition getShardBlocksHeader (GetBlockData : BlockIDExt → list (res Block))
    (shardBlockInfo : BlockIDExt) (shard : Z) : option (res ShardBlockHeader) :=
  r ← until_ready (GetBlockData shardBlockInfo);
  Some (let! block := r in convertBlockToShardHeader block shardBlockInfo shard).

(** ** The tracker *)

Record ShardTracker := {
  t_shard : Z;
  t_lastKnownShardBlock : option BlockIDExt;
  t_lastMasterBlock : option BlockIDExt;
  t_blocksChan : list ShardBlockHeader;     (** what was sent, oldest first *)
}.

Definition set_known (b : BlockIDExt) (s : ShardTracker) : ShardTracker :=
  Build_ShardTracker (t_shard s) (Some b) (t_lastMasterBlock s) (t_blocksChan s).
Definition set_master (b : BlockIDExt) (s : ShardTracker) : ShardTracker :=
  Build_ShardTracker (t_shard s) (t_lastKnownShardBlock s) (Some b) (t_blocksChan s).
Definition send (h : ShardBlockHeader) (s : ShardTracker) : ShardTracker :=
  Build_ShardTracker (t_shard s) (t_lastKnownShardBlock s) (t_lastMasterBlock s)
    (t_blocksChan s ++ [h]).

Definition NewShardTracker (shard : Z) (startBlock : option BlockIDExt) : ShardTracker :=
  Build_ShardTracker shard startBlock None [].

(** Answers of [GetMasterchainInfo], one per turn of the loop. *)
Fixpoint getCurrentMasterBlock (answers : list (res BlockIDExt)) (s : ShardTracker)
    : option (res BlockIDExt * ShardTracker) :=
  match answers with
  | [] => None
  | Ok masterBlock :: rest =>
      match t_lastMasterBlock s with
      | None => Some (Ok masterBlock, set_master masterBlock s)
      | Some last =>
          if decide (blk_SeqNo masterBlock = blk_SeqNo last) then getCurrentMasterBlock rest s
          else Some (Ok masterBlock, set_master masterBlock s)
      end
  | r :: _ => Some (r, s)
  end.

Section tracker.
Context (GetBlockData : BlockIDExt → list (res Block)).

Definition is_known (known current : BlockIDExt) : bool :=
  bool_decide (blk_Shard known = blk_Shard current ∧ blk_SeqNo known = blk_SeqNo current).

(** The loop of [getShardBlocks]; a nil current block can not be read. *)
Fixpoint walk_back (fuel : nat) (i : BlockIDExt) (current : option BlockIDExt) (s : ShardTracker)
    : option (res unit * ShardTracker) :=
  match fuel with
  | O => None
  | S fuel =>
      match t_lastKnownShardBlock s, current with
      | Some known, Some current =>
          if is_known known current then Some (Ok tt, set_known i s) else
          r ← getShardBlocksHeader GetBlockData current (t_shard s);
          match r with
          | Ok h => walk_back fuel i (sb_Parent h) (send h s)
          | Err e => Some (Err e, s)
          | Panic => Some (Panic, s)
          | Fatal => Some (Fatal, s)
          end
      | _, _ => Some (Panic, s)
      end
  end.

Definition getShardBlocks (fuel : nat) (i : BlockIDExt) (s : ShardTracker)
    : option (res unit * ShardTracker) := walk_back fuel i (Some i) s.

(** [shardsInfo]: the answers of [GetBlockShardsInfo]. *)
Definition loadShardBlocksBatch (fuel : nat) (shardsInfo : list (res (list BlockIDExt)))
    (s : ShardTracker) : option (res unit * ShardTracker) :=
  r ← until_ready shardsInfo;
  match r with
  | Ok blocksShardsInfo =>
      match filterByShard blocksShardsInfo (t_shard s) with
      | Ok i => getShardBlocks fuel i s
      | Err e => Some (Err e, s)
      | Panic => Some (Panic, s)
      | Fatal => Some (Fatal, s)
      end
  | Err e => Some (Err e, s)
  | Panic => Some (Panic, s)
  | Fatal => Some (Fatal, s)
  end.

(** One turn of [Start]: an error is logged, the tracker goes on. *)
Definition track_once (fuel : nat) (masters : list (res BlockIDExt))
    (shardsInfo : BlockIDExt → list (res (list BlockIDExt))) (s : ShardTracker)
    : option (res unit * ShardTracker) :=
  '(m, s) ← getCurrentMasterBlock masters s;
  match m with
  | Ok masterBlock =>
      '(r, s) ← loadShardBlocksBatch fuel (shardsInfo masterBlock) s;
      Some (match r with Err _ => Ok tt | r => r end, s)
  | Err _ => Some (Ok tt, s)
  | Panic => Some (Panic, s)
  | Fatal => Some (Fatal, s)
  end.
End tracker.

(** ** Bits *)

(** The prefix of the shard that is the [p]-th of [2 ^ n]: the bits of [p],
    a one, and zeros. *)
Definition shard_prefix (n p : Z) : Z := Z.shiftl (2 * p + 1) (63 - n).

Lemma count_zeros_shiftl n k x :
  Z.odd x = true → (k < n)%nat → count_zeros n (Z.shiftl x (Z.of_nat k)) = Z.of_nat k.
Proof.
  intros Hx. revert n. induction k as [|k IH]; intros n Hn; destruct n as [|n]; try lia.
  - simpl Z.of_nat. rewrite Z.shiftl_0_r. cbn [count_zeros]. by rewrite Z.bit0_odd, Hx.
  - cbn [count_zeros]. rewrite Z.shiftl_spec by lia.
    rewrite Z.testbit_neg_r by lia. rewrite Z.shiftr_shiftl_l by lia.
    replace (Z.of_nat (S k) - 1) with (Z.of_nat k) by lia. rewrite IH by lia. lia.
Qed.

Lemma TrailingZeros64_prefix n p : 0 ≤ n ≤ 63 → TrailingZeros64 (shard_prefix n p) = 63 - n.
Proof.
  intros Hn. unfold TrailingZeros64, shard_prefix.
  replace (63 - n) with (Z.of_nat (Z.to_nat (63 - n))) by lia.
  apply count_zeros_shiftl; [|lia]. by rewrite Z.add_comm, Z.odd_add_mul_2.
Qed.

Lemma shard_prefix_pos n p : 0 ≤ n ≤ 63 → 0 ≤ p → 0 < shard_prefix n p.
Proof.
  intros Hn Hp. unfold shard_prefix. rewrite Z.shiftl_mul_pow2 by lia.
  apply Z.mul_pos_pos; [lia|]. apply Z.pow_pos_nonneg; lia.
Qed.

(** Fewer than [64 - k] significant bits is: nothing above bit [64 - k]. *)
Lemma LeadingZeros64_le x k :
  0 ≤ x < 2 ^ 64 → 0 ≤ k ≤ 64 → (k ≤ LeadingZeros64 x ↔ x < 2 ^ (64 - k)).
Proof.
  intros Hx Hk. unfold LeadingZeros64. destruct (Z.eqb_spec x 0) as [->|Hne].
  - split; [|lia]. intros _. apply Z.pow_pos_nonneg; lia.
  - rewrite (Z.log2_lt_pow2 x) by lia. lia.
Qed.

Lemma lxor_lt_pow2 x y m :
  0 ≤ m → 0 ≤ x → 0 ≤ y → (Z.lxor x y < 2 ^ m ↔ Z.shiftr x m = Z.shiftr y m).
Proof.
  intros Hm Hx Hy. assert (0 ≤ Z.lxor x y) by (by apply Z.lxor_nonneg).
  rewrite <- Z.lxor_eq_0_iff, <- Z.shiftr_lxor, Z.shiftr_div_pow2 by lia.
  assert (0 < 2 ^ m) by (apply Z.pow_pos_nonneg; lia). split.
  - intros Hlt. apply Z.div_small. lia.
  - intros Hd. apply Z.div_small_iff in Hd; lia.
Qed.

Lemma isInShard_prefix n p shard :
  0 ≤ n ≤ 8 → 0 ≤ p < 2 ^ n → 0 ≤ shard < 256 →
  isInShard (shard_prefix n p) shard = Ok (bool_decide (Z.shiftr shard (8 - n) = p)).
Proof.
  intros Hn Hp Hs. unfold isInShard.
  pose proof (shard_prefix_pos n p) as Hpos.
  rewrite decide_False by lia. rewrite TrailingZeros64_prefix by lia.
  rewrite decide_False by lia. f_equal.
  replace (64 - 1 - (63 - n)) with n by lia. replace (64 - 8) with 56 by lia.
  assert (0 ≤ shard_prefix n p < 2 ^ 64) as Hr.
  { split; [lia|]. unfold shard_prefix. rewrite Z.shiftl_mul_pow2 by lia.
    assert (2 ^ 64 = 2 * 2 ^ n * 2 ^ (63 - n)) as ->.
    { rewrite <- Z.pow_succ_r, <- Z.pow_add_r by lia. f_equal. lia. }
    apply Z.mul_lt_mono_pos_r; [apply Z.pow_pos_nonneg; lia|]. lia. }
  assert (0 ≤ Z.shiftl shard 56 < 2 ^ 64) as Hr'.
  { rewrite Z.shiftl_mul_pow2 by lia. lia. }
  assert (0 ≤ Z.lxor (Z.shiftl shard 56) (shard_prefix n p) < 2 ^ 64) as Hx.
  { split; [apply Z.lxor_nonneg; lia|]. apply lxor_lt_pow2; [lia..|].
    rewrite !Z.shiftr_div_pow2, !Z.div_small by lia. done. }
  apply eq_true_iff_eq. rewrite Z.leb_le, bool_decide_eq_true.
  rewrite LeadingZeros64_le, lxor_lt_pow2 by lia.
  replace (Z.shiftr (Z.shiftl shard 56) (64 - n)) with (Z.shiftr shard (8 - n)).
  2: { rewrite Z.shiftr_shiftl_r by lia. f_equal. lia. }
  replace (Z.shiftr (shard_prefix n p) (64 - n)) with p; [done|].
  unfold shard_prefix. rewrite Z.shiftr_shiftl_r by lia.
  replace (64 - n - (63 - n)) with 1 by lia. rewrite Z.shiftr_div_pow2 by lia.
  change (2 ^ 1) with 2. rewrite (Z.mul_comm 2 p), Z.div_add_l by lia. change (1 `div` 2) with 0. lia.
Qed.

(** ** Shard splits

    The shards of a workchain are the leaves of a binary tree: a shard that
    splits is replaced by the two whose prefixes are one bit longer. *)

Inductive split_tree : Set := Whole | Split2 (l r : split_tree).

Fixpoint depth (t : split_tree) : Z :=
  match t with Whole => 0 | Split2 l r => 1 + Z.max (depth l) (depth r) end.

(** The leaves below the [p]-th shard of [2 ^ n]. *)
Fixpoint leaves (t : split_tree) (n p : Z) : list (Z * Z) :=
  match t with
  | Whole => [(n, p)]
  | Split2 l r => leaves l (n + 1) (2 * p) ++ leaves r (n + 1) (2 * p + 1)
  end.

Definition leaf_of (shard : Z) (l : Z * Z) : Prop := Z.shiftr shard (8 - l.1) = l.2.
#[export] Instance leaf_of_dec shard l : Decision (leaf_of shard l).
Proof. unfold leaf_of. apply _. Defined.

Lemma depth_nonneg t : 0 ≤ depth t.
Proof. induction t; simpl; lia. Qed.

Lemma leaves_range t n p l :
  0 ≤ n → n + depth t ≤ 8 → 0 ≤ p < 2 ^ n → l ∈ leaves t n p → 0 ≤ l.1 ≤ 8 ∧ 0 ≤ l.2 < 2 ^ l.1.
Proof.
  revert n p. induction t as [|t1 IH1 t2 IH2]; intros n p Hn Hd Hp Hl; simpl in *.
  - apply list_elem_of_singleton in Hl as ->. simpl. lia.
  - pose proof (depth_nonneg t1). pose proof (depth_nonneg t2).
    assert (2 ^ (n + 1) = 2 * 2 ^ n) as Hpow by (rewrite Z.pow_add_r by lia; lia).
    apply elem_of_app in Hl as [Hl|Hl]; [apply IH1 in Hl|apply IH2 in Hl]; lia.
Qed.

(** Half a step down: the next bit of the shard decides the side. *)
Lemma shiftr_half shard n p :
  0 ≤ n < 8 →
  (Z.shiftr shard (8 - n) = p ↔
   Z.shiftr shard (8 - (n + 1)) = 2 * p ∨ Z.shiftr shard (8 - (n + 1)) = 2 * p + 1).
Proof.
  intros Hn. replace (8 - n) with ((8 - (n + 1)) + 1) by lia.
  rewrite <- Z.shiftr_shiftr by lia. rewrite (Z.shiftr_div_pow2 _ 1) by lia.
  change (2 ^ 1) with 2. generalize (Z.shiftr shard (8 - (n + 1))) as x. intros x.
  split; [intros <- | intros [ -> | -> ]]; Z.div_mod_to_equations; lia.
Qed.

Lemma leaves_one shard t n p :
  0 ≤ n → n + depth t ≤ 8 →
  length (filter (leaf_of shard) (leaves t n p)) =
    if decide (Z.shiftr shard (8 - n) = p) then 1%nat else 0%nat.
Proof.
  revert n p. induction t as [|t1 IH1 t2 IH2]; intros n p Hn Hd; simpl in *.
  - rewrite filter_cons, filter_nil.
    destruct (decide (leaf_of _ _)) as [H|H], (decide _) as [H'|H']; done.
  - pose proof (depth_nonneg t1). pose proof (depth_nonneg t2).
    rewrite filter_app, length_app, IH1, IH2 by lia.
    pose proof (shiftr_half shard n p) as Hh. repeat case_decide; try done; lia.
Qed.

(** When every listed prefix is valid and one qualifies, one is found. *)
Lemma filterByShard_find headers shard h :
  (∀ h, h ∈ headers → ∃ b, isInShard (wrap64 (blk_Shard h)) shard = Ok b) →
  h ∈ headers → isInShard (wrap64 (blk_Shard h)) shard = Ok true →
  ∃ h0, filterByShard headers shard = Ok h0 ∧ h0 ∈ headers ∧
        isInShard (wrap64 (blk_Shard h0)) shard = Ok true.
Proof.
  induction headers as [|x hs IH]; intros Hv Hh Ht; [set_solver|]. simpl.
  destruct (Hv x) as [[] Hx]; [set_solver|..]; rewrite Hx; simpl; [exists x; set_solver|].
  apply elem_of_cons in Hh as [->|Hh]; [congruence|].
  destruct IH as (h0 & ? & ? & ?); [set_solver|done..|]. exists h0. set_solver.
Qed.

(** C27. Following a shard never stops and is never ambiguous: whatever way the
    workchain is split, up to 256 shards, and in whatever order the node lists
    them, [filterByShard] finds the one shard that holds the accounts whose
    address starts with the byte, and no other listed shard qualifies. *)
Theorem filterByShard_split t headers shard :
  depth t ≤ 8 → 0 ≤ shard < 256 →
  map (λ h, wrap64 (blk_Shard h)) headers ≡ₚ map (λ l, shard_prefix l.1 l.2) (leaves t 0 0) →
  ∃ h l, filterByShard headers shard = Ok h ∧ h ∈ headers ∧ l ∈ leaves t 0 0 ∧
    wrap64 (blk_Shard h) = shard_prefix l.1 l.2 ∧ Z.shiftr shard (8 - l.1) = l.2 ∧
    ∀ h', h' ∈ headers → isInShard (wrap64 (blk_Shard h')) shard = Ok true →
      wrap64 (blk_Shard h') = wrap64 (blk_Shard h).
Proof.
  intros Hd Hs Hp. pose proof (leaves_one shard t 0 0) as Hone.
  rewrite decide_True in Hone.
  2: { change (8 - 0) with 8. rewrite Z.shiftr_div_pow2, Z.div_small by lia. done. }
  specialize (Hone ltac:(lia) ltac:(lia)).
  destruct (filter (leaf_of shard) (leaves t 0 0)) as [|l [|]] eqn:Hf; try done. clear Hone.
  assert (∀ l', l' ∈ leaves t 0 0 →
    isInShard (shard_prefix l'.1 l'.2) shard = Ok (bool_decide (leaf_of shard l'))) as Hin.
  { intros l' Hl'. apply leaves_range in Hl'; [|lia..]. by apply isInShard_prefix; lia. }
  assert (∀ l', l' ∈ leaves t 0 0 → leaf_of shard l' → l' = l) as Huniq.
  { intros l' Hl' Hm. apply list_elem_of_singleton. rewrite <- Hf.
    by apply list_elem_of_filter. }
  assert (leaf_of shard l ∧ l ∈ leaves t 0 0) as [Hlm Hl].
  { apply (list_elem_of_filter (leaf_of shard) (leaves t 0 0) l). rewrite Hf. set_solver. }
  assert (∀ h, h ∈ headers → ∃ l', l' ∈ leaves t 0 0 ∧ wrap64 (blk_Shard h) = shard_prefix l'.1 l'.2)
    as Hh.
  { intros h Hh. assert (wrap64 (blk_Shard h) ∈ map (λ l, shard_prefix l.1 l.2) (leaves t 0 0))
      as (l' & ? & ?)%list_elem_of_fmap; [|eauto].
    rewrite <- Hp. apply list_elem_of_fmap. eauto. }
  assert (∃ h, h ∈ headers ∧ wrap64 (blk_Shard h) = shard_prefix l.1 l.2) as (h & Hhin & Hhl).
  { assert (shard_prefix l.1 l.2 ∈ map (λ h, wrap64 (blk_Shard h)) headers)
      as (h & ? & ?)%list_elem_of_fmap; [|eauto].
    rewrite Hp. apply list_elem_of_fmap. eauto. }
  destruct (filterByShard_find headers shard h) as (h0 & H0 & Hin0 & Ht0); [|done| |].
  { intros x Hx. destruct (Hh x Hx) as (l' & Hl' & ->). eauto. }
  { by rewrite Hhl, (Hin l Hl), bool_decide_true. }
  assert (∀ h', h' ∈ headers → isInShard (wrap64 (blk_Shard h')) shard = Ok true →
    wrap64 (blk_Shard h') = shard_prefix l.1 l.2) as Hall.
  { intros h' Hh' Ht. destruct (Hh h' Hh') as (l' & Hl' & Hw). rewrite Hw in Ht |- *.
    rewrite (Hin l' Hl') in Ht. injection Ht as Ht%bool_decide_eq_true. by rewrite (Huniq l'). }
  exists h0, l. split_and!; [done|done|done|by apply Hall|done|].
  intros h' Hh' Ht. by rewrite !Hall.
Qed.

(** ** Walking back *)

Section walk.
Context (GetBlockData : BlockIDExt → list (res Block)).

Abbreviation header := (getShardBlocksHeader GetBlockData).

(** A block of a shard has its number to itself. *)
Definition same_block (b b' : BlockIDExt) : Prop := blk_Shard b = blk_Shard b' ∧ blk_SeqNo b = blk_SeqNo b'.

(** The first parent of a block that holds the shard. *)
Definition parent_of (shard : Z) (block : Block) (p : BlockIDExt) : Prop :=
  ∃ before after, b_GetParentBlocks block = Ok (before ++ p :: after) ∧
    (∀ q, q ∈ before → isInShard (wrap64 (blk_Shard q)) shard = Ok false) ∧
    isInShard (wrap64 (blk_Shard p)) shard = Ok true.

(** [chain known c hs]: from [c] the parents lead to the block [known]; no
    block before has both its shard and its number, and [hs] are the headers of
    those blocks, each with its parent. *)
Inductive chain (shard : Z) (known : BlockIDExt) : BlockIDExt → list ShardBlockHeader → Prop :=
| chain_end c : same_block known c → chain shard known c []
| chain_more c block p hs :
    ¬ same_block known c → until_ready (GetBlockData c) = Some (Ok block) → parent_of shard block p →
    chain shard known p hs →
    chain shard known c
      ({| sb_NotMaster := b_NotMaster block; sb_GenUtime := b_GenUtime block; sb_StartLt := b_StartLt block;
          sb_EndLt := b_EndLt block; sb_Parent := Some p; sb_BlockIDExt := Some c |} :: hs).

Lemma filterByShard_first before p after shard :
  (∀ q, q ∈ before → isInShard (wrap64 (blk_Shard q)) shard = Ok false) →
  isInShard (wrap64 (blk_Shard p)) shard = Ok true → filterByShard (before ++ p :: after) shard = Ok p.
Proof.
  intros Hb Hp. induction before as [|q before IH]; simpl; [by rewrite Hp|].
  rewrite Hb by set_solver. apply IH. set_solver.
Qed.

Lemma chain_header shard c block p :
  until_ready (GetBlockData c) = Some (Ok block) → parent_of shard block p →
  header c shard = Some (Ok {| sb_NotMaster := b_NotMaster block; sb_GenUtime := b_GenUtime block;
    sb_StartLt := b_StartLt block; sb_EndLt := b_EndLt block; sb_Parent := Some p; sb_BlockIDExt := Some c |}).
Proof.
  intros Hb (before & after & Hp & Hn & Hin). unfold getShardBlocksHeader. rewrite Hb. simpl.
  unfold convertBlockToShardHeader. by rewrite Hp, filterByShard_first.
Qed.

Lemma is_known_same known c : is_known known c = true ↔ same_block known c.
Proof. apply bool_decide_eq_true. Qed.
Lemma is_known_differs known c : ¬ same_block known c → is_known known c = false.
Proof. apply bool_decide_eq_false_2. Qed.

Lemma walk_back_chain fuel i c hs s known :
  t_lastKnownShardBlock s = Some known → chain (t_shard s) known c hs →
  (length hs < fuel)%nat →
  walk_back GetBlockData fuel i (Some c) s =
    Some (Ok tt, Build_ShardTracker (t_shard s) (Some i) (t_lastMasterBlock s) (t_blocksChan s ++ hs)).
Proof.
  intros Hk Hc. remember (t_shard s) as sh eqn:Es. revert s fuel Es Hk.
  induction Hc as [c Hkn|c block p hs Hkn Hb Hp _ IH]; intros s fuel -> Hk Hf;
    (destruct fuel as [|fuel]; [simpl in Hf; lia|]); simpl; rewrite Hk.
  - apply is_known_same in Hkn as ->. unfold set_known. by rewrite app_nil_r.
  - rewrite is_known_differs, (chain_header _ _ _ _ Hb Hp) by done. simpl.
    rewrite (IH (send _ s)); [|done|done|simpl in Hf; lia]. unfold send. simpl. by rewrite <- app_assoc.
Qed.

(** C28. Catching up: when the blocks can be read and their parents in the shard
    lead from the newest block to the last known one, the first with its shard and
    number, [getShardBlocks] ends, has sent the header of every block in between
    exactly once, the newest first, and takes the newest block as known. *)
Theorem getShardBlocks_catches_up fuel i hs s known :
  t_lastKnownShardBlock s = Some known → chain (t_shard s) known i hs →
  (length hs < fuel)%nat →
  ∃ s', getShardBlocks GetBlockData fuel i s = Some (Ok tt, s') ∧
    t_blocksChan s' = t_blocksChan s ++ hs ∧ t_lastKnownShardBlock s' = Some i.
Proof. intros Hk Hc Hf. eexists. split; [by eapply walk_back_chain|done]. Qed.

(** [part known c hs e]: after sending [hs] the walk meets the error [e]. *)
Inductive part (shard : Z) (known : BlockIDExt) : BlockIDExt → list ShardBlockHeader → err → Prop :=
| part_error c e : is_known known c = false → header c shard = Some (Err e) →
    part shard known c [] e
| part_more c h p hs e :
    is_known known c = false → header c shard = Some (Ok h) → sb_Parent h = Some p →
    part shard known p hs e → part shard known c (h :: hs) e.

Lemma walk_back_part fuel i c hs e s known :
  t_lastKnownShardBlock s = Some known → part (t_shard s) known c hs e →
  (length hs < fuel)%nat →
  walk_back GetBlockData fuel i (Some c) s =
    Some (Err e, Build_ShardTracker (t_shard s) (Some known) (t_lastMasterBlock s)
                   (t_blocksChan s ++ hs)).
Proof.
  intros Hk Hc. remember (t_shard s) as sh eqn:Es. revert s fuel Es Hk.
  induction Hc as [c e Hkn Hh|c h p hs e Hkn Hh Hpar _ IH]; intros s fuel -> Hk Hf;
    (destruct fuel as [|fuel]; [simpl in Hf; lia|]); simpl; rewrite Hk, Hkn, Hh; simpl.
  - rewrite app_nil_r. destruct s. simpl in *. by subst.
  - rewrite Hpar, (IH (send h s)); [|done|done|simpl in Hf; lia].
    unfold send. simpl. by rewrite <- app_assoc.
Qed.

End walk.

(** A walk that is not interrupted meets the headers of one that was. *)
Lemma part_chain G G' shard known c hs hs' e :
  (∀ c h, getShardBlocksHeader G c shard = Some (Ok h) → getShardBlocksHeader G' c shard = Some (Ok h)) →
  part G shard known c hs e → chain G' shard known c hs' → ∃ rest, hs' = hs ++ rest.
Proof.
  intros Hsame Hp. revert hs'. induction Hp as [c e Hkn Hh|c h p hs e Hkn Hh Hpar _ IH]; intros hs' Hc.
  - by exists hs'.
  - inversion Hc as [? Hs|? block p' hs'' _ Hb Hp' Hc']; subst; [apply is_known_same in Hs; congruence|].
    apply Hsame in Hh. rewrite (chain_header _ _ _ _ _ Hb Hp') in Hh. injection Hh as <-. simpl in Hpar.
    injection Hpar as <-. destruct (IH hs'') as [rest ->]; [done|]. by exists rest.
Qed.

(** A walk the node interrupts is started again from the newest block:
    the headers already sent stay sent and the known block does not move, so
    that the next walk, over the same blocks, sends all of them a second time. *)
Theorem interrupted_walk_resends G G' fuel i hs hs' e s known :
  t_lastKnownShardBlock s = Some known → part G (t_shard s) known i hs e → (length hs < fuel)%nat →
  (∀ c h, getShardBlocksHeader G c (t_shard s) = Some (Ok h) →
          getShardBlocksHeader G' c (t_shard s) = Some (Ok h)) →
  chain G' (t_shard s) known i hs' → (length hs' < fuel)%nat →
  ∃ s1 s2 rest, getShardBlocks G fuel i s = Some (Err e, s1) ∧
    t_blocksChan s1 = t_blocksChan s ++ hs ∧
    getShardBlocks G' fuel i s1 = Some (Ok tt, s2) ∧
    t_blocksChan s2 = t_blocksChan s ++ hs ++ hs ++ rest.
Proof.
  intros Hk Hp Hf Hsame Hc Hf'. destruct (part_chain _ _ _ _ _ _ _ _ Hsame Hp Hc) as [rest ->].
  eexists _, _, rest. split_and!.
  - by eapply walk_back_part.
  - done.
  - by eapply walk_back_chain.
  - simpl. by rewrite <- !app_assoc.
Qed.

(** A block whose parents can not be read stops the process: its zero
    header is sent on the channel as if it were a block, without an error, and
    the walk then dereferences its nil parent. *)
Theorem unreadable_parents_panic GetBlockData fuel i s known block e rest :
  t_lastKnownShardBlock s = Some known → is_known known i = false →
  GetBlockData i = Ok block :: rest → b_GetParentBlocks block = Err e →
  getShardBlocks GetBlockData (S (S fuel)) i s = Some (Panic, send zero_header s).
Proof.
  intros Hk Hn Hg Hp. unfold getShardBlocks. cbn [walk_back]. rewrite Hk, Hn.
  unfold getShardBlocksHeader. rewrite Hg. simpl. unfold convertBlockToShardHeader.
  rewrite Hp. simpl. by rewrite Hk.
Qed.

(** An answer the tracker has already handled: the last master block. *)
Definition stale (s : ShardTracker) (r : res BlockIDExt) : Prop :=
  ∃ m last, r = Ok m ∧ t_lastMasterBlock s = Some last ∧ blk_SeqNo m = blk_SeqNo last.

(** The tracker never handles the same master block twice in a row and
    waits no longer than it has to: it returns with the first answer that is not
    the last master block, whichever answers came before, and remembers it. *)
Theorem getCurrentMasterBlock_first answers s r s' :
  getCurrentMasterBlock answers s = Some (r, s') ↔
  ∃ before after, answers = before ++ r :: after ∧ Forall (stale s) before ∧ ¬ stale s r ∧
    s' = match r with Ok m => set_master m s | _ => s end.
Proof.
  induction answers as [|x rest IH]; simpl.
  { split; [done|]. intros (before & after & E & _). by destruct before. }
  assert (stale s x → (∃ before after, x :: rest = before ++ r :: after ∧ Forall (stale s) before ∧
    ¬ stale s r ∧ s' = match r with Ok m => set_master m s | _ => s end) ↔
    getCurrentMasterBlock rest s = Some (r, s')) as Hstale.
  { intros Hx. rewrite IH. split.
    - intros ([|y before] & after & E & Hb & Hr & ?); simplify_eq/=; [done|].
      apply Forall_cons in Hb as [_ Hb]. eauto 7.
    - intros (before & after & -> & Hb & Hr & ->). exists (x :: before), after.
      split_and!; [done|by constructor|done..]. }
  assert (¬ stale s x → (∃ before after, x :: rest = before ++ r :: after ∧ Forall (stale s) before ∧
    ¬ stale s r ∧ s' = match r with Ok m => set_master m s | _ => s end) ↔
    r = x ∧ s' = match x with Ok m => set_master m s | _ => s end) as Hfresh.
  { intros Hx. split.
    - intros ([|y before] & after & E & Hb & Hr & ->); simplify_eq/=; [done|]. by inversion Hb.
    - intros [-> ->]. by exists [], rest. }
  destruct x as [m| | |]; [|rewrite Hfresh; [naive_solver|by intros (? & ? & ? & _)]..].
  destruct (t_lastMasterBlock s) as [last|] eqn:El; [case_decide|].
  - rewrite Hstale; [done|]. by exists m, last.
  - rewrite Hfresh; [naive_solver|]. intros (m' & last' & E & El' & ?). congruence.
  - rewrite Hfresh; [naive_solver|]. intros (m' & last' & E & El' & ?). congruence.
Qed.
