(* ===== verification/Messages.v ===== *)
(** * [core/withdrawal.go], [core/proxy.go]: the messages the processor builds

    Transfers of TONs and jettons, comments, and the proxy contract that owns
    a jetton deposit. A [Must...] call that does not fit panics; a comment that
    does not fit ends the process. [rand.Int63()] is an argument. *)

From S2P Require Import Prelude TonUtils Config Models BlockScanner.
From Stdlib Require Import Ascii.

Local Open Scope string_scope.
Local Open Scope list_scope.
Local Open Scope Z_scope.

(** ** [encoding/hex] *)

Definition hex_digit (c : Ascii.ascii) : option Z :=
  let n := Z.of_nat (nat_of_ascii c) in
  if (48 <=? n) && (n <=? 57) then Some (n - 48)
  else if (65 <=? n) && (n <=? 70) then Some (n - 55)
  else if (97 <=? n) && (n <=? 102) then Some (n - 87)
  else None.

Fixpoint hex_DecodeString (s : string) : option (list Z) :=
  match s with
  | "" => Some []
  | String a (String b s) =>
      x ← hex_digit a; y ← hex_digit b; l ← hex_DecodeString s; Some (16 * x + y :: l)
  | String _ "" => None
  end.

(** [config.JettonProxyContractCode] *)
Definition JettonProxyContractCode : string :=
  "B5EE9C72410102010037000114FF00F4A413F4BCF2C80B010050D33331D0D3030171B0915BE0FA4030ED44D0FA4030C705F2E1939320D74A97D4018100A0FB00E8301E8A9040".

Section messages.
Context `{TL : TvmLib}.
Abbreviation message := (WalletMessage tonaddr Cell).

(** The builder's [Must...] methods: an error is a panic. *)
Definition must {A} (r : res A) : res A := match r with Err _ => Panic | r => r end.

(** [if err != nil { log.Fatalf }] *)
Definition or_fatal {A} (r : res A) : res A := match r with Err _ => Fatal | r => r end.

Definition buildComment (comment : string) : res Cell :=
  or_fatal (EndCell (comment_stores comment)).

(** [uint64(queryId)] of an int64 *)
Definition makeJettonTransferMessage (destination responseDest : tonaddr)
    (amount forwardAmount queryId : Z) (comment : string) : res Cell :=
  if decide (comment = "") then
    must (EndCell (transfer_stores (wrap64 queryId) amount forwardAmount destination
                     responseDest None))
  else
    let! c := buildComment comment in
    must (EndCell (transfer_stores (wrap64 queryId) amount forwardAmount destination
                     responseDest (Some c))).

Definition BuildTonWithdrawalMessage (t : ExternalWithdrawalTask) : res message :=
  let! body := buildComment (et_Comment t) in
  Ok (Build_WalletMessage 3 (Build_OutMessage (et_Bounceable t)
        (ToTonutilsAddressStd 0 (et_Destination t)) (BigInt (et_Amount t)) (Some body) None)).

Definition BuildJettonWithdrawalMessage (t : ExternalWithdrawalTask)
    (highloadWallet fromJettonWallet : tonaddr) : res message :=
  let! body := makeJettonTransferMessage (ToTonutilsAddressStd 0 (et_Destination t))
                 highloadWallet (BigInt (et_Amount t)) JettonForwardAmount (et_QueryID t)
                 (et_Comment t) in
  Ok (Build_WalletMessage 3 (Build_OutMessage true fromJettonWallet JettonTransferTonAmount
        (Some body) None)).

(** ** The proxy contract *)

Record JettonProxy := {
  px_Owner : tonaddr;
  px_SubwalletID : Z;
  px_address : tonaddr;
  px_stateInit : StateInit Cell;
}.

Definition buildJettonProxyStateInit (subwalletId : Z) (owner : tonaddr) : res (StateInit Cell) :=
  match hex_DecodeString JettonProxyContractCode with
  | None => Fatal
  | Some h =>
      let! code := or_fatal (of_option (ELib "boc") (FromBOC h)) in
      let! data := must (EndCell [StoreAddr owner; StoreUInt subwalletId 32]) in
      Ok (Build_StateInit code data)
  end.

Definition NewJettonProxy (subwalletId : Z) (owner : option tonaddr) : res JettonProxy :=
  match owner with
  | None => Err (EText "nil owner")
  | Some owner =>
      let! stateInit := buildJettonProxyStateInit subwalletId owner in
      let! stateCell := of_option (EText "failed to get state cell") (ToCell_stateInit stateInit) in
      Ok {| px_Owner := owner; px_SubwalletID := subwalletId;
            px_address := NewAddress 0 DefaultWorkchain (cell_Hash stateCell);
            px_stateInit := stateInit |}
  end.

(** [JettonProxy.BuildMessage] *)
Definition BuildMessage (destination : tonaddr) (body : Cell) : OutMessage tonaddr Cell :=
  Build_OutMessage true destination 0 (Some body) None.

(** A message to the proxy that wraps the message it is to send. *)
Definition to_proxy (proxy : JettonProxy) (m : OutMessage tonaddr Cell) : res message :=
  let! msg := or_fatal (of_option (ELib "tlb") (ToCell_message m)) in
  let! body := must (EndCell [StoreRef msg]) in
  Ok (Build_WalletMessage 3 (Build_OutMessage true (px_address proxy) JettonTransferTonAmount
        (Some body) (Some (px_stateInit proxy)))).

Definition BuildJettonProxyWithdrawalMessage (proxy : JettonProxy)
    (jettonWallet tonWallet : tonaddr) (forwardAmount amount : Z) (comment : string) (rnd : Z)
    : res message :=
  let! payload := makeJettonTransferMessage tonWallet tonWallet amount forwardAmount rnd comment in
  to_proxy proxy (BuildMessage jettonWallet payload).

Definition buildJettonProxyServiceTonWithdrawalMessage (proxy : JettonProxy)
    (tonWallet : tonaddr) (memo : string) : res message :=
  let! c := buildComment memo in
  to_proxy proxy (BuildMessage tonWallet c).

Definition buildTonFillMessage (to : tonaddr) (amount : Z) (memo : string) : res message :=
  let! c := buildComment memo in
  Ok (Build_WalletMessage 3 (Build_OutMessage false to amount (Some c) None)).

(** [128 + 32]: send everything and destroy the contract. *)
Definition withdraw_ton_message (to : tonaddr) (comment : string) : res message :=
  let! body := (if decide (comment = "") then Ok None
                else let! c := buildComment comment in Ok (Some c)) in
  Ok (Build_WalletMessage (128 + 32) (Build_OutMessage false to 0 body None)).

Definition withdraw_jetton_message (to jettonWallet : tonaddr) (forwardAmount : Z)
    (amount : Coins) (comment : string) (rnd : Z) : res message :=
  let! body := makeJettonTransferMessage to to (BigInt amount) forwardAmount rnd comment in
  Ok (Build_WalletMessage (128 + 32) (Build_OutMessage true jettonWallet 0 (Some body) None)).

(** ** Facts *)

Lemma to_proxy_amount p m msg :
  to_proxy p m = Ok msg → om_Amount (wm_Message msg) = JettonTransferTonAmount.
Proof. unfold to_proxy. intros H. inv_res. done. Qed.

Lemma proxy_withdrawal_amount p j t f a c r msg :
  BuildJettonProxyWithdrawalMessage p j t f a c r = Ok msg →
  om_Amount (wm_Message msg) = JettonTransferTonAmount.
Proof. intros (x & _ & H)%res_bind_Ok. by eapply to_proxy_amount. Qed.

Lemma proxy_service_amount p t c msg :
  buildJettonProxyServiceTonWithdrawalMessage p t c = Ok msg →
  om_Amount (wm_Message msg) = JettonTransferTonAmount.
Proof. intros (x & _ & H)%res_bind_Ok. by eapply to_proxy_amount. Qed.

Lemma jetton_withdrawal_amount t h j msg :
  BuildJettonWithdrawalMessage t h j = Ok msg →
  om_Amount (wm_Message msg) = JettonTransferTonAmount.
Proof. unfold BuildJettonWithdrawalMessage. intros H. inv_res. done. Qed.

Lemma ton_withdrawal_amount t msg :
  BuildTonWithdrawalMessage t = Ok msg → om_Amount (wm_Message msg) = et_Amount t.
Proof. unfold BuildTonWithdrawalMessage. intros H. inv_res. done. Qed.

Lemma fill_amount a z m msg :
  buildTonFillMessage a z m = Ok msg → om_Amount (wm_Message msg) = z.
Proof. unfold buildTonFillMessage. intros H. inv_res. done. Qed.

(** A jetton transfer as the scanner reads it back. *)
Lemma transfer_read_back `{LW : !TvmLaws} d r a f q comment body :
  0 ≤ a → makeJettonTransferMessage d r a f q comment = Ok body →
  ∀ msg, im_Payload msg = Some body →
  ∃ t, DecodeJettonTransfer (Some msg) = Ok t ∧ jt_Amount t = a ∧
       jt_Destination t = Some d ∧ jt_Comment t = comment.
Proof.
  intros Ha H msg Hm. unfold DecodeJettonTransfer, payload_of. rewrite Hm. simpl.
  unfold makeJettonTransferMessage in H. case_decide as Hc.
  - destruct (EndCell _) as [c| | |] eqn:Ec; simplify_eq/=.
    apply load_transfer in Ec as (t & Ht & Hta & Htd & Hp); [|done]. rewrite Ht. simpl.
    eexists. split; [done|]. simpl. split_and!; [done..|].
    unfold LoadComment. destruct (tr_ForwardPayload t) as [p|]; [|done]. by rewrite Hp.
  - apply res_bind_Ok in H as (c & Hb & H). unfold buildComment, or_fatal in Hb.
    destruct (EndCell (comment_stores comment)) as [c'| | |] eqn:Ecom; simplify_eq/=.
    destruct (EndCell (transfer_stores _ _ _ _ _ _)) as [b| | |] eqn:Ec; simplify_eq/=.
    apply load_transfer in Ec as (t & Ht & Hta & Htd & Hp); [|done]. rewrite Ht. simpl.
    eexists. split; [done|]. simpl. split_and!; [done..|].
    unfold LoadComment. rewrite Hp. apply load_comment in Ecom as (sl & -> & Hs).
    by rewrite Hs.
Qed.

(** C29. Round trip of a jetton payment: what the processor writes for a task,
    the scanner reads back: the amount, the destination and the comment, for
    any comment that fits, empty ones included. *)
Theorem jetton_payment_read_back `{LW : !TvmLaws} `{ALW : !AddrLaws} t h j msg m :
  0 ≤ et_Amount t → BuildJettonWithdrawalMessage t h j = Ok msg →
  im_Payload m = om_Body (wm_Message msg) →
  ∃ tr, DecodeJettonTransfer (Some m) = Ok tr ∧ jt_Amount tr = et_Amount t ∧
    AddressFromTonutilsAddress (jt_Destination tr) = Ok (et_Destination t) ∧
    jt_Comment tr = et_Comment t.
Proof.
  intros Ha (body & Hb & [= <-])%res_bind_Ok Hm. simpl in Hm.
  destruct (transfer_read_back _ _ _ _ _ _ _ Ha Hb m Hm) as (tr & H1 & H2 & H3 & H4).
  exists tr. split_and!; [done..| |done]. rewrite H3. apply AddressFromTonutilsAddress_Std.
Qed.
End messages.
