(* ===== verification/Processor.v ===== *)
(** * [core/withdrawal_processor.go]: choosing and sending withdrawals

    One pass of each of the processor's loops. The repository is an interface,
    as in [db/types.go]: a record of effectful operations, which
    [withdrawalRepository] implements and which [NewWithdrawalsProcessor]
    leaves nil. The balances map holds pointers that nothing else keeps, so it
    is a map of integers; a missing entry is a nil pointer. *)

From S2P Require Import Prelude TonUtils Config Models Core Db AddressBook Repository.
From S2P Require Import WithdrawalRepository BlockScanner Messages.

Local Open Scope string_scope.
Local Open Scope list_scope.
Local Open Scope Z_scope.

(** [db.WithdrawalRepository], the operations the processor calls. *)
Record WithdrawalRepo (O : Type) := {
  r_GetServiceHotWithdrawalTasks : nat → ST (World O) (list ServiceWithdrawalTask);
  r_GetServiceDepositWithdrawalTasks : nat → ST (World O) (list ServiceWithdrawalTask);
  r_GetJettonInternalWithdrawalTasks : list Address → nat → ST (World O) (list InternalWithdrawalTask);
  r_GetTonInternalWithdrawalTasks : nat → ST (World O) (list InternalWithdrawalTask);
  r_GetExternalWithdrawalTasks : nat → ST (World O) (list ExternalWithdrawalTask);
  r_GetInternalWithdrawalStatus : Address → string → ST (World O) (option WithdrawalStatus);
  r_CreateWithdrawalRequest : WithdrawalRequest → ST (World O) Z;
  r_CreateExternalWithdrawals : list ExternalWithdrawalTask → UUID → Z → ST (World O) unit;
  r_UpdateServiceWithdrawalRequest : ServiceWithdrawalTask → Coins → Z → bool → ST (World O) unit;
  r_SaveInternalWithdrawalTask : InternalWithdrawalTask → Z → UUID → ST (World O) unit;
}.
Arguments r_GetServiceHotWithdrawalTasks {O}. Arguments r_GetServiceDepositWithdrawalTasks {O}.
Arguments r_GetJettonInternalWithdrawalTasks {O}. Arguments r_GetTonInternalWithdrawalTasks {O}.
Arguments r_GetExternalWithdrawalTasks {O}. Arguments r_GetInternalWithdrawalStatus {O}.
Arguments r_CreateWithdrawalRequest {O}. Arguments r_CreateExternalWithdrawals {O}.
Arguments r_UpdateServiceWithdrawalRequest {O}. Arguments r_SaveInternalWithdrawalTask {O}.

(** The implementation of [db/withdrawal-repository.go]. *)
Definition withdrawal_repo `{PG : PgLib} {O} : WithdrawalRepo O := {|
  r_GetServiceHotWithdrawalTasks := GetServiceHotWithdrawalTasks;
  r_GetServiceDepositWithdrawalTasks := GetServiceDepositWithdrawalTasks;
  r_GetJettonInternalWithdrawalTasks := GetJettonInternalWithdrawalTasks;
  r_GetTonInternalWithdrawalTasks := GetTonInternalWithdrawalTasks;
  r_GetExternalWithdrawalTasks := GetExternalWithdrawalTasks;
  r_GetInternalWithdrawalStatus := GetInternalWithdrawalStatus;
  r_CreateWithdrawalRequest := CreateWithdrawalRequest;
  r_CreateExternalWithdrawals := CreateExternalWithdrawals;
  r_UpdateServiceWithdrawalRequest := UpdateServiceWithdrawalRequest;
  r_SaveInternalWithdrawalTask := SaveInternalWithdrawalTask;
|}.

(** The nil interface value [NewWithdrawalsProcessor] leaves. *)
Definition nil_repo {O} : WithdrawalRepo O :=
  Build_WithdrawalRepo O (λ _, st_lift Panic) (λ _, st_lift Panic) (λ _ _, st_lift Panic)
    (λ _, st_lift Panic) (λ _, st_lift Panic) (λ _ _, st_lift Panic) (λ _, st_lift Panic)
    (λ _ _ _, st_lift Panic) (λ _ _ _ _, st_lift Panic) (λ _ _ _, st_lift Panic).

(** ** Balances *)

Abbreviation balances := (gmap string Z).

(** A method of a nil [*big.Int]. *)
Definition balance_of (b : balances) (currency : string) : res Z :=
  match b !! currency with Some z => Ok z | None => Panic end.

(** [decreaseBalances]: true when the balance is too low; the map as it is
    left. *)
Definition decreaseBalances (b : balances) (currency : string) (amount : Z)
    : res (bool * balances) :=
  let! ton := balance_of b TonSymbol in
  if decide (currency = TonSymbol) then
    if decide (ton < amount) then Ok (true, b)
    else Ok (false, <[TonSymbol := ton - amount]> b)
  else
    let! cur := balance_of b currency in
    if decide (cur < amount) then Ok (true, b)
    else if decide (ton < JettonTransferTonAmount) then Ok (true, b)
    else Ok (false, <[TonSymbol := ton - JettonTransferTonAmount]> (<[currency := cur - amount]> b)).

Record internalWithdrawal := { inw_Memo : UUID; inw_Task : InternalWithdrawalTask }.

Record serviceWithdrawal := {
  sw_TonAmount : Coins;
  sw_Filled : bool;
  sw_Task : ServiceWithdrawalTask;
}.

Definition with_jetton_amount (t : ServiceWithdrawalTask) (a : Coins) : ServiceWithdrawalTask := {|
  st_From := st_From t; st_JettonMaster := st_JettonMaster t; st_JettonAmount := a;
  st_Memo := st_Memo t; st_SubwalletID := st_SubwalletID t |}.

Section processor.
Context `{TL : TvmLib} `{UL : UuidLib} `{GR : GoRuntime} `{TW : !TonWalletLib} {O : Type}.
Abbreviation DBM := (ST (World O)).
Abbreviation message := (WalletMessage tonaddr Cell).

Record withdrawals := {
  w_Messages : list message;
  w_External : list ExternalWithdrawalTask;
  w_Internal : list internalWithdrawal;
  w_Service : list serviceWithdrawal;
}.

(** The processor: its dependencies, what the chain answers during the pass,
    and the network calls that act ([rand.Int63], [BuildMessageForMany],
    [SendExternalMessage], [wallet.Send]). *)
Context (config : Config) (addressBook : AddressBook) (bc : Blockchain) (wallets : Wallet).
Context (withdrawalRepository : WithdrawalRepo O) (coldWallet : option tonaddr).
Context (Int63 : DBM Z) (BuildMessageForMany : list message → DBM (ExternalMessage tonaddr Cell)).
Context (SendExternalMessage : ExternalMessage tonaddr Cell → DBM unit).
Context (wallet_Send : TonWallet → message → DBM unit).

Definition hot_address : tonaddr := w_Address (TonHotWalletOf wallets).

Definition getHotWalletBalances : res balances :=
  let! (balance, _) := GetAccountCurrentState bc hot_address in
  for_res (λ m (cw : string * JettonWallet),
    let! b := GetLastJettonBalance wallets (jwal_Address cw.2) in
    Ok (<[cw.1 := b]> m))
  {[ TonSymbol := balance ]} (map_order (map_to_list (JettonHotWallets wallets))).

(** ** Messages for one task *)

Definition buildJettonInternalWithdrawalMessage (task : InternalWithdrawalTask)
    : DBM (list message * UUID) :=
  do! proxy <- st_lift (NewJettonProxy (it_SubwalletID task) (Some hot_address));
  let jettonWalletAddress := ToTonutilsAddressStd 0 (it_From task) in
  do! balance <- st_lift (GetLastJettonBalance wallets jettonWalletAddress);
  match cfg_Jettons config !! it_Currency task with
  | None => st_lift Panic
  | Some j =>
      if decide (balance > j_WithdrawalCutoff j) then
        do! memo <- NewV4;
        do! rnd <- Int63;
        do! msg <- st_lift (BuildJettonProxyWithdrawalMessage proxy jettonWalletAddress hot_address
                              JettonForwardAmount balance (uuid_String memo) rnd);
        st_ret ([msg], memo)
      else st_ret ([], zero_bytes 16)
  end.

(** [task.JettonMaster.ToTonutilsAddressStd(0)] *)
Definition master_address (task : ServiceWithdrawalTask) : res tonaddr :=
  match st_JettonMaster task with
  | None => Panic
  | Some m => Ok (ToTonutilsAddressStd 0 m)
  end.

Definition buildServiceFilling (task : ServiceWithdrawalTask)
    : res (list message * serviceWithdrawal) :=
  let deposit := ToTonutilsAddressStd 0 (st_From task) in
  let! master := master_address task in
  let! jettonWallet := GetJettonWalletAddress wallets deposit master in
  let! jettonBalance := GetLastJettonBalance wallets jettonWallet in
  if decide (jettonBalance = 0) then
    Ok ([], {| sw_TonAmount := ZeroCoins; sw_Filled := false; sw_Task := task |})
  else
    let! msg := buildTonFillMessage deposit JettonTransferTonAmount (uuid_String (st_Memo task)) in
    Ok ([msg], {| sw_TonAmount := ZeroCoins; sw_Filled := true;
                  sw_Task := with_jetton_amount task (NewCoins jettonBalance) |}).

Definition buildServiceTonWithdrawal (task : ServiceWithdrawalTask)
    : res (list message * serviceWithdrawal) :=
  let! proxy := NewJettonProxy (st_SubwalletID task) (Some hot_address) in
  let! (tonBalance, _) := GetAccountCurrentState bc (px_address proxy) in
  let r := {| sw_TonAmount := NewCoins tonBalance; sw_Filled := false; sw_Task := task |} in
  if decide (tonBalance = 0) then Ok ([], r) else
  let! msg := buildJettonProxyServiceTonWithdrawalMessage proxy hot_address
                (uuid_String (st_Memo task)) in
  Ok ([msg], r).

Definition buildServiceJettonWithdrawal (task : ServiceWithdrawalTask)
    : DBM (list message * serviceWithdrawal) :=
  let rejected := {| sw_TonAmount := ZeroCoins; sw_Filled := false; sw_Task := task |} in
  do! proxy <- st_lift (NewJettonProxy (st_SubwalletID task) (Some hot_address));
  do! master <- st_lift (master_address task);
  do! jettonWallet <- st_lift (GetJettonWalletAddress wallets (px_address proxy) master);
  do! t <- st_lift (GetWalletTypeByTonutilsAddress addressBook (Some jettonWallet));
  match t with
  | Some _ => st_ret ([], rejected)
  | None =>
      do! jettonBalance <- st_lift (GetLastJettonBalance wallets jettonWallet);
      if decide (jettonBalance = 0) then st_ret ([], rejected) else
      do! rnd <- Int63;
      do! msg <- st_lift (BuildJettonProxyWithdrawalMessage proxy jettonWallet hot_address 0
                            jettonBalance (uuid_String (st_Memo task)) rnd);
      st_ret ([msg], {| sw_TonAmount := ZeroCoins; sw_Filled := false;
                        sw_Task := with_jetton_amount task (NewCoins jettonBalance) |})
  end.

Definition buildServiceWithdrawalMessage (task : ServiceWithdrawalTask)
    : DBM (list message * serviceWithdrawal) :=
  do! t <- st_lift (GetWalletType addressBook (st_From task));
  match t with
  | Some TonDepositWallet => st_lift (buildServiceFilling task)
  | Some JettonOwner =>
      match st_JettonMaster task with
      | None => st_lift (buildServiceTonWithdrawal task)
      | Some _ => buildServiceJettonWithdrawal task
      end
  | _ => st_fail (EText "invalid service withdrawal address")
  end.

(** Only called once [decreaseBalances] has found the balance of the
    currency, which a currency without a hot wallet does not have. *)
Definition buildExternalWithdrawalMessage (wt : ExternalWithdrawalTask) : res message :=
  if decide (et_Currency wt = TonSymbol) then BuildTonWithdrawalMessage wt
  else match JettonHotWallets wallets !! et_Currency wt with
       | Some jw => BuildJettonWithdrawalMessage wt hot_address (jwal_Address jw)
       | None => Panic
       end.

(** ** A batch *)

Definition add_message (m : list message) (x : list ExternalWithdrawalTask)
    (i : list internalWithdrawal) (s : list serviceWithdrawal) (r : withdrawals) : withdrawals :=
  Build_withdrawals (w_Messages r ++ m) (w_External r ++ x) (w_Internal r ++ i) (w_Service r ++ s).

Definition add_service (msg : list message) (w : serviceWithdrawal) :=
  add_message msg [] [] [w].
Definition add_internal (msg : list message) (w : internalWithdrawal) :=
  add_message msg [] [w] [].
Definition add_external (msg : message) (w : ExternalWithdrawalTask) :=
  add_message [msg] [w] [] [].

(** What the loops of [buildWithdrawalMessages] carry. *)
Record Batch := { bt_balances : balances; bt_used : list Address; bt_res : withdrawals }.

Definition service_turn (b : Batch) (t : ServiceWithdrawalTask) : DBM Batch :=
  do! (low, balances) <- st_lift (decreaseBalances (bt_balances b) TonSymbol JettonTransferTonAmount);
  if (low : bool) then st_ret (Build_Batch balances (bt_used b) (bt_res b)) else
  do! (msg, w) <- buildServiceWithdrawalMessage t;
  if decide (length msg ≠ 0%nat) then
    st_ret (Build_Batch balances (bt_used b ++ [st_From t]) (add_service msg w (bt_res b)))
  else
    do! now <- now;
    do! _ <- r_UpdateServiceWithdrawalRequest withdrawalRepository (sw_Task w) (sw_TonAmount w)
               now (sw_Filled w);
    st_ret (Build_Batch balances (bt_used b) (bt_res b)).

(** [break] leaves the loop. *)
Fixpoint internal_loop (b : Batch) (tasks : list InternalWithdrawalTask) : DBM Batch :=
  match tasks with
  | [] => st_ret b
  | t :: tasks =>
      if decide (250 < length (w_Messages (bt_res b)))%nat then st_ret b else
      do! (low, balances) <-
        st_lift (decreaseBalances (bt_balances b) TonSymbol JettonTransferTonAmount);
      let b := Build_Batch balances (bt_used b) (bt_res b) in
      if (low : bool) then internal_loop b tasks else
      do! (msg, memo) <- buildJettonInternalWithdrawalMessage t;
      internal_loop
        (if decide (length msg ≠ 0%nat) then
           Build_Batch balances (bt_used b)
             (add_internal msg {| inw_Memo := memo; inw_Task := t |} (bt_res b))
         else b) tasks
  end.

Fixpoint external_loop (b : Batch) (tasks : list ExternalWithdrawalTask) : DBM Batch :=
  match tasks with
  | [] => st_ret b
  | w :: tasks =>
      if decide (250 < length (w_Messages (bt_res b)))%nat then st_ret b else
      do! t <- st_lift (GetWalletType addressBook (et_Destination w));
      match t with
      | Some _ => external_loop b tasks
      | None =>
          do! (low, balances) <-
            st_lift (decreaseBalances (bt_balances b) (et_Currency w) (BigInt (et_Amount w)));
          let b := Build_Batch balances (bt_used b) (bt_res b) in
          if (low : bool) then external_loop b tasks else
          do! msg <- st_lift (buildExternalWithdrawalMessage w);
          external_loop (Build_Batch balances (bt_used b) (add_external msg w (bt_res b))) tasks
      end
  end.

Definition start_batch (balances : balances) : Batch :=
  Build_Batch balances [] (Build_withdrawals [] [] [] []).

Definition buildWithdrawalMessages : DBM withdrawals :=
  do! balances <- st_lift (res_wrap (EText "get hot wallet balance error") getHotWalletBalances);
  do! serviceTasks <- r_GetServiceHotWithdrawalTasks withdrawalRepository 250;
  do! b <- for_st service_turn (start_batch balances) serviceTasks;
  do! internalTasks <- r_GetJettonInternalWithdrawalTasks withdrawalRepository (bt_used b) 250;
  do! b <- internal_loop b internalTasks;
  do! externalTasks <- r_GetExternalWithdrawalTasks withdrawalRepository 250;
  do! b <- external_loop b externalTasks;
  st_ret (bt_res b).

(** ** The cold wallet *)

Definition cold_request (currency : string) (amount : Coins) (bounceable : bool) (dest : Address)
    (u : UUID) : WithdrawalRequest := {|
  wq_Currency := currency; wq_Amount := amount; wq_Bounceable := bounceable;
  wq_Destination := dest; wq_IsInternal := true; wq_QueryID := uuid_String u;
  wq_UserID := ""; wq_Comment := "" |}.

(** A jetton hot wallet: the balance of TONs once its transfer is paid. *)
Definition cold_jetton (dest : Address) (tonBalance : Z) (cw : string * JettonWallet) : DBM Z :=
  let '(cur, jw) := cw in
  do! status <- r_GetInternalWithdrawalStatus withdrawalRepository dest cur;
  if decide (status = Some WithdrawalStatusProcessing) then st_ret tonBalance else
  do! jettonBalance <- st_lift (GetLastJettonBalance wallets (jwal_Address jw));
  match cfg_Jettons config !! cur with
  | None => st_lift Panic
  | Some j =>
      if decide (jettonBalance ≤ j_HotWalletMaxCutoff j) then st_ret tonBalance else
      do! u <- NewV4;
      do! _ <- r_CreateWithdrawalRequest withdrawalRepository
                 (cold_request (jwal_Currency jw)
                    (NewCoins (jettonBalance - j_HotWalletMaxCutoff j)) true dest u);
      st_ret (tonBalance - JettonTransferTonAmount)
  end.

Definition cold_ton (cold : tonaddr) (dest : Address) (tonBalance : Z) : DBM unit :=
  do! status <- r_GetInternalWithdrawalStatus withdrawalRepository dest TonSymbol;
  if decide (status = Some WithdrawalStatusProcessing) then st_ret tt else
  if decide (tonBalance ≤ c_HotWalletMax (cfg_Ton config)) then st_ret tt else
  do! u <- NewV4;
  do! _ <- r_CreateWithdrawalRequest withdrawalRepository
             (cold_request TonSymbol (NewCoins (tonBalance - c_HotWalletMax (cfg_Ton config)))
                (addr_IsBounceable cold) dest u);
  st_ret tt.

Definition makeColdWalletWithdrawals : DBM unit :=
  match coldWallet with
  | None => st_ret tt
  | Some cold =>
      do! (tonBalance, _) <- st_lift (GetAccountCurrentState bc hot_address);
      do! dest <- st_lift (AddressMustFromTonutilsAddress (Some cold));
      do! tonBalance <- for_st (cold_jetton dest) tonBalance
                          (map_order (map_to_list (JettonHotWallets wallets)));
      cold_ton cold dest tonBalance
  end.

(** ** The loops, one pass each *)

(** [startWithdrawalsProcessor] after [waitSync]: every error but that of
    sending ends the process. *)
Definition withdrawals_pass : DBM unit :=
  do! _ <- st_fatal makeColdWalletWithdrawals;
  do! w <- st_fatal buildWithdrawalMessages;
  if decide (length (w_Messages w) = 0%nat) then st_ret tt else
  do! extMsg <- st_fatal (BuildMessageForMany (w_Messages w));
  do! info <- st_fatal (st_lift (getHighLoadWalletExtMsgInfo extMsg));
  do! _ <- st_fatal (r_CreateExternalWithdrawals withdrawalRepository (w_External w)
                       (hi_UUID info) (hi_TTL info));
  do! _ <- each_st (λ sw, st_fatal (r_UpdateServiceWithdrawalRequest withdrawalRepository
                       (sw_Task sw) (sw_TonAmount sw) (hi_TTL info) (sw_Filled sw))) (w_Service w);
  do! _ <- each_st (λ iw, st_fatal (r_SaveInternalWithdrawalTask withdrawalRepository
                       (inw_Task iw) (hi_TTL info) (inw_Memo iw))) (w_Internal w);
  do! _ <- st_try (SendExternalMessage extMsg);
  st_ret tt.

Definition assert_V4R2 (w : TonWallet) : res unit :=
  if decide (w_Spec w = SpecV4R2) then Ok tt else Panic.

Definition WithdrawTON (from : TonWallet) (comment : string) : DBM unit :=
  do! msg <- st_lift (withdraw_ton_message hot_address comment);
  wallet_Send from msg.

Definition WithdrawJetton (from : TonWallet) (jettonWallet : tonaddr) (forwardAmount : Z)
    (amount : Coins) (comment : string) : DBM unit :=
  do! rnd <- Int63;
  do! msg <- st_lift (withdraw_jetton_message hot_address jettonWallet forwardAmount amount comment rnd);
  wallet_Send from msg.

Definition withdrawTONsFromDeposit (task : InternalWithdrawalTask) : DBM unit :=
  do! subwallet <- st_lift (of_option (ELib "subwallet")
                     (GetSubwallet (TonBasicWalletOf wallets) (it_SubwalletID task)));
  do! _ <- st_lift (assert_V4R2 subwallet);
  do! (balance, state) <- st_lift (GetAccountCurrentState bc (w_Address subwallet));
  if decide (state = AccountStatusNonExist) then st_ret tt else
  if decide (balance > c_Withdrawal (cfg_Ton config)) then
    do! memo <- NewV4;
    do! t <- now;
    do! _ <- r_SaveInternalWithdrawalTask withdrawalRepository task (t + ExternalMessageLifetime) memo;
    do! _ <- st_try (WithdrawTON subwallet (uuid_String memo));
    st_ret tt
  else st_ret tt.

Definition serviceWithdrawJettons (task : ServiceWithdrawalTask) : DBM unit :=
  do! subwallet <- st_lift (of_option (ELib "subwallet")
                     (GetSubwallet (TonBasicWalletOf wallets) (st_SubwalletID task)));
  do! _ <- st_lift (assert_V4R2 subwallet);
  do! (_, state) <- st_lift (GetAccountCurrentState bc (w_Address subwallet));
  if decide (state = AccountStatusNonExist) then st_ret tt else
  do! master <- st_lift (master_address task);
  do! jettonWallet <- st_lift (GetJettonWalletAddress wallets (w_Address subwallet) master);
  do! t <- now;
  do! _ <- r_UpdateServiceWithdrawalRequest withdrawalRepository task ZeroCoins
             (t + ExternalMessageLifetime) false;
  do! _ <- st_try (WithdrawJetton subwallet jettonWallet 0 (st_JettonAmount task)
                     (uuid_String (st_Memo task)));
  st_ret tt.

(** [startInternalTonWithdrawalsProcessor] after [waitSync]. *)
Definition internal_ton_pass : DBM unit :=
  do! serviceTasks <- st_try (r_GetServiceDepositWithdrawalTasks withdrawalRepository 5);
  do! _ <- each_st (λ task, do! _ <- st_try (serviceWithdrawJettons task); st_ret tt)
             (match serviceTasks with inl ts => ts | inr _ => [] end);
  do! internalTasks <- st_fatal (r_GetTonInternalWithdrawalTasks withdrawalRepository 40);
  each_st (λ task, do! _ <- st_try (withdrawTONsFromDeposit task); st_ret tt) internalTasks.

(** [startExpirationProcessor] after [waitSync]. *)
Definition expiration_pass (SetExpired : DBM unit) : DBM unit :=
  do! _ <- st_try SetExpired; st_ret tt.

(** [waitSync]: [stop] is what the next reads of the shutdown flag give and
    [GetLastSavedBlock] the repository's; with the reads that are left; [None]
    while it still waits. *)
Fixpoint waitSync (GetLastSavedBlock : DBM ShardBlockHeader) (sleep : DBM unit)
    (stop : list bool) (w : World O) : option (res unit * World O * list bool) :=
  match stop with
  | [] => None
  | true :: stop => Some (Ok tt, w, stop)
  | false :: stop =>
      match GetLastSavedBlock w with
      | (Ok block, w) =>
          if IsExpired (w_now w) block then
            match sleep w with
            | (Ok _, w) => waitSync GetLastSavedBlock sleep stop w
            | (r, w) => Some (r, w, stop)
            end
          else Some (Ok tt, w, stop)
      | (Err _, w) => Some (Fatal, w, stop)
      | (Panic, w) => Some (Panic, w, stop)
      | (Fatal, w) => Some (Fatal, w, stop)
      end
  end.

(** ** The loops *)

(** What the three goroutines share: wait, read the flag, make a turn. A turn
    that does not return ends the process. *)
Fixpoint processor_loop (wait : list bool → World O → option (res unit * World O * list bool))
    (turn : DBM unit) (fuel : nat) (stop : list bool) (w : World O) : option (res unit * World O * list bool) :=
  match fuel with
  | 0%nat => None
  | S fuel =>
      match wait stop w with
      | Some (Ok _, w, true :: stop) => Some (Ok tt, w, stop)
      | Some (Ok _, w, false :: stop) =>
          match turn w with
          | (Ok _, w) => processor_loop wait turn fuel stop w
          | (r, w) => Some (r, w, stop)
          end
      | Some (Ok _, _, []) | None => None
      | Some (r, w, stop) => Some (r, w, stop)
      end
  end.

(** [time.Sleep], by a period of the configuration. *)
Context (Sleep : Z → DBM unit) (GetLastSavedBlock : DBM ShardBlockHeader).
Definition wait := waitSync GetLastSavedBlock (Sleep (3 * second)).

Definition startWithdrawalsProcessor :=
  processor_loop wait (do! _ <- Sleep ExternalWithdrawalPeriod; withdrawals_pass).
Definition startInternalTonWithdrawalsProcessor :=
  processor_loop wait (do! _ <- internal_ton_pass; Sleep InternalWithdrawalPeriod).
Definition startExpirationProcessor (SetExpired : DBM unit) :=
  processor_loop wait (do! _ <- expiration_pass SetExpired; Sleep ExpirationProcessorPeriod).
End processor.
