(* ===== verification/ProcessorFacts.v ===== *)
(** * What the withdrawal processor promises

    The theorems about [core/withdrawal_processor.go], for any repository that
    implements the interface: a batch never spends more than the hot wallet
    holds, fits one highload message, pays no internal address; requests to the
    cold wallet; the order of saving and sending. *)

From S2P Require Import Prelude TonUtils Config Models Core Db AddressBook Repository.
From S2P Require Import WithdrawalRepository BlockScanner Messages Processor.

Local Open Scope string_scope.
Local Open Scope list_scope.
Local Open Scope Z_scope.

(** ** Balances *)

(** What [decreaseBalances] does when it does not refuse. *)
Lemma decreaseBalances_Ok b cur amount low b' :
  decreaseBalances b cur amount = Ok (low, b') →
  (low = true ∧ b' = b) ∨
  ∃ ton, b !! TonSymbol = Some ton ∧ low = false ∧
    ((cur = TonSymbol ∧ amount ≤ ton ∧ b' = <[TonSymbol := ton - amount]> b) ∨
     (cur ≠ TonSymbol ∧ JettonTransferTonAmount ≤ ton ∧ ∃ z, b !! cur = Some z ∧ amount ≤ z ∧
      b' = <[TonSymbol := ton - JettonTransferTonAmount]> (<[cur := z - amount]> b))).
Proof.
  unfold decreaseBalances, balance_of. intros H. apply res_bind_Ok in H as (ton & Ht & H).
  destruct (b !! TonSymbol) as [t|] eqn:Et; simplify_eq/=. case_decide as Hc.
  - case_decide; simplify_eq; [by left|]. right. exists ton. split_and!; [done..|]. left.
    split_and!; [done|lia|done].
  - apply res_bind_Ok in H as (z & Hz & H). destruct (b !! cur) as [z'|] eqn:Ez; simplify_eq/=.
    case_decide; simplify_eq; [by left|]. case_decide; simplify_eq; [by left|].
    right. exists ton. split_and!; [done..|]. right. split_and!; [done|lia|].
    exists z. split_and!; [done|lia|done].
Qed.

(** [decreaseBalances] either refuses and leaves the balances alone, or
    takes the amount, and for a jetton the TONs its transfer costs, from
    balances that cover them, and touches no other balance. *)
Theorem decreaseBalances_spec b cur amount ton z :
  b !! TonSymbol = Some ton → b !! cur = Some z →
  let cost := if decide (cur = TonSymbol) then amount else JettonTransferTonAmount in
  decreaseBalances b cur amount =
    if decide (amount ≤ z ∧ cost ≤ ton) then
      Ok (false, <[TonSymbol := ton - cost]> (<[cur := z - amount]> b))
    else Ok (true, b).
Proof.
  intros Ht Hz cost. unfold decreaseBalances, balance_of. rewrite Ht. simpl. subst cost.
  case_decide as Hc; [subst cur; simplify_eq|rewrite Hz; simpl];
    repeat case_decide; try lia; try done.
  by rewrite insert_insert_eq.
Qed.

Section batch.
Context `{TL : TvmLib} `{UL : UuidLib} `{GR : GoRuntime} `{TW : !TonWalletLib} {O : Type}.
Context (config : Config) (ab : AddressBook) (bc : Blockchain) (ws : Wallet).
Context (repo : WithdrawalRepo O) (Int63 : ST (World O) Z).
Abbreviation message := (WalletMessage tonaddr Cell).
Implicit Types w : World O.

Definition cost (m : message) : Z := om_Amount (wm_Message m).

(** What the batch pays out of the balance of one currency. *)
Definition paid (cur : string) (l : list ExternalWithdrawalTask) : Z :=
  sumZ et_Amount (filter (λ t, et_Currency t = cur) l).

Lemma paid_snoc cur l t :
  paid cur (l ++ [t]) = paid cur l + (if decide (et_Currency t = cur) then et_Amount t else 0).
Proof.
  unfold paid. rewrite filter_app, sumZ_app, filter_cons, filter_nil.
  case_decide; unfold sumZ; simpl; lia.
Qed.

(** The balances left cover what is not spent yet. *)
Definition ton_ok (b0 b : balances) (r : withdrawals) : Prop :=
  ∃ ton0 ton, b0 !! TonSymbol = Some ton0 ∧ b !! TonSymbol = Some ton ∧
    ton + sumZ cost (w_Messages r) ≤ ton0 ∧ (0 ≤ ton0 → 0 ≤ ton).

Definition jetton_ok (b0 b : balances) (r : withdrawals) (cur : string) : Prop :=
  match b0 !! cur with
  | Some z0 => ∃ z, b !! cur = Some z ∧ z + paid cur (w_External r) = z0 ∧ (0 ≤ z0 → 0 ≤ z)
  | None => b !! cur = None ∧ paid cur (w_External r) = 0
  end.

Record budget (b0 : balances) (x : Batch) : Prop := {
  bud_ton : ton_ok b0 (bt_balances x) (bt_res x);
  bud_jetton : ∀ cur, cur ≠ TonSymbol → jetton_ok b0 (bt_balances x) (bt_res x) cur;
  bud_dest : ∀ t, t ∈ w_External (bt_res x) → GetWalletType ab (et_Destination t) = Ok None;
}.

(** Taking the TONs of one message, and adding at most that message. *)
Lemma budget_ton b0 x bal used ms i s :
  budget b0 x →
  decreaseBalances (bt_balances x) TonSymbol JettonTransferTonAmount = Ok (false, bal) →
  (∀ m, m ∈ ms → cost m = JettonTransferTonAmount) → (length ms ≤ 1)%nat →
  budget b0 (Build_Batch bal used (add_message ms [] i s (bt_res x))).
Proof.
  intros [(ton0 & ton & Ht0 & Ht & Hle & Hpos) Hj Hd] H Hc Hl.
  apply decreaseBalances_Ok in H as [[]|(t & Htb & _ & [(_ & Hta & ->)|(? & _)])]; [done| |done].
  simplify_eq. split; simpl.
  - exists ton0, (ton - JettonTransferTonAmount). rewrite lookup_insert_eq. split_and!; try done; [|lia].
    simpl. rewrite sumZ_app. assert (sumZ cost ms ≤ JettonTransferTonAmount); [|lia].
    destruct ms as [|m [|]]; simpl in Hl; [|specialize (Hc m)|lia];
      unfold sumZ, JettonTransferTonAmount in *; simpl; [lia|]. rewrite Hc by set_solver. lia.
  - intros cur Hcur. specialize (Hj cur Hcur). unfold jetton_ok in *. simpl.
    rewrite lookup_insert_ne by done. by rewrite app_nil_r.
  - rewrite app_nil_r. done.
Qed.

Lemma budget_external b0 x bal used t m :
  budget b0 x → GetWalletType ab (et_Destination t) = Ok None →
  decreaseBalances (bt_balances x) (et_Currency t) (et_Amount t) = Ok (false, bal) →
  buildExternalWithdrawalMessage ws t = Ok m →
  budget b0 (Build_Batch bal used (add_external m t (bt_res x))).
Proof.
  intros [(ton0 & ton & Ht0 & Ht & Hle & Hpos) Hj Hd] Hg H Hm.
  unfold buildExternalWithdrawalMessage in Hm.
  apply decreaseBalances_Ok in H as [[]|(t' & Htb & _ & Hcase)]; [done|]. simplify_eq.
  destruct Hcase as [(Hc & Hta & ->)|(Hc & Hta & z & Hz & Hza & ->)]; split; simpl.
  - rewrite decide_True in Hm by done. apply ton_withdrawal_amount in Hm.
    exists ton0, (ton - et_Amount t). rewrite lookup_insert_eq. split_and!; try done; [|lia].
    simpl. rewrite sumZ_snoc. unfold cost at 2. rewrite Hm. lia.
  - intros cur Hcur. specialize (Hj cur Hcur). unfold jetton_ok in *. simpl.
    rewrite lookup_insert_ne by done. rewrite paid_snoc, decide_False by congruence.
    by rewrite Z.add_0_r.
  - set_solver.
  - rewrite decide_False in Hm by done. destruct (JettonHotWallets ws !! _); [|done].
    apply jetton_withdrawal_amount in Hm.
    exists ton0, (ton - JettonTransferTonAmount). rewrite lookup_insert_eq. split_and!; try done; [|lia].
    simpl. rewrite sumZ_snoc. unfold cost at 2. rewrite Hm. lia.
  - intros cur Hcur. specialize (Hj cur Hcur). unfold jetton_ok in *. simpl.
    rewrite lookup_insert_ne by done. rewrite paid_snoc.
    destruct (decide (et_Currency t = cur)) as [<-|Hne].
    + rewrite lookup_insert_eq. destruct (b0 !! et_Currency t) as [z0|].
      * destruct Hj as (z' & ? & ? & ?). simplify_eq. exists (z' - et_Amount t).
        split_and!; [done|lia|lia].
      * destruct Hj. congruence.
    + rewrite lookup_insert_ne by done. by rewrite Z.add_0_r.
  - set_solver.
Qed.

Lemma budget_refused b0 x bal used cur amount :
  budget b0 x → decreaseBalances (bt_balances x) cur amount = Ok (true, bal) →
  budget b0 (Build_Batch bal used (bt_res x)).
Proof.
  intros [] [[_ ->]|(? & _ & ? & _)]%decreaseBalances_Ok; [|done]. by split.
Qed.

Lemma service_messages t w w' ms sw :
  buildServiceWithdrawalMessage ab bc ws Int63 t w = (Ok (ms, sw), w') →
  (length ms ≤ 1)%nat ∧ ∀ m, m ∈ ms → cost m = JettonTransferTonAmount.
Proof.
  assert (∀ m : message, om_Amount (wm_Message m) = JettonTransferTonAmount →
    (length [m] ≤ 1)%nat ∧ ∀ x, x ∈ [m] → cost x = JettonTransferTonAmount) as Hone.
  { intros m Hm. split; [done|]. by intros x ->%list_elem_of_singleton. }
  assert ((length ([] : list message) ≤ 1)%nat ∧
    ∀ x : message, x ∈ [] → cost x = JettonTransferTonAmount) as Hnil by (split; [simpl; lia|set_solver]).
  unfold buildServiceWithdrawalMessage. intros (ty & w1 & _ & H)%st_bind_Ok.
  destruct ty as [[]|]; try done.
  - unfold st_lift in H. injection H as H _. unfold buildServiceFilling in H.
    apply res_bind_Ok in H as (? & _ & H). apply res_bind_Ok in H as (? & _ & H).
    apply res_bind_Ok in H as (? & _ & H). case_decide; [by simplify_eq|].
    apply res_bind_Ok in H as (m & Hm & [= <- _]). apply Hone. by eapply fill_amount.
  - destruct (st_JettonMaster t).
    + unfold buildServiceJettonWithdrawal in H.
      do 4 apply st_bind_Ok in H as (? & ? & _ & H). case_match.
      * unfold st_ret in H. by simplify_eq.
      * apply st_bind_Ok in H as (? & ? & _ & H). case_decide; [unfold st_ret in H; by simplify_eq|].
        apply st_bind_Ok in H as (? & ? & _ & H). apply st_bind_Ok in H as (m & ? & Hm & H).
        unfold st_lift in Hm. injection Hm as Hm _. unfold st_ret in H. injection H as <- _ _.
        apply Hone. by eapply proxy_withdrawal_amount.
    + unfold st_lift in H. injection H as H _. unfold buildServiceTonWithdrawal in H.
      apply res_bind_Ok in H as (? & _ & H). apply res_bind_Ok in H as ([] & _ & H).
      case_decide; [by simplify_eq|]. apply res_bind_Ok in H as (m & Hm & [= <- _]).
      apply Hone. by eapply proxy_service_amount.
Qed.

Lemma internal_messages t w w' ms memo :
  buildJettonInternalWithdrawalMessage config ws Int63 t w = (Ok (ms, memo), w') →
  (length ms ≤ 1)%nat ∧ ∀ m, m ∈ ms → cost m = JettonTransferTonAmount.
Proof.
  unfold buildJettonInternalWithdrawalMessage. intros H.
  do 2 apply st_bind_Ok in H as (? & ? & _ & H). case_match; [|done]. case_decide.
  - do 2 apply st_bind_Ok in H as (? & ? & _ & H). apply st_bind_Ok in H as (m & ? & Hm & H).
    unfold st_lift in Hm. injection Hm as Hm _. unfold st_ret in H. injection H as <- _ _.
    split; [done|]. intros m' ->%list_elem_of_singleton. by eapply proxy_withdrawal_amount.
  - unfold st_ret in H. simplify_eq. split; [simpl; lia|set_solver].
Qed.

(** ** The three loops *)

Definition size (x : Batch) : nat := length (w_Messages (bt_res x)).

Lemma add_nothing x : add_message [] [] [] [] (bt_res x) = bt_res x.
Proof. destruct x as [? ? []]. unfold add_message. simpl. by rewrite !app_nil_r. Qed.

(** Balances taken for a message that is then not built. *)
Lemma budget_wasted b0 x bal used :
  budget b0 x →
  decreaseBalances (bt_balances x) TonSymbol JettonTransferTonAmount = Ok (false, bal) →
  budget b0 (Build_Batch bal used (bt_res x)).
Proof.
  intros Hb Hd. rewrite <- add_nothing. eapply budget_ton; [done..|set_solver|simpl; lia].
Qed.

(** What a turn keeps: the budget and the external tasks. *)
Definition turn_ok b0 (x x' : Batch) : Prop :=
  budget b0 x' ∧ w_External (bt_res x') = w_External (bt_res x).

Lemma service_turn_budget b0 x t w x' w' :
  service_turn ab bc ws repo Int63 x t w = (Ok x', w') → budget b0 x →
  turn_ok b0 x x' ∧ (size x' ≤ S (size x))%nat.
Proof.
  unfold service_turn, turn_ok. intros H Hb. apply st_bind_Ok in H as ([low bal] & w1 & Hd & H).
  unfold st_lift in Hd. injection Hd as Hd _. destruct low.
  { unfold st_ret in H. injection H as <- _. split; [split; [by eapply budget_refused|done]|].
    unfold size. simpl. lia. }
  apply st_bind_Ok in H as ([ms sw] & w2 & Hm & H). apply service_messages in Hm as [Hl Hc].
  case_decide.
  - unfold st_ret in H. injection H as <- _. split; [split; [by apply budget_ton|]|].
    + simpl. by rewrite app_nil_r.
    + unfold size. simpl. rewrite length_app. lia.
  - apply st_bind_Ok in H as (? & ? & _ & H). apply st_bind_Ok in H as (? & ? & _ & H).
    unfold st_ret in H. injection H as <- _. split; [split; [by apply budget_wasted|done]|].
    unfold size. simpl. lia.
Qed.

Lemma service_loop_budget b0 x ts w x' w' :
  for_st (service_turn ab bc ws repo Int63) x ts w = (Ok x', w') → budget b0 x →
  turn_ok b0 x x' ∧ (size x' ≤ size x + length ts)%nat.
Proof.
  intros H Hb. eapply (for_st_inv (λ done x', turn_ok b0 x x' ∧ (size x' ≤ size x + length done)%nat));
    [| |exact H]; [split; [done|simpl; lia]|].
  intros done t b b' s s' _ [[IH1 IH2] IH3] Ht.
  apply (service_turn_budget b0) in Ht as [[H1 H2] H3]; [|done].
  split; [split; [done|congruence]|]. rewrite length_app. simpl. lia.
Qed.

Lemma internal_loop_budget b0 ts x w x' w' :
  internal_loop config ws Int63 x ts w = (Ok x', w') → budget b0 x → (size x ≤ 251)%nat →
  turn_ok b0 x x' ∧ (size x' ≤ 251)%nat.
Proof.
  revert x w. induction ts as [|t ts IH]; intros x w H Hb Hs; simpl in H.
  { unfold st_ret in H. by simplify_eq. }
  case_decide as Hfull; [unfold st_ret in H; by simplify_eq|].
  apply st_bind_Ok in H as ([low bal] & w1 & Hd & H). unfold st_lift in Hd. injection Hd as Hd _.
  destruct low; [eapply IH in H; [done|by eapply budget_refused|done]|].
  apply st_bind_Ok in H as ([ms memo] & w2 & Hm & H). apply internal_messages in Hm as [Hl Hc].
  case_decide.
  - apply IH in H as [[H1 H2] H3]; [|by apply budget_ton|].
    + simpl in H2. rewrite app_nil_r in H2. done.
    + unfold size in *. simpl. rewrite length_app. lia.
  - apply IH in H; [done|by apply budget_wasted|done].
Qed.

Lemma external_loop_budget b0 ts x w x' w' :
  external_loop ab ws x ts w = (Ok x', w') → budget b0 x → (size x ≤ 251)%nat →
  budget b0 x' ∧ (size x' ≤ 251)%nat ∧
  ∃ l, w_External (bt_res x') = w_External (bt_res x) ++ l ∧ l `sublist_of` ts.
Proof.
  revert x w. induction ts as [|t ts IH]; intros x w H Hb Hs; simpl in H.
  { unfold st_ret in H. simplify_eq. split_and!; [done..|]. exists []. by rewrite app_nil_r. }
  case_decide as Hfull.
  { unfold st_ret in H. simplify_eq. split_and!; [done..|]. exists []. rewrite app_nil_r.
    split; [done|apply sublist_nil_l]. }
  apply st_bind_Ok in H as (ty & w1 & Hty & H). unfold st_lift in Hty. injection Hty as Hty _.
  destruct ty.
  { apply IH in H as (? & ? & l & ? & ?); [|done..]. split_and!; [done..|]. exists l.
    split; [done|by apply sublist_cons]. }
  apply st_bind_Ok in H as ([low bal] & w2 & Hd & H). unfold st_lift in Hd. injection Hd as Hd _.
  destruct low.
  { apply IH in H as (? & ? & l & ? & ?); [|by eapply budget_refused|done].
    split_and!; [done..|]. exists l. split; [done|by apply sublist_cons]. }
  apply st_bind_Ok in H as (m & w3 & Hm & H). unfold st_lift in Hm. injection Hm as Hm _.
  apply IH in H as (? & ? & l & Hl & ?); [|by eapply budget_external|].
  - split_and!; [done..|]. exists (t :: l). simpl in Hl. rewrite <- app_assoc in Hl.
    split; [done|by constructor].
  - unfold size in *. simpl. rewrite length_app. simpl. lia.
Qed.

Lemma budget_start b0 ton0 :
  b0 !! TonSymbol = Some ton0 → budget b0 (start_batch b0).
Proof.
  intros Ht. split; simpl.
  - exists ton0, ton0. split_and!; try done. unfold sumZ. simpl. lia.
  - intros cur _. unfold jetton_ok. simpl. destruct (b0 !! cur) as [z|] eqn:E; [|done].
    exists z. unfold paid, sumZ. simpl. split_and!; [done|lia|done].
  - set_solver.
Qed.

Lemma balances_ton b0 : getHotWalletBalances bc ws = Ok b0 →
  (∃ ton0 st, GetAccountCurrentState bc (hot_address ws) = Ok (ton0, st)) ∧ is_Some (b0 !! TonSymbol).
Proof.
  intros ([ton0 st] & Hs & H)%res_bind_Ok. split; [eauto|]. revert H.
  apply (for_res_inv (λ _ (b : balances), is_Some (b !! TonSymbol))).
  - rewrite lookup_singleton_eq. eauto.
  - intros done cw b b' _ Hb (z & _ & [= <-])%res_bind_Ok.
    rewrite lookup_insert_is_Some. destruct (decide (cw.1 = TonSymbol)); auto.
Qed.

(** C22. A batch is one the hot wallet can pay and send: it holds at most 251
    messages, the TONs it sends are covered by the balance of the hot wallet,
    for each jetton what it pays is covered by the balance of that jetton, it
    pays only tasks the repository offered, each at most once, and no address
    of the processor itself. *)
Theorem buildWithdrawalMessages_budget w wd w' b0 :
  (∀ n w ts w', r_GetServiceHotWithdrawalTasks repo n w = (Ok ts, w') → (length ts ≤ n)%nat) →
  getHotWalletBalances bc ws = Ok b0 → (∀ cur z, b0 !! cur = Some z → 0 ≤ z) →
  buildWithdrawalMessages config ab bc ws repo Int63 w = (Ok wd, w') →
  (length (w_Messages wd) ≤ 251)%nat ∧
  (∃ ton0, b0 !! TonSymbol = Some ton0 ∧ sumZ cost (w_Messages wd) ≤ ton0) ∧
  (∀ cur, cur ≠ TonSymbol → paid cur (w_External wd) ≤ default 0 (b0 !! cur)) ∧
  (∀ t, t ∈ w_External wd → GetWalletType ab (et_Destination t) = Ok None) ∧
  ∃ offered w1 w2, r_GetExternalWithdrawalTasks repo 250 w1 = (Ok offered, w2) ∧
    w_External wd `sublist_of` offered.
Proof.
  intros Hlim Hb0 Hpos H. unfold buildWithdrawalMessages in H. rewrite Hb0 in H.
  apply st_bind_Ok in H as (b0' & w1 & Hb & H). unfold st_lift in Hb. simpl in Hb. simplify_eq.
  destruct (balances_ton _ Hb0) as [_ [ton0 Ht0]].
  apply st_bind_Ok in H as (sts & w2 & Hs & H). apply Hlim in Hs.
  apply st_bind_Ok in H as (x1 & w3 & H1 & H).
  apply (service_loop_budget b0') in H1 as [[B1 E1] S1]; [|by eapply budget_start].
  apply st_bind_Ok in H as (its & w4 & _ & H). apply st_bind_Ok in H as (x2 & w5 & H2 & H).
  apply (internal_loop_budget b0') in H2 as [[B2 E2] S2]; [|done|unfold size in *; simpl in *; lia].
  apply st_bind_Ok in H as (offered & w6 & Ho & H). apply st_bind_Ok in H as (x3 & w7 & H3 & H).
  apply (external_loop_budget b0') in H3 as ([(ton0' & ton & Ht0' & _ & Hle & Htp) Hj Hd] & S3 & l & E3 & Hsub);
    [|done..].
  unfold st_ret in H. injection H as <- _. split_and!; [exact S3| | |exact Hd|].
  - exists ton0'. split; [done|]. specialize (Htp (Hpos _ _ Ht0')). lia.
  - intros cur Hcur. specialize (Hj cur Hcur). unfold jetton_ok in Hj.
    destruct (b0' !! cur) as [z0|] eqn:Ez; simpl; [|lia].
    destruct Hj as (z & _ & Hz & Hzp). specialize (Hzp (Hpos _ _ Ez)). lia.
  - exists offered, w5, w6. split; [done|]. rewrite E3, E2, E1. done.
Qed.
End batch.

(** ** The cold wallet *)

Section cold.
Context `{AL : AddrLib} `{UL : UuidLib} `{PG : PgLib} {O : Type}.
Context (config : Config) (cold : tonaddr) (dest : Address).

(** The requests to the cold wallet all wait in the status they got when they
    were created: no code of the processor changes a status. *)
Definition all_pending (d : DB) : Prop :=
  db_schema d = query_schema ∧
  ∀ r, r ∈ withdrawal_requests d → wr_dest_address r = dest → wr_currency r = TonSymbol →
    wr_is_internal r = true → wr_status r = Some WithdrawalStatusPending.

(** A request to the cold wallet is repeated on every pass: as long as the
    hot wallet holds more than its maximum, each pass that succeeds adds one
    more request for the whole excess, although the earlier ones are still
    pending, and leaves the next pass in the same situation. *)
Theorem cold_request_repeats balance (w w' : World O) :
  all_pending (w_db w) → c_HotWalletMax (cfg_Ton config) < balance →
  cold_ton config withdrawal_repo cold dest balance w = (Ok tt, w') →
  (∃ r, withdrawal_requests (w_db w') = withdrawal_requests (w_db w) ++ [r] ∧
    wr_amount r = balance - c_HotWalletMax (cfg_Ton config) ∧ wr_dest_address r = dest ∧
    wr_currency r = TonSymbol ∧ wr_processing r = false) ∧ all_pending (w_db w').
Proof.
  intros [Hsch Hp] Hmax H. unfold cold_ton in H.
  apply st_bind_Ok in H as (st & w1 & (Hst & Hw1 & _)%query_Ok & H).
  assert (st ≠ Some WithdrawalStatusProcessing) as Hne.
  { apply res_bind_Ok in Hst as (_ & _ & Hst). destruct (head _) as [r|] eqn:Eh; [|naive_solver].
    apply res_bind_Ok in Hst as (s & Hs & [= <-]).
    assert (r ∈ filter (λ r, wr_dest_address r = dest ∧ wr_currency r = TonSymbol
                             ∧ wr_is_internal r = true) (withdrawal_requests (w_db w)))
      as [(? & ? & ?) Hr]%list_elem_of_filter.
    { rewrite <- elem_of_plan. destruct (plan _); simplify_eq/=. set_solver. }
    apply of_option_Ok in Hs. rewrite (Hp r) in Hs by done. by simplify_eq. }
  rewrite decide_False in H by done. rewrite decide_False in H by lia.
  apply st_bind_Ok in H as (u & w2 & Hu & H).
  assert (w_db w2 = w_db w1) as Hw2.
  { unfold NewV4 in Hu. by destruct (w_rand w1); simplify_eq. }
  apply st_bind_Ok in H as (q & w3 & (d & Hd & ->)%exec_Ok & H). unfold st_ret in H.
  injection H as <-. rewrite Hw2, Hw1 in Hd. simpl w_db.
  do 4 apply res_bind_Ok in Hd as (? & _ & Hd). apply res_bind_Ok in Hd as (r & Hr & Hd).
  apply res_bind_Ok in Hd as (t & [_ ->]%insert_unique_Ok & [= _ <-]).
  unfold new_request in Hr. rewrite Hsch in Hr. simpl in Hr. injection Hr as <-.
  split.
  - eexists. split; [done|]. split_and!; done.
  - split; [done|]. intros r [Hr| ->%list_elem_of_singleton]%elem_of_app; [by apply Hp|done].
Qed.
End cold.

(** ** Waiting for the scanner *)

(** The processors act only on a synchronised ledger: [waitSync] returns,
    unless the shutdown interrupts it, only when the last saved block was read
    and was not older than the allowed lag at that moment. *)
Theorem waitSync_synced {O} GetLastSavedBlock sleep stop rest (w w' : World O) :
  Forall (λ b, b = false) stop →
  waitSync GetLastSavedBlock sleep stop w = Some (Ok tt, w', rest) →
  ∃ block w1, GetLastSavedBlock w1 = (Ok block, w') ∧
    time_Sub (w_now w') (time_Unix (sb_GenUtime block)) ≤ AllowableBlockchainLagging.
Proof.
  revert w. induction stop as [|b stop IH]; intros w Hs H; [done|].
  apply Forall_cons in Hs as [-> Hs]. simpl in H.
  destruct (GetLastSavedBlock w) as [[block| | |] w1] eqn:E; try done.
  destruct (IsExpired (w_now w1) block) eqn:Ex.
  - destruct (sleep w1) as [[] w2]; try done. by eapply IH.
  - injection H as <- <-. exists block, w. split; [done|]. unfold IsExpired in Ex.
    apply bool_decide_eq_false in Ex. lia.
Qed.

(** The processor as it is started never acts: reading the last saved block
    dereferences the nil block identifier of an empty header, so that the first
    check of synchronisation panics, whatever the tables hold. *)
Theorem waitSync_panics {O} sleep stop (w : World O) :
  ∃ w', waitSync GetLastSavedBlock sleep (false :: stop) w = Some (Panic, w', stop).
Proof.
  unfold waitSync, GetLastSavedBlock, st_bind, st_try, st_lift.
  assert ((query (λ d, Ok (block_data d)) w).1 ≠ Panic ∧
          (query (λ d, Ok (block_data d)) w).1 ≠ Fatal) as [Hp Hf].
  { unfold query, exec. case_decide; [done|]. by destruct (default _ _). }
  destruct (query _ w) as [[]]; simpl in *; try done; eauto.
Qed.
