(* ===== verification/Loops.v ===== *)
(** * The loops of the withdrawal processor and their shutdown

    [Start] and [Stop] of [core/withdrawal_processor.go]: each of the three
    goroutines waits for the ledger, reads the shutdown flag and makes a turn. The
    flag is only ever set, so what its reads give is a number of times no and then
    yes. *)

From S2P Require Import Prelude TonUtils Config Models Core Db AddressBook Repository.
From S2P Require Import WithdrawalRepository BlockScanner Messages Processor ProcessorFacts.

Local Open Scope string_scope.
Local Open Scope list_scope.
Local Open Scope Z_scope.

(** ** What a loop does *)

Section loop.
Context {O : Type} (GetLast : ST (World O) ShardBlockHeader) (sleep turn : ST (World O) unit).

(** The checks that found the ledger behind. *)
Inductive waited : World O → World O → Prop :=
| waited_none w : waited w w
| waited_more w block w1 w2 w3 :
    GetLast w = (Ok block, w1) → IsExpired (w_now w1) block = true → sleep w1 = (Ok tt, w2) →
    waited w2 w3 → waited w w3.

(** They end with a block that is not older than the allowed lag. *)
Definition synced (w w' : World O) : Prop :=
  ∃ w1 block, waited w w1 ∧ GetLast w1 = (Ok block, w') ∧ IsExpired (w_now w') block = false.

(** A number of turns, each begun on a synchronised ledger. *)
Inductive turns : nat → World O → World O → Prop :=
| turns_end w w' : waited w w' ∨ synced w w' → turns 0 w w'
| turns_more m w w1 w2 w3 :
    synced w w1 → turn w1 = (Ok tt, w2) → turns m w2 w3 → turns (S m) w w3.

(** The flag is set after [n] more reads. *)
Abbreviation flag n k := (replicate n false ++ replicate k true).

(** The wait ends: the process stops, or the flag was seen, or the ledger is
    synchronised after at least one read. *)
Lemma waitSync_flag n k w : ∃ r w' rest,
  waitSync GetLast sleep (flag n (S k)) w = Some (r, w', rest) ∧
  (r = Ok tt → (rest = flag 0 k ∧ waited w w') ∨ ∃ n', (n' < n)%nat ∧ rest = flag n' (S k) ∧ synced w w').
Proof.
  revert w. induction n as [|n IH]; intros w.
  { exists (Ok tt), w, (replicate k true). split; [done|]. intros _. left. split; [done|constructor]. }
  cbn [replicate app waitSync]. destruct (GetLast w) as [[block| | |] w1] eqn:Eg; [|by eexists _, _, _..].
  destruct (IsExpired (w_now w1) block) eqn:Ex.
  - destruct (sleep w1) as [[[]| | |] w2] eqn:Es; [|by eexists _, _, _..].
    destruct (IH w2) as (r & w' & rest & E & Hr). exists r, w', rest. split; [done|].
    intros [[-> Hw]|(n' & Hn & -> & (w3 & b & Hw & Hb))]%Hr.
    + left. split; [done|]. by eapply waited_more.
    + right. exists n'. split_and!; [lia|done|]. exists w3, b. split; [by eapply waited_more|done].
  - exists (Ok tt), w1, (flag n (S k)). split; [done|]. intros _. right. exists n. split_and!; [lia|done|].
    exists w, block. split; [constructor|done].
Qed.

Lemma loop_flag n : ∀ fuel k w, (n < fuel)%nat → ∃ r w' rest m,
  processor_loop (waitSync GetLast sleep) turn fuel (flag n (S (S k))) w = Some (r, w', rest) ∧
  (2 * m ≤ n)%nat ∧ (r = Ok tt → turns m w w').
Proof.
  induction n as [n IH] using lt_wf_ind. intros [|fuel] k w Hf; [lia|]. cbn [processor_loop].
  destruct (waitSync_flag n (S k) w) as (r & w1 & rest & -> & Hr).
  destruct r as [[]| | |]; [|by (eexists _, _, _, 0%nat; split_and!; [done|lia|done])..].
  destruct (Hr eq_refl) as [[-> Hw]|(n' & Hn & -> & Hs)].
  { eexists _, _, _, 0%nat. split_and!; [done|lia|]. intros _. constructor. by left. }
  destruct n' as [|n']; cbn [replicate app].
  { eexists _, _, _, 0%nat. split_and!; [done|lia|]. intros _. constructor. by right. }
  destruct (turn w1) as [[[]| | |] w2] eqn:Et; [|by (eexists _, _, _, 0%nat; split_and!; [done|lia|done])..].
  destruct (IH n') with (fuel := fuel) (k := k) (w := w2) as (r & w' & rest & m & E & Hm & Ht); [lia..|].
  exists r, w', rest, (S m). split_and!; [done|lia|]. intros Hok. by eapply turns_more; [| |apply Ht].
Qed.

(** A loop, given the reads of the flag, comes to an end: it returns after at
    most half as many turns as there are reads before the flag is set, each of
    them begun on a synchronised ledger, or the process ends. *)
Definition ends (loop : nat → list bool → World O → option (res unit * World O * list bool)) : Prop :=
  ∀ n k w, ∃ r w' rest m, loop (S n) (flag n (S (S k))) w = Some (r, w', rest) ∧
    (2 * m ≤ n)%nat ∧ (r = Ok tt → turns m w w').

Lemma loop_ends : ends (processor_loop (waitSync GetLast sleep) turn).
Proof. intros n k w. apply loop_flag. lia. Qed.
End loop.

(** ** The three loops *)

Section processor.
Context `{TL : TvmLib} `{UL : UuidLib} `{GR : GoRuntime} `{TW : !TonWalletLib} {O : Type}.
Abbreviation DBM := (ST (World O)).
Context (config : Config) (ab : AddressBook) (bc : Blockchain) (ws : Wallet) (repo : WithdrawalRepo O).
Context (cold : option tonaddr) (Int63 : DBM Z).
Context (Build : list (WalletMessage tonaddr Cell) → DBM (ExternalMessage tonaddr Cell)).
Context (Send : ExternalMessage tonaddr Cell → DBM unit) (wallet_Send : TonWallet → WalletMessage tonaddr Cell → DBM unit).
Context (Sleep : Z → DBM unit) (GetLast : DBM ShardBlockHeader) (SetExpired : DBM unit).

Abbreviation sleep3 := (Sleep (3 * second)).
Abbreviation batch_turn :=
  (do! _ <- Sleep ExternalWithdrawalPeriod; withdrawals_pass config ab bc ws repo cold Int63 Build Send).
Abbreviation deposit_turn :=
  (do! _ <- internal_ton_pass config bc ws repo Int63 wallet_Send; Sleep InternalWithdrawalPeriod).
Abbreviation expiration_turn := (do! _ <- expiration_pass SetExpired; Sleep ExpirationProcessorPeriod).

(** C24. Once [Stop] has set the flag the withdrawal processor comes to an end:
    each of its three loops, whatever the node answers and whatever fails, returns
    or ends the process. With [n] reads before the flag is set it has made at most
    half as many turns, each of them begun when the last saved block was not older
    than the allowed lag; after the flag is set it begins none. *)
Theorem processor_stops :
  ends GetLast sleep3 batch_turn
    (startWithdrawalsProcessor config ab bc ws repo cold Int63 Build Send Sleep GetLast) ∧
  ends GetLast sleep3 deposit_turn
    (startInternalTonWithdrawalsProcessor config bc ws repo Int63 wallet_Send Sleep GetLast) ∧
  ends GetLast sleep3 expiration_turn (startExpirationProcessor Sleep GetLast SetExpired).
Proof. split_and!; apply loop_ends. Qed.
End processor.

(** With the repository that [main] gives it, no loop makes a turn. *)
Theorem loops_panic {O} Sleep (turn : ST (World O) unit) fuel stop (w : World O) :
  ∃ w', processor_loop (wait Sleep GetLastSavedBlock) turn (S fuel) (false :: stop) w = Some (Panic, w', stop).
Proof.
  destruct (waitSync_panics (Sleep (3 * second)) stop w) as [w' E]. exists w'. cbn [processor_loop].
  unfold wait. by rewrite E.
Qed.
