(* ===== verification/Sending.v ===== *)
(** * Recorded before sent

    The order in which a pass of the withdrawal processor writes and sends: a
    message reaches the network only when every payment and every internal
    withdrawal it makes is in the tables, under the identifier by which the
    scanner will recognise it. *)

From S2P Require Import Prelude TonUtils Config Models Core Db AddressBook Repository.
From S2P Require Import WithdrawalRepository Ledger BlockScanner Saving Protocol Lifecycle.
From S2P Require Import Messages Processor ProcessorFacts.

Local Open Scope string_scope.
Local Open Scope list_scope.
Local Open Scope Z_scope.

(** ** Code that sends nothing *)

Section quiet.
Context {O : Type}.
Abbreviation quiet := (preserves (same_out (O:=O))).

Lemma quiet_bind {A B} (m : ST (World O) A) (k : A → ST (World O) B) :
  quiet m → (∀ a, quiet (k a)) → quiet (st_bind m k).
Proof. apply preserves_bind, _. Qed.
Lemma quiet_ret {A} (a : A) : quiet (st_ret a).
Proof. apply preserves_ret, _. Qed.
Lemma quiet_lift {A} (r : res A) : quiet (st_lift r).
Proof. apply preserves_lift, _. Qed.
Lemma quiet_fail {A} e : quiet (st_fail (A:=A) e).
Proof. apply preserves_fail, _. Qed.
Lemma quiet_for {A B} (f : B → A → ST (World O) B) l b :
  (∀ b x, x ∈ l → quiet (f b x)) → quiet (for_st f b l).
Proof. apply preserves_for, _. Qed.
Lemma quiet_each {A} (f : A → ST (World O) unit) l : (∀ x, x ∈ l → quiet (f x)) → quiet (each_st f l).
Proof. apply preserves_each, _. Qed.
Lemma quiet_now : quiet now.
Proof. intros w. done. Qed.
Lemma quiet_NewV4 : quiet NewV4.
Proof. intros w. unfold NewV4. by destruct (w_rand w). Qed.

(** After a quiet statement the program goes on, or has sent nothing. *)
Lemma quiet_step {A B} (m : ST (World O) A) (k : A → ST (World O) B) w r w' :
  quiet m → st_bind m k w = (r, w') →
  w_out w' = w_out w ∨ ∃ a w1, m w = (Ok a, w1) ∧ w_out w1 = w_out w ∧ k a w1 = (r, w').
Proof.
  intros Hm. specialize (Hm w). unfold st_bind. destruct (m w) as [r1 w1] eqn:E.
  unfold same_out in Hm. simpl in Hm. destruct r1 as [a| | |]; intros H.
  - right. by exists a, w1.
  - left. by injection H as _ <-.
  - left. by injection H as _ <-.
  - left. by injection H as _ <-.
Qed.
End quiet.

Create HintDb quiet.
#[export] Hint Resolve quiet_ret quiet_lift quiet_fail quiet_now quiet_NewV4 exec_same_out
  query_same_out : quiet.

Ltac quiet :=
  repeat first
    [ progress intros
    | progress cbn zeta
    | solve [eauto 2 with quiet]
    | apply quiet_bind
    | apply preserves_try | apply preserves_fatal | apply quiet_each | apply quiet_for
    | apply transaction_same_out
    | case_match ].

(** ** The statements of a pass *)

Section statements.
Context `{PG : PgLib} {O : Type}.
Abbreviation quiet := (preserves (same_out (O:=O))).

Lemma quiet_NewRequest wq : quiet (CreateWithdrawalRequest wq).
Proof. apply exec_same_out. Qed.
Lemma quiet_Create l u e : quiet (CreateExternalWithdrawals l u e).
Proof. unfold CreateExternalWithdrawals, in_tx, insert_external, update_processing. quiet. Qed.
Lemma quiet_UpdateService t c e f : quiet (UpdateServiceWithdrawalRequest t c e f).
Proof. apply exec_same_out. Qed.
Lemma quiet_SaveInternal t e m : quiet (SaveInternalWithdrawalTask t e m).
Proof. apply exec_same_out. Qed.

(** What the statements after the payments keep of the tables. *)
Record kept (d d' : DB) : Prop := {
  kept_external : external_withdrawals d' = external_withdrawals d;
  kept_internal : internal_withdrawals d ⊆ internal_withdrawals d';
}.

#[export] Instance kept_preorder : PreOrder kept.
Proof. split; [by split|]. intros a b c [] []. split; [congruence|by etrans]. Qed.

Lemma UpdateService_kept t c e f : db_rel (O:=O) kept (UpdateServiceWithdrawalRequest t c e f).
Proof. apply db_rel_exec; [apply _|]. intros d a d' H. inv_res. by split. Qed.

Lemma SaveInternal_kept t e m : db_rel (O:=O) kept (SaveInternalWithdrawalTask t e m).
Proof.
  apply db_rel_exec; [apply _|]. intros d a d' H. inv_res.
  match goal with H : insert_unique _ _ _ = Ok _ |- _ => apply insert_unique_Ok in H as [_ ->] end.
  split; [done|]. simpl. set_solver.
Qed.

Lemma SaveInternal_row t e m (w w' : World O) :
  SaveInternalWithdrawalTask t e m w = (Ok tt, w') →
  new_internal t e m ∈ internal_withdrawals (w_db w').
Proof.
  intros (d & H & ->)%exec_Ok. inv_res.
  match goal with H : insert_unique _ _ _ = Ok _ |- _ => apply insert_unique_Ok in H as [_ ->] end.
  set_solver.
Qed.

End statements.

(** ** The pass *)

Section sending.
Context `{TL : TvmLib} `{UL : UuidLib} `{PG : PgLib} `{GR : GoRuntime} `{TW : !TonWalletLib} {O : Type}.
Abbreviation DBM := (ST (World O)).
Abbreviation quiet := (preserves (same_out (O:=O))).
Context (config : Config) (ab : AddressBook) (bc : Blockchain) (ws : Wallet).
Context (cold : option tonaddr) (Int63 : DBM Z).
Context (BuildMessageForMany : list (WalletMessage tonaddr Cell) → DBM (ExternalMessage tonaddr Cell)).
Context (SendExternalMessage : ExternalMessage tonaddr Cell → DBM unit).
Context (sent : ExternalMessage tonaddr Cell → O).
Context (HInt63 : quiet Int63) (HBuild : ∀ l, quiet (BuildMessageForMany l)).
(** Sending leaves the tables alone; the message goes out or it does not. *)
Context (HSend : ∀ m w, w_db (SendExternalMessage m w).2 = w_db w ∧
  (w_out (SendExternalMessage m w).2 = w_out w ∨
   w_out (SendExternalMessage m w).2 = w_out w ++ [sent m])).

#[local] Hint Resolve HInt63 HBuild : quiet.

#[local] Hint Resolve quiet_NewRequest quiet_Create quiet_UpdateService quiet_SaveInternal : quiet.

Lemma makeCold_quiet : quiet (makeColdWalletWithdrawals config bc ws withdrawal_repo cold).
Proof. unfold makeColdWalletWithdrawals, cold_jetton, cold_ton. simpl. quiet. Qed.

Lemma internal_loop_quiet b ts : quiet (internal_loop config ws Int63 b ts).
Proof.
  revert b. induction ts as [|t ts IH]; intros b; simpl; unfold buildJettonInternalWithdrawalMessage; quiet.
Qed.

Lemma external_loop_quiet b ts : quiet (external_loop ab ws b ts).
Proof. revert b. induction ts as [|t ts IH]; intros b; simpl; quiet. Qed.
#[local] Hint Resolve makeCold_quiet internal_loop_quiet external_loop_quiet : quiet.

Lemma build_quiet : quiet (buildWithdrawalMessages config ab bc ws withdrawal_repo Int63).
Proof.
  unfold buildWithdrawalMessages, service_turn, buildServiceWithdrawalMessage,
    buildServiceJettonWithdrawal. simpl. quiet.
Qed.
#[local] Hint Resolve build_quiet : quiet.

(** Nothing is sent before it is recorded: a pass sends at most one
    message; it is the message of a batch, and when it goes out the tables hold
    a withdrawal for every payment of the batch, under the identifier the
    message carries, and one for every sweep of a jetton deposit, under its
    memo, with the lifetime of the message. *)
Theorem sent_is_recorded w r w' :
  withdrawals_pass config ab bc ws withdrawal_repo cold Int63 BuildMessageForMany
    SendExternalMessage w = (r, w') →
  w_out w' = w_out w ∨
  ∃ wd msg info, w_out w' = w_out w ++ [sent msg] ∧
    (∃ w1 w2, buildWithdrawalMessages config ab bc ws withdrawal_repo Int63 w1 = (Ok wd, w2)) ∧
    (∃ w1 w2, BuildMessageForMany (w_Messages wd) w1 = (Ok msg, w2)) ∧
    getHighLoadWalletExtMsgInfo msg = Ok info ∧
    (∀ t, t ∈ w_External wd →
       new_external (hi_UUID info) (hi_TTL info) t ∈ external_withdrawals (w_db w')) ∧
    (∀ i, i ∈ w_Internal wd →
       new_internal (inw_Task i) (hi_TTL info) (inw_Memo i) ∈ internal_withdrawals (w_db w')).
Proof.
  unfold withdrawals_pass. cbn [r_CreateExternalWithdrawals r_UpdateServiceWithdrawalRequest
    r_SaveInternalWithdrawalTask withdrawal_repo]. intros H.
  apply quiet_step in H as [H|([] & w1 & _ & O1 & H)]; [by left| |quiet].
  apply quiet_step in H as [H|(wd & w2 & Hwd%st_fatal_Ok & O2 & H)]; [left; congruence| |quiet].
  case_decide; [left; injection H as _ <-; congruence|].
  apply quiet_step in H as [H|(msg & w3 & Hmsg%st_fatal_Ok & O3 & H)]; [left; congruence| |quiet].
  apply quiet_step in H as [H|(info & w4 & Hinfo%st_fatal_Ok & O4 & H)]; [left; congruence| |quiet].
  apply quiet_step in H as [H|([] & w5 & Hx%st_fatal_Ok & O5 & H)]; [left; congruence| |quiet].
  apply quiet_step in H as [H|([] & w6 & Hs & O6 & H)]; [left; congruence| |quiet].
  apply quiet_step in H as [H|([] & w7 & Hi & O7 & H)]; [left; congruence| |quiet].
  assert (w_db w' = w_db w7 ∧ (w_out w' = w_out w7 ∨ w_out w' = w_out w7 ++ [sent msg])) as [Hdb Hout].
  { unfold st_bind, st_try in H. pose proof (HSend msg w7) as [HS1 HS2].
    destruct (SendExternalMessage msg w7) as [[] w8]; by injection H as _ <-. }
  destruct Hout as [Hout|Hout]; [left; congruence|right]. exists wd, msg, info.
  assert (∀ {A} (f : A → ST (World O) unit) l v v', (∀ x, db_rel kept (f x)) →
    each_st (λ x, st_fatal (f x)) l v = (Ok tt, v') → kept (w_db v) (w_db v')) as Hkept.
  { intros A f l v v' Hf Hv. pose proof (preserves_each (wrel kept) (λ x, st_fatal (f x)) l) as Hr.
    destruct (Hr (λ x _, preserves_fatal _ _ (Hf x)) v) as [Hk _]. by rewrite Hv in Hk. }
  apply Hkept in Hs as [Es Is]; [|intros; apply UpdateService_kept].
  pose proof Hi as [Ei Ii]%Hkept; [|intros; apply SaveInternal_kept].
  split_and!; [congruence|by eexists _, _|by eexists _, _| | |].
  - unfold st_lift in Hinfo. by injection Hinfo.
  - intros t Ht. rewrite Hdb, Ei, Es.
    apply CreateExternalWithdrawals_rows in Hx as [[[] _]|(_ & -> & _)]; [done|].
    apply elem_of_app. right. by apply list_elem_of_fmap_2.
  - intros i Hin. rewrite Hdb. revert i Hin.
    eapply (each_st_all _ (wrel kept) (λ i v, new_internal (inw_Task i) (hi_TTL info) (inw_Memo i)
      ∈ internal_withdrawals (w_db v))); [| | |exact Hi].
    + intros. apply preserves_fatal, SaveInternal_kept.
    + intros i v v' Hv%st_fatal_Ok. by eapply SaveInternal_row.
    + intros i v v' [[_ Hsub] _]. apply Hsub.
Qed.
End sending.
