(* ===== verification/Wallets.v ===== *)
(** * [core/wallet]: the wallets of the processor

    Balances, the search for sub-wallets and proxies whose address is in the
    processor's shard, and the start-up of the hot wallets. A search over
    [uint32] identifiers takes fuel; [None] is fuel that ran out. *)

From S2P Require Import Prelude TonUtils Config Models Core Db Repository BlockScanner Messages.

Local Open Scope string_scope.
Local Open Scope list_scope.
Local Open Scope Z_scope.

(** The entries of a stack; indexing an empty one panics. *)
Definition stackToBalance (stack : list StackValue) : res Z :=
  match stack with
  | [] => Panic
  | StackInt z :: _ => Ok z
  | StackOther :: _ => Err (EText "invalid balance type")
  end.

Definition inShard (addr : Address) (shard : Z) : bool := bool_decide (head (`addr) = Some shard).

Section wallets.
Context `{TL : TvmLib} `{TW : !TonWalletLib}.
Context (bc : Blockchain) (config : Config) (defaultWalletVersion : Version).

Definition wallets_GetJettonBalance (addr : tonaddr) (blockID : option BlockIDExt) : res Z :=
  let! stack := GetWalletData bc addr blockID in stackToBalance stack.

Definition wallets_GetLastJettonBalance (addr : tonaddr) : res Z :=
  let! stack := GetLastWalletData bc addr in stackToBalance stack.

Definition wallets_GetJettonWalletAddress (ownerAddr masterAddr : tonaddr) : res tonaddr :=
  JettonClient_GetJettonWallet bc masterAddr ownerAddr.

Definition GenerateDefaultWallet (seed : string) (isHighload : bool) : res (TonWallet * Z * Z) :=
  if isHighload then GenerateHighloadWallet bc seed
  else GenerateWallet bc seed defaultWalletVersion.

(** The loop [for id := start; id < math.MaxUint32; id++]. *)
Fixpoint find_subwallet (fuel : nat) (basic : TonWallet) (shard id : Z)
    : option (res (TonWallet * Z)) :=
  if decide (max_uint32 ≤ id) then Some (Err (EText "subwallet not found")) else
  match fuel with
  | O => None
  | S fuel =>
      match GetSubwallet basic id with
      | None => Some (Err (ELib "subwallet"))
      | Some subWallet =>
          match AddressFromTonutilsAddress (Some (w_Address subWallet)) with
          | Ok addr =>
              if inShard addr shard then Some (Ok (subWallet, id))
              else find_subwallet fuel basic shard (id + 1)
          | Err e => Some (Err e)
          | Panic => Some Panic
          | Fatal => Some Fatal
          end
      end
  end.

Definition GenerateSubWallet (fuel : nat) (shard : Z) (seed : string) (startSubWalletID : Z)
    : option (res (TonWallet * Z)) :=
  match GenerateWallet bc seed defaultWalletVersion with
  | Ok (basic, _, _) => find_subwallet fuel basic shard startSubWalletID
  | Err e => Some (Err e)
  | Panic => Some Panic
  | Fatal => Some Fatal
  end.

(** The loop of [GenerateDepositJettonWalletForProxy]; [Data()[0]] of an
    address without data panics. *)
Fixpoint find_proxy (fuel : nat) (shard : Z) (proxyOwner jettonMaster : tonaddr) (id : Z)
    : option (res (JettonProxy * tonaddr)) :=
  if decide (max_uint32 ≤ id) then Some (Err (EText "jetton wallet address not found")) else
  match fuel with
  | O => None
  | S fuel =>
      match (let! proxy := NewJettonProxy id (Some proxyOwner) in
             let! addr := wallets_GetJettonWalletAddress (px_address proxy) jettonMaster in
             match addr_Data addr with
             | [] => Panic
             | b :: _ => Ok (proxy, addr, b)
             end) with
      | Ok (proxy, addr, b) =>
          if decide (b = shard) then
            Some (Ok (proxy, addr_SetTestnetOnly (cfg_Testnet config) addr))
          else find_proxy fuel shard proxyOwner jettonMaster (id + 1)
      | Err e => Some (Err e)
      | Panic => Some Panic
      | Fatal => Some Fatal
      end
  end.

Definition GenerateDepositJettonWalletForProxy (fuel : nat) (shard : Z)
    (proxyOwner jettonMaster : tonaddr) (startSubWalletID : Z) : option (res (JettonProxy * tonaddr)) :=
  find_proxy fuel shard proxyOwner jettonMaster startSubWalletID.

(** ** Start-up *)

Context `{GR : GoRuntime} {O : Type} (repo : Repo O).
Context (wallet_TransferNoBounce : TonWallet → tonaddr → Z → ST (World O) unit).
Context `{WL : WalletLib}.
Abbreviation DBM := (ST (World O)).

Definition DeployTonWallet (w : TonWallet) : DBM unit :=
  do! (balance, status) <- st_lift (GetAccountCurrentState bc (w_Address w));
  if decide (balance = 0) then st_fail (EText "empty balance") else
  if decide (status = AccountStatusActive) then st_ret tt else
  do! _ <- wallet_TransferNoBounce w (w_Address w) 0;
  st_lift (WaitStatus bc (w_Address w) AccountStatusActive).

(** Whether the stored hot wallet is the generated one: an absent one is
    stored later, another one is refused. *)
Definition check_saved (addr : Address) : DBM bool :=
  do! r <- st_try (p_GetTonHotWalletAddress repo);
  match r with
  | inl addrFromDb =>
      if decide (addr ≠ addrFromDb) then
        st_fail (EText "saved hot wallet not equal generated hot wallet. Maybe seed was being changed")
      else st_ret true
  | inr ENotFound => st_ret false
  | inr e => st_fail e
  end.

Definition initTonHotWallet (seed : string) : DBM (TonWallet * Z * Z) :=
  do! (tonHotWallet, shard, subwalletId) <- st_lift (GenerateDefaultWallet seed true);
  do! _ <- st_lift (if decide (w_Spec tonHotWallet = SpecHighloadV2R2) then Ok tt else Panic);
  do! addr <- st_lift (AddressMustFromTonutilsAddress (Some (w_Address tonHotWallet)));
  do! alreadySaved <- check_saved addr;
  do! (balance, status) <- st_lift (GetAccountCurrentState bc (w_Address tonHotWallet));
  if decide (balance < c_HotWalletMin (cfg_Ton config)) then
    st_fail (EText "hot wallet balance must be at least %v nanoTON")
  else
    do! _ <- (if decide (status = AccountStatusActive) then st_ret tt
              else DeployTonWallet tonHotWallet);
    do! _ <- (if (alreadySaved : bool) then st_ret tt
              else p_SaveTonWallet repo {| wd_SubwalletID := wrap32 DefaultSubwallet;
                     wd_UserID := ""; wd_Currency := TonSymbol; wd_Type := TonHotWallet;
                     wd_Address := addr |});
    st_ret (tonHotWallet, shard, subwalletId).

Definition initJettonHotWallet (tonHotWallet jettonMaster : tonaddr) (currency : string)
    (subwalletId : Z) : DBM JettonWallet :=
  do! a <- st_lift (wallets_GetJettonWalletAddress tonHotWallet jettonMaster);
  let r := {| jwal_Address := a; jwal_Currency := currency |} in
  do! ownerAddr <- st_lift (AddressFromTonutilsAddress (Some tonHotWallet));
  do! jettonWalletAddr <- st_lift (AddressFromTonutilsAddress (Some a));
  do! walletData <- p_GetJettonWallet repo jettonWalletAddr;
  match walletData with
  | Some d =>
      if decide (wd_Currency d = currency) then st_ret r
      else st_fail (EText "jetton hot wallet address duplication")
  | None =>
      do! _ <- p_SaveJettonWallet repo ownerAddr
                 {| wd_SubwalletID := subwalletId; wd_UserID := ""; wd_Currency := currency;
                    wd_Type := JettonHotWallet; wd_Address := jettonWalletAddr |} true;
      st_ret r
  end.

Definition wallets_ops (shard : Z) (hot basic : TonWallet) (jettons : gmap string JettonWallet)
    : Wallet := {|
  GetJettonWalletAddress := wallets_GetJettonWalletAddress;
  GetJettonBalance := wallets_GetJettonBalance;
  GetLastJettonBalance := wallets_GetLastJettonBalance;
  TonHotWalletOf := hot;
  TonBasicWalletOf := basic;
  JettonHotWallets := jettons;
  Core.Shard := shard;
|}.

Definition InitWallets (seed : string) : DBM Wallet :=
  do! (tonHotWallet, shard, subwalletId) <- initTonHotWallet seed;
  do! (tonBasicWallet, _, _) <- st_lift (GenerateDefaultWallet seed false);
  do! jettonHotWallets <- for_st (λ m (cj : string * Jetton),
      do! jw <- initJettonHotWallet (w_Address tonHotWallet) (j_Master cj.2) cj.1 subwalletId;
      st_ret (<[cj.1 := jw]> m))
    ∅ (map_order (map_to_list (cfg_Jettons config)));
  st_ret (wallets_ops shard tonHotWallet tonBasicWallet jettonHotWallets).
End wallets.

(** ** The searches *)

Section searches.
Context `{TL : TvmLib} `{TW : !TonWalletLib}.
Context (bc : Blockchain) (config : Config).

(** The sub-wallet with identifier [id] exists and is outside the shard. *)
Definition outside (basic : TonWallet) (shard id : Z) : Prop :=
  ∃ w a, GetSubwallet basic id = Some w ∧
    AddressFromTonutilsAddress (Some (w_Address w)) = Ok a ∧ inShard a shard = false.

Definition subwallet_not_found : err := EText "subwallet not found".
Definition proxy_not_found : err := EText "jetton wallet address not found".

Lemma AddressFromTonutilsAddress_found a : AddressFromTonutilsAddress a ≠ Err subwallet_not_found.
Proof.
  unfold AddressFromTonutilsAddress, AddressFromBytes. destruct a as [a|]; [|done].
  case_decide; [done|]. by destruct (mk_bytes 32 (addr_Data a)).
Qed.

(** The search for a sub-wallet ends, with fuel for the identifiers that
    remain, and what it finds is the first one in the shard: its identifier is
    at least the start and below the largest [uint32], its address starts with
    the shard's byte, and every identifier skipped is outside the shard. It
    reports that there is none only when they are all outside. *)
Theorem find_subwallet_first fuel basic shard start :
  max_uint32 - start ≤ Z.of_nat fuel →
  ∃ r, find_subwallet fuel basic shard start = Some r ∧
    (∀ w id, r = Ok (w, id) →
       start ≤ id < max_uint32 ∧ GetSubwallet basic id = Some w ∧
       (∃ a, AddressFromTonutilsAddress (Some (w_Address w)) = Ok a ∧ inShard a shard = true) ∧
       ∀ i, start ≤ i < id → outside basic shard i) ∧
    (r = Err subwallet_not_found → ∀ i, start ≤ i < max_uint32 → outside basic shard i).
Proof.
  revert start. induction fuel as [|fuel IH]; intros start Hf; cbn [find_subwallet];
    (case_decide; [eexists; split_and!; [done..|]; intros _ i; lia|]); [lia|].
  destruct (GetSubwallet basic start) as [w0|] eqn:Ew; [|by eexists].
  destruct (AddressFromTonutilsAddress (Some (w_Address w0))) as [a|e| |] eqn:Ea; try by eexists.
  - destruct (inShard a shard) eqn:Es.
    { eexists. split_and!; [done| |done]. intros w id [= <- <-]. split_and!; [lia|lia|done|eauto|lia]. }
    assert (outside basic shard start) as Hs by by exists w0, a.
    destruct (IH (start + 1)) as (r & -> & Hr & Hnone); [lia|]. exists r. split_and!; [done| |].
    + intros w id E. destruct (Hr w id E) as (? & ? & ? & Hout). split_and!; [lia|lia|done..|].
      intros i Hi. destruct (decide (i = start)) as [->|]; [done|]. apply Hout. lia.
    + intros E i Hi. destruct (decide (i = start)) as [->|]; [done|]. apply Hnone; [done|lia].
  - eexists. split_and!; [done..|]. intros [= ->]. by destruct (AddressFromTonutilsAddress_found _ Ea).
Qed.

(** The jetton wallet of the proxy with identifier [id] is in the shard of
    the byte [b]. *)
Definition proxy_in (owner master : tonaddr) (id : Z) (p : JettonProxy) (raw : tonaddr) (b : Z) : Prop :=
  NewJettonProxy id (Some owner) = Ok p ∧
  wallets_GetJettonWalletAddress bc (px_address p) master = Ok raw ∧ head (addr_Data raw) = Some b.

(** What the searches find. *)
Lemma find_subwallet_Ok fuel basic shard start w id :
  find_subwallet fuel basic shard start = Some (Ok (w, id)) →
  start ≤ id ∧ GetSubwallet basic id = Some w ∧
  ∃ a, AddressFromTonutilsAddress (Some (w_Address w)) = Ok a ∧ inShard a shard = true.
Proof.
  revert start. induction fuel as [|fuel IH]; intros start; cbn [find_subwallet]; case_decide; try done.
  destruct (GetSubwallet basic start) as [w0|] eqn:Ew; [|done].
  destruct (AddressFromTonutilsAddress (Some (w_Address w0))) as [a|e| |] eqn:Ea; try done.
  destruct (inShard a shard) eqn:Es; [intros [= <- <-]; split_and!; [lia|done|by eauto]|].
  intros (? & ? & ?)%IH. split; [lia|done].
Qed.

Lemma find_proxy_Ok fuel shard owner master start p a :
  find_proxy bc config fuel shard owner master start = Some (Ok (p, a)) →
  ∃ id raw, start ≤ id ∧ proxy_in owner master id p raw shard ∧
    a = addr_SetTestnetOnly (cfg_Testnet config) raw.
Proof.
  revert start. induction fuel as [|fuel IH]; intros start; cbn [find_proxy]; case_decide; try done.
  destruct (res_bind _ _) as [[[p1 raw] b]| | |] eqn:Ep; try done.
  case_decide as Hb; [|intros (id & raw' & ? & ? & ?)%IH; exists id, raw'; split; [lia|done]].
  intros [= <- <-]. apply res_bind_Ok in Ep as (p2 & Hp & Ep). apply res_bind_Ok in Ep as (raw1 & Hraw & Ep).
  exists start, raw. unfold proxy_in. destruct (addr_Data raw1) as [|b1 rest] eqn:Ed; simplify_eq.
  by rewrite Ed.
Qed.

(** The search for the proxy of a jetton deposit ends, with fuel for the
    identifiers that remain; the proxy found is the first whose jetton wallet
    is in the shard, a [uint32] not below the start identifies it, and the
    address returned is the one of that wallet. *)
Theorem find_proxy_first fuel shard owner master start :
  max_uint32 - start ≤ Z.of_nat fuel →
  ∃ r, find_proxy bc config fuel shard owner master start = Some r ∧
    ∀ p a, r = Ok (p, a) →
      ∃ id raw, start ≤ id < max_uint32 ∧ proxy_in owner master id p raw shard ∧
        a = addr_SetTestnetOnly (cfg_Testnet config) raw ∧
        ∀ i, start ≤ i < id → ∃ p' raw' b, proxy_in owner master i p' raw' b ∧ b ≠ shard.
Proof.
  revert start. induction fuel as [|fuel IH]; intros start Hf; cbn [find_proxy];
    (case_decide; [by eexists|]); [lia|].
  destruct (res_bind _ _) as [[[p raw] b]| | |] eqn:Ep; try by eexists.
  apply res_bind_Ok in Ep as (p1 & Hp1 & Ep). apply res_bind_Ok in Ep as (raw1 & Hraw & Ep).
  destruct (addr_Data raw1) as [|b1 rest] eqn:Ed; simplify_eq.
  assert (proxy_in owner master start p raw b) as Hin by (unfold proxy_in; by rewrite Ed).
  case_decide as Hb; simplify_eq.
  - eexists. split; [done|]. intros p' a [= <- <-]. exists start, raw. split_and!; [lia|lia|done|done|lia].
  - destruct (IH (start + 1)) as (r & -> & Hr); [lia|]. exists r. split; [done|].
    intros p' a E. destruct (Hr p' a E) as (id & raw' & ? & ? & ? & Hskip). exists id, raw'.
    split_and!; [lia|lia|done|done|]. intros i Hi. destruct (decide (i = start)) as [->|]; [eauto|].
    apply Hskip. lia.
Qed.
End searches.

(** ** Jetton balances of a new deposit *)

(** The first income of a jetton deposit can not be processed: while the
      jetton wallet is not initialised in the parent block, reading its balance
      there fails, and with it the whole group of transactions. *)
Theorem uninitialised_parent_fails `{TL : TvmLib} `{TW : !TonWalletLib}
    (ab : AddressBook.AddressBook) bc hot basic jettons shard txs blk prv e :
  GetWalletData bc (ToTonutilsAddressStd 0 (ts_Address txs)) prv = Err e →
  ∀ ev, processJettonDepositWalletTXs ab (wallets_ops bc shard hot basic jettons) txs blk prv ≠ Ok ev.
Proof.
  intros He ev (p & _ & H)%res_bind_Ok. apply res_bind_Ok in H as (u & H & _).
  unfold calculateJettonAmounts in H. apply res_bind_Ok in H as (b & H & _).
  simpl in H. unfold wallets_GetJettonBalance in H. by rewrite He in H.
Qed.
