(* ===== verification/Notify.v ===== *)
(** * [webhook/webhook.go], [queue/queue.go]: publishing a notification

    The two [models.Notificator]s. JSON encoding, the HTTP client and the AMQP
    channel are library code: the answers they give are arguments, and what is
    handed to them is what counts as sent. *)

From S2P Require Import Prelude.

Local Open Scope string_scope.
Local Open Scope list_scope.
Local Open Scope Z_scope.

(** ** Webhook *)

Record WebhookClient := { wc_uri : string; wc_token : string }.

Definition NewWebhookClient (uri token : string) : res WebhookClient :=
  if decide (uri = "") then Err (EText "emty uri")
  else Ok {| wc_uri := uri; wc_token := token |}.

(** An HTTP request as the client sends it. *)
Record request := { rq_uri : string; rq_authorization : option string; rq_body : string }.

(** What [client.Do] gives for one attempt: an error, or a status code and
    whether closing the body succeeds, which is fatal when it does not. *)
Inductive answer : Set := NoAnswer | Answer (status : Z) (closes : bool).

Definition send (a : answer) : res unit :=
  match a with
  | NoAnswer => Err (EText "webhook sending error")
  | Answer _ false => Fatal
  | Answer status true =>
      if decide (status = 200) then Ok tt else Err (EText "webhook response status")
  end.

(** The loop [for i := 0; i < 3; i++] over the answers of the attempts: the
    result and the attempts made. *)
Fixpoint attempts (n : nat) (answers : nat → answer) (i : nat) : res unit * nat :=
  match n with
  | O => (Err (EText "attempts to send a webhook ended"), i)
  | S n =>
      match send (answers i) with
      | Ok _ => (Ok tt, S i)
      | Err _ => attempts n answers (S i)
      | Panic => (Panic, S i)
      | Fatal => (Fatal, S i)
      end
  end.

(** The requests handed to the client: the same one on every attempt. *)
Definition webhook_Publish (c : WebhookClient) (json : option string) (answers : nat → answer)
    : res unit * list request :=
  match json with
  | None => (Err (ELib "json"), [])
  | Some body =>
      let rq := {| rq_uri := wc_uri c;
                   rq_authorization := if decide (wc_token c = "") then None
                                       else Some ("Bearer " +:+ wc_token c);
                   rq_body := body |} in
      let '(r, n) := attempts 3 answers 0 in (r, replicate n rq)
  end.

(** ** Queue *)

Record AmqpClient := { am_enabled : bool; am_exchange : string }.

(** [dial], [channel], [declare]: whether each library call succeeds. *)
Definition NewAmqpClient (enabled dial channel declare : bool) (queueName : string)
    : res AmqpClient :=
  if negb enabled then Ok {| am_enabled := false; am_exchange := "" |}
  else if negb dial then Err (ELib "dial")
  else if negb channel then Err (ELib "channel")
  else if negb declare then Err (ELib "exchange")
  else Ok {| am_enabled := true; am_exchange := queueName |}.

(** The result and what was published: the exchange and the body. *)
Definition amqp_Publish (c : AmqpClient) (json : option string) (publish : res unit)
    : res unit * list (string * string) :=
  if negb (am_enabled c) then (Ok tt, [])
  else if decide (am_exchange c = "") then (Err (EText "exchange not init"), [])
  else match json with
       | None => (Err (ELib "json"), [])
       | Some body => (publish, [(am_exchange c, body)])
       end.

(** ** Theorems *)

Lemma attempts_cases n answers i r k :
  attempts n answers i = (r, k) →
  (i ≤ k ≤ i + n)%nat ∧
  (r = Ok tt → (i < k)%nat ∧ send (answers (k - 1)%nat) = Ok tt) ∧
  (∀ j, (i ≤ j)%nat → (S j < k)%nat → ∃ e, send (answers j) = Err e) ∧
  (∀ e, r = Err e → k = (i + n)%nat ∧ ∀ j, (i ≤ j < k)%nat → ∃ e, send (answers j) = Err e).
Proof.
  revert i. induction n as [|n IH]; intros i H; simpl in H.
  - simplify_eq. split_and!; [lia|lia|done|lia|]. intros e _. split; [lia|]. lia.
  - destruct (send (answers i)) as [[]|e0| |] eqn:Es; simplify_eq.
    + replace (S i - 1)%nat with i by lia. split_and!; [lia|lia|intros; split; [lia|done]|lia|done].
    + apply IH in H as (H1 & H2 & H3 & H4). split_and!; [lia|lia| | |].
      * intros Hr. destruct (H2 Hr). split; [lia|done].
      * intros j Hj Hk. destruct (decide (j = i)) as [->|]; [eauto|]. apply H3; lia.
      * intros e He. destruct (H4 e He) as [-> Hall]. split; [lia|]. intros j Hj.
        destruct (decide (j = i)) as [->|]; [eauto|]. apply Hall. lia.
    + split_and!; [lia|lia|done|lia|done].
    + split_and!; [lia|lia|done|lia|done].
Qed.

(** A webhook is attempted one to three times, always with the same
    request, stops at the first attempt answered with status 200, which is the
    only success, and gives up only after three attempts failed. *)
Theorem webhook_Publish_attempts c body answers r sent :
  webhook_Publish c (Some body) answers = (r, sent) →
  (1 ≤ length sent ≤ 3)%nat ∧
  (∃ rq, rq_uri rq = wc_uri c ∧ rq_body rq = body ∧ ∀ x, x ∈ sent → x = rq) ∧
  (r = Ok tt → answers (length sent - 1)%nat = Answer 200 true ∧
     ∀ j, (S j < length sent)%nat → answers j ≠ Answer 200 true) ∧
  (∀ e, r = Err e → length sent = 3%nat ∧ ∀ j, (j < 3)%nat → answers j ≠ Answer 200 true).
Proof.
  unfold webhook_Publish. destruct (attempts 3 answers 0) as [r0 n] eqn:Ea. intros [= <- <-].
  pose proof (attempts_cases _ _ _ _ _ Ea) as (H1 & H2 & H3 & H4). rewrite length_replicate.
  assert (∀ j e, send (answers j) = Err e → answers j ≠ Answer 200 true) as Hno.
  { intros j e He Hj. by rewrite Hj in He. }
  split_and!.
  - simpl in Ea. repeat case_match; simplify_eq; lia.
  - lia.
  - eexists. split_and!; [| |by intros x [-> _]%elem_of_replicate]; done.
  - intros Hr. destruct (H2 Hr) as [Hlt Hs]. split.
    + unfold send in Hs. destruct (answers (n - 1)%nat) as [|st []]; try done.
      case_decide; [by subst|done].
    + intros j Hj. destruct (H3 j) as [e He]; [lia|done|]. by eapply Hno.
  - intros e He. destruct (H4 e He) as [-> Hall]. split; [done|]. intros j Hj.
    destruct (Hall j) as [e' He']; [lia|]. by eapply Hno.
Qed.
