(* ===== verification/Blockchain.v ===== *)
(** * [core/blockchain.go]: reading the chain through a lite server

    The methods of [connection] over the client's answers. A loop that waits
    is given the list of what it meets on each turn; [None] is a list that ran
    out while the code was still waiting. *)

From S2P Require Import Prelude TonUtils Config Models Core Shard Wallets.
From Stdlib Require Import Ascii.

Local Open Scope string_scope.
Local Open Scope list_scope.
Local Open Scope Z_scope.

(** An account as the code reads it. *)
Record Account := { ac_IsActive : bool; ac_Balance : Z; ac_Status : AccountStatus }.

Section connection.
Context `{TL : TvmLib} `{GR : GoRuntime}.

(** ** Transactions of a block *)

Section transactions.
(** One page after an entry: the entries and whether there are more. *)
Context (GetBlockTransactionsV2 : option TransactionShortInfo →
                                  res (list TransactionShortInfo * bool)).

(** More entries after an empty page: [fetchedIDs[len(fetchedIDs)-1]]
    panics. *)
Fixpoint fetch_pages (fuel : nat) (txIDList : list TransactionShortInfo)
    (after : option TransactionShortInfo) : option (res (list TransactionShortInfo)) :=
  match fuel with
  | O => None
  | S fuel =>
      match GetBlockTransactionsV2 after with
      | Ok (fetchedIDs, more) =>
          if (more : bool) then
            match last fetchedIDs with
            | None => Some Panic
            | Some id => fetch_pages fuel (txIDList ++ fetchedIDs) (Some id)
            end
          else Some (Ok (txIDList ++ fetchedIDs))
      | Err e => Some (Err e)
      | Panic => Some Panic
      | Fatal => Some Fatal
      end
  end.

Definition connection_GetTransactionIDsFromBlock (fuel : nat)
    : option (res (list TransactionShortInfo)) :=
  r ← fetch_pages fuel [] None; Some (res_map (sort_Slice ti_LT) r).
End transactions.

(** [byte(blockID.Workchain)] *)
Definition connection_GetTransactionFromBlock
    (GetTransaction : BlockIDExt → tonaddr → Z → res (Transaction tonaddr Cell))
    (blockID : option BlockIDExt) (txID : TransactionShortInfo) : res (Transaction tonaddr Cell) :=
  match blockID with
  | None => Panic
  | Some b => GetTransaction b (NewAddress 0 (blk_Workchain b `mod` 256) (ti_Account txID)) (ti_LT txID)
  end.

(** ** Accounts *)

Section accounts.
Context (CurrentMasterchainInfo : res BlockIDExt).
Context (GetAccount : BlockIDExt → tonaddr → res Account).
Context (LookupBlock : Z → Z → Z → res BlockIDExt).

(** [connection.GetAccount]; [block.SeqNo-1] is a [uint32]. *)
Definition connection_GetAccount (block : BlockIDExt) (addr : tonaddr) : res Account :=
  match GetAccount block addr with
  | Err e =>
      if isNotReadyError e then
        let! prevBlock := LookupBlock (blk_Workchain block) (blk_Shard block)
                            (wrap32 (blk_SeqNo block - 1)) in
        GetAccount prevBlock addr
      else Err e
  | r => r
  end.

Definition connection_GetAccountCurrentState (address : tonaddr) : res (Z * AccountStatus) :=
  let! masterID := CurrentMasterchainInfo in
  let! account := connection_GetAccount masterID address in
  if ac_IsActive account then Ok (ac_Balance account, ac_Status account)
  else Ok (0, AccountStatusNonExist).
End accounts.

(** ** Waiting

    One turn: [None] when the context is done, else the call's answer. *)

Fixpoint connection_WaitStatus (turns : list (option (res (Z * AccountStatus))))
    (status : AccountStatus) : option (res unit) :=
  match turns with
  | [] => None
  | None :: _ => Some (Err ETimeoutExceeded)
  | Some (Ok (_, st)) :: turns =>
      if decide (st = status) then Some (Ok tt) else connection_WaitStatus turns status
  | Some (Err e) :: _ => Some (Err e)
  | Some Panic :: _ => Some Panic
  | Some Fatal :: _ => Some Fatal
  end.

Fixpoint connection_RunGetMethod (turns : list (option (res (list StackValue))))
    : option (res (list StackValue)) :=
  match turns with
  | [] => None
  | None :: _ => Some (Err ETimeoutExceeded)
  | Some (Err e) :: turns =>
      if isNotReadyError e then connection_RunGetMethod turns else Some (Err e)
  | Some r :: _ => Some r
  end.

(** [connection.GetLastWalletData]: in the current master block. *)
Definition connection_GetLastWalletData (CurrentMasterchainInfo : res BlockIDExt)
    (GetWalletData : BlockIDExt → res (list StackValue)) : res (list StackValue) :=
  let! masterID := CurrentMasterchainInfo in GetWalletData masterID.

(** [connection.GetWalletData] of what [RunGetMethod] returned. *)
Definition connection_GetWalletData (r : res (list StackValue)) : res (list StackValue) :=
  match r with
  | Err e =>
      if Contains (error_text e) "contract is not initialized" then Err e
      else Err (EText "get wallet data error")
  | Ok stack => if decide (length stack ≠ 4%nat) then Err (EText "invalid stack size") else Ok stack
  | r => r
  end.

(** ** Wallets from the seed *)

Context `{TW : !TonWalletLib} `{WL : WalletLib}.

(** [w.Address().Data()[0]] *)
Definition connection_GenerateWallet (seed : string) (v : Version) : res (TonWallet * Z * Z) :=
  let! w := of_option (ELib "seed") (FromSeed (Split " "%char seed) v) in
  match addr_Data (w_Address w) with
  | [] => Panic
  | b :: _ => Ok (w, b, wrap32 DefaultSubwallet)
  end.

Definition connection_GenerateHighloadWallet (seed : string) : res (TonWallet * Z * Z) :=
  connection_GenerateWallet seed HighloadV2R2.

(** ** Time *)

(** The node answers in seconds. *)
Definition getCurrentNodeTime (GetTime : res Z) : res Z :=
  let! t := GetTime in Ok (time_Unix t).

(** [isTimeSynced]: the local time before and after the call. *)
Definition isTimeSynced (prevTime nextTime : Z) (GetTime : res Z) (cutoff : Z) : res bool :=
  let! nodeTime := getCurrentNodeTime GetTime in
  let midTime := prevTime + time_Sub nextTime prevTime `quot` 2 in
  let nodeTimeShift := time_Sub midTime nodeTime in
  Ok (negb (bool_decide (nodeTimeShift > cutoff) || bool_decide (nodeTimeShift < - cutoff))).

Definition NewConnection (prevTime nextTime : Z) (GetTime : res Z) : res unit :=
  match isTimeSynced prevTime nextTime GetTime AllowableServiceToNodeTimeDiff with
  | Ok true => Ok tt
  | Ok false | Err _ => Fatal
  | Panic => Panic
  | Fatal => Fatal
  end.

(** ** What the connection passes on

    These calls are the client's, unchanged: the processor sends through the
    first, the tracker reads the master chain through the last three. *)

Definition connection_SendExternalMessage {S}
    (client_SendExternalMessage : ExternalMessage tonaddr Cell → ST S unit)
    (msg : ExternalMessage tonaddr Cell) : ST S unit := client_SendExternalMessage msg.

Definition connection_ListTransactions
    (client_ListTransactions : tonaddr → Z → Z → list Z → res (list (Transaction tonaddr Cell)))
    (addr : tonaddr) (num lt : Z) (txHash : list Z) : res (list (Transaction tonaddr Cell)) :=
  client_ListTransactions addr num lt txHash.

Definition connection_WaitNextMasterBlock
    (client_WaitNextMasterBlock : option BlockIDExt → res BlockIDExt)
    (master : option BlockIDExt) : res BlockIDExt := client_WaitNextMasterBlock master.

Definition connection_CurrentMasterchainInfo (client_CurrentMasterchainInfo : res BlockIDExt)
    : res BlockIDExt := client_CurrentMasterchainInfo.

Definition connection_GetMasterchainInfo (client_GetMasterchainInfo : res BlockIDExt)
    : res BlockIDExt := client_GetMasterchainInfo.

(** ** The connection as the blockchain of the core

    What the client answers, during one pass of the code that uses it; a list
    of turns is what a waiting loop meets until its context expires. *)

Record Client := {
  cl_GetBlockTransactionsV2 : option BlockIDExt → option TransactionShortInfo →
                              res (list TransactionShortInfo * bool);
  cl_GetTransaction : BlockIDExt → tonaddr → Z → res (Transaction tonaddr Cell);
  cl_CurrentMasterchainInfo : res BlockIDExt;
  cl_GetAccount : BlockIDExt → tonaddr → res Account;
  cl_LookupBlock : Z → Z → Z → res BlockIDExt;
  cl_RunGetMethod : option BlockIDExt → tonaddr → string → list (option (res (list StackValue)));
  cl_account_turns : tonaddr → list (option (res (Z * AccountStatus)));
  cl_GetJettonWallet : tonaddr → tonaddr → res tonaddr;
}.

Definition within {A} (o : option (res A)) : res A := default (Err ETimeoutExceeded) o.

(** [pages]: fuel for the pages of a block. *)
Definition connection_ops (pages : nat) (client : Client) : Blockchain :=
  let get_wallet_data addr block := connection_GetWalletData
    (within (connection_RunGetMethod (cl_RunGetMethod client block addr "get_wallet_data"))) in {|
  GetTransactionIDsFromBlock block :=
    within (connection_GetTransactionIDsFromBlock (cl_GetBlockTransactionsV2 client block) pages);
  GetTransactionFromBlock := connection_GetTransactionFromBlock (cl_GetTransaction client);
  GenerateWallet := connection_GenerateWallet;
  GenerateHighloadWallet := connection_GenerateHighloadWallet;
  GetAccountCurrentState := connection_GetAccountCurrentState
                              (connection_CurrentMasterchainInfo (cl_CurrentMasterchainInfo client))
                              (cl_GetAccount client) (cl_LookupBlock client);
  GetWalletData := get_wallet_data;
  GetLastWalletData addr := connection_GetLastWalletData
                              (connection_CurrentMasterchainInfo (cl_CurrentMasterchainInfo client))
                              (λ masterID, get_wallet_data addr (Some masterID));
  JettonClient_GetJettonWallet := cl_GetJettonWallet client;
  WaitStatus addr status := within (connection_WaitStatus (cl_account_turns client addr) status);
|}.
End connection.

(** ** Theorems *)

Section theorems.
Context `{GR : GoRuntime}.

(** The server lists a block in pages: [paged f after l] when the entries
    after the entry [after] are [l]. *)
Inductive paged (f : option TransactionShortInfo → res (list TransactionShortInfo * bool))
    : option TransactionShortInfo → list TransactionShortInfo → nat → Prop :=
| paged_last after l : f after = Ok (l, false) → paged f after l 1
| paged_more after page id l n :
    f after = Ok (page, true) → last page = Some id → paged f (Some id) l n →
    paged f after (page ++ l) (S n).

(** All the transactions of a block are read, whatever the pages, none
    twice, and come back in the order of their logical time. *)
Theorem GetTransactionIDs_complete f l n fuel :
  paged f None l n → (n ≤ fuel)%nat →
  ∃ l', connection_GetTransactionIDsFromBlock f fuel = Some (Ok l') ∧ l' ≡ₚ l ∧
        StronglySorted (λ a b, ti_LT a ≤ ti_LT b) l'.
Proof.
  intros Hp Hf. assert (∀ acc, fetch_pages f fuel acc None = Some (Ok (acc ++ l))) as Hfetch.
  { revert fuel Hf. induction Hp as [after l H|after page id l n H Hl _ IH];
      intros [|fuel] Hf acc; try lia; cbn [fetch_pages]; rewrite H; [done|].
    rewrite Hl, IH by lia. by rewrite app_assoc. }
  exists (sort_Slice ti_LT l). unfold connection_GetTransactionIDsFromBlock.
  rewrite Hfetch. simpl. split_and!; [done|apply sort_Slice_perm|apply sort_Slice_sorted].
Qed.

(** The service starts only when its clock is close to the node's: the
    middle of the request is within the allowed difference of the node time. *)
Theorem NewConnection_synced prev next t :
  prev ≤ next ≤ prev + max_int64 → Z.abs (prev + (next - prev) / 2 - time_Unix t) ≤ max_int64 →
  NewConnection prev next (Ok t) = Ok tt ↔
  Z.abs (prev + (next - prev) / 2 - time_Unix t) ≤ AllowableServiceToNodeTimeDiff.
Proof.
  intros Hn Hs. unfold NewConnection, isTimeSynced. simpl.
  replace (time_Sub next prev) with (next - prev) by (unfold time_Sub, min_int64, max_int64 in *; lia).
  rewrite Z.quot_div_nonneg by lia.
  replace (time_Sub (prev + (next - prev) / 2) (time_Unix t))
    with (prev + (next - prev) / 2 - time_Unix t)
    by (unfold time_Sub, min_int64, max_int64 in *; lia).
  generalize (prev + (next - prev) / 2 - time_Unix t) as z. intros z.
  assert (0 ≤ AllowableServiceToNodeTimeDiff) by done.
  repeat case_bool_decide; simpl; split; intros; try done; lia.
Qed.
End theorems.
