(* ===== verification/Incomes.v ===== *)
(** * The incomes of a TON deposit, from the server's pages to the table

    What the scanner must record for a deposit, said without the scanner: the
    payments among the transactions of the deposit's account, in order. The
    theorem composes the connection, the grouping, the decoding and the saving. *)

From S2P Require Import Prelude TonUtils Config Models Core Db AddressBook Repository.
From S2P Require Import WithdrawalRepository Ledger BlockScanner BlockScannerFacts Saving Shard Blockchain.

Local Open Scope string_scope.
Local Open Scope list_scope.
Local Open Scope Z_scope.

Section incomes.
Context `{TL : TvmLib} `{UL : UuidLib} `{GR : GoRuntime} `{PG : PgLib} `{WL : WalletLib}.
Context `{TW : !TonWalletLib} {O : Type}.
Context (ab : AddressBook) (ws : Wallet) (config : Config).

(** ** The specification *)

(** The bytes and the workchain of who pays, unless it is an address of the
    processor. *)
Definition payer (m : InternalMessage tonaddr Cell) : option (list Z * option Z) :=
  match im_SrcAddr m with
  | Some s =>
      if decide (addr_Type s = StdAddress) then
        a ← mk_bytes 32 (addr_Data s);
        if decide (GetWalletType ab a = Ok None) then Some (ToBytes a, Some (addr_Workchain s))
        else None
      else Some (ToBytes (zero_bytes 32), None)
  | None => Some (ToBytes (zero_bytes 32), None)
  end.

(** The row of a payment to the deposit [a]. *)
Definition message_row (a : Address) (m : InternalMessage tonaddr Cell) : option external_income_row :=
  p ← payer m;
  Some {| xi_lt := im_CreatedLT m; xi_utime := time_Unix (im_CreatedAt m);
          xi_payer_workchain := p.2; xi_deposit_address := a; xi_payer_address := Some p.1;
          xi_amount := im_Amount m; xi_comment := im_Comment m |}.

Definition payment_row (a : Address) (tx : Transaction tonaddr Cell) : option external_income_row :=
  match tx_In tx with Some (MsgTypeInternal m) => message_row a m | _ => None end.

(** What the chain guarantees of a transaction of the account [a]: the
    message it receives is addressed to [a], and those it sends come from [a]. *)
Definition of_account (a : Address) (tx : Transaction tonaddr Cell) : Prop :=
  (∀ m, tx_In tx = Some (MsgTypeInternal m) → AddressFromTonutilsAddress (im_DstAddr m) = Ok a) ∧
  (∀ ms m, out_messages tx = Ok ms → MsgTypeInternal m ∈ ms →
     AddressFromTonutilsAddress (im_SrcAddr m) = Ok a).

(** ** From transactions to events *)

Definition income_row (i : ExternalIncome) : external_income_row := {|
  xi_lt := ei_Lt i; xi_utime := time_Unix (ei_Utime i); xi_payer_workchain := ei_FromWorkchain i;
  xi_deposit_address := ei_To i; xi_payer_address := ei_From i; xi_amount := ei_Amount i;
  xi_comment := ei_Comment i |}.

Lemma deposit_out_incomes dst ms e :
  for_res (deposit_out ab dst) no_events ms = Ok e → ExternalIncomes e = [].
Proof.
  apply (for_res_inv (λ _ e, ExternalIncomes e = [])); [done|].
  intros done m e1 e2 _ He H. destruct m as [m| |]; try done.
  apply res_bind_Ok in H as (t & _ & H). case_decide; [injection H as <-; simpl; by rewrite He|].
  do 2 apply res_bind_Ok in H as (? & _ & H). by injection H as <-.
Qed.

Lemma deposit_in_incomes a m e :
  processTonDepositWalletInternalInMsg ab m = Ok e → AddressFromTonutilsAddress (im_DstAddr m) = Ok a →
  map income_row (ExternalIncomes e) = option_list (message_row a m).
Proof.
  unfold processTonDepositWalletInternalInMsg, message_row. intros H Ha. rewrite Ha in H. simpl in H.
  apply res_bind_Ok in H as (t & Ht & H). apply res_bind_Ok in H as ([[from known] wc] & Hk & H).
  unfold payer. destruct (im_SrcAddr m) as [s|].
  - injection Ht as <-. case_decide as Hs.
    + unfold AddressFromTonutilsAddress in Hk. rewrite decide_False in Hk by tauto.
      unfold AddressFromBytes in Hk. destruct (mk_bytes 32 (addr_Data s)) as [b|]; [|done]. simpl in Hk |- *.
      apply res_bind_Ok in Hk as (o & Ho & Hk). injection Hk as <- <- <-. rewrite Ho.
      destruct o as [o|]; simpl in H; injection H as <-; [by rewrite decide_False|by rewrite decide_True].
    + injection Hk as <- <- <-. by injection H as <-.
  - case_decide; [done|]. injection Hk as <- <- <-. by injection H as <-.
Qed.

Lemma deposit_tx_incomes a tx e :
  processTonDepositWalletTX ab tx = Ok e → of_account a tx →
  map income_row (ExternalIncomes e) = option_list (payment_row a tx).
Proof.
  unfold processTonDepositWalletTX. intros H [Hin _].
  destruct (tx_In tx) as [m|] eqn:Em; [|done].
  replace (isTxSuccessful tx) with true in H by (unfold isTxSuccessful; by destruct (tx_Description tx)).
  simpl in H. destruct m as [m|m|]; [| |done].
  - apply res_bind_Ok in H as (outs & _ & H). case_decide; [done|].
    eapply deposit_in_incomes in H; [|by apply Hin]. rewrite H. unfold payment_row. by rewrite Em.
  - apply res_bind_Ok in H as (d & _ & H). apply res_bind_Ok in H as (ms & _ & H).
    apply deposit_out_incomes in H. unfold payment_row. by rewrite Em, H.
Qed.

Lemma deposit_incomes a g e :
  processTonDepositWalletTXs ab g = Ok e → Forall (of_account a) (ts_Transactions g) →
  map income_row (ExternalIncomes e) = omap (payment_row a) (ts_Transactions g).
Proof.
  unfold processTonDepositWalletTXs. intros H Ha. revert H.
  apply (for_res_inv (λ done e, map income_row (ExternalIncomes e) = omap (payment_row a) done)); [done|].
  intros done tx e1 e2 Hin He (e' & Htx & [= <-])%res_bind_Ok. rewrite Forall_forall in Ha.
  eapply deposit_tx_incomes in Htx; [|by apply Ha]. simpl. by rewrite map_app, He, Htx, omap_app.
Qed.

(** What the other accounts of the processor record is not for [a]. *)
Definition for_address (a : Address) (e : Events) : Prop := ∀ i, i ∈ ExternalIncomes e → ei_To i = a.

Lemma for_address_app a e1 e2 : for_address a e1 → for_address a e2 → for_address a (Append e1 e2).
Proof. intros H1 H2 i [?|?]%elem_of_app; auto. Qed.

Lemma for_address_nil a e : ExternalIncomes e = [] → for_address a e.
Proof. intros H i. rewrite H. set_solver. Qed.

Lemma hot_message_incomes m e : processTonHotWalletProxyMsg ab m = Ok e → ExternalIncomes e = [].
Proof.
  unfold processTonHotWalletProxyMsg. intros H.
  do 4 apply res_bind_Ok in H as (? & _ & H). case_decide; [|by injection H as <-].
  do 2 apply res_bind_Ok in H as (? & _ & H). by injection H as <-.
Qed.

Lemma hot_tx_incomes tx e : processTonHotWalletTX ab tx = Ok e → ExternalIncomes e = [].
Proof.
  unfold processTonHotWalletTX. destruct (tx_In tx) as [[m|m|]|]; try done; intros H.
  - unfold processTonHotWalletInternalInMsg in H. do 3 apply res_bind_Ok in H as (? & _ & H).
    repeat case_match; simplify_eq; try done.
    all: do 2 apply res_bind_Ok in H as (? & _ & H); case_decide; by injection H as <-.
  - apply res_bind_Ok in H as ([[u l]|] & _ & H); [|done]. apply res_bind_Ok in H as (ms & _ & H).
    apply res_bind_Ok in H as ([ev addrs] & Hev & H). apply res_bind_Ok in H as (fl & _ & H).
    injection H as <-. simpl. rewrite app_nil_r. revert Hev.
    apply (for_res_inv (λ _ acc, ExternalIncomes acc.1 = [])); [done|].
    intros done m' [e1 s1] [e2 s2] _ He Ho. simpl in He. unfold hot_wallet_out in Ho.
    destruct m' as [m'| |]; try done. do 2 apply res_bind_Ok in Ho as (? & _ & Ho).
    repeat case_match; simplify_eq/=; try (by rewrite He); try done.
    all: first
      [ apply res_bind_Ok in Ho as (? & Hp & Ho); injection Ho as <- <-; simpl; rewrite He;
        unfold res_wrap in Hp; case_match; simplify_eq; by eapply hot_message_incomes
      | do 2 apply res_bind_Ok in Ho as (? & _ & Ho); injection Ho as <- <-; simpl; by rewrite He ].
Qed.

Lemma hot_group_incomes g e : processTonHotWalletTXs ab g = Ok e → ExternalIncomes e = [].
Proof.
  apply (for_res_inv (λ _ e, ExternalIncomes e = [])); [done|].
  intros done tx e1 e2 _ He (e' & Htx%hot_tx_incomes & [= <-])%res_bind_Ok. simpl. by rewrite He, Htx.
Qed.

Lemma jetton_out_for_address a tx acc :
  of_account a tx → processJettonDepositOutMsgs ab tx = Ok acc → for_address a acc.1.1.
Proof.
  intros [_ Hout] (ms & Hms & H)%res_bind_Ok. specialize (Hout ms). revert H.
  apply (for_res_inv (λ _ acc, for_address a acc.1.1)); [by apply for_address_nil|].
  intros done m [[e1 k] u] acc' Hin He H. simpl in He. destruct m as [m| |]; simpl in H; [|by simplify_eq/=..].
  apply res_bind_Ok in H as (src & Hsrc & H). rewrite (Hout m Hms Hin) in Hsrc. injection Hsrc as <-.
  destruct (decodeJettonTransferNotification _) as [n| | |]; try by simplify_eq/=.
  apply res_bind_Ok in H as ([t|] & _ & H); [by simplify_eq/=|].
  apply res_bind_Ok in H as (dst & _ & H). apply res_bind_Ok in H as ([o|] & _ & H); [|done].
  case_decide; [by simplify_eq/=|]. destruct (sender_source _). injection H as <-. simpl.
  apply for_address_app; [done|]. by intros i ->%list_elem_of_singleton.
Qed.

Lemma jetton_in_incomes tx acc : processJettonDepositInMsg ab tx = Ok acc → ExternalIncomes acc.1.1 = [].
Proof.
  unfold processJettonDepositInMsg. intros H. destruct (tx_In tx) as [[m| |]|]; try by simplify_eq/=.
  apply res_bind_Ok in H as (dst & _ & H). destruct (DecodeJettonTransfer _); try by simplify_eq/=.
  case_match; [by simplify_eq/=|]. apply res_bind_Ok in H as (outs & _ & H). case_decide; [done|].
  apply res_bind_Ok in H as (t & _ & H). case_decide; [by simplify_eq/=|].
  do 2 apply res_bind_Ok in H as (? & _ & H). by simplify_eq/=.
Qed.

Lemma jetton_group_for_address g blk prv e :
  processJettonDepositWalletTXs ab ws g blk prv = Ok e →
  Forall (of_account (ts_Address g)) (ts_Transactions g) → for_address (ts_Address g) e.
Proof.
  intros (p & Hp & H)%res_bind_Ok Ha. rewrite Forall_forall in Ha.
  assert (for_address (ts_Address g) (jp_events p)) as Hf.
  { revert Hp. apply (for_res_inv (λ _ p, for_address (ts_Address g) (jp_events p)));
      [by apply for_address_nil|].
    intros done tx p1 p2 Hin Hp1 ([[eo k] u] & Ho & Hx)%res_bind_Ok.
    apply res_bind_Ok in Hx as ([[ei t] v] & Hi & [= <-]). simpl.
    apply jetton_out_for_address with (a := ts_Address g) in Ho; [|by apply Ha].
    apply jetton_in_incomes in Hi. repeat apply for_address_app; try done. by apply for_address_nil. }
  apply res_bind_Ok in H as (z & _ & H). case_decide; injection H as <-; [|done].
  apply for_address_app; [done|]. intros i Hi. unfold convertUnknownJettonTxs in Hi. simpl in Hi.
  apply elem_of_app in Hi as [(tx & -> & _)%list_elem_of_fmap|Hi]; [done|].
  destruct (jp_unknownTransactions p); [by apply elem_of_nil in Hi|].
  by apply list_elem_of_singleton in Hi as ->.
Qed.

(** The incomes of [a] among those of a list. *)
Definition incomes_of (a : Address) (l : list ExternalIncome) : list external_income_row :=
  filter (λ r, xi_deposit_address r = a) (map income_row l).

Lemma incomes_of_app a l1 l2 : incomes_of a (l1 ++ l2) = incomes_of a l1 ++ incomes_of a l2.
Proof. unfold incomes_of. by rewrite map_app, filter_app. Qed.

Lemma incomes_of_other a b l : (∀ i, i ∈ l → ei_To i = b) → b ≠ a → incomes_of a l = [].
Proof.
  intros H Hb. unfold incomes_of. induction l as [|i l IH]; [done|]. simpl. rewrite filter_cons_False.
  - apply IH. intros j Hj. apply H. by apply list_elem_of_further.
  - simpl. rewrite (H i); [done|apply list_elem_of_here].
Qed.

Lemma payment_rows_address a l : Forall (λ r, xi_deposit_address r = a) (omap (payment_row a) l).
Proof.
  apply Forall_forall. intros r (tx & _ & H)%list_elem_of_omap. unfold payment_row, message_row in H.
  destruct (tx_In tx) as [[m| |]|]; try done. destruct (payer m); [|done]. by injection H as <-.
Qed.

Lemma group_for_address h g e :
  process_group ab ws h g = Ok e → Forall (of_account (ts_Address g)) (ts_Transactions g) →
  for_address (ts_Address g) e.
Proof.
  unfold process_group. intros H Ha.
  destruct (ts_WalletType g) as [[]|]; try (injection H as <-; by apply for_address_nil).
  - apply for_address_nil. by eapply hot_group_incomes.
  - intros i Hi. apply (deposit_incomes (ts_Address g)) in H; [|done].
    pose proof (payment_rows_address (ts_Address g) (ts_Transactions g)) as Hall.
    rewrite <- H, Forall_forall in Hall. apply (Hall (income_row i)), list_elem_of_fmap_2, Hi.
  - by eapply jetton_group_for_address.
Qed.

Lemma group_incomes a h g e :
  process_group ab ws h g = Ok e → Forall (of_account (ts_Address g)) (ts_Transactions g) →
  GetWalletType ab (ts_Address g) = Ok (ts_WalletType g) →
  GetWalletType ab a = Ok (Some TonDepositWallet) →
  incomes_of a (ExternalIncomes e) =
    if decide (ts_Address g = a) then omap (payment_row a) (ts_Transactions g) else [].
Proof.
  intros H Ha Hg Hta. case_decide as He.
  - unfold process_group in H. rewrite He in *. rewrite Hta in Hg. injection Hg as Hg. rewrite <- Hg in H.
    apply (deposit_incomes a) in H; [|done]. unfold incomes_of. rewrite H.
    apply filter_keep. intros r Hr.
    pose proof (payment_rows_address a (ts_Transactions g)) as Hall. rewrite Forall_forall in Hall. auto.
  - eapply incomes_of_other; [by eapply group_for_address|done].
Qed.

Lemma block_incomes a h gs e :
  processTXs ab ws gs h = Ok e →
  (∀ g, g ∈ gs → Forall (of_account (ts_Address g)) (ts_Transactions g) ∧
     GetWalletType ab (ts_Address g) = Ok (ts_WalletType g)) →
  GetWalletType ab a = Ok (Some TonDepositWallet) →
  incomes_of a (ExternalIncomes (be_Events e)) =
    omap (payment_row a) (concat (map ts_Transactions (filter (λ g, ts_Address g = a) gs))).
Proof.
  intros (ev & H & [= <-])%res_bind_Ok Hg Ha. simpl. revert H.
  apply (for_res_inv (λ done ev, incomes_of a (ExternalIncomes ev) =
    omap (payment_row a) (concat (map ts_Transactions (filter (λ g, ts_Address g = a) done))))); [done|].
  intros done g e1 e2 Hin He (e' & Hx & [= <-])%res_bind_Ok. destruct (Hg g Hin) as [Hacc Ht].
  apply (group_incomes a) in Hx; [|done..]. simpl. rewrite incomes_of_app, He, Hx, filter_app.
  rewrite map_app, concat_app, omap_app. f_equal. rewrite filter_cons.
  destruct (decide (ts_Address g = a)); simpl; [by rewrite app_nil_r|done].
Qed.

(** One group at most has the address [a]. *)
Lemma groups_at a gs :
  NoDup (map ts_Address gs) →
  filter (λ g, ts_Address g = a) gs = [] ∨ ∃ g, filter (λ g, ts_Address g = a) gs = [g].
Proof.
  induction gs as [|g gs IH]; intros Hn; [by left|]. simpl in Hn. apply NoDup_cons in Hn as [Hg Hn].
  rewrite filter_cons. case_decide as Hd; [|auto]. right. exists g. f_equal.
  destruct (filter _ gs) as [|g' l] eqn:E; [done|].
  assert (g' ∈ filter (λ g, ts_Address g = a) gs) as [Hd' Hin]%list_elem_of_filter
    by (rewrite E; apply list_elem_of_here).
  destruct Hg. rewrite Hd, <- Hd'. by apply list_elem_of_fmap_2.
Qed.

(** The transactions of a group are those of its account. *)
Lemma group_of_account bc blk x ids txs :
  (∀ id x tx, id ∈ ids → ti_Account id = Value x → GetTransactionFromBlock bc blk id = Ok tx →
     of_account x tx) →
  Forall2 (λ id tx, GetTransactionFromBlock bc blk id = Ok tx) (ids_of x ids) txs →
  Forall (of_account x) txs.
Proof.
  intros Hacc HF. apply Forall_forall. intros tx Htx.
  apply list_elem_of_lookup in Htx as [i Hi]. eapply Forall2_lookup_r in HF as (id & Hid & Hget); [|done].
  apply list_elem_of_lookup_2, list_elem_of_filter in Hid as [Hid1 Hid2]. by eapply Hacc.
Qed.

(** What reading a block yields for the deposit [a]. *)
Lemma parsed_incomes bc a b h ids e :
  sb_BlockIDExt h = Some b → GetTransactionIDsFromBlock bc (Some b) = Ok ids →
  GetWalletType ab a = Ok (Some TonDepositWallet) →
  (∀ id x tx, id ∈ ids → ti_Account id = Value x → GetTransactionFromBlock bc (Some b) id = Ok tx →
     of_account x tx) →
  parse_block ab ws bc h = Ok e →
  ∃ txs, Forall2 (λ id tx, GetTransactionFromBlock bc (Some b) id = Ok tx) (ids_of a ids) txs ∧
    incomes_of a (ExternalIncomes (be_Events e)) = omap (payment_row a) txs.
Proof.
  intros Hb Hids Ha Hacc H. unfold parse_block in H. rewrite Hb, Hids in H. simpl in H.
  apply res_bind_Ok in H as (gs & Hgs & H). pose proof Hgs as (Hn & Hg & Hall)%filterTXs_groups.
  apply (block_incomes a) in H; [|intros g Hin|done].
  - destruct (groups_at a gs Hn) as [E|[g E]]; rewrite E in H; simpl in H.
    + exists []. split; [|exact H]. destruct (ids_of a ids) as [|id l] eqn:Ei; [done|].
      assert (id ∈ ids_of a ids) as [Hid Hin]%list_elem_of_filter by (rewrite Ei; apply list_elem_of_here).
      destruct (Hall id a Hin Hid) as (g & Hgin & Hga); [by eexists|].
      assert (g ∈ filter (λ g, ts_Address g = a) gs) as Hf by by apply list_elem_of_filter.
      rewrite E in Hf. by apply elem_of_nil in Hf.
    + assert (g ∈ filter (λ g, ts_Address g = a) gs) as [Hga Hin]%list_elem_of_filter
        by (rewrite E; apply list_elem_of_here).
      destruct (Hg g Hin) as [_ HF]. rewrite Hga in HF. rewrite app_nil_r in H. by exists (ts_Transactions g).
  - destruct (Hg g Hin) as [(t & Ht & Htt) HF]. split; [|congruence]. by eapply group_of_account.
Qed.

(** ** From events to the table *)

(** The other statements of a block leave the table alone. *)
Definition same_incomes (d d' : DB) : Prop := external_incomes d' = external_incomes d.
#[local] Instance same_incomes_preorder : PreOrder same_incomes.
Proof. split; [done|]. intros d1 d2 d3 H1 H2. unfold same_incomes in *. congruence. Qed.

Ltac same_table :=
  unfold SaveInternalIncome, ApplySendingConfirmations, UpdateInternalWithdrawal, UpdateExternalWithdrawal,
    ApplyJettonWithdrawalConfirmation, SaveBlock, update_external, update_processing, update_processed;
  repeat first
    [ progress intros
    | apply preserves_bind; [apply _| |]
    | apply preserves_each; [apply _|]
    | apply preserves_try
    | apply db_rel_query; apply _
    | apply db_rel_exec; [apply _|intros; inv_res; repeat case_match; simplify_eq/=; reflexivity]
    | apply preserves_lift; apply _ | apply preserves_ret; apply _ | apply preserves_fail; apply _
    | case_match ].

Lemma save_rest_same e :
  db_rel (O:=O) same_incomes (
    do! _ <- each_st SaveInternalIncome (InternalIncomes e);
    do! _ <- each_st ApplySendingConfirmations (SendingConfirmations e);
    do! _ <- each_st UpdateInternalWithdrawal (InternalWithdrawals e);
    do! _ <- each_st UpdateExternalWithdrawal (ExternalWithdrawals e);
    each_st ApplyJettonWithdrawalConfirmation (WithdrawalConfirmations e)).
Proof. same_table. Qed.

Lemma SaveBlock_same h : db_rel (O:=O) same_incomes (SaveBlock h).
Proof. same_table. Qed.

(** Nor do the lists of a block touch the table of blocks. *)
Definition same_blocks (d d' : DB) : Prop := block_data d' = block_data d.
#[local] Instance same_blocks_preorder : PreOrder same_blocks.
Proof. split; [done|]. intros d1 d2 d3 H1 H2. unfold same_blocks in *. congruence. Qed.

Lemma save_lists_blocks e : db_rel (O:=O) same_blocks (save_lists e).
Proof. unfold save_lists, SaveExternalIncome. same_table. Qed.

(** The row of a saved block. *)
Definition saved_row (h : ShardBlockHeader) (b : BlockIDExt) : block_row := {|
  bl_shard := blk_Shard b; bl_seqno := blk_SeqNo b; bl_gen_utime := time_Unix (sb_GenUtime h);
  bl_root_hash := blk_RootHash b; bl_file_hash := blk_FileHash b |}.

Lemma save_events_blocks e b (w w' : World O) :
  sb_BlockIDExt (be_Block e) = Some b → save_events e w = (Ok tt, w') →
  block_data (w_db w') = block_data (w_db w) ++ [saved_row (be_Block e) b].
Proof.
  intros Hb ([] & w1 & Hl & H)%st_bind_Ok. unfold SaveBlock in H. rewrite Hb in H.
  apply exec_Ok in H as (d & H & ->). apply res_bind_Ok in H as (t & [_ ->]%insert_unique_Ok & [= <-]).
  pose proof (save_lists_blocks (be_Events e) w) as [E _]. rewrite Hl in E. unfold same_blocks in E.
  simpl in *. by rewrite E.
Qed.

Lemma SaveExternalIncome_row i (w w' : World O) a :
  SaveExternalIncome i w = (Ok a, w') →
  external_incomes (w_db w') = external_incomes (w_db w) ++ [income_row i].
Proof.
  intros (d & H & ->)%exec_Ok. apply res_bind_Ok in H as (lt & [-> _]%bigint_Ok & H).
  unfold text_param in H. destruct (text_ok (ei_Comment i)); [|done]. by injection H as _ <-.
Qed.

Lemma each_income_rows l (w w' : World O) :
  each_st SaveExternalIncome l w = (Ok tt, w') →
  external_incomes (w_db w') = external_incomes (w_db w) ++ map income_row l.
Proof.
  unfold each_st. generalize tt at 1 as u. revert w. induction l as [|i l IH]; intros w u H.
  { injection H as _ <-. by rewrite app_nil_r. }
  apply st_bind_Ok in H as ([] & w1 & Hi%SaveExternalIncome_row & H).
  apply IH in H. by rewrite H, Hi, <- app_assoc.
Qed.

Lemma save_events_incomes e (w w' : World O) :
  save_events e w = (Ok tt, w') →
  external_incomes (w_db w') = external_incomes (w_db w) ++ map income_row (ExternalIncomes (be_Events e)).
Proof.
  intros H. apply st_bind_Ok in H as ([] & w2 & H & Hb).
  apply st_bind_Ok in H as ([] & w1 & Hs & Hr).
  pose proof (save_rest_same (be_Events e) w1) as [Er _]. rewrite Hr in Er.
  pose proof (SaveBlock_same (be_Block e) w2) as [Eb _]. rewrite Hb in Eb.
  unfold same_incomes in Er, Eb. simpl in Er, Eb. rewrite Eb, Er. by apply each_income_rows.
Qed.

(** ** The deposit's ledger *)

Context (notificators : list (incomeNotification → ST (World O) unit)).
Hypothesis publish_no_db : ∀ publish n, publish ∈ notificators → preserves no_db (publish n).

Lemma StronglySorted_filter {A} (R : A → A → Prop) (P : A → Prop) `{∀ x, Decision (P x)} l :
  StronglySorted R l → StronglySorted R (filter P l).
Proof.
  induction 1 as [|x l _ IH Hx]; [constructor|]. rewrite filter_cons. case_decide; [|done].
  constructor; [done|]. rewrite Forall_forall in Hx |- *. intros y [_ Hy]%list_elem_of_filter. auto.
Qed.

(** What processing a block does to the tables of incomes and of blocks:
    nothing, or it adds the payments to the deposit and the row of the block. *)
Lemma processed_incomes bc b h a (w w' : World O) r :
  sb_BlockIDExt h = Some b → GetWalletType ab a = Ok (Some TonDepositWallet) →
  (∀ ids id x tx, GetTransactionIDsFromBlock bc (Some b) = Ok ids → id ∈ ids → ti_Account id = Value x →
     GetTransactionFromBlock bc (Some b) id = Ok tx → of_account x tx) →
  processBlock ab ws bc config notificators h w = (r, w') →
  w_db w' = w_db w ∨
  ∃ ids txs new, GetTransactionIDsFromBlock bc (Some b) = Ok ids ∧
    Forall2 (λ id tx, GetTransactionFromBlock bc (Some b) id = Ok tx) (ids_of a ids) txs ∧
    block_data (w_db w') = block_data (w_db w) ++ [saved_row h b] ∧
    external_incomes (w_db w') = external_incomes (w_db w) ++ new ∧
    filter (λ r, xi_deposit_address r = a) new = omap (payment_row a) txs.
Proof.
  intros Hb Ha Hacc H.
  apply (processBlock_atomic ab ws bc config notificators publish_no_db) in H
    as [H|(_ & e & w1 & w2 & He & H1 & Hs & H2)]; [by left|right].
  pose proof He as (ids & Hids & _)%res_bind_Ok. rewrite Hb in Hids.
  pose proof (parse_block_header _ _ _ _ _ He) as Hh.
  eapply parsed_incomes in He as (txs & Htxs & Hi); [|done..|intros id x tx; by apply Hacc].
  exists ids, txs, (map income_row (ExternalIncomes (be_Events e))). rewrite H2, <- H1.
  split_and!; [done|done| | |done].
  - rewrite <- Hh in *. by apply save_events_blocks.
  - by apply save_events_incomes.
Qed.

(** C4. The incomes of a TON deposit are exact. The server lists a block in
    any pages; when the block has been processed through the connection, either
    nothing is stored, or the table of incomes has grown by rows of which those
    of the deposit are exactly the payments among the transactions of its
    account, each once, in the order of logical time, with the amount, the time,
    the comment and the payer of the message: no payment is lost, invented or
    counted twice. *)
Theorem ton_incomes_exact client pages n l b h a (w w' : World O) :
  paged (cl_GetBlockTransactionsV2 client (Some b)) None l n → (n ≤ pages)%nat →
  sb_BlockIDExt h = Some b → GetWalletType ab a = Ok (Some TonDepositWallet) →
  (∀ id x tx, id ∈ l → ti_Account id = Value x →
     GetTransactionFromBlock (connection_ops pages client) (Some b) id = Ok tx → of_account x tx) →
  processBlock ab ws (connection_ops pages client) config notificators h w = (Ok tt, w') →
  w_db w' = w_db w ∨
  ∃ ids txs new, ids ≡ₚ filter (λ id, ti_Account id = Value a) l ∧
    StronglySorted (λ x y, ti_LT x ≤ ti_LT y) ids ∧
    Forall2 (λ id tx, GetTransactionFromBlock (connection_ops pages client) (Some b) id = Ok tx) ids txs ∧
    external_incomes (w_db w') = external_incomes (w_db w) ++ new ∧
    filter (λ r, xi_deposit_address r = a) new = omap (payment_row a) txs.
Proof.
  intros Hp Hn Hb Ha Hacc H.
  destruct (GetTransactionIDs_complete _ _ _ _ Hp Hn) as (ids & Hids & Hperm & Hsort).
  assert (GetTransactionIDsFromBlock (connection_ops pages client) (Some b) = Ok ids) as Hget
    by (simpl; by rewrite Hids).
  eapply processed_incomes in H as [H|(ids' & txs & new & Hids' & Htxs & _ & Hnew & Hrows)];
    [by left|right|done|done|].
  - rewrite Hget in Hids'. injection Hids' as <-. exists (ids_of a ids), txs, new.
    split_and!; [| |done..].
    + unfold ids_of. by rewrite Hperm.
    + by apply StronglySorted_filter.
  - intros ids' id x tx Hids' Hin. rewrite Hget in Hids'. injection Hids' as <-.
    apply Hacc. by rewrite <- Hperm.
Qed.
End incomes.
