(* ===== verification/Acceptance.v ===== *)
(** * The scanner understands every batch of the processor

    [parseExternalMessage] gives up on a message of the hot wallet that pays
    an address twice, and a block with it is then left out. Here is why a batch
    of [buildWithdrawalMessages] never does that: the task queries, the addresses
    the batch already uses and the book together keep its addresses apart. *)

From S2P Require Import Prelude TonUtils Config Models Core Db AddressBook Repository.
From S2P Require Import WithdrawalRepository Ledger BlockScanner Protocol Tasks Messages Processor.

Local Open Scope string_scope.
Local Open Scope list_scope.
Local Open Scope Z_scope.

(** ** One message *)

Section message.
Context `{TL : TvmLib} `{UL : UuidLib} `{LW : !TvmLaws} `{ML : !MessageLaws} `{ALW : !AddrLaws}.
Abbreviation message := (WalletMessage tonaddr Cell).

(** The cell that holds a message of a batch. *)
Definition wraps (x : message) (c : Cell) : Prop :=
  ∃ sl im, LoadRef (BeginParse c) = Some sl ∧ LoadFromCell_message sl = Some im ∧
    carries (wm_Message x) im.

(** The address for which the scanner counts a message. *)
Definition counted (x : message) (a : Address) : Prop := ∀ c, wraps x c → batch_address c = Ok (Some a).

Definition no_transfer (body : option Cell) : Prop :=
  ∀ c, body = Some c → LoadFromCell_transfer (BeginParse c) = None.

Lemma plain_counted x a :
  AddressFromTonutilsAddress (Some (om_DstAddr (wm_Message x))) = Ok a →
  no_transfer (om_Body (wm_Message x)) → counted x a.
Proof.
  intros Ha Hn c (sl & im & Hsl & Him & Hdst & Hpay). unfold batch_address. rewrite Hsl. cbn [of_option res_bind].
  rewrite Him. cbn [of_option res_bind]. unfold DecodeJettonTransfer, payload_of. rewrite Hpay, Hdst.
  destruct (om_Body (wm_Message x)) as [b|]; cbn [of_option res_bind];
    [rewrite (Hn b) by done; cbn [of_option res_bind]|]; by rewrite Ha.
Qed.

Lemma transfer_counted x d r n f q comment body a :
  0 ≤ n → makeJettonTransferMessage d r n f q comment = Ok body → om_Body (wm_Message x) = Some body →
  AddressFromTonutilsAddress (Some d) = Ok a → counted x a.
Proof.
  intros Hn Hb Hx Ha c (sl & im & Hsl & Him & Hdst & Hpay). unfold batch_address. rewrite Hsl. cbn [of_option res_bind].
  rewrite Him. cbn [of_option res_bind]. rewrite Hx in Hpay. destruct (transfer_read_back _ _ _ _ _ _ _ Hn Hb im Hpay) as (tr & -> & _ & Hd & _).
  by rewrite Hd, Ha.
Qed.

Lemma comment_body s c : buildComment s = Ok c → no_transfer (Some c).
Proof.
  unfold buildComment, or_fatal. intros H x [= <-].
  destruct (EndCell _) as [b| | |] eqn:E; simplify_eq. by eapply comment_no_transfer.
Qed.

(** A message to a proxy, and what the proxy is to send. *)
Lemma to_proxy_Ok p m x : to_proxy p m = Ok x →
  om_DstAddr (wm_Message x) = px_address p ∧ no_transfer (om_Body (wm_Message x)) ∧
  ∃ b sl im, om_Body (wm_Message x) = Some b ∧ LoadRef (BeginParse b) = Some sl ∧
    LoadFromCell_message sl = Some im ∧ carries m im.
Proof.
  unfold to_proxy, or_fatal, must. intros (c & Hc & (b & Hb & [= <-])%res_bind_Ok)%res_bind_Ok.
  destruct (ToCell_message m) as [c'|] eqn:Ec; simplify_eq/=.
  destruct (EndCell [StoreRef c]) as [b'| | |] eqn:Eb; simplify_eq/=. split_and!; [done| |].
  - intros y [= <-]. by eapply ref_no_transfer.
  - destruct (load_ref_message _ _ _ Ec Eb) as (sl & im & H1 & H2 & H3). by exists b, sl, im.
Qed.

Lemma payment_counted `{TW : !TonWalletLib} (ws : Wallet) t m :
  0 ≤ et_Amount t → buildExternalWithdrawalMessage ws t = Ok m → counted m (et_Destination t).
Proof.
  intros Ha H. unfold buildExternalWithdrawalMessage in H. case_decide.
  - apply res_bind_Ok in H as (body & Hb & [= <-]). apply plain_counted; [apply AddressFromTonutilsAddress_Std|].
    by eapply comment_body.
  - destruct (JettonHotWallets ws !! et_Currency t) as [jw|]; [|done].
    apply res_bind_Ok in H as (body & Hb & [= <-]).
    by eapply transfer_counted; [exact Ha|exact Hb|done|apply AddressFromTonutilsAddress_Std].
Qed.
End message.

(** ** A list of messages *)

Section list.
Context `{TL : TvmLib} `{UL : UuidLib}.

(** The messages of a batch with pairwise different addresses are accepted. *)
Lemma batch_addresses_distinct cs addrs acc :
  Forall2 (λ c a, batch_address c = Ok (Some a)) cs addrs → NoDup addrs → (∀ a, a ∈ addrs → a ∉ acc) →
  batch_addresses acc cs = Ok (Some (list_to_set addrs ∪ acc)).
Proof.
  intros H. revert acc. induction H as [|c a cs addrs Hc _ IH]; intros acc Hn Ha; simpl.
  { do 2 f_equal. set_solver. }
  apply NoDup_cons in Hn as [Hna Hn]. rewrite Hc. simpl. rewrite decide_False by set_solver.
  rewrite IH; [do 2 f_equal; set_solver|done|set_solver].
Qed.

Lemma batch_understood xs addrs msg info :
  getHighLoadWalletExtMsgInfo msg = Ok info → Forall2 wraps xs (hi_Messages info) →
  Forall2 counted xs addrs → NoDup addrs →
  parseExternalMessage (Some msg) = Ok (Some (hi_UUID info, list_to_set addrs)).
Proof.
  intros Hi Hw Hc Hn. unfold parseExternalMessage. rewrite Hi. simpl.
  rewrite (batch_addresses_distinct _ addrs); [simpl; by rewrite (right_id_L ∅ (∪))| |done|set_solver].
  clear -Hw Hc. revert addrs Hc. induction Hw as [|x c xs cs Hx _ IH]; intros addrs Hc; inversion Hc; subst;
    constructor; auto.
Qed.
End list.

(** ** The wallets *)

Section wallets.
Context `{TL : TvmLib} (hot : tonaddr).

(** The proxy with the identifier [id] is at the address [a]. *)
Definition proxy_at (id : Z) (a : Address) : Prop :=
  ∀ p, NewJettonProxy id (Some hot) = Ok p → AddressFromTonutilsAddress (Some (px_address p)) = Ok a.

(** Wallets have different identifiers and addresses; the owner of jettons is
    the proxy with its identifier; a jetton deposit belongs to the proxy with its
    identifier, and to no other deposit. *)
Record wallets_sound (d : DB) : Prop := {
  ws_ids : NoDup (map tw_subwallet_id (ton_wallets d));
  ws_addresses : NoDup (map tw_address (ton_wallets d));
  ws_owner : ∀ t, t ∈ ton_wallets d → tw_type t = JettonOwner → proxy_at (tw_subwallet_id t) (tw_address t);
  ws_deposit : ∀ j, j ∈ jetton_wallets d → jw_type j = JettonDepositWallet →
    ∃ t, t ∈ ton_wallets d ∧ tw_subwallet_id t = jw_subwallet_id j ∧ tw_type t = JettonOwner;
  ws_deposits : ∀ j j', j ∈ jetton_wallets d → j' ∈ jetton_wallets d →
    jw_type j = JettonDepositWallet → jw_type j' = JettonDepositWallet →
    jw_subwallet_id j = jw_subwallet_id j' → j = j';
}.
End wallets.

(** ** The messages of the tasks *)

Section batch.
Context `{TL : TvmLib} `{UL : UuidLib} `{PG : PgLib} `{GR : GoRuntime} `{TW : !TonWalletLib} {O : Type}.
Context `{LW : !TvmLaws} `{ML : !MessageLaws} `{ALW : !AddrLaws}.
Context (config : Config) (book : option (gmap Address AddressInfo)) (bc : Blockchain) (ws : Wallet).
Context (Int63 : ST (World O) Z).
Abbreviation ab := (book_ops book).
Abbreviation hot := (hot_address ws).

Abbreviation address_of a := (AddressFromTonutilsAddress (Some a)).
Abbreviation type_of a := (ab_GetWalletType book a).

(** The wallets of the program are in the book, and no balance is negative. *)
Record wallets_known : Prop := {
  known_hot : ∃ h, address_of hot = Ok h ∧ type_of h = Ok (Some TonHotWallet);
  known_jetton : ∀ cur jw, JettonHotWallets ws !! cur = Some jw →
    ∃ a, address_of (jwal_Address jw) = Ok a ∧ type_of a = Ok (Some JettonHotWallet);
  known_balance : ∀ a n, GetLastJettonBalance ws a = Ok n → 0 ≤ n;
}.
Context (K : wallets_known).

(** The scanner can read what the chain makes of the message. *)
Definition readable (x : WalletMessage tonaddr Cell) : Prop := ∀ u acc im,
  carries (wm_Message x) im → ∃ acc', hot_wallet_out ab u acc (MsgTypeInternal im) = Ok acc'.

Definition understood (x : WalletMessage tonaddr Cell) (a : Address) : Prop := counted x a ∧ readable x.

(** A message that needs no decoding: to an outside address or a deposit. *)
Lemma plain_readable x a t :
  address_of (om_DstAddr (wm_Message x)) = Ok a → type_of a = Ok t →
  t = None ∨ t = Some TonDepositWallet → readable x.
Proof.
  intros Ha Ht Hcase u [e s] im [Hd Hp]. unfold hot_wallet_out. rewrite Hd, Ha. cbn [res_wrap res_bind].
  cbn [GetWalletTypeByTonutilsAddress book_ops]. unfold ab_GetWalletTypeByTonutilsAddress. rewrite Ha, Ht.
  destruct Hcase as [-> | ->]; by eexists.
Qed.

Lemma transfer_readable x a r n f q comment body d :
  address_of (om_DstAddr (wm_Message x)) = Ok a → type_of a = Ok (Some JettonHotWallet) → 0 ≤ n →
  makeJettonTransferMessage (ToTonutilsAddressStd 0 d) r n f q comment = Ok body →
  om_Body (wm_Message x) = Some body → readable x.
Proof.
  intros Ha Ht Hn Hb Hx u [e s] im [Hd Hp]. rewrite Hx in Hp. unfold hot_wallet_out. rewrite Hd, Ha.
  cbn [res_wrap res_bind]. cbn [GetWalletTypeByTonutilsAddress book_ops].
  unfold ab_GetWalletTypeByTonutilsAddress. rewrite Ha, Ht.
  destruct (transfer_read_back _ _ _ _ _ _ _ Hn Hb im Hp) as (tr & -> & _ & Htd & _).
  cbn [res_wrap res_bind]. rewrite Htd, AddressFromTonutilsAddress_Std. by eexists.
Qed.

(** What a proxy is told to send: jettons to the hot wallet, or TONs to it. *)
Definition to_hot (m : OutMessage tonaddr Cell) : Prop :=
  om_DstAddr m = hot ∨ ∃ body n f q c, 0 ≤ n ∧ makeJettonTransferMessage hot hot n f q c = Ok body ∧
    om_Body m = Some body.

Lemma proxied_understood p m x a :
  to_proxy p m = Ok x → address_of (px_address p) = Ok a → type_of a = Ok (Some JettonOwner) → to_hot m →
  understood x a.
Proof.
  intros (Hdst & Hn & b & sl & im & Hb & Hsl & Him & Hcd & Hcp)%to_proxy_Ok Ha Ht Hm. split.
  { apply plain_counted; [by rewrite Hdst|done]. }
  intros u [e s] im' [Hd Hp]. unfold hot_wallet_out. rewrite Hd, Hdst, Ha. cbn [res_wrap res_bind].
  cbn [GetWalletTypeByTonutilsAddress book_ops]. unfold ab_GetWalletTypeByTonutilsAddress. rewrite Ha, Ht.
  cbn [res_bind]. unfold processTonHotWalletProxyMsg. rewrite Hp, Hb. cbn [res_bind]. rewrite Hsl.
  cbn [of_option res_bind]. rewrite Him. cbn [of_option res_bind].
  destruct (known_hot K) as (h & Hh & Hht). destruct Hm as [Hm|(body & n & f & q & c & Hn0 & Hbody & Hm)].
  - cbn [GetWalletTypeByTonutilsAddress book_ops]. unfold ab_GetWalletTypeByTonutilsAddress.
    rewrite Hcd, Hm, Hh, Hht. by eexists.
  - assert (∃ t, GetWalletTypeByTonutilsAddress ab (im_DstAddr im) = Ok t) as [t ->].
    { simpl. unfold ab_GetWalletTypeByTonutilsAddress. case_match; by eexists. }
    cbn [res_bind]. case_decide; [|by eexists]. rewrite Hm in Hcp.
    destruct (transfer_read_back _ _ _ _ _ _ _ Hn0 Hbody im Hcp) as (tr & -> & _ & Htd & _).
    cbn [res_wrap res_bind]. rewrite Htd, Hh. by eexists.
Qed.

Lemma proxy_withdrawal_understood p jw f n c rnd x a :
  0 ≤ n → BuildJettonProxyWithdrawalMessage p jw hot f n c rnd = Ok x →
  address_of (px_address p) = Ok a → type_of a = Ok (Some JettonOwner) → understood x a.
Proof.
  intros Hn (body & Hb & H)%res_bind_Ok Ha Ht. eapply proxied_understood; [exact H|done..|].
  right. by eexists body, n, f, rnd, c.
Qed.

(** The message of a service withdrawal. *)
Lemma service_understood t (w w' : World O) ms sw :
  buildServiceWithdrawalMessage ab bc ws Int63 t w = (Ok (ms, sw), w') →
  (type_of (st_From t) = Ok (Some JettonOwner) → proxy_at hot (st_SubwalletID t) (st_From t)) →
  ms = [] ∨ ∃ x, ms = [x] ∧ understood x (st_From t).
Proof.
  intros H Hp. unfold buildServiceWithdrawalMessage in H. apply st_bind_Ok in H as (ty & w1 & Hty & H).
  injection Hty as Hty <-.
  apply (f_equal Ok) in Hty. change (type_of (st_From t) = Ok ty) in Hty. destruct ty as [[]|]; try done.
  - injection H as H _. unfold buildServiceFilling in H. do 3 apply res_bind_Ok in H as (? & _ & H).
    case_decide; [injection H as <- _; by left|right]. apply res_bind_Ok in H as (y & Hy & [= <- _]).
    exists y. split; [done|]. unfold buildTonFillMessage in Hy. apply res_bind_Ok in Hy as (c & Hc & [= <-]).
    split.
    + apply plain_counted; [apply AddressFromTonutilsAddress_Std|by eapply comment_body].
    + eapply plain_readable; [apply AddressFromTonutilsAddress_Std|exact Hty|by right].
  - specialize (Hp Hty). destruct (st_JettonMaster t) as [m|].
    + unfold buildServiceJettonWithdrawal in H. apply st_bind_Ok in H as (p & w2 & Hpx & H).
      injection Hpx as Hpx <-. do 2 apply st_bind_Ok in H as (? & ? & _ & H).
      apply st_bind_Ok in H as ([ty|] & ? & _ & H); [injection H as <- _ _; by left|].
      apply st_bind_Ok in H as (n & ? & Hn & H). injection Hn as Hn _. apply (known_balance K) in Hn.
      case_decide; [injection H as <- _ _; by left|right]. apply st_bind_Ok in H as (rnd & ? & _ & H).
      apply st_bind_Ok in H as (y & ? & Hy & H). injection Hy as Hy _. injection H as <- _ _. exists y.
      split; [done|]. by eapply proxy_withdrawal_understood; [exact Hn|exact Hy|apply Hp|].
    + injection H as H _. unfold buildServiceTonWithdrawal in H. apply res_bind_Ok in H as (p & Hpx & H).
      apply res_bind_Ok in H as ([bal st] & _ & H). case_decide; [injection H as <- _; by left|right].
      apply res_bind_Ok in H as (y & Hy & [= <- _]). exists y. split; [done|].
      apply res_bind_Ok in Hy as (c & _ & Hy). eapply proxied_understood; [exact Hy|by apply Hp|done|by left].
Qed.

(** The message of the sweep of a jetton deposit. *)
Lemma internal_understood t (w w' : World O) ms memo a :
  buildJettonInternalWithdrawalMessage config ws Int63 t w = (Ok (ms, memo), w') →
  proxy_at hot (it_SubwalletID t) a → type_of a = Ok (Some JettonOwner) →
  ms = [] ∨ ∃ x, ms = [x] ∧ understood x a.
Proof.
  intros H Hp Ht. unfold buildJettonInternalWithdrawalMessage in H. apply st_bind_Ok in H as (p & ? & Hpx & H).
  injection Hpx as Hpx _. apply st_bind_Ok in H as (n & ? & Hn & H). injection Hn as Hn _.
  apply (known_balance K) in Hn. destruct (cfg_Jettons config !! _) as [j|]; [|done].
  case_decide; [right|injection H as <- _ _; by left]. do 2 apply st_bind_Ok in H as (? & ? & _ & H).
  apply st_bind_Ok in H as (y & ? & Hy & H). injection Hy as Hy _. injection H as <- _ _. exists y.
  split; [done|]. by eapply proxy_withdrawal_understood; [exact Hn|exact Hy|apply Hp|].
Qed.

(** The message of a payment. *)
Lemma external_understood t m :
  0 ≤ et_Amount t → type_of (et_Destination t) = Ok None → buildExternalWithdrawalMessage ws t = Ok m →
  understood m (et_Destination t).
Proof.
  intros Ha Ht H. split; [by eapply payment_counted|]. unfold buildExternalWithdrawalMessage in H. case_decide.
  - apply res_bind_Ok in H as (body & _ & [= <-]).
    eapply plain_readable; [apply AddressFromTonutilsAddress_Std|exact Ht|by left].
  - destruct (JettonHotWallets ws !! et_Currency t) as [jw|] eqn:E; [|done].
    destruct (known_jetton K _ _ E) as (a & Haddr & Hty). apply res_bind_Ok in H as (body & Hb & [= <-]).
    by eapply transfer_readable; [exact Haddr|exact Hty|exact Ha|exact Hb|].
Qed.

(** ** The tables *)

(** A wallet from which something is to be moved: a service withdrawal is
    requested from it, or it owns a jetton deposit with an income. *)
Definition in_use (d : DB) (t : ton_wallet_row) : Prop :=
  tw_address t ∈ map sv_from_address (service_withdrawal_requests d) ∨
  ∃ j i, j ∈ jetton_wallets d ∧ jw_subwallet_id j = tw_subwallet_id t ∧
    i ∈ external_incomes d ∧ xi_deposit_address i = jw_address j.

(** What the tables have to say for a batch. The book may not know a deposit
    that is not in use, as one created after it was loaded. *)
Record tables_known (d : DB) : Prop := {
  tk_sound : wallets_sound hot d;
  tk_book : ∀ t, t ∈ ton_wallets d → in_use d t → type_of (tw_address t) = Ok (Some (tw_type t));
  tk_amounts : ∀ r, r ∈ withdrawal_requests d → 0 ≤ wr_amount r;
}.

(** They stay while a batch is built. *)
Definition same_wallets (d d' : DB) : Prop :=
  ton_wallets d' = ton_wallets d ∧ jetton_wallets d' = jetton_wallets d ∧
  withdrawal_requests d' = withdrawal_requests d ∧ external_incomes d' = external_incomes d ∧
  map sv_from_address (service_withdrawal_requests d') = map sv_from_address (service_withdrawal_requests d).
#[local] Instance same_wallets_preorder : PreOrder same_wallets.
Proof.
  split; [by intros d|]. intros d1 d2 d3 (E1 & E2 & E3 & E4 & E5) (F1 & F2 & F3 & F4 & F5).
  unfold same_wallets. by rewrite F1, F2, F3, F4, F5.
Qed.

Lemma tables_known_same d d' : same_wallets d d' → tables_known d → tables_known d'.
Proof.
  intros (E1 & E2 & E3 & E4 & E5) [[] Hb ?]. unfold in_use in Hb.
  by split; [split|..]; unfold in_use; rewrite ?E1, ?E2, ?E3, ?E4, ?E5.
Qed.

Hypothesis Int63_same : db_rel (O:=O) same_wallets Int63.
Abbreviation service_turn := (service_turn ab bc ws withdrawal_repo Int63).

Lemma service_turn_same b t : db_rel same_wallets (service_turn b t).
Proof.
  unfold Processor.service_turn, buildServiceWithdrawalMessage, buildServiceJettonWithdrawal.
  cbn [r_UpdateServiceWithdrawalRequest withdrawal_repo]. unfold UpdateServiceWithdrawalRequest. db_steps.
  apply db_rel_exec; [apply _|]. intros d x d' [= _ <-]. split_and!; [done..|]. simpl.
  unfold update_where. rewrite map_map. apply map_ext. intros r. by case_match.
Qed.

(** The proxy that has an identifier. *)
Definition owner_of (d : DB) (id : Z) : option Address :=
  tw_address <$> head (filter (λ t, tw_subwallet_id t = id) (ton_wallets d)).

Lemma owner_of_row d t : tables_known d → t ∈ ton_wallets d → owner_of d (tw_subwallet_id t) = Some (tw_address t).
Proof.
  intros T Ht. unfold owner_of. destruct (head _) as [t'|] eqn:E.
  - apply head_Some_elem_of, list_elem_of_filter in E as [E Ht'].
    by rewrite (NoDup_map_eq tw_subwallet_id (ton_wallets d) t' t (ws_ids _ _ (tk_sound _ T)) Ht' Ht E).
  - assert (t ∈ filter (λ t', tw_subwallet_id t' = tw_subwallet_id t) (ton_wallets d)) as Hin
      by (by apply list_elem_of_filter). destruct (filter _ _); [by apply elem_of_nil in Hin|done].
Qed.

(** The proxies of the deposits of a query are different, outside the addresses
    it excludes, and known. *)
Lemma jetton_tasks_owners used limit (w w' : World O) tasks :
  tables_known (w_db w) → GetJettonInternalWithdrawalTasks used limit w = (Ok tasks, w') →
  w_db w' = w_db w ∧ NoDup (map (λ t, owner_of (w_db w) (it_SubwalletID t)) tasks) ∧
  ∀ t, t ∈ tasks → ∃ a, owner_of (w_db w) (it_SubwalletID t) = Some a ∧ (a ∉ used) ∧
    proxy_at hot (it_SubwalletID t) a ∧ type_of a = Ok (Some JettonOwner).
Proof.
  intros T (Hw & Hn & Hs)%jetton_tasks_sound.
  assert (∀ t, t ∈ tasks → ∃ j tw, j ∈ jetton_wallets (w_db w) ∧ jw_type j = JettonDepositWallet ∧
    it_From t = jw_address j ∧ it_SubwalletID t = jw_subwallet_id j ∧ it_Currency t = jw_currency j ∧
    tw ∈ ton_wallets (w_db w) ∧ tw_subwallet_id tw = it_SubwalletID t ∧ tw_type tw = JettonOwner ∧
    (tw_address tw ∉ used) ∧ in_use (w_db w) tw) as Hrow.
  { intros t (i & o & j & Hr & Hf & _ & Hid & Hc)%Hs.
    destruct (proj1 (jetton_row used (w_db w) i j) (ex_intro _ o Hr)) as (Hi & _ & Hj & Ha & Hty & Hfree).
    destruct (ws_deposit _ _ (tk_sound _ T) j Hj Hty) as (tw & Htw & Htid & Htt). exists j, tw. rewrite Hid.
    assert (in_use (w_db w) tw) as Huse by (right; exists j, i; split_and!; [done|congruence|done..]).
    split_and!; try done; [congruence|]. destruct Hfree as [(tw' & Htw' & Hid' & Hnot)|[Hno _]].
    - by rewrite (NoDup_map_eq tw_subwallet_id _ tw tw' (ws_ids _ _ (tk_sound _ T)) Htw Htw' ltac:(congruence)).
    - by destruct (Hno tw). }
  split_and!; [done| |].
  - eapply (NoDup_map_finer (λ t, (it_From t, it_SubwalletID t, it_Currency t))); [|exact Hn].
    intros t t' (j & tw & Hj & Hty & Hf & Hid & Hc & Htw & Htid & _)%Hrow
      (j' & tw' & Hj' & Hty' & Hf' & Hid' & Hc' & Htw' & Htid' & _)%Hrow E.
    rewrite <- Htid, <- Htid', (owner_of_row _ tw T Htw), (owner_of_row _ tw' T Htw') in E. injection E as E.
    pose proof (NoDup_map_eq tw_address _ tw tw' (ws_addresses _ _ (tk_sound _ T)) Htw Htw' E) as <-.
    assert (j = j') as <- by (apply (ws_deposits _ _ (tk_sound _ T)); congruence). congruence.
  - intros t (j & tw & _ & _ & _ & _ & _ & Htw & <- & Hty & Hnot & Huse)%Hrow. exists (tw_address tw).
    split_and!; [by apply owner_of_row|done|by apply (ws_owner _ _ (tk_sound _ T))|]. by rewrite (tk_book _ T) by done; rewrite Hty.
Qed.

(** ** The loops *)

Definition reads (b : Batch) (addrs : list Address) : Prop := Forall2 understood (w_Messages (bt_res b)) addrs.

Lemma reads_snoc b addrs x a bal used e i sv :
  reads b addrs → understood x a → reads (Build_Batch bal used (add_message [x] e i sv (bt_res b))) (addrs ++ [a]).
Proof. intros Hr Hx. apply Forall2_app; [exact Hr|]. constructor; [exact Hx|constructor]. Qed.

Lemma service_loop_reads b0 ts (w w' : World O) b :
  for_st service_turn b0 ts w = (Ok b, w') → bt_res b0 = Build_withdrawals [] [] [] [] → bt_used b0 = [] →
  (∀ t, t ∈ ts → type_of (st_From t) = Ok (Some JettonOwner) → proxy_at hot (st_SubwalletID t) (st_From t)) →
  reads b (bt_used b) ∧ bt_used b `sublist_of` map st_From ts ∧ w_External (bt_res b) = [].
Proof.
  intros H H0 Hu Hts. revert H.
  apply (for_st_inv (λ done b, reads b (bt_used b) ∧ bt_used b `sublist_of` map st_From done ∧
    w_External (bt_res b) = [])).
  { unfold reads. rewrite H0, Hu. split_and!; constructor. }
  intros done t b1 b2 s s' Ht (Hr & Hs & Hx) H. rewrite map_app. unfold Processor.service_turn in H.
  apply st_bind_Ok in H as ([low bal] & w1 & _ & H).
  destruct low; [injection H as <- _; split_and!; [done|by apply sublist_inserts_r|done]|].
  apply st_bind_Ok in H as ([ms sw] & w2 & Hm & H). apply service_understood in Hm; [|by apply Hts].
  case_decide as Hlen.
  - injection H as <- _. destruct Hm as [->|(x & -> & Hm)]; [done|].
    split_and!; [by apply reads_snoc|by apply sublist_app|simpl; by rewrite Hx].
  - do 2 apply st_bind_Ok in H as (? & ? & _ & H). injection H as <- _.
    split_and!; [done|by apply sublist_inserts_r|done].
Qed.

Lemma internal_loop_reads d ts b addrs (w w' : World O) b' :
  internal_loop config ws Int63 b ts w = (Ok b', w') → reads b addrs →
  (∀ t, t ∈ ts → ∃ a, owner_of d (it_SubwalletID t) = Some a ∧ proxy_at hot (it_SubwalletID t) a ∧
     type_of a = Ok (Some JettonOwner)) →
  ∃ l, reads b' (addrs ++ l) ∧ (Some <$> l) `sublist_of` map (λ t, owner_of d (it_SubwalletID t)) ts ∧
    w_External (bt_res b') = w_External (bt_res b).
Proof.
  revert b addrs w. induction ts as [|t ts IH]; intros b addrs w H Hr Ht; simpl in H.
  { injection H as <- _. exists []. by rewrite app_nil_r. }
  case_decide; [injection H as <- _; exists []; rewrite app_nil_r; split_and!; [done|apply sublist_nil_l|done]|].
  assert (∀ b1 w1, internal_loop config ws Int63 b1 ts w1 = (Ok b', w') → reads b1 addrs → w_External (bt_res b1) = w_External (bt_res b) →
    ∃ l, reads b' (addrs ++ l) ∧ (Some <$> l) `sublist_of` map (λ t, owner_of d (it_SubwalletID t)) (t :: ts) ∧
      w_External (bt_res b') = w_External (bt_res b)) as Hskip.
  { intros b1 w1 H1 Hr1 <-. destruct (IH b1 addrs w1 H1 Hr1) as (l & ? & ? & ?); [set_solver|].
    exists l. split_and!; [done|by apply sublist_cons|done]. }
  apply st_bind_Ok in H as ([low bal] & w1 & _ & H). destruct low; [by eapply Hskip in H|].
  apply st_bind_Ok in H as ([ms memo] & w2 & Hm & H). destruct (Ht t) as (a & Ha & Hp & Hty); [set_solver|].
  apply (internal_understood _ _ _ _ _ a) in Hm; [|done..].
  case_decide as Hlen; [|by eapply Hskip in H].
  destruct Hm as [->|(x & -> & Hx)]; [done|].
  eapply (IH _ (addrs ++ [a])) in H as (l & Hl & Hsub & Hx'); [|by apply reads_snoc|set_solver].
  exists (a :: l). rewrite <- app_assoc in Hl. split_and!; [done| |rewrite Hx'; apply app_nil_r].
  simpl. rewrite Ha. by constructor.
Qed.

Lemma external_loop_reads ts b addrs (w w' : World O) b' :
  external_loop ab ws b ts w = (Ok b', w') → reads b addrs → (∀ t, t ∈ ts → 0 ≤ et_Amount t) →
  ∃ l, reads b' (addrs ++ l) ∧ l `sublist_of` map et_Destination ts ∧ (∀ a, a ∈ l → type_of a = Ok None) ∧
    map et_Destination (w_External (bt_res b')) = map et_Destination (w_External (bt_res b)) ++ l.
Proof.
  revert b addrs w. induction ts as [|t ts IH]; intros b addrs w H Hr Ht; simpl in H.
  { injection H as <- _. exists []. rewrite !app_nil_r. split_and!; [done..|set_solver|done]. }
  case_decide; [injection H as <- _; exists []; rewrite !app_nil_r;
    split_and!; [done|apply sublist_nil_l|set_solver|done]|].
  assert (∀ b1 w1, external_loop ab ws b1 ts w1 = (Ok b', w') → reads b1 addrs → w_External (bt_res b1) = w_External (bt_res b) →
    ∃ l, reads b' (addrs ++ l) ∧ l `sublist_of` map et_Destination (t :: ts) ∧ (∀ a, a ∈ l → type_of a = Ok None) ∧
      map et_Destination (w_External (bt_res b')) = map et_Destination (w_External (bt_res b)) ++ l) as Hskip.
  { intros b1 w1 H1 Hr1 E. destruct (IH b1 addrs w1 H1 Hr1) as (l & ? & ? & ? & Hx); [set_solver|].
    exists l. rewrite <- E. split_and!; [done|by apply sublist_cons|done..]. }
  apply st_bind_Ok in H as (ty & w1 & Hty & H). injection Hty as Hty <-. apply (f_equal Ok) in Hty.
  change (type_of (et_Destination t) = Ok ty) in Hty. destruct ty; [by eapply Hskip in H|].
  apply st_bind_Ok in H as ([low bal] & w2 & _ & H). destruct low; [by eapply Hskip in H|].
  apply st_bind_Ok in H as (m & w3 & Hm & H). injection Hm as Hm <-.
  apply external_understood in Hm; [|apply Ht; set_solver|done].
  eapply (IH _ (addrs ++ [et_Destination t])) in H as (l & Hl & Hsub & Hnone & Hx);
    [|by apply reads_snoc|set_solver].
  exists (et_Destination t :: l). rewrite <- app_assoc in Hl. split_and!; [done|by constructor|set_solver|].
  rewrite Hx. simpl. by rewrite map_app, <- app_assoc.
Qed.

Lemma internal_loop_same b ts : db_rel same_wallets (internal_loop config ws Int63 b ts).
Proof.
  revert b. induction ts as [|t ts IH]; intros b; simpl; unfold buildJettonInternalWithdrawalMessage;
    db_steps; apply IH.
Qed.

(** ** A batch *)

Abbreviation build := (buildWithdrawalMessages config ab bc ws withdrawal_repo Int63).

(** The addresses of the messages of a batch are different; those that the
    program does not know are the destinations of its payments. *)
Lemma build_reads (w w' : World O) wd :
  tables_known (w_db w) → build w = (Ok wd, w') →
  ∃ addrs, Forall2 understood (w_Messages wd) addrs ∧ NoDup addrs ∧
    ∀ a, a ∈ map et_Destination (w_External wd) ↔ a ∈ addrs ∧ type_of a = Ok None.
Proof.
  intros T H. unfold buildWithdrawalMessages in H.
  cbn [r_GetServiceHotWithdrawalTasks r_GetJettonInternalWithdrawalTasks r_GetExternalWithdrawalTasks withdrawal_repo] in H.
  apply st_bind_Ok in H as (bal & w0 & Hbal & H). injection Hbal as _ <-.
  apply st_bind_Ok in H as (sts & w1 & Hsts & H). apply st_bind_Ok in H as (b1 & w2 & H1 & H).
  apply st_bind_Ok in H as (its & w3 & Hits & H). apply st_bind_Ok in H as (b2 & w4 & H2 & H).
  apply st_bind_Ok in H as (ets & w5 & Hets & H). apply st_bind_Ok in H as (b3 & w6 & H3 & H).
  injection H as <- _. apply hot_tasks in Hsts as (E1 & Hn1 & Hs1).
  assert (same_wallets (w_db w1) (w_db w2)) as S2.
  { pose proof (preserves_for (wrel same_wallets) service_turn sts (start_batch bal)) as Hp.
    destruct (Hp (λ b t _, service_turn_same b t) w1) as [Hs _]. by rewrite H1 in Hs. }
  rewrite E1 in S2. pose proof (tables_known_same _ _ S2 T) as T2.
  apply (jetton_tasks_owners _ _ _ _ _ T2) in Hits as (E3 & Hn2 & Hs2).
  destruct (internal_loop_same b1 its w3) as [S4 _]. rewrite H2, E3 in S4. simpl in S4.
  pose proof (tables_known_same _ _ S4 T2) as T4. pose proof (external_loop_reads ets b2) as He.
  assert (∀ t, t ∈ sts → type_of (st_From t) ≠ Ok None ∧
    (type_of (st_From t) = Ok (Some JettonOwner) → proxy_at hot (st_SubwalletID t) (st_From t))) as Hst.
  { intros t (tw & Htw & Hf & <- & <-)%Hs1. rewrite (tk_book _ T) by (done || by left). split; [done|].
    intros [= E]. by apply (ws_owner _ _ (tk_sound _ T)). }
  apply service_loop_reads in H1 as (R1 & L1 & X1); [|done|done|intros t Ht; by apply Hst].
  apply (internal_loop_reads (w_db w2) _ _ (bt_used b1)) in H2 as (l & R2 & L2 & X2);
    [|done|intros t (a & ? & _ & ? & ?)%Hs2; by exists a].
  apply GetExternalWithdrawalTasks_Ok in Hets as [Hets _].
  apply (He (bt_used b1 ++ l)) in H3 as (l' & R3 & L3 & Hnone & Hx); [|done|].
  2: { rewrite Hets. intros t (r & -> & Hr)%list_elem_of_fmap. apply external_task_rows_idle in Hr as [Hr _].
       by apply (tk_amounts _ T4). }
  exists ((bt_used b1 ++ l) ++ l').
  assert (∀ a, a ∈ bt_used b1 → type_of a ≠ Ok None) as Hu.
  { intros a Ha. eapply elem_of_submseteq in Ha; [|by apply sublist_submseteq].
    apply list_elem_of_fmap in Ha as (t & -> & Ht). by apply Hst. }
  assert (∀ a, a ∈ l → (a ∉ bt_used b1) ∧ type_of a ≠ Ok None) as Hl.
  { intros a Ha. apply (list_elem_of_fmap_2 Some) in Ha. eapply elem_of_submseteq in Ha; [|by apply sublist_submseteq].
    apply list_elem_of_fmap in Ha as (t & E & Ht). destruct (Hs2 t Ht) as (a' & E' & ? & _ & Hty).
    rewrite E' in E. injection E as ->. by rewrite Hty. }
  split_and!; [exact R3| |].
  - apply NoDup_app. split_and!.
    + apply NoDup_app. split_and!; [by eapply sublist_NoDup|intros a Ha Ha'; by apply Hl in Ha' as []|].
      eapply NoDup_fmap_1, sublist_NoDup; [exact Hn2|exact L2].
    + intros a [Ha|Ha]%elem_of_app Ha'; apply Hnone in Ha'; [by apply Hu in Ha|by apply Hl in Ha as []].
    + eapply sublist_NoDup; [|exact L3]. rewrite Hets, map_map.
      eapply sublist_NoDup; [|apply (fmap_sublist wr_dest_address), sublist_take]. apply distinct_on_keys.
  - intros a. rewrite Hx, X2, X1. simpl. rewrite !elem_of_app. split; [intros Ha; split; [by right|by apply Hnone]|].
    intros [[[Ha|Ha]|Ha] Hty]; [by apply Hu in Ha|by apply Hl in Ha as []|done].
Qed.

(** The out messages of a batch that the chain shows are read. *)
Lemma outs_read (xs : list (WalletMessage tonaddr Cell)) u ms acc :
  (∀ x, x ∈ xs → readable x) →
  (∀ m, m ∈ ms → ∃ x im, x ∈ xs ∧ m = MsgTypeInternal im ∧ carries (wm_Message x) im) →
  ∃ acc', for_res (hot_wallet_out ab u) acc ms = Ok acc'.
Proof.
  intros Hr Hms. apply for_res_total. intros acc0 m (x & im & Hx & -> & Hc)%Hms. by eapply Hr.
Qed.

Lemma failed_total inMap outMap u : ∃ l, failedWithdrawals ab inMap outMap u = Ok l.
Proof. apply for_res_total. intros b x _. by eexists. Qed.

(** C9. As long as no two wallets share an address, each owner of jettons is the
    proxy with its identifier, and the book knows by their types the hot wallets
    and the wallets in use (from which a service withdrawal is requested, or whose
    jetton deposit has an income; a deposit created after the book was loaded need
    not be in it), the scanner understands every batch of the processor. The
    message built from the batch is accepted, with as many different addresses as the batch
    has messages, and those of them that the program does not know are exactly the
    destinations of the payments of the batch; and the transaction that runs the
    message is processed without an error, whichever of the messages of the batch
    it sends. *)
Theorem batch_accepted (w w' : World O) wd msg info :
  tables_known (w_db w) → build w = (Ok wd, w') →
  getHighLoadWalletExtMsgInfo msg = Ok info → Forall2 wraps (w_Messages wd) (hi_Messages info) →
  (∃ addrs, parseExternalMessage (Some msg) = Ok (Some (hi_UUID info, addrs)) ∧
     size addrs = length (w_Messages wd) ∧
     ∀ a, a ∈ map et_Destination (w_External wd) ↔ a ∈ addrs ∧ type_of a = Ok None) ∧
  ∀ inMsg tx ms, em_Payload inMsg = em_Payload msg → out_messages tx = Ok ms →
    (∀ m, m ∈ ms → ∃ x im, x ∈ w_Messages wd ∧ m = MsgTypeInternal im ∧ carries (wm_Message x) im) →
    ∃ e, processTonHotWalletExternalInMsg ab inMsg tx = Ok e.
Proof.
  intros T H Hi Hw. destruct (build_reads w w' wd T H) as (addrs & Hr & Hn & Hx).
  assert (parseExternalMessage (Some msg) = Ok (Some (hi_UUID info, list_to_set addrs))) as Hp.
  { eapply batch_understood; [exact Hi|exact Hw| |exact Hn]. eapply Forall2_impl; [exact Hr|]. by intros x a [? _]. }
  split.
  - exists (list_to_set addrs). split_and!; [done| |].
    + by rewrite size_list_to_set, (Forall2_length _ _ _ Hr).
    + intros a. by rewrite Hx, elem_of_list_to_set.
  - intros inMsg tx ms Hpay Hms Hout. unfold processTonHotWalletExternalInMsg.
    assert (parseExternalMessage (Some inMsg) = parseExternalMessage (Some msg)) as ->
      by (unfold parseExternalMessage, getHighLoadWalletExtMsgInfo; by rewrite Hpay).
    rewrite Hp, Hms. cbn [res_bind].
    destruct (outs_read (w_Messages wd) (hi_UUID info) ms (no_events, ∅)) as [[e s] Ho]; [|exact Hout|].
    { intros x [i Hin]%list_elem_of_lookup. by eapply Forall2_lookup_l in Hr as (a & _ & _ & ?). }
    rewrite Ho. cbn [res_bind]. destruct (failed_total (list_to_set addrs) s (hi_UUID info)) as [l ->]. by eexists.
Qed.
End batch.
