(* ===== verification/Settlement.v ===== *)
(** * A scanned batch settles its payments

    From the transaction of the hot wallet to the rows of its payments: once
    the block that holds it is saved, every payment of the batch is marked, as
    processed when an out message of the transaction pays it and as failed when
    none does. *)

From S2P Require Import Prelude TonUtils Config Models Core Db AddressBook Repository.
From S2P Require Import WithdrawalRepository Ledger BlockScanner BlockScannerFacts Saving.

Local Open Scope string_scope.
Local Open Scope list_scope.
Local Open Scope Z_scope.

(** ** The rows *)

Section rows.
Context `{AL : AddrLib} `{UL : UuidLib} `{PG : PgLib} {O : Type}.

(** A payment is marked as the event [x] says. *)
Definition marked (x : ExternalWithdrawal) (d : DB) : Prop :=
  ∃ r, r ∈ external_withdrawals d ∧ xw_msg_uuid r = ew_ExtMsgUuid x ∧ xw_address r = ew_To x ∧
    if ew_IsFailed x then xw_failed r = true else is_Some (xw_processed_lt r).

(** Marks are not taken back. *)
Definition keeps_marks (d d' : DB) : Prop := ∀ x, marked x d → marked x d'.
#[export] Instance keeps_marks_preorder : PreOrder keeps_marks.
Proof. split; [by intros d x|]. intros d1 d2 d3 H1 H2 x Hx. auto. Qed.

Lemma keeps_marks_update P f d :
  (∀ r, xw_msg_uuid (f r) = xw_msg_uuid r ∧ xw_address (f r) = xw_address r ∧
     (xw_failed r = true → xw_failed (f r) = true) ∧
     (is_Some (xw_processed_lt r) → is_Some (xw_processed_lt (f r)))) →
  keeps_marks d (set_external_withdrawals (update_where P f (external_withdrawals d)) d).
Proof.
  intros Hf x (r & Hr & Hu & Ha & Hm). destruct (Hf r) as (Fu & Fa & Ff & Fp).
  exists (if P r then f r else r). split_and!.
  - apply elem_of_update_where. eauto.
  - destruct (P r); congruence.
  - destruct (P r); congruence.
  - destruct (P r); [|done]. destruct (ew_IsFailed x); auto.
Qed.

Lemma keeps_marks_same d d' : external_withdrawals d' = external_withdrawals d → keeps_marks d d'.
Proof. intros E x (r & Hr & H). exists r. by rewrite E. Qed.

Ltac keep_marks :=
  first [apply keeps_marks_update; intros r; simpl; by eauto | apply keeps_marks_same; reflexivity].

Lemma update_external_keeps u a f :
  (∀ r, xw_msg_uuid (f r) = xw_msg_uuid r ∧ xw_address (f r) = xw_address r ∧
     (xw_failed r = true → xw_failed (f r) = true) ∧
     (is_Some (xw_processed_lt r) → is_Some (xw_processed_lt (f r)))) →
  db_rel (O:=O) keeps_marks (update_external u a f).
Proof.
  intros Hf. apply db_rel_exec; [apply _|]. intros d q d' H. destruct (head _); [|done].
  injection H as _ <-. by apply keeps_marks_update.
Qed.

Lemma UpdateExternalWithdrawal_keeps x : db_rel (O:=O) keeps_marks (UpdateExternalWithdrawal x).
Proof.
  unfold UpdateExternalWithdrawal. apply preserves_bind; [apply _|apply preserves_try, db_rel_query, _|].
  intros row. destruct (match row with inl _ => _ | inr _ => _ end); [apply preserves_fail, _|].
  destruct (ew_IsFailed x).
  - apply preserves_bind; [apply _|by apply update_external_keeps|]. intros q.
    apply db_rel_exec; [apply _|]. intros d b d' Hd. inv_res. keep_marks.
  - apply preserves_bind; [apply _|apply preserves_lift, _|]. intros lt.
    apply preserves_bind; [apply _|by apply update_external_keeps|]. intros q.
    apply db_rel_exec; [apply _|]. intros d b d' Hd. inv_res. keep_marks.
Qed.

Lemma confirmations_keep l : db_rel (O:=O) keeps_marks (each_st ApplyJettonWithdrawalConfirmation l).
Proof.
  apply preserves_each; [apply _|]. intros c _. apply db_rel_exec; [apply _|].
  intros d u d' H. inv_res. keep_marks.
Qed.

Lemma SaveBlock_keeps h : db_rel (O:=O) keeps_marks (SaveBlock h).
Proof.
  unfold SaveBlock. case_match; [|apply preserves_lift, _]. apply db_rel_exec; [apply _|].
  intros d u d' Hd. inv_res. keep_marks.
Qed.

(** The row found is one of those updated. *)
Lemma update_external_marks u a f (w w' : World O) q :
  update_external u a f w = (Ok q, w') →
  ∃ r, xw_msg_uuid r = u ∧ xw_address r = a ∧ f r ∈ external_withdrawals (w_db w').
Proof.
  intros (_ & _ & r & Hr & _ & ->)%update_external_Ok.
  apply head_Some_elem_of in Hr. rewrite plan_perm in Hr. apply list_elem_of_filter in Hr as [Hs Hr].
  apply Is_true_true in Hs. pose proof Hs as [Hu Ha]%bool_decide_eq_true. exists r. split_and!; [done..|]. simpl.
  apply elem_of_update_where. exists r. by rewrite Hs.
Qed.

Lemma UpdateExternalWithdrawal_marks x (w w' : World O) :
  UpdateExternalWithdrawal x w = (Ok tt, w') → marked x (w_db w').
Proof.
  intros (row & w1 & _ & H)%st_bind_Ok. cbv zeta in H.
  destruct (match row with inl _ => _ | inr _ => _ end); [done|].
  assert (∀ q f (w2 w3 : World O), (∀ r, xw_msg_uuid (f r) = xw_msg_uuid r ∧ xw_address (f r) = xw_address r ∧
    if ew_IsFailed x then xw_failed (f r) = true else is_Some (xw_processed_lt (f r))) →
    update_external (ew_ExtMsgUuid x) (ew_To x) f w2 = (Ok q, w3) → marked x (w_db w3)) as Hm.
  { intros q f w2 w3 Hf (r & Hu & Ha & Hin)%update_external_marks. destruct (Hf r) as (Fu & Fa & F).
    exists (f r). split_and!; [done|congruence|congruence|done]. }
  destruct (ew_IsFailed x) eqn:Ex.
  - apply st_bind_Ok in H as (q & w2 & H & Hr). apply Hm in H; [|done].
    apply exec_Ok in Hr as (d & Hr & ->). inv_res. exact H.
  - apply st_bind_Ok in H as (lt & w2 & Hl & H). apply st_bind_Ok in H as (q & w3 & H & Hr).
    apply Hm in H; [|intros r; split; [done|]; split; [done|by eexists]].
    apply exec_Ok in Hr as (d & Hr & ->). inv_res. exact H.
Qed.

(** All the withdrawals of a saved block are marked. *)
Lemma save_events_marks e (w w' : World O) x :
  save_events e w = (Ok tt, w') → x ∈ ExternalWithdrawals (be_Events e) → marked x (w_db w').
Proof.
  intros H Hx. apply st_bind_Ok in H as ([] & w2 & H & Hb). unfold save_lists in H.
  do 4 apply st_bind_Ok in H as ([] & ? & _ & H). apply st_bind_Ok in H as ([] & w1 & Hu & Hc).
  assert (marked x (w_db w1)) as Hm.
  { refine (each_st_all UpdateExternalWithdrawal (wrel keeps_marks) (λ x v, marked x (w_db v)) _ _ _ _ _ _ Hu x Hx).
    - intros y _. apply UpdateExternalWithdrawal_keeps.
    - intros y s1 s2. apply UpdateExternalWithdrawal_marks.
    - intros y s1 s2 [Hk _]. apply Hk. }
  pose proof (confirmations_keep (WithdrawalConfirmations (be_Events e)) w1) as [Kc _]. rewrite Hc in Kc.
  pose proof (SaveBlock_keeps (be_Block e) w2) as [Kb _]. rewrite Hb in Kb. by apply Kb, Kc.
Qed.
End rows.

(** ** The events *)

Section events.
Context `{TL : TvmLib} `{UL : UuidLib} `{GR : GoRuntime} `{PG : PgLib} `{WL : WalletLib}.
Context `{TW : !TonWalletLib} {O : Type}.
Context (book : option (gmap Address AddressInfo)).
Abbreviation ab := (book_ops book).

(** Every event of [e'] is one of [e]. *)
Record among (e' e : Events) : Prop := {
  am_income : ExternalIncomes e' ⊆ ExternalIncomes e;
  am_internal : InternalIncomes e' ⊆ InternalIncomes e;
  am_sending : SendingConfirmations e' ⊆ SendingConfirmations e;
  am_sweep : InternalWithdrawals e' ⊆ InternalWithdrawals e;
  am_external : ExternalWithdrawals e' ⊆ ExternalWithdrawals e;
  am_confirm : WithdrawalConfirmations e' ⊆ WithdrawalConfirmations e;
}.

#[export] Instance among_preorder : PreOrder among.
Proof. split; [by intros e; split|]. intros e1 e2 e3 [] []. split; by etrans. Qed.

Lemma among_app_l e1 e2 : among e1 (Append e1 e2).
Proof. split; intros x Hx; apply elem_of_app; by left. Qed.
Lemma among_app_r e1 e2 : among e2 (Append e1 e2).
Proof. split; intros x Hx; apply elem_of_app; by right. Qed.

(** Collecting events loses none of them. *)
Lemma collected {A} (f : A → res Events) l e x :
  for_res (λ events x, let! e := f x in Ok (Append events e)) no_events l = Ok e → x ∈ l →
  ∃ e', f x = Ok e' ∧ among e' e.
Proof.
  intros H. revert x. revert H. apply (for_res_inv (λ done e, ∀ x, x ∈ done →
    ∃ e', f x = Ok e' ∧ among e' e)); [intros x Hx; by apply elem_of_nil in Hx|].
  intros done y e1 e2 _ IH (e' & Hy & [= <-])%res_bind_Ok x [Hx|Hx]%elem_of_app.
  - destruct (IH x Hx) as (e0 & Hf & Hs). exists e0. split; [done|]. etrans; [exact Hs|apply among_app_l].
  - apply list_elem_of_singleton in Hx as ->. exists e'. split; [done|apply among_app_r].
Qed.

(** An out message of the hot wallet pays the address [a]: in TONs, or in
    jettons through a jetton wallet of the processor. *)
Definition pays (m : Message tonaddr Cell) (a : Address) : Prop :=
  match m with
  | MsgTypeInternal msg =>
      AddressFromTonutilsAddress (im_DstAddr msg) = Ok a ∨
      ∃ j t, AddressFromTonutilsAddress (im_DstAddr msg) = Ok j ∧
        ab_GetWalletType book j = Ok (Some JettonHotWallet) ∧
        DecodeJettonTransfer (Some msg) = Ok t ∧ AddressFromTonutilsAddress (jt_Destination t) = Ok a
  | _ => False
  end.

Definition reported (u : UUID) (a : Address) (e : Events) : Prop :=
  ∃ x, x ∈ ExternalWithdrawals e ∧ ew_ExtMsgUuid x = u ∧ ew_To x = a ∧ ew_IsFailed x = false.

Lemma reported_app_l u a e1 e2 : reported u a e1 → reported u a (Append e1 e2).
Proof. intros (x & Hx & H). exists x. split; [|done]. simpl. set_solver. Qed.

(** What the loop over the out messages knows of an outside address. *)
Definition outs_known (u : UUID) (a : Address) (done : list (Message tonaddr Cell))
    (acc : Events * gset Address) : Prop :=
  (a ∈ acc.2 ↔ ∃ m, m ∈ done ∧ pays m a) ∧ (a ∈ acc.2 → reported u a acc.1).

Lemma outs_known_step u a done m acc acc' :
  ab_GetWalletType book a = Ok None → hot_wallet_out ab u acc m = Ok acc' →
  outs_known u a done acc → outs_known u a (done ++ [m]) acc'.
Proof.
  intros Ha H [I1 I2]. destruct acc as [e addrs]. simpl in *.
  assert (∀ b e', (pays m a ↔ a = b) → (a = b → reported u a (Append e e')) →
    acc' = (Append e e', {[ b ]} ∪ addrs) → outs_known u a (done ++ [m]) acc') as Hstep.
  { intros b e' Hp Hr ->. split; simpl.
    - rewrite elem_of_union, elem_of_singleton, I1. setoid_rewrite elem_of_app.
      setoid_rewrite list_elem_of_singleton. rewrite <- Hp. naive_solver.
    - intros [->%elem_of_singleton|Hin]%elem_of_union; [auto|]. by apply reported_app_l, I2. }
  destruct m as [msg| |]; try done.
  apply res_bind_Ok in H as (addr & Haddr%res_wrap_Ok & H). apply res_bind_Ok in H as (t & Ht & H).
  unfold ab_GetWalletTypeByTonutilsAddress in Ht. rewrite Haddr in Ht.
  assert (t ≠ Some JettonHotWallet → pays (MsgTypeInternal msg) a ↔ a = addr) as Hplain.
  { intros Hne. simpl. rewrite Haddr. split; [|intros ->; by left].
    intros [[= ->]|(j & ? & [= <-] & Hj & _)]; [done|congruence]. }
  assert (t ≠ None → a ≠ addr) as Hout by (intros Hn ->; congruence).
  destruct t as [[]|]; simpl in H.
  all: try (injection H as <-; apply (Hstep addr no_events); [by apply Hplain| |by rewrite Append_nil_r];
    intros E; by destruct Hout).
  - apply res_bind_Ok in H as (t & Hj%res_wrap_Ok & H). apply res_bind_Ok in H as (b & Hb%res_wrap_Ok & H).
    injection H as <-. eapply (Hstep b); [| |reflexivity].
    + simpl. rewrite Haddr. split.
      * intros [[= <-]|(j & t' & _ & _ & Hd & Hb')]; [by destruct Hout|]. congruence.
      * intros ->. right. by exists addr, t.
    + intros ->. eexists. split; [simpl; apply elem_of_app; right; apply list_elem_of_here|done].
  - apply res_bind_Ok in H as (e' & _ & H). injection H as <-.
    apply (Hstep addr e'); [by apply Hplain| |done]. intros E. by destruct Hout.
  - injection H as <-. eapply (Hstep addr); [by apply Hplain| |reflexivity].
    intros ->. eexists. split; [simpl; apply elem_of_app; right; apply list_elem_of_here|done].
Qed.

(** The batch reports each payment to an outside address: as failed exactly
    when no out message pays it. *)
Lemma batch_reports inMsg tx e u addrs ms a :
  parseExternalMessage (Some inMsg) = Ok (Some (u, addrs)) → out_messages tx = Ok ms →
  processTonHotWalletExternalInMsg ab inMsg tx = Ok e →
  a ∈ addrs → ab_GetWalletType book a = Ok None →
  ∃ x, x ∈ ExternalWithdrawals e ∧ ew_ExtMsgUuid x = u ∧ ew_To x = a ∧
    (ew_IsFailed x = true ↔ ¬ ∃ m, m ∈ ms ∧ pays m a).
Proof.
  intros Hp Hms H Hin Ha. unfold processTonHotWalletExternalInMsg in H. rewrite Hp, Hms in H. simpl in H.
  apply res_bind_Ok in H as ([events out] & Ho & H). apply res_bind_Ok in H as (failed & Hf & [= <-]).
  assert (outs_known u a ms (events, out)) as [Hout Hrep].
  { revert Ho. apply (for_res_inv (λ done acc, outs_known u a done acc)).
    - split; [|set_solver]. split; [set_solver|]. intros (m & Hm & _). by apply elem_of_nil in Hm.
    - intros done m acc acc' _ Hk Hm. by eapply outs_known_step. }
  simpl in *. destruct (decide (a ∈ out)) as [Hd|Hd].
  - destruct (Hrep Hd) as (x & Hx & Hu & Hto & Hok). exists x. split_and!; [set_solver|done..|].
    rewrite Hok, <- Hout. naive_solver.
  - apply failedWithdrawals_spec in Hf as [Hf _]. exists (failed_withdrawal u a).
    split_and!; [|done..|by rewrite <- Hout]. apply elem_of_app. right. apply Hf. by exists a.
Qed.

Context (ws : Wallet) (bc : Blockchain) (config : Config).

(** The events of a transaction of an account of the processor are among
    the block's. *)
Lemma account_events b h ids e a t id tx :
  sb_BlockIDExt h = Some b → GetTransactionIDsFromBlock bc (Some b) = Ok ids →
  parse_block ab ws bc h = Ok e → id ∈ ids → ti_Account id = Value a →
  ab_GetWalletType book a = Ok (Some t) → GetTransactionFromBlock bc (Some b) id = Ok tx →
  ∃ g e', ts_WalletType g = Some t ∧ tx ∈ ts_Transactions g ∧ process_group ab ws h g = Ok e' ∧
    among e' (be_Events e).
Proof.
  intros Hb Hids H Hin Hacc Ha Htx. unfold parse_block in H. rewrite Hb, Hids in H. simpl in H.
  apply res_bind_Ok in H as (gs & (_ & Hg & Hall)%filterTXs_groups & H).
  destruct (Hall id a Hin Hacc) as (g & Hgin & Hga); [by eexists|].
  destruct (Hg g Hgin) as [(t' & Ht & Htt) HF]. rewrite Hga in HF, Ht. simpl in Ht.
  rewrite Ha in Ht. injection Ht as <-.
  assert (tx ∈ ts_Transactions g) as Hmem.
  { assert (id ∈ ids_of a ids) as [i Hi]%list_elem_of_lookup by by apply list_elem_of_filter.
    eapply Forall2_lookup_l in HF as (tx' & Hx & Hget); [|exact Hi].
    rewrite Htx in Hget. injection Hget as <-. by eapply list_elem_of_lookup_2. }
  apply res_bind_Ok in H as (ev & H & [= <-]). simpl.
  destruct (collected _ _ _ _ H Hgin) as (e1 & H1 & S1). by exists g, e1.
Qed.

Lemma hot_events b h ids e hot id tx :
  sb_BlockIDExt h = Some b → GetTransactionIDsFromBlock bc (Some b) = Ok ids →
  parse_block ab ws bc h = Ok e → id ∈ ids → ti_Account id = Value hot →
  ab_GetWalletType book hot = Ok (Some TonHotWallet) →
  GetTransactionFromBlock bc (Some b) id = Ok tx →
  ∃ e', processTonHotWalletTX ab tx = Ok e' ∧ among e' (be_Events e).
Proof.
  intros Hb Hids H Hin Hacc Ha Htx.
  destruct (account_events b h ids e hot TonHotWallet id tx) as (g & e1 & Ht & Hmem & H1 & S1); try done.
  unfold process_group in H1. rewrite Ht in H1.
  destruct (collected _ _ _ _ H1 Hmem) as (e2 & H2 & S2). exists e2. split; [done|by etrans].
Qed.

Context (notificators : list (incomeNotification → ST (World O) unit)).
Hypothesis publish_no_db : ∀ publish n, publish ∈ notificators → preserves no_db (publish n).

(** A saved block has marked each payment of a batch. *)
Lemma saved_settles b h ids e hot id tx inMsg u addrs ms a (w1 w2 : World O) :
  sb_BlockIDExt h = Some b → GetTransactionIDsFromBlock bc (Some b) = Ok ids →
  parse_block ab ws bc h = Ok e → save_events e w1 = (Ok tt, w2) →
  id ∈ ids → ti_Account id = Value hot → ab_GetWalletType book hot = Ok (Some TonHotWallet) →
  GetTransactionFromBlock bc (Some b) id = Ok tx → tx_In tx = Some (MsgTypeExternalIn inMsg) →
  parseExternalMessage (Some inMsg) = Ok (Some (u, addrs)) → out_messages tx = Ok ms →
  a ∈ addrs → ab_GetWalletType book a = Ok None →
  ∃ r, r ∈ external_withdrawals (w_db w2) ∧ xw_msg_uuid r = u ∧ xw_address r = a ∧
    ((∃ m, m ∈ ms ∧ pays m a) → is_Some (xw_processed_lt r)) ∧
    ((¬ ∃ m, m ∈ ms ∧ pays m a) → xw_failed r = true).
Proof.
  intros Hb Hids He Hs Hid Hacc Hhot Htx Hext Hp Hms Hin Ha.
  destruct (hot_events b h ids e hot id tx) as (e' & Hx & Hsub); [done..|].
  unfold processTonHotWalletTX in Hx. rewrite Hext in Hx.
  destruct (batch_reports inMsg tx e' u addrs ms a) as (x & Hxin & Hu & Hto & Hf); [done..|].
  destruct (save_events_marks e w1 w2 x Hs (am_external _ _ Hsub _ Hxin)) as (r & Hr & Hru & Hra & Hm).
  exists r. split_and!; [done|congruence|congruence| |].
  - intros Hpaid. destruct (ew_IsFailed x); [|done]. by destruct (proj1 Hf).
  - intros Hno. by rewrite (proj2 Hf Hno) in Hm.
Qed.

(** A batch is settled when it is seen on the chain. The block holds a
    transaction of the hot wallet that a batch message started; once the block
    has been processed, either nothing is stored, or each payment of the batch
    to an outside address is marked in the tables: as processed, with a logical
    time, when an out message of the transaction pays that address, in TONs or
    jettons, and as failed when none does, so that its request is picked again. *)
Theorem batch_settles b h ids hot id tx inMsg u addrs ms a (w w' : World O) :
  sb_BlockIDExt h = Some b → GetTransactionIDsFromBlock bc (Some b) = Ok ids →
  id ∈ ids → ti_Account id = Value hot → ab_GetWalletType book hot = Ok (Some TonHotWallet) →
  GetTransactionFromBlock bc (Some b) id = Ok tx → tx_In tx = Some (MsgTypeExternalIn inMsg) →
  parseExternalMessage (Some inMsg) = Ok (Some (u, addrs)) → out_messages tx = Ok ms →
  a ∈ addrs → ab_GetWalletType book a = Ok None →
  processBlock ab ws bc config notificators h w = (Ok tt, w') →
  w_db w' = w_db w ∨
  ∃ r, r ∈ external_withdrawals (w_db w') ∧ xw_msg_uuid r = u ∧ xw_address r = a ∧
    ((∃ m, m ∈ ms ∧ pays m a) → is_Some (xw_processed_lt r)) ∧
    ((¬ ∃ m, m ∈ ms ∧ pays m a) → xw_failed r = true).
Proof.
  intros Hb Hids Hid Hacc Hhot Htx Hext Hp Hms Hin Ha H.
  apply (processBlock_Ok ab ws bc config notificators publish_no_db) in H
    as (e & He & [H|(w1 & w2 & _ & _ & Hs & H2)]); [by left|right|congruence].
  rewrite H2. by eapply saved_settles.
Qed.
End events.
