(* ===== verification/Sweeps.v ===== *)
(** * A sweep seen on the chain is recorded

    The processor empties a TON deposit by a message from the deposit to the hot
    wallet that carries the identifier of the internal withdrawal as its comment.
    Once the block with the transaction of the deposit has been processed the
    withdrawal is sent and finished; once the block with the transaction of the
    hot wallet has been processed its income is recorded. *)

From S2P Require Import Prelude TonUtils Config Models Core Db AddressBook Repository.
From S2P Require Import WithdrawalRepository Ledger BlockScanner BlockScannerFacts Saving Settlement.

Local Open Scope string_scope.
Local Open Scope list_scope.
Local Open Scope Z_scope.

(** ** The rows *)

Section rows.
Context `{AL : AddrLib} `{UL : UuidLib} `{PG : PgLib} `{WL : WalletLib} {O : Type}.

(** The internal withdrawal [memo] has been sent and has finished. *)
Definition swept (memo : UUID) (d : DB) : Prop :=
  ∃ r, r ∈ internal_withdrawals d ∧ iwr_memo r = memo ∧
    is_Some (iwr_sending_lt r) ∧ is_Some (iwr_finish_lt r).

Lemma swept_evolves memo d d' : evolves d d' → swept memo d → swept memo d'.
Proof.
  intros E (r & Hr & Hm & Hs & Hf).
  destruct (grows_elem _ _ _ _ (ev_internal _ _ E) Hr) as (r' & Hr' & S).
  exists r'. split; [done|]. split; [by rewrite (iws_memo _ _ S)|].
  split; [by apply (iws_sent _ _ S)|by apply (iws_finished _ _ S)].
Qed.

Lemma UpdateInternalWithdrawal_swept x memo (w w' : World O) :
  iw_IsFailed x = false → parse_memo (iw_Memo x) = Ok memo →
  UpdateInternalWithdrawal x w = (Ok tt, w') →
  swept memo (w_db w') ∧ ∃ r, r ∈ internal_withdrawals (w_db w) ∧ iwr_memo r = memo ∧ iwr_failed r = false.
Proof.
  intros Hx Hm H. apply st_bind_Ok in H as (m & w1 & H1 & H). rewrite Hm in H1. injection H1 as <- <-.
  apply st_bind_Ok in H as (row & w2 & Hq & H). unfold st_try in Hq.
  destruct (query _ w) as [[r0|e| |] w3] eqn:Eq; simplify_eq/=; try done.
  apply query_Ok in Eq as (Eh & Hw & _). apply of_option_Ok in Eh.
  destruct (iwr_failed r0) eqn:Hf; [done|]. destruct (iwr_sending_lt r0) as [lt|] eqn:Hs; [|done].
  rewrite Hx in H. apply exec_Ok in H as (d & H & ->). inv_res.
  assert (r0 ∈ internal_withdrawals (w_db w) ∧ iwr_memo r0 = memo) as [Hr Hmem].
  { apply head_Some_elem_of in Eh. rewrite plan_perm in Eh.
    apply list_elem_of_filter in Eh as [? ?]. done. }
  split; [|by exists r0]. exists (finish_withdrawal x r0). simpl. rewrite Hw. split_and!; try done.
  - apply elem_of_update_where. exists r0. split; [done|].
    by rewrite (proj2 (has_memo_true memo r0) Hmem).
Qed.

(** The internal withdrawal [memo] has been sent. *)
Definition noted (memo : UUID) (d : DB) : Prop :=
  ∃ r, r ∈ internal_withdrawals d ∧ iwr_memo r = memo ∧ is_Some (iwr_sending_lt r).

Lemma noted_evolves memo d d' : evolves d d' → noted memo d → noted memo d'.
Proof.
  intros E (r & Hr & Hm & Hs).
  destruct (grows_elem _ _ _ _ (ev_internal _ _ E) Hr) as (r' & Hr' & S).
  exists r'. split; [done|]. split; [by rewrite (iws_memo _ _ S)|by apply (iws_sent _ _ S)].
Qed.

Lemma ApplySendingConfirmations_noted x memo (w w' : World O) :
  parse_memo (sc_Memo x) = Ok memo → ApplySendingConfirmations x w = (Ok tt, w') → noted memo (w_db w').
Proof.
  intros Hm H. apply st_bind_Ok in H as (m & w1 & H1 & H). rewrite Hm in H1. injection H1 as <- <-.
  apply st_bind_Ok in H as (failed & w2 & (d & Hd & ->)%exec_Ok & H).
  apply res_bind_Ok in Hd as (lt & _ & Hd). destruct (head _) as [r|] eqn:Eh; [|done].
  injection Hd as _ <-. apply head_Some_elem_of in Eh. rewrite plan_perm in Eh.
  apply list_elem_of_filter in Eh as [Hmem Hr]. destruct failed; [done|]. injection H as <-.
  exists (send_withdrawal lt r). split_and!; [|done|by eexists]. simpl. apply elem_of_update_where.
  exists r. split; [done|]. by rewrite (proj2 (has_memo_true memo r) Hmem).
Qed.

(** The income of a sweep. *)
Definition received (i : InternalIncome) (memo : UUID) (d : DB) : Prop :=
  {| in_lt := ii_Lt i; in_utime := time_Unix (ii_Utime i); in_deposit_address := ii_From i;
     in_amount := ii_Amount i; in_memo := memo |} ∈ internal_incomes d.

Lemma received_evolves i memo d d' : evolves d d' → received i memo d → received i memo d'.
Proof. intros E H. by destruct (grows_elem _ _ _ _ (ev_internal_incomes _ _ E) H) as (r & Hr & <-). Qed.

Lemma SaveInternalIncome_received i memo (w w' : World O) :
  parse_memo (ii_Memo i) = Ok memo → SaveInternalIncome i w = (Ok tt, w') → received i memo (w_db w').
Proof.
  intros Hm H. apply st_bind_Ok in H as (m & w1 & H1 & H). rewrite Hm in H1. injection H1 as <- <-.
  apply exec_Ok in H as (d & H & ->). apply res_bind_Ok in H as (lt & [-> _]%bigint_Ok & H).
  apply res_bind_Ok in H as (t & [_ ->]%insert_unique_Ok & [= <-]). unfold received. simpl. set_solver.
Qed.

Lemma wrel_evolves (w w' : World O) : db_inv (w_db w) → wrel ledger w w' → evolves (w_db w) (w_db w').
Proof. intros I [H _]. apply H, I. Qed.
Lemma wrel_inv (w w' : World O) : db_inv (w_db w) → wrel ledger w w' → db_inv (w_db w').
Proof. intros I [H _]. apply H, I. Qed.

(** A loop of a block, with what one of its bodies establishes. *)
Lemma each_establishes {A} (f : A → ST (World O) unit) l x (P : DB → Prop) (w w' : World O) a :
  db_inv (w_db w) → w_tx w ≠ NoTx → (∀ x, db_ok (O:=O) ledger (f x)) →
  (∀ d d', evolves d d' → P d → P d') → each_st f l w = (Ok a, w') → x ∈ l →
  (∀ w1 w2, f x w1 = (Ok tt, w2) → P (w_db w2)) → P (w_db w').
Proof.
  intros I Ht Hf Hmono H Hx HP. destruct (each_ledger f l x w w' a Hf Ht H Hx) as (w1 & w2 & R1 & Hfx & R2).
  pose proof (wrel_inv _ _ I R1) as I1.
  assert (wrel ledger w1 w2) as R12 by (eapply Hf; [|exact Hfx]; intros Hn; by apply Ht, R1).
  eapply Hmono; [|by eapply HP]. apply wrel_evolves; [by eapply wrel_inv|done].
Qed.

(** What one list of a saved block establishes holds of the tables after it. *)
Lemma save_events_establishes e (w w' : World O) (P : DB → Prop) :
  db_inv (w_db w) → w_tx w = InTx → save_events e w = (Ok tt, w') →
  (∀ d d', evolves d d' → P d → P d') →
  ((∃ x, x ∈ InternalWithdrawals (be_Events e) ∧
     ∀ w1 w2 : World O, UpdateInternalWithdrawal x w1 = (Ok tt, w2) → P (w_db w2)) ∨
   (∃ x, x ∈ InternalIncomes (be_Events e) ∧
     ∀ w1 w2 : World O, SaveInternalIncome x w1 = (Ok tt, w2) → P (w_db w2)) ∨
   (∃ x, x ∈ SendingConfirmations (be_Events e) ∧
     ∀ w1 w2 : World O, ApplySendingConfirmations x w1 = (Ok tt, w2) → P (w_db w2))) →
  P (w_db w').
Proof.
  intros I Ht H Hmono Hx. assert (w_tx w ≠ NoTx) as Hn by (by rewrite Ht).
  assert (∀ {A} (m : ST (World O) A) v v' a, wrel ledger w v → db_ok ledger m → m v = (Ok a, v') →
    wrel ledger v v' ∧ wrel ledger w v' ∧ db_inv (w_db v) ∧ w_tx v ≠ NoTx) as Hstep.
  { intros A m v v' a R Hm E. assert (w_tx v ≠ NoTx) as Hv by (intros Hv; by apply Hn, R).
    pose proof (Hm _ _ _ Hv E) as R'. split_and!; [done|by etrans|by eapply wrel_inv|done]. }
  apply st_bind_Ok in H as ([] & w6 & H & Hb). unfold save_lists in H.
  apply st_bind_Ok in H as ([] & w1 & H1 & H). apply st_bind_Ok in H as ([] & w2 & H2 & H).
  apply st_bind_Ok in H as ([] & w3 & H3 & H). apply st_bind_Ok in H as ([] & w4 & H4 & H).
  apply st_bind_Ok in H as ([] & w5 & H5 & H6).
  apply Hstep in H1 as Q1; [destruct Q1 as (_ & R1 & _)|done|solve_saves].
  apply Hstep in H2 as Q2; [destruct Q2 as (S2 & R2 & I2 & T2)|done|solve_saves].
  apply Hstep in H3 as Q3; [destruct Q3 as (S3 & R3 & I3 & T3)|done|solve_saves].
  apply Hstep in H4 as Q4; [destruct Q4 as (S4 & R4 & I4 & T4)|done|solve_saves].
  apply Hstep in H5 as Q5; [destruct Q5 as (S5 & R5 & I5 & _)|done|solve_saves].
  apply Hstep in H6 as Q6; [destruct Q6 as (S6 & R6 & I6 & _)|done|solve_saves].
  apply Hstep in Hb as Q7; [destruct Q7 as (S7 & _ & I7 & _)|done|solve_saves].
  assert (wrel ledger w4 w') as Hend by (etrans; [exact S5|]; etrans; [exact S6|exact S7]).
  destruct Hx as [(x & Hx & HP)|[(x & Hx & HP)|(x & Hx & HP)]].
  - eapply Hmono; [exact (wrel_evolves _ _ I5 Hend)|].
    eapply each_establishes; [exact I4|exact T4| |exact Hmono|exact H4|exact Hx|exact HP].
    intros y. apply UpdateInternalWithdrawal_ledger.
  - eapply Hmono; [eapply wrel_evolves; [exact I3|etrans; [exact S3|]; etrans; [exact S4|exact Hend]]|].
    eapply each_establishes; [exact I2|exact T2| |exact Hmono|exact H2|exact Hx|exact HP].
    intros y. apply db_rel_ok, SaveInternalIncome_ledger.
  - eapply Hmono; [eapply wrel_evolves; [exact I4|etrans; [exact S4|exact Hend]]|].
    eapply each_establishes; [exact I3|exact T3| |exact Hmono|exact H3|exact Hx|exact HP].
    intros y. apply ApplySendingConfirmations_ledger.
Qed.
End rows.

(** ** The events *)

Section events.
Context `{TL : TvmLib} `{UL : UuidLib} `{GR : GoRuntime} `{PG : PgLib} `{WL : WalletLib}.
Context `{TW : !TonWalletLib} {O : Type}.
Context (book : option (gmap Address AddressInfo)).
Abbreviation ab := (book_ops book).

(** What a message from a TON deposit to the hot wallet reports. *)
Definition sweep_of (dst : Address) (msg : InternalMessage tonaddr Cell) : InternalWithdrawal := {|
  iw_Utime := im_CreatedAt msg; iw_Lt := im_CreatedLT msg; iw_From := dst;
  iw_Amount := NewCoins (im_Amount msg); iw_Memo := im_Comment msg; iw_IsFailed := false |}.

Lemma deposit_sweeps tx inMsg ms m e :
  processTonDepositWalletTX ab tx = Ok e → tx_In tx = Some (MsgTypeExternalIn inMsg) →
  out_messages tx = Ok ms → MsgTypeInternal m ∈ ms →
  GetWalletTypeByTonutilsAddress ab (im_DstAddr m) = Ok (Some TonHotWallet) →
  ∃ dst, sweep_of dst m ∈ InternalWithdrawals e.
Proof.
  unfold processTonDepositWalletTX. intros H Hin Hms Hm Hdst. rewrite Hin in H.
  replace (isTxSuccessful tx) with true in H by (unfold isTxSuccessful; by destruct (tx_Description tx)).
  simpl in H. apply res_bind_Ok in H as (dst & _ & H). rewrite Hms in H. simpl in H. exists dst.
  revert Hm. revert H. apply (for_res_inv (λ done e, MsgTypeInternal m ∈ done → sweep_of dst m ∈ InternalWithdrawals e)).
  { intros Hx. by apply elem_of_nil in Hx. }
  intros done o e1 e2 _ IH Ho [Hx|Hx]%elem_of_app.
  - specialize (IH Hx). destruct o as [msg| |]; try done.
    apply res_bind_Ok in Ho as (t & _ & Ho). case_decide.
    + injection Ho as <-. simpl. apply elem_of_app. by left.
    + do 2 apply res_bind_Ok in Ho as (? & _ & Ho). by injection Ho as <-.
  - apply list_elem_of_singleton in Hx as <-. simpl in Ho. simpl in Hdst. rewrite Hdst in Ho. simpl in Ho.
    injection Ho as <-. simpl. apply elem_of_app. right. apply list_elem_of_here.
Qed.

Lemma hot_receives tx m src dst e :
  processTonHotWalletTX ab tx = Ok e → tx_In tx = Some (MsgTypeInternal m) →
  AddressFromTonutilsAddress (im_SrcAddr m) = Ok src → AddressFromTonutilsAddress (im_DstAddr m) = Ok dst →
  GetWalletType ab src = Ok (Some TonDepositWallet) →
  internal_income m src dst (NewCoins (im_Amount m)) (im_Comment m) (negb (isTxSuccessful tx)) ∈ InternalIncomes e.
Proof.
  unfold processTonHotWalletTX, processTonHotWalletInternalInMsg. intros H Hin Hs Hd Ht.
  rewrite Hin, Hs, Hd in H. cbn [res_bind] in H. rewrite Ht in H. cbn [res_bind] in H. injection H as <-.
  apply list_elem_of_here.
Qed.

Context (ws : Wallet) (bc : Blockchain) (config : Config).
Context (notificators : list (incomeNotification → ST (World O) unit)).
Hypothesis publish_no_db : ∀ publish n, publish ∈ notificators → preserves no_db (publish n).

(** The block of the header [h] holds the transaction [tx] of the account [a],
    a wallet of the type [t]. *)
Definition held (t : WalletType) (h : ShardBlockHeader) (a : Address) (tx : Transaction tonaddr Cell) : Prop :=
  ∃ b ids id, sb_BlockIDExt h = Some b ∧ GetTransactionIDsFromBlock bc (Some b) = Ok ids ∧ id ∈ ids ∧
    ti_Account id = Value a ∧ ab_GetWalletType book a = Ok (Some t) ∧
    GetTransactionFromBlock bc (Some b) id = Ok tx.

(** Processing a block either stores nothing or saves the events of the
    transactions it holds. *)
Lemma held_saved t h a tx (v v' : World O) (P : DB → Prop) :
  db_inv (w_db v) → held t h a tx → processBlock ab ws bc config notificators h v = (Ok tt, v') →
  (∀ d d', evolves d d' → P d → P d') →
  (∀ g e' e, ts_WalletType g = Some t → tx ∈ ts_Transactions g → process_group ab ws h g = Ok e' → among e' (be_Events e) →
     (∃ x, x ∈ InternalWithdrawals (be_Events e) ∧
        ∀ w1 w2 : World O, UpdateInternalWithdrawal x w1 = (Ok tt, w2) → P (w_db w2)) ∨
     (∃ x, x ∈ InternalIncomes (be_Events e) ∧
        ∀ w1 w2 : World O, SaveInternalIncome x w1 = (Ok tt, w2) → P (w_db w2)) ∨
     (∃ x, x ∈ SendingConfirmations (be_Events e) ∧
        ∀ w1 w2 : World O, ApplySendingConfirmations x w1 = (Ok tt, w2) → P (w_db w2))) →
  w_db v' = w_db v ∨ P (w_db v').
Proof.
  intros I (b & ids & id & Hb & Hids & Hid & Hacc & Ht & Htx) H Hmono Hev.
  apply (processBlock_Ok ab ws bc config notificators publish_no_db) in H
    as (e & He & [H|(w1 & w2 & H1 & Htx1 & Hs & H2)]); [by left|right|congruence].
  destruct (account_events book ws bc b h ids e a t id tx) as (g & e' & Hg & Hmem & Hp & Hsub); [done..|].
  rewrite H2. eapply save_events_establishes; [|exact Htx1|exact Hs|exact Hmono|by eapply Hev]. by rewrite H1.
Qed.

(** A sweep is settled when the deposit's side of it is seen on the chain.
    The block holds a transaction of a TON deposit, started from outside, with a
    message to the hot wallet that carries the identifier of an internal
    withdrawal; once the block has been processed, either nothing is stored, or
    that withdrawal is in the tables as sent and finished. *)
Theorem sweep_settles b h ids a id tx inMsg ms m memo (w w' : World O) :
  db_inv (w_db w) → sb_BlockIDExt h = Some b → GetTransactionIDsFromBlock bc (Some b) = Ok ids →
  id ∈ ids → ti_Account id = Value a → GetWalletType ab a = Ok (Some TonDepositWallet) →
  GetTransactionFromBlock bc (Some b) id = Ok tx → tx_In tx = Some (MsgTypeExternalIn inMsg) →
  out_messages tx = Ok ms → MsgTypeInternal m ∈ ms →
  GetWalletTypeByTonutilsAddress ab (im_DstAddr m) = Ok (Some TonHotWallet) →
  parse_memo (im_Comment m) = Ok memo →
  processBlock ab ws bc config notificators h w = (Ok tt, w') →
  w_db w' = w_db w ∨ swept memo (w_db w').
Proof.
  intros I Hb Hids Hid Hacc Ha Htx Hin Hms Hm Hdst Hmemo H.
  eapply (held_saved TonDepositWallet h a tx); [exact I|by exists b, ids, id|exact H|intros d d'; apply swept_evolves|].
  intros g e' e Hg Hmem Hp Hsub. left. unfold process_group in Hp. rewrite Hg in Hp.
  destruct (collected _ _ _ _ Hp Hmem) as (e2 & H2 & Hsub2).
  destruct (deposit_sweeps tx inMsg ms m e2) as [dst Hsw]; [done..|].
  exists (sweep_of dst m). split; [by apply (am_sweep _ _ Hsub), (am_sweep _ _ Hsub2)|].
  intros v v' Hv. by eapply (UpdateInternalWithdrawal_swept _ memo) in Hv as [? _].
Qed.

(** C11. A sweep is credited when the hot wallet's side of it is seen on the
    chain: the block holds a transaction of the hot wallet that a message of a
    TON deposit started; once the block has been processed, either nothing is
    stored, or the internal income is in the tables, with the amount, the logical
    time, the deposit and the identifier of the message. *)
Theorem sweep_received b h ids hot id tx m src dst memo (w w' : World O) :
  db_inv (w_db w) → sb_BlockIDExt h = Some b → GetTransactionIDsFromBlock bc (Some b) = Ok ids →
  id ∈ ids → ti_Account id = Value hot → ab_GetWalletType book hot = Ok (Some TonHotWallet) →
  GetTransactionFromBlock bc (Some b) id = Ok tx → tx_In tx = Some (MsgTypeInternal m) →
  AddressFromTonutilsAddress (im_SrcAddr m) = Ok src → AddressFromTonutilsAddress (im_DstAddr m) = Ok dst →
  GetWalletType ab src = Ok (Some TonDepositWallet) → parse_memo (im_Comment m) = Ok memo →
  processBlock ab ws bc config notificators h w = (Ok tt, w') →
  w_db w' = w_db w ∨
  ∃ r, r ∈ internal_incomes (w_db w') ∧ in_memo r = memo ∧ in_lt r = im_CreatedLT m ∧
    in_deposit_address r = src ∧ in_amount r = im_Amount m.
Proof.
  intros I Hb Hids Hid Hacc Ha Htx Hin Hsrc Hdst Ht Hmemo H.
  set (i := internal_income m src dst (NewCoins (im_Amount m)) (im_Comment m) (negb (isTxSuccessful tx))).
  assert (w_db w' = w_db w ∨ received i memo (w_db w')) as [?|Hr]; [|by left|right; eexists; split; [exact Hr|done]].
  eapply (held_saved TonHotWallet h hot tx); [exact I|by exists b, ids, id|exact H|intros d d'; apply received_evolves|].
  intros g e' e Hg Hmem Hp Hsub. right; left. unfold process_group in Hp. rewrite Hg in Hp.
  destruct (collected _ _ _ _ Hp Hmem) as (e2 & H2 & Hsub2). exists i. split.
  - apply (am_internal _ _ Hsub), (am_internal _ _ Hsub2). by eapply hot_receives.
  - intros v v' Hv. by eapply SaveInternalIncome_received.
Qed.
End events.
