(* ===== verification/Follow.v ===== *)
(** * Payments and sweeps followed from the processor to the scanner

    What a pass of the withdrawal processor sends, and what the scanner makes
    of it when the chain shows it: the rows that the pass recorded before sending
    are the ones that the block settles. *)

From S2P Require Import Prelude TonUtils Config Models Core Db AddressBook Repository.
From S2P Require Import WithdrawalRepository Ledger BlockScanner BlockScannerFacts Saving.
From S2P Require Import Messages Processor ProcessorFacts Sending.
From S2P Require Import Acceptance Settlement Sweeps.

Local Open Scope string_scope.
Local Open Scope list_scope.
Local Open Scope Z_scope.

(** ** What the library does with a message

    A message of a wallet as the chain delivers it, with its comment. *)

Section library.
Context `{TL : TvmLib}.

Definition delivers (x : WalletMessage tonaddr Cell) (im : InternalMessage tonaddr Cell) : Prop :=
  im_DstAddr im = Some (om_DstAddr (wm_Message x)) ∧
  match om_Body (wm_Message x) with
  | None => im_Comment im = ""
  | Some c => ∀ s, EndCell (comment_stores s) = Ok c → im_Comment im = s
  end.
End library.

(** ** The messages of a batch *)

Section batch.
Context `{TL : TvmLib} `{UL : UuidLib} `{PG : PgLib} `{GR : GoRuntime} `{TW : !TonWalletLib} {O : Type}.
Abbreviation DBM := (ST (World O)).
Context (config : Config) (ab : AddressBook) (bc : Blockchain) (ws : Wallet).
Context (repo : WithdrawalRepo O) (Int63 : DBM Z).

(** The message [m] to the proxy of a jetton deposit, which makes it send
    [inner] to its jetton wallet: all its jettons, for the hot wallet, with the
    identifier of the withdrawal. *)
Definition jetton_sweep (i : internalWithdrawal) (inner : OutMessage tonaddr Cell)
    (m : WalletMessage tonaddr Cell) : Prop :=
  ∃ p n rnd payload, NewJettonProxy (it_SubwalletID (inw_Task i)) (Some (hot_address ws)) = Ok p ∧
    GetLastJettonBalance ws (ToTonutilsAddressStd 0 (it_From (inw_Task i))) = Ok n ∧
    makeJettonTransferMessage (hot_address ws) (hot_address ws) n JettonForwardAmount rnd
      (uuid_String (inw_Memo i)) = Ok payload ∧
    inner = BuildMessage (ToTonutilsAddressStd 0 (it_From (inw_Task i))) payload ∧ to_proxy p inner = Ok m.

(** Every payment of the batch is to an outside address and has its message;
    every sweep has its message. *)
Definition messaged (r : withdrawals) : Prop :=
  (∀ t, t ∈ w_External r → GetWalletType ab (et_Destination t) = Ok None ∧
     ∃ m, m ∈ w_Messages r ∧ buildExternalWithdrawalMessage ws t = Ok m) ∧
  ∀ i, i ∈ w_Internal r → ∃ inner m, m ∈ w_Messages r ∧ jetton_sweep i inner m.

Lemma messaged_add ms il s r :
  (∀ i, i ∈ il → ∃ inner m, m ∈ ms ∧ jetton_sweep i inner m) →
  messaged r → messaged (add_message ms [] il s r).
Proof.
  intros Hi [H1 H2]. split; simpl.
  - intros t Ht. rewrite app_nil_r in Ht. destruct (H1 t Ht) as (? & x & Hx & ?). split; [done|].
    exists x. split; [set_solver|done].
  - intros i [Hin|Hin]%elem_of_app; [destruct (H2 i Hin) as (inner & m & ? & ?)|destruct (Hi i Hin) as (inner & m & ? & ?)];
      exists inner, m; (split; [set_solver|done]).
Qed.

Lemma messaged_external m t r :
  GetWalletType ab (et_Destination t) = Ok None → buildExternalWithdrawalMessage ws t = Ok m →
  messaged r → messaged (add_external m t r).
Proof.
  intros Ht Hm [H1 H2]. split; simpl.
  - intros x [Hx|Hx]%elem_of_app.
    + destruct (H1 x Hx) as (? & y & Hy & ?). split; [done|]. exists y. split; [set_solver|done].
    + apply list_elem_of_singleton in Hx as ->. split; [done|]. exists m. split; [set_solver|done].
  - intros i. rewrite app_nil_r. intros (inner & y & ? & ?)%H2. exists inner, y. split; [set_solver|done].
Qed.

Lemma service_turn_messaged b t (w w' : World O) b' :
  service_turn ab bc ws repo Int63 b t w = (Ok b', w') → messaged (bt_res b) → messaged (bt_res b').
Proof.
  intros H Hb. unfold service_turn in H. apply st_bind_Ok in H as ([low bal] & w1 & _ & H).
  destruct low; [by injection H as <- _|]. apply st_bind_Ok in H as ([msg sw] & w2 & _ & H).
  case_decide; [injection H as <- _; apply messaged_add; [|done]; intros i Hi; by apply elem_of_nil in Hi|].
  do 2 apply st_bind_Ok in H as (? & ? & _ & H). by injection H as <- _.
Qed.

Lemma internal_message t (w w' : World O) ms memo :
  buildJettonInternalWithdrawalMessage config ws Int63 t w = (Ok (ms, memo), w') → length ms ≠ 0%nat →
  ∃ inner m, m ∈ ms ∧ jetton_sweep {| inw_Memo := memo; inw_Task := t |} inner m.
Proof.
  intros H Hl. unfold buildJettonInternalWithdrawalMessage in H. apply st_bind_Ok in H as (p & ? & Hp & H).
  injection Hp as Hp _. apply st_bind_Ok in H as (n & ? & Hn & H). injection Hn as Hn _.
  destruct (cfg_Jettons config !! _) as [j|]; [|done]. case_decide; [|by injection H as <- _ _].
  apply st_bind_Ok in H as (u & ? & _ & H). apply st_bind_Ok in H as (rnd & ? & _ & H).
  apply st_bind_Ok in H as (y & ? & Hy & H). injection Hy as Hy _. injection H as <- <- _.
  apply res_bind_Ok in Hy as (payload & Hb & Hy). eexists _, y. split; [set_solver|].
  by exists p, n, rnd, payload.
Qed.

Lemma internal_loop_messaged b ts (w w' : World O) b' :
  internal_loop config ws Int63 b ts w = (Ok b', w') → messaged (bt_res b) → messaged (bt_res b').
Proof.
  revert b w. induction ts as [|t ts IH]; intros b w H Hb; simpl in H; [by injection H as <- _|].
  case_decide; [by injection H as <- _|].
  apply st_bind_Ok in H as ([low bal] & w1 & _ & H). destruct low; [by eapply IH in H|].
  apply st_bind_Ok in H as ([msg memo] & w2 & Hm & H). eapply IH; [exact H|].
  case_decide as Hl; [|done]. apply messaged_add; [|done]. intros i ->%list_elem_of_singleton.
  by eapply internal_message.
Qed.

Lemma external_loop_messaged b ts (w w' : World O) b' :
  external_loop ab ws b ts w = (Ok b', w') → messaged (bt_res b) → messaged (bt_res b').
Proof.
  revert b w. induction ts as [|t ts IH]; intros b w H Hb; simpl in H; [by injection H as <- _|].
  case_decide; [by injection H as <- _|].
  apply st_bind_Ok in H as (ty & w1 & Ht & H). injection Ht as Ht <-.
  destruct ty; [by eapply IH in H|].
  apply st_bind_Ok in H as ([low bal] & w2 & _ & H). destruct low; [by eapply IH in H|].
  apply st_bind_Ok in H as (m & w3 & Hm & H). injection Hm as Hm <-. eapply IH; [exact H|].
  by apply messaged_external.
Qed.

Lemma build_messaged (w w' : World O) wd :
  buildWithdrawalMessages config ab bc ws repo Int63 w = (Ok wd, w') → messaged wd.
Proof.
  intros H. unfold buildWithdrawalMessages in H. do 2 apply st_bind_Ok in H as (? & ? & _ & H).
  apply st_bind_Ok in H as (b1 & w3 & H1 & H). apply st_bind_Ok in H as (? & ? & _ & H).
  apply st_bind_Ok in H as (b2 & w5 & H2 & H). apply st_bind_Ok in H as (? & ? & _ & H).
  apply st_bind_Ok in H as (b3 & w7 & H3 & H). injection H as <- _.
  eapply external_loop_messaged; [exact H3|]. eapply internal_loop_messaged; [exact H2|].
  revert H1. apply (for_st_inv (λ _ b, messaged (bt_res b))).
  - split; intros t Ht; by apply elem_of_nil in Ht.
  - intros done t b b' s s' _ Hb Hturn. by eapply service_turn_messaged.
Qed.

(** ** What the scanner reads of it *)

Context `{LW : !TvmLaws} `{ML : !MessageLaws} `{ALW : !AddrLaws}.

Lemma batch_addresses_all cs acc s :
  batch_addresses acc cs = Ok (Some s) →
  acc ⊆ s ∧ ∀ c a, c ∈ cs → batch_address c = Ok (Some a) → a ∈ s.
Proof.
  revert acc. induction cs as [|c cs IH]; intros acc H; simpl in H.
  - injection H as <-. split; [done|]. intros c a Hc. by apply elem_of_nil in Hc.
  - apply res_bind_Ok in H as ([a|] & Ha & H); [|done]. case_decide; [done|].
    apply IH in H as [Hsub H]. split; [set_solver|]. intros c' a' [->|Hc]%elem_of_cons Ha'; [|by eapply H].
    rewrite Ha in Ha'. injection Ha' as <-. set_solver.
Qed.

(** The scanner finds every payment of a batch among the addresses of its
    message. *)
Lemma parsed_payments msg info u addrs wd t :
  getHighLoadWalletExtMsgInfo msg = Ok info → Forall2 wraps (w_Messages wd) (hi_Messages info) →
  parseExternalMessage (Some msg) = Ok (Some (u, addrs)) → messaged wd →
  t ∈ w_External wd → 0 ≤ et_Amount t → u = hi_UUID info ∧ et_Destination t ∈ addrs.
Proof.
  intros Hi Hw Hp Hm Ht Ha. unfold parseExternalMessage in Hp. rewrite Hi in Hp. simpl in Hp.
  apply res_bind_Ok in Hp as ([s|] & Hb & [= <- <-]). split; [done|].
  destruct (proj1 Hm t Ht) as (_ & m & Hin & Hbuild). apply list_elem_of_lookup in Hin as [i Hi'].
  eapply Forall2_lookup_l in Hw as (c & Hc & Hwr); [|exact Hi'].
  apply batch_addresses_all in Hb as [_ Hb]. eapply Hb; [by eapply list_elem_of_lookup_2|].
  eapply payment_counted; [exact Ha|exact Hbuild|exact Hwr].
Qed.
End batch.

(** ** A payment *)

Section payment.
Context `{TL : TvmLib} `{UL : UuidLib} `{PG : PgLib} `{GR : GoRuntime} `{WL : WalletLib}.
Context `{TW : !TonWalletLib} `{LW : !TvmLaws} `{ML : !MessageLaws} `{ALW : !AddrLaws} {O : Type}.
Context (config : Config) (book : option (gmap Address AddressInfo)) (ws : Wallet).
(** The node as the processor and the scanner find it. *)
Context (bc bcs : Blockchain).
Abbreviation ab := (book_ops book).
Context (cold : option tonaddr) (Int63 : ST (World O) Z).
Context (BuildMessageForMany : list (WalletMessage tonaddr Cell) → ST (World O) (ExternalMessage tonaddr Cell)).
Context (SendExternalMessage : ExternalMessage tonaddr Cell → ST (World O) unit).
Context (sent : ExternalMessage tonaddr Cell → O).
Context (notificators : list (incomeNotification → ST (World O) unit)).
Hypothesis Int63_quiet : preserves (same_out (O:=O)) Int63.
Hypothesis Build_quiet : ∀ l, preserves (same_out (O:=O)) (BuildMessageForMany l).
Hypothesis Send_out : ∀ m w, w_db (SendExternalMessage m w).2 = w_db w ∧
  (w_out (SendExternalMessage m w).2 = w_out w ∨
   w_out (SendExternalMessage m w).2 = w_out w ++ [sent m]).
Hypothesis Build_wraps : ∀ l w msg w' info, BuildMessageForMany l w = (Ok msg, w') →
  getHighLoadWalletExtMsgInfo msg = Ok info → Forall2 wraps l (hi_Messages info).
Hypothesis publish_no_db : ∀ publish n, publish ∈ notificators → preserves no_db (publish n).

(** The block of the header [h] holds the transaction [tx] of the hot wallet
    that the message [msg] started. *)
Definition executed (msg : ExternalMessage tonaddr Cell) (h : ShardBlockHeader)
    (tx : Transaction tonaddr Cell) : Prop :=
  ∃ b ids hot id inMsg, sb_BlockIDExt h = Some b ∧ GetTransactionIDsFromBlock bcs (Some b) = Ok ids ∧
    id ∈ ids ∧ ti_Account id = Value hot ∧ ab_GetWalletType book hot = Ok (Some TonHotWallet) ∧
    GetTransactionFromBlock bcs (Some b) id = Ok tx ∧ tx_In tx = Some (MsgTypeExternalIn inMsg) ∧
    em_Payload inMsg = em_Payload msg.

Lemma parse_payload (m m' : ExternalMessage tonaddr Cell) :
  em_Payload m = em_Payload m' → parseExternalMessage (Some m) = parseExternalMessage (Some m').
Proof. intros E. unfold parseExternalMessage, getHighLoadWalletExtMsgInfo. by rewrite E. Qed.

(** The scanner accepts the message of a transaction it processes. *)
Lemma accepted b h ids e hot id tx inMsg :
  sb_BlockIDExt h = Some b → GetTransactionIDsFromBlock bcs (Some b) = Ok ids →
  parse_block ab ws bcs h = Ok e → id ∈ ids → ti_Account id = Value hot →
  ab_GetWalletType book hot = Ok (Some TonHotWallet) → GetTransactionFromBlock bcs (Some b) id = Ok tx →
  tx_In tx = Some (MsgTypeExternalIn inMsg) →
  ∃ u addrs ms, parseExternalMessage (Some inMsg) = Ok (Some (u, addrs)) ∧ out_messages tx = Ok ms.
Proof.
  intros Hb Hids He Hid Hacc Hhot Htx Hext.
  destruct (hot_events book ws bcs b h ids e hot id tx) as (e' & Hx & _); [done..|].
  unfold processTonHotWalletTX in Hx. rewrite Hext in Hx. unfold processTonHotWalletExternalInMsg in Hx.
  apply res_bind_Ok in Hx as ([[u addrs]|] & Hp & Hx); [|done].
  apply res_bind_Ok in Hx as (ms & Hms & _). by exists u, addrs, ms.
Qed.

(** A row of a later table under the key of an earlier one. *)
Lemma external_later d d' r r' :
  evolves d d' → db_inv d' → r ∈ external_withdrawals d → r' ∈ external_withdrawals d' →
  xw_msg_uuid r' = xw_msg_uuid r → xw_address r' = xw_address r → xw_query_id r' = xw_query_id r.
Proof.
  intros E I Hr Hr' Hu Ha. destruct (grows_elem _ _ _ _ (ev_external _ _ E) Hr) as (x & Hx & S).
  assert (r' = x) as ->; [|by apply (xws_query _ _ S)].
  eapply (NoDup_map_eq (λ r, (xw_msg_uuid r, xw_address r)) (external_withdrawals d')); [apply I|done..|].
  by rewrite (xws_uuid _ _ S), (xws_address _ _ S), Hu, Ha.
Qed.

(** A payment followed from the processor to the scanner. A pass sends at
    most one message. When it does, every payment of its batch is to an outside
    address and was recorded before, under the identifier of the message; and
    whatever happens to the tables in between, once a block has been processed
    that holds the transaction the message started, either nothing is stored, or
    the withdrawal of each payment, that of its request, is marked: as processed
    when an out message of the transaction pays the destination and as failed
    when none does. *)
Theorem payment_followed (w w1 : World O) r :
  withdrawals_pass config ab bc ws withdrawal_repo cold Int63 BuildMessageForMany SendExternalMessage w = (r, w1) →
  w_out w1 = w_out w ∨
  ∃ wd msg info, w_out w1 = w_out w ++ [sent msg] ∧ getHighLoadWalletExtMsgInfo msg = Ok info ∧
    (∃ v1 v2, buildWithdrawalMessages config ab bc ws withdrawal_repo Int63 v1 = (Ok wd, v2)) ∧
    ∀ t, t ∈ w_External wd → 0 ≤ et_Amount t →
      ab_GetWalletType book (et_Destination t) = Ok None ∧
      new_external (hi_UUID info) (hi_TTL info) t ∈ external_withdrawals (w_db w1) ∧
      ∀ (v v' : World O) h tx, evolves (w_db w1) (w_db v) → db_inv (w_db v) → executed msg h tx →
        processBlock ab ws bcs config notificators h v = (Ok tt, v') →
        w_db v' = w_db v ∨
        ∃ x ms, x ∈ external_withdrawals (w_db v') ∧ out_messages tx = Ok ms ∧
          xw_query_id x = et_QueryID t ∧ xw_msg_uuid x = hi_UUID info ∧ xw_address x = et_Destination t ∧
          ((∃ m, m ∈ ms ∧ pays book m (et_Destination t)) → is_Some (xw_processed_lt x)) ∧
          ((¬ ∃ m, m ∈ ms ∧ pays book m (et_Destination t)) → xw_failed x = true).
Proof.
  intros H. apply (sent_is_recorded config ab bc ws cold Int63 BuildMessageForMany SendExternalMessage sent
    Int63_quiet Build_quiet Send_out) in H
    as [H|(wd & msg & info & Hout & (v1 & v2 & Hwd) & (v3 & v4 & Hmsg) & Hi & Hx & _)]; [by left|right].
  pose proof (build_messaged _ _ _ _ _ _ _ _ _ Hwd) as Hm. pose proof (Build_wraps _ _ _ _ _ Hmsg Hi) as Hw.
  exists wd, msg, info. split_and!; [done|done|by eexists _, _|]. intros t Ht Hamount.
  destruct (proj1 Hm t Ht) as [Hdst _]. specialize (Hx t Ht). split_and!; [done|done|].
  intros v v' h tx Ev Iv (b & ids & hot & id & inMsg & Hb & Hids & Hid & Hacc & Hhot & Htx & Hext & Hpay) Hblock.
  apply (processBlock_Ok ab ws bcs config notificators publish_no_db) in Hblock
    as (e & He & [Hblock|(s1 & s2 & Hs1 & Htx1 & Hs & Hs2)]); [by left|right|congruence].
  destruct (accepted b h ids e hot id tx inMsg) as (u & addrs & ms & Hp & Hms); [done..|].
  pose proof Hp as Hp'. rewrite (parse_payload _ _ Hpay) in Hp'.
  destruct (parsed_payments ab ws msg info u addrs wd t) as [-> Hin]; [done..|].
  destruct (saved_settles book ws bcs b h ids e hot id tx inMsg (hi_UUID info) addrs ms (et_Destination t) s1 s2)
    as (x & Hxin & Hu & Hxa & Hok & Hfail); [done..|].
  assert (wrel ledger s1 s2) as [L _] by (eapply save_events_ledger; [by rewrite Htx1|exact Hs]).
  rewrite Hs1 in L. destruct (L Iv) as (Iv' & Ev' & _).
  exists x, ms. rewrite Hs2. split_and!; try done.
  by eapply (external_later (w_db w1) (w_db s2) _ x (transitivity Ev Ev') Iv' Hx).
Qed.
End payment.

(** ** A sweep *)

Lemma try_state {S A} (m : ST S A) s : ((do! _ <- st_try m; st_ret tt)%go s).2 = (m s).2.
Proof. unfold st_bind, st_try. by destruct (m s) as [[] ?]. Qed.

Section sweep.
Context `{TL : TvmLib} `{UL : UuidLib} `{PG : PgLib} `{GR : GoRuntime} `{WL : WalletLib}.
Context `{TW : !TonWalletLib} {O : Type}.
Context (config : Config) (book : option (gmap Address AddressInfo)) (ws : Wallet) (bc bcs : Blockchain).
Abbreviation ab := (book_ops book).
Context (Int63 : ST (World O) Z) (wallet_Send : TonWallet → WalletMessage tonaddr Cell → ST (World O) unit).
Context (sent : TonWallet → WalletMessage tonaddr Cell → O).
Hypothesis Int63_quiet : ∀ w, w_db (Int63 w).2 = w_db w ∧ w_out (Int63 w).2 = w_out w.
Hypothesis Send_out : ∀ t m w, w_db (wallet_Send t m w).2 = w_db w ∧
  (w_out (wallet_Send t m w).2 = w_out w ∨ w_out (wallet_Send t m w).2 = w_out w ++ [sent t m]).

(** What the loop of the deposits sends: a sweep that is recorded in the tables
    [d], or the jettons of a service withdrawal. *)
Definition sweep_sent (d : DB) (x : TonWallet * WalletMessage tonaddr Cell) (task : InternalWithdrawalTask)
    (memo : UUID) : Prop :=
  GetSubwallet (TonBasicWalletOf ws) (it_SubwalletID task) = Some x.1 ∧
  withdraw_ton_message (hot_address ws) (uuid_String memo) = Ok x.2 ∧
  ∃ expired, new_internal task expired memo ∈ internal_withdrawals d.

Definition jettons_sent (x : TonWallet * WalletMessage tonaddr Cell) : Prop :=
  ∃ task jettonWallet rnd, GetSubwallet (TonBasicWalletOf ws) (st_SubwalletID task) = Some x.1 ∧
    withdraw_jetton_message (hot_address ws) jettonWallet 0 (st_JettonAmount task)
      (uuid_String (st_Memo task)) rnd = Ok x.2.

(** From [w] to [w'] only such messages are sent, and no withdrawal is lost. *)
Definition sends (w w' : World O) : Prop :=
  internal_withdrawals (w_db w) ⊆ internal_withdrawals (w_db w') ∧
  ∃ l, w_out w' = w_out w ++ map (λ x, sent x.1 x.2) l ∧
    ∀ x, x ∈ l → jettons_sent x ∨ ∃ task memo, sweep_sent (w_db w') x task memo.

#[local] Instance sends_preorder : PreOrder sends.
Proof.
  split.
  - intros w. split; [done|]. exists []. rewrite app_nil_r. split; [done|]. intros x Hx. by apply elem_of_nil in Hx.
  - intros w1 w2 w3 [S1 (l1 & O1 & H1)] [S2 (l2 & O2 & H2)]. split; [by etrans|]. exists (l1 ++ l2).
    rewrite O2, O1, map_app, app_assoc. split; [done|]. intros x [Hx|Hx]%elem_of_app; [|by apply H2].
    destruct (H1 x Hx) as [?|(task & memo & ? & ? & e & Hin)]; [by left|right].
    exists task, memo. split_and!; [done..|]. exists e. by apply S2.
Qed.

Lemma sends_nothing (w w' : World O) :
  internal_withdrawals (w_db w) ⊆ internal_withdrawals (w_db w') → w_out w' = w_out w → sends w w'.
Proof.
  intros H Ho. split; [done|]. exists []. rewrite app_nil_r. split; [done|].
  intros x Hx. by apply elem_of_nil in Hx.
Qed.

Lemma preserves_sends {A} (m : ST (World O) A) :
  preserves (same_out (O:=O)) m → db_rel (O:=O) kept m → preserves sends m.
Proof. intros Hq Hk w. destruct (Hk w) as [[_ Hi] _]. apply sends_nothing; [done|apply Hq]. Qed.

Lemma preserves_checked {A B} (r : res A) (k : A → ST (World O) B) :
  (∀ a, r = Ok a → preserves sends (k a)) → preserves sends (st_bind (st_lift r) k).
Proof. intros H w. unfold st_bind, st_lift. destruct r as [a| | |]; [by apply H|reflexivity..]. Qed.

(** A wallet sends its message, once what it is for is established. *)
Lemma wallet_sends sub m (w : World O) :
  jettons_sent (sub, m) ∨ (∃ task memo, sweep_sent (w_db w) (sub, m) task memo) →
  sends w (wallet_Send sub m w).2.
Proof.
  intros H. destruct (Send_out sub m w) as [Hdb [Ho|Ho]]; [by apply sends_nothing; rewrite ?Hdb|].
  split; [by rewrite Hdb|]. exists [(sub, m)]. split; [done|]. intros x ->%list_elem_of_singleton. by rewrite Hdb.
Qed.

Lemma withdrawTONs_sends task :
  preserves sends (withdrawTONsFromDeposit config bc ws withdrawal_repo wallet_Send task).
Proof.
  unfold withdrawTONsFromDeposit, WithdrawTON. cbn [r_SaveInternalWithdrawalTask withdrawal_repo].
  apply preserves_checked. intros sub Hsub%of_option_Ok. do 2 (apply preserves_checked; intros ? _).
  case_match. case_decide; [apply preserves_ret, _|]. case_decide; [|apply preserves_ret, _].
  apply preserves_bind; [apply _|apply preserves_sends; [apply quiet_NewV4|apply db_rel_NewV4, _]|]. intros memo.
  apply preserves_bind; [apply _|apply preserves_sends; [apply quiet_now|apply db_rel_now, _]|]. intros t.
  intros w. unfold st_bind at 1. destruct (SaveInternalWithdrawalTask _ _ _ w) as [ro w1] eqn:E.
  assert (sends w w1) as Hw.
  { pose proof (preserves_sends _ (quiet_SaveInternal task (t + ExternalMessageLifetime) memo)
      (SaveInternal_kept _ _ _) w) as Hs. by rewrite E in Hs. }
  destruct ro as [[]| | |]; try done. etrans; [exact Hw|]. apply SaveInternal_row in E. rewrite try_state.
  unfold st_bind, st_lift. destruct (withdraw_ton_message _ _) as [m| | |] eqn:Em; [|reflexivity..].
  apply wallet_sends. right. exists task, memo. split_and!; [done..|by eexists].
Qed.

Lemma serviceWithdraw_sends task :
  preserves sends (serviceWithdrawJettons bc ws withdrawal_repo Int63 wallet_Send task).
Proof.
  unfold serviceWithdrawJettons, WithdrawJetton. cbn [r_UpdateServiceWithdrawalRequest withdrawal_repo].
  apply preserves_checked. intros sub Hsub%of_option_Ok. do 2 (apply preserves_checked; intros ? _).
  case_match. case_decide; [apply preserves_ret, _|]. do 2 (apply preserves_checked; intros ? _).
  apply preserves_bind; [apply _|apply preserves_sends; [apply quiet_now|apply db_rel_now, _]|]. intros t.
  apply preserves_bind; [apply _|apply preserves_sends; [apply quiet_UpdateService|apply UpdateService_kept]|].
  intros []. apply preserves_bind; [apply _|apply preserves_try|intros; apply preserves_ret, _].
  apply preserves_bind; [apply _| |].
  - intros w. destruct (Int63_quiet w) as [Hd Ho]. by apply sends_nothing; rewrite ?Hd.
  - intros rnd. apply preserves_checked. intros m Hm w. apply wallet_sends. left. by eexists _, _, _.
Qed.

Lemma internal_pass_sends : preserves sends (internal_ton_pass config bc ws withdrawal_repo Int63 wallet_Send).
Proof.
  assert (∀ {A} (f : DB → res A), preserves sends (query f)) as Hq.
  { intros A f. apply preserves_sends; [apply query_same_out|apply db_rel_query, _]. }
  unfold internal_ton_pass.
  apply preserves_bind; [apply _|apply preserves_try, Hq|]. intros tasks.
  apply preserves_bind; [apply _| |intros _; apply preserves_bind; [apply _|apply preserves_fatal, Hq|]].
  - apply preserves_each; [apply _|]. intros t _. apply preserves_bind; [apply _| |intros; apply preserves_ret, _].
    apply preserves_try, serviceWithdraw_sends.
  - intros ts. apply preserves_each; [apply _|]. intros t _.
    apply preserves_bind; [apply _| |intros; apply preserves_ret, _]. apply preserves_try, withdrawTONs_sends.
Qed.

(** A delivered sweep carries the identifier of its withdrawal to the hot
    wallet. *)
Lemma delivered_sweep memo m im :
  withdraw_ton_message (hot_address ws) (uuid_String memo) = Ok m → delivers m im →
  im_DstAddr im = Some (hot_address ws) ∧ im_Comment im = uuid_String memo.
Proof.
  unfold withdraw_ton_message. intros (body & Hb & [= <-])%res_bind_Ok [Hd Hc]. simpl in *. split; [done|].
  case_decide as E; [injection Hb as <-; congruence|].
  apply res_bind_Ok in Hb as (c & Hb & [= <-]). unfold buildComment, or_fatal in Hb.
  destruct (EndCell _) as [c'| | |] eqn:Ec; try done. injection Hb as <-. by apply Hc.
Qed.

Context `{ULW : !UuidLaws} (notificators : list (incomeNotification → ST (World O) unit)).
Hypothesis publish_no_db : ∀ publish n, publish ∈ notificators → preserves no_db (publish n).
Hypothesis hot_known : GetWalletTypeByTonutilsAddress ab (Some (hot_address ws)) = Ok (Some TonHotWallet).

(** The block of the header [h] holds a transaction of a TON deposit, started
    from outside, that sends the message [m]. *)
Definition sweep_seen (m : WalletMessage tonaddr Cell) (h : ShardBlockHeader) : Prop :=
  ∃ b ids a id tx inMsg ms im, sb_BlockIDExt h = Some b ∧ GetTransactionIDsFromBlock bcs (Some b) = Ok ids ∧
    id ∈ ids ∧ ti_Account id = Value a ∧ GetWalletType ab a = Ok (Some TonDepositWallet) ∧
    GetTransactionFromBlock bcs (Some b) id = Ok tx ∧ tx_In tx = Some (MsgTypeExternalIn inMsg) ∧
    out_messages tx = Ok ms ∧ MsgTypeInternal im ∈ ms ∧ delivers m im.

Lemma processBlock_evolves h (v v' : World O) :
  sb_BlockIDExt h ≠ None → db_inv (w_db v) →
  processBlock ab ws bcs config notificators h v = (Ok tt, v') → db_inv (w_db v') ∧ evolves (w_db v) (w_db v').
Proof.
  intros Hh I H. apply (processBlock_Ok ab ws bcs config notificators publish_no_db) in H
    as (e & _ & [->|(s1 & s2 & H1 & Ht & Hs & ->)]); [split; [done|reflexivity]| |done].
  assert (wrel ledger s1 s2) as [L _] by (eapply save_events_ledger; [by rewrite Ht|exact Hs]).
  rewrite H1 in L. destruct (L I) as (? & ? & _). done.
Qed.

(** A sweep followed from the processor to the scanner. A pass of the loop
    of the deposits sends only the jettons of service withdrawals and sweeps, and
    each sweep goes from the deposit of its task to the hot wallet and was
    recorded before, under the identifier it carries. Whatever happens to the
    tables in between, once a block has been processed in which a deposit sends
    that message, either nothing is stored, or that withdrawal, still of the
    deposit of the task, is sent and finished. *)
Theorem sweep_followed (w w1 : World O) r :
  internal_ton_pass config bc ws withdrawal_repo Int63 wallet_Send w = (r, w1) →
  ∃ l, w_out w1 = w_out w ++ map (λ x, sent x.1 x.2) l ∧
    ∀ x, x ∈ l → jettons_sent x ∨
      ∃ task memo, sweep_sent (w_db w1) x task memo ∧
        ∀ (v v' : World O) h, evolves (w_db w1) (w_db v) → db_inv (w_db v) → sweep_seen x.2 h →
          processBlock ab ws bcs config notificators h v = (Ok tt, v') →
          w_db v' = w_db v ∨
          ∃ row, row ∈ internal_withdrawals (w_db v') ∧ iwr_memo row = memo ∧
            iwr_from_address row = it_From task ∧ iwr_since_lt row = it_Lt task ∧
            is_Some (iwr_sending_lt row) ∧ is_Some (iwr_finish_lt row).
Proof.
  intros H. pose proof (internal_pass_sends w) as [_ (l & Hl & Hx)]. rewrite H in Hl, Hx. simpl in Hl, Hx.
  exists l. split; [done|]. intros x Hin. destruct (Hx x Hin) as [?|(task & memo & Hsent)]; [by left|right].
  exists task, memo. split; [done|]. destruct Hsent as (_ & Hm & expired & Hrow).
  intros v v' h Ev Iv (b & ids & a & id & tx & inMsg & ms & im & Hb & Hids & Hid & Ha & Hdep & Htx & Hext & Hms
    & Him & Hdel) Hblock.
  destruct (delivered_sweep _ _ _ Hm Hdel) as [Hdst Hc].
  destruct (processBlock_evolves h v v') as [Iv' Ev']; [congruence|done|done|].
  apply (sweep_settles book ws bcs config notificators publish_no_db b h ids a id tx inMsg ms im memo) in Hblock
    as [?|(row & Hr & Hmemo & Hs & Hf)]; [by left|right|try done..].
  - exists row. destruct (grows_elem _ _ _ _ (ev_internal _ _ (transitivity Ev Ev')) Hrow) as (row' & Hr' & S).
    assert (row = row') as ->.
    { eapply (NoDup_map_eq iwr_memo (internal_withdrawals (w_db v'))); [apply Iv'|done..|].
      by rewrite Hmemo, (iws_memo _ _ S). }
    split_and!; [done|done|apply (iws_from _ _ S)|apply (iws_since _ _ S)|done|done].
  - by rewrite Hdst.
  - rewrite Hc. unfold parse_memo. by rewrite uuid_FromString_String.
Qed.
End sweep.
