(* ===== verification/FollowJetton.v ===== *)
(** * The sweep of a jetton deposit followed

    The processor empties a jetton deposit through the proxy that owns it: a
    message of a batch to the proxy, which wraps the transfer the proxy sends to
    its jetton wallet. The scanner sees it three times: when the hot wallet sends
    the message, when the jetton wallet makes the transfer, and when the hot wallet
    is notified of what it received. *)

From S2P Require Import Prelude TonUtils Config Models Core Db AddressBook Repository.
From S2P Require Import WithdrawalRepository Ledger BlockScanner BlockScannerFacts Saving.
From S2P Require Import Messages Processor Sending Acceptance Settlement Sweeps Follow.

Local Open Scope string_scope.
Local Open Scope list_scope.
Local Open Scope Z_scope.

(** ** What the scanner reports *)

Section events.
Context `{TL : TvmLib} `{UL : UuidLib} `{GR : GoRuntime} `{PG : PgLib} `{WL : WalletLib}.
Context `{TW : !TonWalletLib} {O : Type}.
Context (book : option (gmap Address AddressInfo)).
Abbreviation ab := (book_ops book).

Lemma outs_grow u acc m acc' : hot_wallet_out ab u acc m = Ok acc' → among acc.1 acc'.1.
Proof.
  intros H. destruct acc as [e s]. destruct m as [msg| |]; [|done..]. unfold hot_wallet_out in H.
  apply res_bind_Ok in H as (addr & _ & H). apply res_bind_Ok in H as (t & _ & H).
  destruct t as [[]|]; try (injection H as <-; first [reflexivity|apply among_app_l]).
  - do 2 apply res_bind_Ok in H as (? & _ & H). injection H as <-. apply among_app_l.
  - apply res_bind_Ok in H as (? & _ & H). injection H as <-. apply among_app_l.
Qed.

(** An out message of the hot wallet to a proxy that tells it to send the
    jettons of a deposit is reported as sent, under its identifier. *)
Lemma proxy_out_reported u acc msg acc' b sl inner tr :
  hot_wallet_out ab u acc (MsgTypeInternal msg) = Ok acc' →
  GetWalletTypeByTonutilsAddress ab (im_DstAddr msg) = Ok (Some JettonOwner) →
  im_Payload msg = Some b → LoadRef (BeginParse b) = Some sl → LoadFromCell_message sl = Some inner →
  GetWalletTypeByTonutilsAddress ab (im_DstAddr inner) = Ok (Some JettonDepositWallet) →
  DecodeJettonTransfer (Some inner) = Ok tr →
  ∃ c, c ∈ SendingConfirmations acc'.1 ∧ sc_Memo c = jt_Comment tr.
Proof.
  intros H Hdst Hb Hsl Hin Hdep Htr. destruct acc as [e s]. unfold hot_wallet_out in H.
  apply res_bind_Ok in H as (addr & _ & H). rewrite Hdst in H. cbn [res_bind] in H.
  apply res_bind_Ok in H as (e' & He%res_wrap_Ok & H). injection H as <-. unfold processTonHotWalletProxyMsg in He.
  rewrite Hb in He. cbn [res_bind] in He. rewrite Hsl in He. cbn [of_option res_bind] in He.
  rewrite Hin in He. cbn [of_option res_bind] in He. rewrite Hdep in He. cbn [res_bind] in He.
  rewrite decide_True, Htr in He by done. cbn [res_wrap res_bind] in He.
  apply res_bind_Ok in He as (a & _ & [= <-]). eexists. split; [simpl; apply elem_of_app; right; apply list_elem_of_here|done].
Qed.

Lemma hot_confirms tx inMsg ms msg e b sl inner tr :
  processTonHotWalletTX ab tx = Ok e → tx_In tx = Some (MsgTypeExternalIn inMsg) →
  out_messages tx = Ok ms → MsgTypeInternal msg ∈ ms →
  GetWalletTypeByTonutilsAddress ab (im_DstAddr msg) = Ok (Some JettonOwner) →
  im_Payload msg = Some b → LoadRef (BeginParse b) = Some sl → LoadFromCell_message sl = Some inner →
  GetWalletTypeByTonutilsAddress ab (im_DstAddr inner) = Ok (Some JettonDepositWallet) →
  DecodeJettonTransfer (Some inner) = Ok tr →
  ∃ c, c ∈ SendingConfirmations e ∧ sc_Memo c = jt_Comment tr.
Proof.
  intros H Hext Hms Hmsg Hdst Hb Hsl Hin Hdep Htr. unfold processTonHotWalletTX in H. rewrite Hext in H.
  unfold processTonHotWalletExternalInMsg in H. apply res_bind_Ok in H as ([[u addrs]|] & _ & H); [|done].
  rewrite Hms in H. cbn [res_bind] in H. apply res_bind_Ok in H as ([ev out] & Ho & H).
  apply res_bind_Ok in H as (failed & _ & [= <-]).
  assert (∃ c, c ∈ SendingConfirmations ev ∧ sc_Memo c = jt_Comment tr) as (c & Hc & Hm).
  { revert Ho Hmsg. apply (for_res_inv (λ done acc, MsgTypeInternal msg ∈ done →
      ∃ c, c ∈ SendingConfirmations acc.1 ∧ sc_Memo c = jt_Comment tr)).
    - intros Hx. by apply elem_of_nil in Hx.
    - intros done m acc acc' _ IH Hm [Hx|Hx]%elem_of_app.
      + destruct (IH Hx) as (c & Hc & ?). exists c. split; [|done]. by apply (am_sending _ _ (outs_grow _ _ _ _ Hm)).
      + apply list_elem_of_singleton in Hx as <-. by eapply proxy_out_reported. }
  exists c. split; [simpl; apply elem_of_app; by left|done].
Qed.

(** A transfer out of a jetton deposit to the hot wallet is reported. *)
Lemma jetton_in_reported tx msg tr outs e z unknown :
  processJettonDepositInMsg ab tx = Ok (e, z, unknown) → tx_In tx = Some (MsgTypeInternal msg) →
  DecodeJettonTransfer (Some msg) = Ok tr → out_list_all tx = Ok outs → outs ≠ [] →
  GetWalletTypeByTonutilsAddress ab (jt_Destination tr) = Ok (Some TonHotWallet) →
  ∃ from, jetton_withdrawal msg from tr false ∈ InternalWithdrawals e.
Proof.
  intros H Hin Htr Houts Hne Hhot. unfold processJettonDepositInMsg in H. rewrite Hin in H.
  apply res_bind_Ok in H as (from & _ & H). rewrite Htr in H.
  replace (isTxSuccessful tx) with true in H by (unfold isTxSuccessful; by destruct (tx_Description tx)).
  simpl in H. rewrite Houts in H. cbn [res_bind] in H.
  rewrite decide_False in H by (destruct outs; [done|simpl; lia]). simpl in Hhot. rewrite Hhot in H.
  cbn [res_bind] in H. rewrite decide_True in H by done. injection H as <- _ _. exists from. apply list_elem_of_here.
Qed.

Lemma jetton_reports (ws : Wallet) g blockID prevBlockID e tx msg tr outs :
  processJettonDepositWalletTXs ab ws g blockID prevBlockID = Ok e → tx ∈ ts_Transactions g →
  tx_In tx = Some (MsgTypeInternal msg) → DecodeJettonTransfer (Some msg) = Ok tr →
  out_list_all tx = Ok outs → outs ≠ [] →
  GetWalletTypeByTonutilsAddress ab (jt_Destination tr) = Ok (Some TonHotWallet) →
  ∃ from, jetton_withdrawal msg from tr false ∈ InternalWithdrawals e.
Proof.
  intros H Htx Hin Htr Houts Hne Hhot. unfold processJettonDepositWalletTXs in H.
  apply res_bind_Ok in H as (p & Hp & H). apply res_bind_Ok in H as (z & _ & H).
  assert (∃ from, jetton_withdrawal msg from tr false ∈ InternalWithdrawals (jp_events p)) as (from & Hw).
  { revert Hp Htx. apply (for_res_inv (λ done p, tx ∈ done →
      ∃ from, jetton_withdrawal msg from tr false ∈ InternalWithdrawals (jp_events p))).
    - intros Hx. by apply elem_of_nil in Hx.
    - intros done y p1 p2 _ IH Hy Hx. unfold processJettonDepositTX in Hy.
      apply res_bind_Ok in Hy as ([[eo n] o] & _ & Hy). apply res_bind_Ok in Hy as ([[ei n'] o'] & Hi & [= <-]).
      simpl. apply elem_of_app in Hx as [Hx|Hx].
      + destruct (IH Hx) as (from & ?). exists from. rewrite !elem_of_app. auto.
      + apply list_elem_of_singleton in Hx as <-.
        eapply jetton_in_reported in Hi as (from & ?); [|done..]. exists from. rewrite !elem_of_app. auto. }
  exists from. case_decide; injection H as <-; [simpl; rewrite elem_of_app; by left|done].
Qed.

(** The notification of what the hot wallet received is reported as an income. *)
Lemma hot_notified tx msg src dst n owner e :
  processTonHotWalletTX ab tx = Ok e → tx_In tx = Some (MsgTypeInternal msg) →
  AddressFromTonutilsAddress (im_SrcAddr msg) = Ok src → AddressFromTonutilsAddress (im_DstAddr msg) = Ok dst →
  GetWalletType ab src = Ok (Some JettonHotWallet) → decodeJettonTransferNotification (Some msg) = Ok n →
  AddressFromTonutilsAddress (jn_Sender n) = Ok owner → GetWalletType ab owner = Ok (Some JettonOwner) →
  internal_income msg owner src (jn_Amount n) (jn_Comment n) false ∈ InternalIncomes e.
Proof.
  unfold processTonHotWalletTX, processTonHotWalletInternalInMsg. intros H Hin Hs Hd Ht Hn Ho Hto.
  rewrite Hin, Hs, Hd in H. cbn [res_bind] in H. rewrite Ht in H. cbn [res_bind] in H. rewrite Hn, Ho in H.
  cbn [res_bind] in H. rewrite Hto in H. cbn [res_bind] in H. rewrite decide_True in H by done. injection H as <-.
  apply list_elem_of_here.
Qed.
End events.

(** ** The three sightings *)

Section sightings.
Context `{TL : TvmLib} `{UL : UuidLib} `{PG : PgLib} `{GR : GoRuntime} `{WL : WalletLib}.
Context `{TW : !TonWalletLib} `{LW : !TvmLaws} `{ML : !MessageLaws} `{ALW : !AddrLaws} `{ULW : !UuidLaws} {O : Type}.
Context (config : Config) (book : option (gmap Address AddressInfo)) (ws : Wallet) (bcs : Blockchain).
Context (notificators : list (incomeNotification → ST (World O) unit)).
Abbreviation ab := (book_ops book).
Hypothesis publish_no_db : ∀ publish n, publish ∈ notificators → preserves no_db (publish n).
Hypothesis hot_known : GetWalletTypeByTonutilsAddress ab (Some (hot_address ws)) = Ok (Some TonHotWallet).
Hypothesis balance_known : ∀ a n, GetLastJettonBalance ws a = Ok n → 0 ≤ n.

(** The hot wallet, called from outside, sends the message [m]. *)
Definition proxy_called (m : WalletMessage tonaddr Cell) (h : ShardBlockHeader) : Prop :=
  ∃ hot tx inMsg ms im, held book bcs TonHotWallet h hot tx ∧ tx_In tx = Some (MsgTypeExternalIn inMsg) ∧
    out_messages tx = Ok ms ∧ MsgTypeInternal im ∈ ms ∧ carries (wm_Message m) im.

(** The jetton wallet at [from] gets the message [inner] and acts on it. *)
Definition transfer_made (from : Address) (inner : OutMessage tonaddr Cell) (h : ShardBlockHeader) : Prop :=
  ∃ tx im outs, held book bcs JettonDepositWallet h from tx ∧ tx_In tx = Some (MsgTypeInternal im) ∧ carries inner im ∧
    out_list_all tx = Ok outs ∧ outs ≠ [].

(** The hot wallet is notified, by its jetton wallet [src], of [amount] jettons
    of the proxy [owner] under the identifier [memo]. *)
Definition hot_notified_of (memo : UUID) (owner : Address) (amount : Coins) (h : ShardBlockHeader) : Prop :=
  ∃ hot tx im src dst n, held book bcs TonHotWallet h hot tx ∧ tx_In tx = Some (MsgTypeInternal im) ∧
    AddressFromTonutilsAddress (im_SrcAddr im) = Ok src ∧ AddressFromTonutilsAddress (im_DstAddr im) = Ok dst ∧
    GetWalletType ab src = Ok (Some JettonHotWallet) ∧ decodeJettonTransferNotification (Some im) = Ok n ∧
    AddressFromTonutilsAddress (jn_Sender n) = Ok owner ∧ GetWalletType ab owner = Ok (Some JettonOwner) ∧
    jn_Amount n = amount ∧ jn_Comment n = uuid_String memo.

Lemma memo_parsed memo : parse_memo (uuid_String memo) = Ok memo.
Proof. unfold parse_memo. by rewrite uuid_FromString_String. Qed.

Lemma hot_group g e' h tx : ts_WalletType g = Some TonHotWallet → tx ∈ ts_Transactions g →
  process_group ab ws h g = Ok e' → ∃ e2, processTonHotWalletTX ab tx = Ok e2 ∧ among e2 e'.
Proof. intros Ht Hmem Hp. unfold process_group in Hp. rewrite Ht in Hp. by eapply collected. Qed.

(** What the message to a proxy holds. *)
Lemma sweep_inner i inner m : jetton_sweep ws i inner m →
  ∃ b sl im, om_Body (wm_Message m) = Some b ∧ LoadRef (BeginParse b) = Some sl ∧
    LoadFromCell_message sl = Some im ∧ carries inner im.
Proof. intros (p & n & rnd & payload & _ & _ & _ & _ & Hm). by apply to_proxy_Ok in Hm as (_ & _ & ?). Qed.

Lemma sweep_transfer i inner m im : jetton_sweep ws i inner m → carries inner im →
  im_DstAddr im = Some (ToTonutilsAddressStd 0 (it_From (inw_Task i))) ∧
  ∃ tr, DecodeJettonTransfer (Some im) = Ok tr ∧ jt_Destination tr = Some (hot_address ws) ∧
    jt_Comment tr = uuid_String (inw_Memo i).
Proof.
  intros (p & n & rnd & payload & _ & Hn & Hb & -> & _) [Hd Hp]. split; [done|].
  apply balance_known in Hn. destruct (transfer_read_back _ _ _ _ _ _ _ Hn Hb im Hp) as (tr & ? & _ & ? & ?).
  by exists tr.
Qed.

Lemma proxy_noted i inner m h (v v' : World O) :
  jetton_sweep ws i inner m → ab_GetWalletType book (it_From (inw_Task i)) = Ok (Some JettonDepositWallet) →
  GetWalletTypeByTonutilsAddress ab (Some (om_DstAddr (wm_Message m))) = Ok (Some JettonOwner) →
  db_inv (w_db v) → proxy_called m h → processBlock ab ws bcs config notificators h v = (Ok tt, v') →
  w_db v' = w_db v ∨ noted (inw_Memo i) (w_db v').
Proof.
  intros Hs Hdep Hown I (hot & tx & inMsg & ms & msg & Hheld & Hext & Hms & Hmsg & Hcd & Hcp) H.
  eapply held_saved; [exact publish_no_db|exact I|exact Hheld|exact H|intros d d'; apply noted_evolves|].
  intros g e' e Hg Hmem Hp Hsub. right; right. destruct (hot_group g e' h tx Hg Hmem Hp) as (e2 & H2 & Hsub2).
  destruct (sweep_inner i inner m Hs) as (b & sl & im & Hb & Hsl & Him & Hc).
  destruct (sweep_transfer i inner m im Hs Hc) as (Hd & tr & Htr & _ & Hcom).
  destruct (hot_confirms book tx inMsg ms msg e2 b sl im tr) as (c & Hin & Hmemo); try done.
  - by rewrite Hcd.
  - by rewrite Hcp.
  - rewrite Hd. simpl. unfold ab_GetWalletTypeByTonutilsAddress. by rewrite AddressFromTonutilsAddress_Std.
  - exists c. split; [by apply (am_sending _ _ Hsub), (am_sending _ _ Hsub2)|].
    intros w1 w2. apply ApplySendingConfirmations_noted. by rewrite Hmemo, Hcom, memo_parsed.
Qed.

Lemma transfer_swept i inner m h (v v' : World O) :
  jetton_sweep ws i inner m → db_inv (w_db v) → transfer_made (it_From (inw_Task i)) inner h →
  processBlock ab ws bcs config notificators h v = (Ok tt, v') →
  w_db v' = w_db v ∨ swept (inw_Memo i) (w_db v').
Proof.
  intros Hs I (tx & im & outs & Hheld & Hin & Hc & Houts & Hne) H.
  eapply held_saved; [exact publish_no_db|exact I|exact Hheld|exact H|intros d d'; apply swept_evolves|].
  intros g e' e Hg Hmem Hp Hsub. left. unfold process_group in Hp. rewrite Hg in Hp.
  destruct (sweep_transfer i inner m im Hs Hc) as (_ & tr & Htr & Hd & Hcom).
  destruct (jetton_reports book ws g _ _ e' tx im tr outs Hp Hmem Hin Htr Houts Hne) as (from & Hw); [by rewrite Hd|].
  eexists. split; [by apply (am_sweep _ _ Hsub)|]. intros w1 w2 Hv.
  by eapply (UpdateInternalWithdrawal_swept _ (inw_Memo i)) in Hv as [? _]; [|done|simpl; by rewrite Hcom, memo_parsed].
Qed.

Lemma notified_received memo owner amount h (v v' : World O) :
  db_inv (w_db v) → hot_notified_of memo owner amount h →
  processBlock ab ws bcs config notificators h v = (Ok tt, v') →
  w_db v' = w_db v ∨
  ∃ r, r ∈ internal_incomes (w_db v') ∧ in_memo r = memo ∧ in_deposit_address r = owner ∧ in_amount r = amount.
Proof.
  intros I (hot & tx & im & src & dst & n & Hheld & Hin & Hsrc & Hdst & Hty & Hn & Ho & Hto & <- & Hcom) H.
  set (x := internal_income im owner src (jn_Amount n) (jn_Comment n) false).
  assert (w_db v' = w_db v ∨ received x memo (w_db v')) as [?|Hr]; [|by left|right; by eexists].
  eapply held_saved; [exact publish_no_db|exact I|exact Hheld|exact H|intros d d'; apply received_evolves|].
  intros g e' e Hg Hmem Hp Hsub. right; left. destruct (hot_group g e' h tx Hg Hmem Hp) as (e2 & H2 & Hsub2).
  exists x. split; [apply (am_internal _ _ Hsub), (am_internal _ _ Hsub2); by eapply hot_notified|].
  intros w1 w2. apply SaveInternalIncome_received. simpl. by rewrite Hcom, memo_parsed.
Qed.
End sightings.

(** ** The sweep *)

Section sweep.
Context `{TL : TvmLib} `{UL : UuidLib} `{PG : PgLib} `{GR : GoRuntime} `{WL : WalletLib}.
Context `{TW : !TonWalletLib} `{LW : !TvmLaws} `{ML : !MessageLaws} `{ALW : !AddrLaws} `{ULW : !UuidLaws} {O : Type}.
Context (config : Config) (book : option (gmap Address AddressInfo)) (ws : Wallet) (bc bcs : Blockchain).
Abbreviation ab := (book_ops book).
Context (cold : option tonaddr) (Int63 : ST (World O) Z).
Context (BuildMessageForMany : list (WalletMessage tonaddr Cell) → ST (World O) (ExternalMessage tonaddr Cell)).
Context (SendExternalMessage : ExternalMessage tonaddr Cell → ST (World O) unit).
Context (sent : ExternalMessage tonaddr Cell → O).
Context (notificators : list (incomeNotification → ST (World O) unit)).
Hypothesis Int63_quiet : preserves (same_out (O:=O)) Int63.
Hypothesis Build_quiet : ∀ l, preserves (same_out (O:=O)) (BuildMessageForMany l).
Hypothesis Send_out : ∀ m w, w_db (SendExternalMessage m w).2 = w_db w ∧
  (w_out (SendExternalMessage m w).2 = w_out w ∨
   w_out (SendExternalMessage m w).2 = w_out w ++ [sent m]).
Hypothesis publish_no_db : ∀ publish n, publish ∈ notificators → preserves no_db (publish n).
Hypothesis hot_known : GetWalletTypeByTonutilsAddress ab (Some (hot_address ws)) = Ok (Some TonHotWallet).
Hypothesis balance_known : ∀ a n, GetLastJettonBalance ws a = Ok n → 0 ≤ n.

Abbreviation scanned h v v' := (processBlock ab ws bcs config notificators h v = (Ok tt, v')).

(** A row of a later table under the identifier of an earlier one. *)
Lemma internal_later d d' r r' :
  evolves d d' → db_inv d' → r ∈ internal_withdrawals d → r' ∈ internal_withdrawals d' → iwr_memo r' = iwr_memo r →
  iwr_from_address r' = iwr_from_address r ∧ iwr_since_lt r' = iwr_since_lt r.
Proof.
  intros E I Hr Hr' Hm. destruct (grows_elem _ _ _ _ (ev_internal _ _ E) Hr) as (x & Hx & S).
  assert (r' = x) as ->; [|split; [apply (iws_from _ _ S)|apply (iws_since _ _ S)]].
  eapply (NoDup_map_eq iwr_memo (internal_withdrawals d')); [apply I|done..|]. by rewrite (iws_memo _ _ S), Hm.
Qed.

Lemma held_header t h a tx : held book bcs t h a tx → sb_BlockIDExt h ≠ None.
Proof. intros (b & ids & id & Hb & _). congruence. Qed.

(** C8. The sweep of a jetton deposit followed from the processor to the
    scanner. A pass sends at most one message; when it does, every sweep of its
    batch was recorded before, and the batch holds its message to the proxy of the
    deposit. Whatever happens to the tables in between, a block processed later
    either stores nothing, or: when it shows that message leave the hot wallet, the
    withdrawal is sent; when it shows the jetton wallet of the deposit make the
    transfer, the withdrawal, still of that deposit, is sent and finished; when it
    shows the hot wallet notified of the jettons, the income is recorded under the
    identifier of the withdrawal. *)
Theorem jetton_sweep_followed (w w1 : World O) r :
  withdrawals_pass config ab bc ws withdrawal_repo cold Int63 BuildMessageForMany SendExternalMessage w = (r, w1) →
  w_out w1 = w_out w ∨
  ∃ wd msg info, w_out w1 = w_out w ++ [sent msg] ∧ getHighLoadWalletExtMsgInfo msg = Ok info ∧
    (∃ v1 v2, buildWithdrawalMessages config ab bc ws withdrawal_repo Int63 v1 = (Ok wd, v2)) ∧
    (∃ v1 v2, BuildMessageForMany (w_Messages wd) v1 = (Ok msg, v2)) ∧
    ∀ i, i ∈ w_Internal wd →
      new_internal (inw_Task i) (hi_TTL info) (inw_Memo i) ∈ internal_withdrawals (w_db w1) ∧
      ∃ inner m, m ∈ w_Messages wd ∧ jetton_sweep ws i inner m ∧
        ∀ (v v' : World O) h, evolves (w_db w1) (w_db v) → db_inv (w_db v) → scanned h v v' →
          (ab_GetWalletType book (it_From (inw_Task i)) = Ok (Some JettonDepositWallet) →
           GetWalletTypeByTonutilsAddress ab (Some (om_DstAddr (wm_Message m))) = Ok (Some JettonOwner) →
           proxy_called book bcs m h → w_db v' = w_db v ∨ noted (inw_Memo i) (w_db v')) ∧
          (transfer_made book bcs (it_From (inw_Task i)) inner h →
           w_db v' = w_db v ∨
           ∃ row, row ∈ internal_withdrawals (w_db v') ∧ iwr_memo row = inw_Memo i ∧
             iwr_from_address row = it_From (inw_Task i) ∧ iwr_since_lt row = it_Lt (inw_Task i) ∧
             is_Some (iwr_sending_lt row) ∧ is_Some (iwr_finish_lt row)) ∧
          ∀ owner amount, hot_notified_of book bcs (inw_Memo i) owner amount h →
            w_db v' = w_db v ∨
            ∃ income, income ∈ internal_incomes (w_db v') ∧ in_memo income = inw_Memo i ∧
              in_deposit_address income = owner ∧ in_amount income = amount.
Proof.
  intros H. apply (sent_is_recorded config ab bc ws cold Int63 BuildMessageForMany SendExternalMessage sent
    Int63_quiet Build_quiet Send_out) in H
    as [H|(wd & msg & info & Hout & (v1 & v2 & Hwd) & Hmsg & Hi & _ & Hx)]; [by left|right].
  pose proof (build_messaged _ _ _ _ _ _ _ _ _ Hwd) as [_ Hm].
  exists wd, msg, info. split_and!; [done|done|by eexists _, _|done|]. intros i Hin. split; [by apply Hx|].
  destruct (Hm i Hin) as (inner & m & Hin_m & Hs). exists inner, m. split_and!; [done|done|].
  intros v v' h Ev Iv Hv. split_and!.
  - intros Hdep Hown Hc. by eapply (proxy_noted config book ws bcs notificators publish_no_db balance_known).
  - intros Ht. assert (sb_BlockIDExt h ≠ None) as Hh by (destruct Ht as (? & ? & ? & Ht & _); by eapply held_header).
    destruct (processBlock_evolves config book ws bcs notificators publish_no_db h v v' Hh Iv Hv) as [Iv' Ev'].
    destruct (transfer_swept config book ws bcs notificators publish_no_db hot_known balance_known i inner m h v v')
      as [?|(row & Hrow & Hmemo & Hsl & Hfl)]; [done..|by left|right].
    destruct (internal_later (w_db w1) (w_db v') _ row (transitivity Ev Ev') Iv' (Hx i Hin) Hrow Hmemo) as [Hf Hl].
    by exists row.
  - intros owner amount. intros Hn. by eapply (notified_received config book ws bcs notificators publish_no_db).
Qed.
End sweep.
