(* ===== verification/Api.v ===== *)
(** * [api]: the HTTP interface

    The middlewares, the helpers, the use cases and the handlers of [api/].
    Routing, JSON and query decoding belong to [bunrouter] and [encoding/json]:
    a handler is given the decoded request, or the error of decoding it. A
    panic in a handler is what [RecoverMiddleware] sees. *)

From S2P Require Import Prelude TonUtils Config Models Core Db AddressBook Repository.
From S2P Require Import WithdrawalRepository BlockScanner Messages.
From stdpp Require Import pretty.
From Stdlib Require Import Ascii.

Local Open Scope string_scope.
Local Open Scope list_scope.
Local Open Scope Z_scope.

(** ** [api/middleware.go] *)

(** [checkToken]: [auth] is the authorization header, empty when absent. *)
Definition checkToken (auth token : string) : bool :=
  match Split " "%char auth with
  | [scheme; x] => bool_decide (scheme = "Bearer") && bool_decide (x = token)
  | _ => false
  end.

(** ** [api/types/types.go] *)

Record CreateWithdrawalBody := {
  cw_UserID : string; cw_QueryID : string; cw_Currency : string; cw_Amount : Coins;
  cw_Destination : string; cw_Comment : string;
}.

Record GetHistoryRequest := {
  gh_UserID : Z; gh_Currency : string; gh_Page : Z; gh_PerPage : Z;
}.

Record Income := {
  inc_DepositAddress : string; inc_Time : Z; inc_SourceAddress : string;
  inc_Amount : string; inc_Comment : string;
}.

Record TotalIncomeView := { tv_Address : string; tv_Amount : string; tv_Currency : string }.
Record GetIncomeResponse := { gi_Side : string; gi_TotalIncomes : list TotalIncomeView }.
Record WalletAddress := { wa_Address : string; wa_Currency : string }.

(** The bodies of the responses. *)
Inductive body : Type :=
| BEmpty
| BError (s : string)
| BAddress (a : string)
| BAddresses (l : list WalletAddress)
| BWithdrawalID (id : Z)
| BStatus (s : WithdrawalStatus)
| BMemo (u : UUID)
| BSynced (b : bool)
| BIncome (r : GetIncomeResponse)
| BHistory (l : list Income).

Record response := { rs_status : Z; rs_body : body }.

Definition StatusOK : Z := 200.
Definition StatusBadRequest : Z := 400.
Definition StatusUnauthorized : Z := 401.
Definition StatusInternalServerError : Z := 500.

(** [db.WithdrawalRepository], the operations the API calls. *)
Record RequestRepo (O : Type) := {
  q_GetExternalWithdrawalStatus : Z → ST (World O) WithdrawalStatus;
  q_CreateServiceWithdrawalRequest : ServiceWithdrawalRequest → ST (World O) UUID;
}.
Arguments q_GetExternalWithdrawalStatus {O}. Arguments q_CreateServiceWithdrawalRequest {O}.

Definition request_repo `{PG : PgLib} {O} : RequestRepo O := {|
  q_GetExternalWithdrawalStatus := GetExternalWithdrawalStatus;
  q_CreateServiceWithdrawalRequest := CreateServiceWithdrawalRequest;
|}.

Definition nil_RequestRepo {O} : RequestRepo O := {|
  q_GetExternalWithdrawalStatus _ := st_lift Panic;
  q_CreateServiceWithdrawalRequest _ := st_lift Panic;
|}.

Section api.
Context `{TL : TvmLib} `{UL : UuidLib} `{TW : !TonWalletLib} {O : Type}.
Abbreviation DBM := (ST (World O)).
Context (config : Config).

(** ** [api/helpers/helpers.go] *)

Definition ParseAddress (addr : string) : res Address :=
  if decide (addr = "") then Err (EText "empty address") else
  let! a := of_option (EText "invalid address") (ParseAddr addr) in
  if addr_IsTestnetOnly a && negb (cfg_Testnet config) then
    Err (EText "address for testnet only")
  else if decide (addr_Workchain a ≠ DefaultWorkchain) then
    Err (EText "address must be in %d workchain")
  else AddressFromTonutilsAddress (Some a).

Definition IsValidCurrency (cur : string) : bool :=
  match cfg_Jettons config !! cur with Some _ => true | None => bool_decide (cur = TonSymbol) end.

(** ** Use cases *)

Context (repo : Repo O) (withdrawalRepo : RequestRepo O) (addressBook : AddressBook).
(** [wallets.GenerateSubWallet] with the seed, [wallets.GenerateDeposit...];
    [hotWalletAddress] is a zero value. *)
Context (GenerateSubWallet : Z → res (TonWallet * Z)).
Context (GenerateDepositJettonWalletForProxy : tonaddr → tonaddr → Z → res (JettonProxy * tonaddr)).
Context (hotWalletAddress : tonaddr).

Abbreviation user_format := (ToUserFormat (cfg_Testnet config)).

Definition uc_GetAddresses (userID : Z) : DBM (list WalletAddress) :=
  do! tonAddr <- p_GetTonWalletsAddresses repo userID [TonDepositWallet];
  do! jettonAddr <- p_GetJettonOwnersAddresses repo userID [JettonDepositWallet];
  st_ret (map (λ a, {| wa_Address := user_format a; wa_Currency := TonSymbol |}) tonAddr ++
          map (λ a, {| wa_Address := user_format (ow_Address a); wa_Currency := ow_Currency a |})
            jettonAddr).

Definition createTonAddress (userID : string) (subwalletID : Z) : DBM string :=
  do! (w, id) <- st_lift (GenerateSubWallet (wrap32 (subwalletID + 1)));
  do! a <- st_lift (AddressFromTonutilsAddress (Some (w_Address w)));
  do! _ <- p_SaveTonWallet repo {| wd_SubwalletID := id; wd_UserID := userID;
             wd_Currency := TonSymbol; wd_Type := TonDepositWallet; wd_Address := a |};
  st_ret (user_format a).

Definition createJettonAddress (userID currency : string) (subwalletID : Z) : DBM string :=
  match cfg_Jettons config !! currency with
  | None => st_fail (EText "jetton address not found")
  | Some jetton =>
      do! (proxy, addr) <- st_lift (GenerateDepositJettonWalletForProxy hotWalletAddress
                             (j_Master jetton) (wrap32 (subwalletID + 1)));
      do! jettonWalletAddr <- st_lift (AddressFromTonutilsAddress (Some addr));
      do! proxyAddr <- st_lift (AddressFromTonutilsAddress (Some (px_address proxy)));
      do! _ <- p_SaveJettonWallet repo proxyAddr
                 {| wd_UserID := userID; wd_SubwalletID := px_SubwalletID proxy;
                    wd_Currency := currency; wd_Type := JettonDepositWallet;
                    wd_Address := jettonWalletAddr |} false;
      st_ret (user_format proxyAddr)
  end.

Definition uc_CreateAddress (userID : Z) (currency : string) : DBM string :=
  if negb (IsValidCurrency currency) then st_fail (EText "invalid currency") else
  do! subwalletID <- p_GetLastSubwalletID repo;
  if decide (currency = TonSymbol) then createTonAddress (pretty userID) subwalletID
  else createJettonAddress (pretty userID) currency subwalletID.

(** The address shown for a deposit: itself for TONs, its owner for jettons. *)
Definition shown_address (currency : string) (deposit : Address) : res string :=
  if decide (currency = TonSymbol) then Ok (user_format deposit)
  else
    let! owner := GetOwner addressBook deposit in
    match owner with
    | None => Err (EText "can not find owner for deposit")
    | Some owner => Ok (user_format owner)
    end.

Definition convert_total (b : TotalIncome) : res TotalIncomeView :=
  let! a := shown_address (ti_Currency b) (ti_Deposit b) in
  Ok {| tv_Address := a; tv_Amount := pretty (ti_Amount b); tv_Currency := ti_Currency b |}.

Definition convertIncome (totalIncomes : list TotalIncome) : res GetIncomeResponse :=
  let! l := for_res (λ acc b, let! v := convert_total b in Ok (acc ++ [v])) [] totalIncomes in
  Ok {| gi_Side := if cfg_IsDepositSideCalculation config then SideDeposit else SideHotWallet;
        gi_TotalIncomes := l |}.

Definition uc_GetIncome (id : Z) (internal : bool) : DBM GetIncomeResponse :=
  do! ii <- (if internal then p_GetInternalIncome repo id else p_GetExternalIncome repo id);
  st_lift (convertIncome ii).

Definition convert_one (currency : string) (i : ExternalIncome) : res Income :=
  let! a := shown_address currency (ei_To i) in
  Ok {| inc_DepositAddress := a; inc_Time := ei_Utime i; inc_Amount := pretty (ei_Amount i);
        inc_Comment := ei_Comment i;
        inc_SourceAddress :=
          match ei_From i, ei_FromWorkchain i with
          | Some from, Some wc =>
              if decide (length from = 32%nat) then
                addr_String (addr_SetTestnetOnly (cfg_Testnet config) (NewAddress 0 (wc `mod` 256) from))
              else ""
          | _, _ => ""
          end |}.

Definition convertHistory (currency : string) (incomes : list ExternalIncome) : res (list Income) :=
  for_res (λ acc i, let! v := convert_one currency i in Ok (acc ++ [v])) [] incomes.

Definition uc_GetHistory (data : GetHistoryRequest) : DBM (list Income) :=
  if negb (IsValidCurrency (gh_Currency data)) then st_fail (EText "invalid currency: %s") else
  do! hh <- p_GetIncomeHistory repo {|
              hq_FilterQuery := {| fq_Page := gh_Page data; fq_PerPage := gh_PerPage data |};
              hq_UserID := gh_UserID data; hq_Currency := gh_Currency data |};
  st_lift (convertHistory (gh_Currency data) hh).

Definition uc_IsSynced : DBM bool :=
  do! block <- p_GetLastSavedBlock repo;
  do! t <- now;
  st_ret (negb (IsExpired t block)).

Definition uc_GetWithdrawalStatus (id : Z) : DBM WithdrawalStatus :=
  q_GetExternalWithdrawalStatus withdrawalRepo id.

(** The request is built and printed, not stored. *)
Definition uc_CreateWithdrawal (b : CreateWithdrawalBody) : res Z :=
  let! _ := res_wrap (EText "invalid destination address") (ParseAddress (cw_Destination b)) in
  Ok 0.

Definition convertTonServiceWithdrawal (from : string) : res ServiceWithdrawalRequest :=
  let! from := res_wrap (EText "invalid from address") (ParseAddress from) in
  let! t := GetWalletType addressBook from in
  match t with
  | None => Err (EText "unknown deposit address")
  | Some JettonOwner => Ok {| sr_From := from; sr_JettonMaster := None |}
  | Some _ => Err (EText "service withdrawal allowed only for Jetton deposit owner")
  end.

Definition convertJettonServiceWithdrawal (owner jettonMaster : string)
    : res ServiceWithdrawalRequest :=
  let! from := res_wrap (EText "invalid from address") (ParseAddress owner) in
  let! t := GetWalletType addressBook from in
  match t with
  | None => Err (EText "unknown deposit address")
  | Some (JettonOwner | TonDepositWallet) =>
      let! jetton := res_wrap (EText "invalid jetton master address") (ParseAddress jettonMaster) in
      Ok {| sr_From := from; sr_JettonMaster := Some jetton |}
  | Some _ =>
      Err (EText "service withdrawal allowed only for Jetton deposit owner or TON deposit")
  end.

Definition uc_CreateServiceTonWithdrawal (from : string) : DBM UUID :=
  do! w <- st_lift (convertTonServiceWithdrawal from);
  q_CreateServiceWithdrawalRequest withdrawalRepo w.

Definition uc_CreateServiceJettonWithdrawal (owner jettonMaster : string) : DBM UUID :=
  do! w <- st_lift (convertJettonServiceWithdrawal owner jettonMaster);
  q_CreateServiceWithdrawalRequest withdrawalRepo w.

(** ** Handlers *)

Definition respond (status : Z) (b : body) : DBM response :=
  st_ret {| rs_status := status; rs_body := b |}.

(** [if err != nil { writeHttpError(...) }], else the answer. *)
Definition or_error {A} (status : Z) (comment : string) (m : DBM A) (k : A → body) : DBM response :=
  do! r <- st_try m;
  match r with
  | inl a => respond StatusOK (k a)
  | inr _ => respond status (BError comment)
  end.

(** The requests of the routes of [Handler.Register], as decoded: an [inr]
    is a decoding error. *)
Inductive route : Type :=
| RCreateAddress (b : (Z * string) + err)
| RGetAddresses (user_id : Z + err)
| RCreateWithdrawal (b : CreateWithdrawalBody + err)
| RServiceTon (from : string + err)
| RServiceJetton (b : (string * string) + err)
| RWithdrawalStatus (id : Z + err)
| RSync
| RIncome (user_id : Z + err) (type : string)
| RHistory (q : GetHistoryRequest).

(** The status is written before the error of [CreateWithdrawal] is looked
    at, and the identifier is then zero. *)
Definition createWithdrawal (b : CreateWithdrawalBody) : DBM response :=
  match uc_CreateWithdrawal b with
  | Ok id => respond StatusOK (BWithdrawalID id)
  | Err _ => respond StatusOK (BWithdrawalID 0)
  | Panic => st_lift Panic
  | Fatal => st_lift Fatal
  end.

Definition getWithdrawalStatus (id : Z) : DBM response :=
  do! r <- st_try (uc_GetWithdrawalStatus id);
  match r with
  | inl s => respond StatusOK (BStatus s)
  | inr ENotFound => respond StatusBadRequest (BError "request ID not found")
  | inr _ => respond StatusInternalServerError (BError "get external withdrawal status err")
  end.

(** The error is [fmt.Sprintf("decode payload err: %v", err)]: here and below
    a text stands for its constant part. *)
Definition bad_request (comment : string) : DBM response :=
  respond StatusBadRequest (BError comment).

Definition createAddress (b : (Z * string) + err) : DBM response :=
  match b with
  | inr _ => bad_request "decode payload data err"
  | inl (userID, currency) =>
      or_error StatusInternalServerError "generate address err" (uc_CreateAddress userID currency) BAddress
  end.

Definition getAddresses (user_id : Z + err) : DBM response :=
  match user_id with
  | inr _ => bad_request "failed to parse user_id"
  | inl userID =>
      or_error StatusInternalServerError "get addresses err" (uc_GetAddresses userID) BAddresses
  end.

Definition getIncome_handler (id : Z + err) (type : string) : DBM response :=
  match id with
  | inr _ => bad_request "failed to parse iser_id"
  | inl id =>
      or_error StatusInternalServerError "get balances err"
        (uc_GetIncome id (bool_decide (type = "internal"))) BIncome
  end.

(** The error of decoding the query is overwritten. *)
Definition getIncomeHistory (data : GetHistoryRequest) : DBM response :=
  or_error StatusBadRequest "GetHistory err" (uc_GetHistory data) BHistory.

Definition getSync : DBM response :=
  or_error StatusInternalServerError "failed to sync" uc_IsSynced BSynced.

Definition serviceTonWithdrawal (from : string + err) : DBM response :=
  match from with
  | inr _ => bad_request "decode payload err"
  | inl from =>
      or_error StatusInternalServerError "save service withdrawal request err"
        (uc_CreateServiceTonWithdrawal from) BMemo
  end.

Definition serviceJettonWithdrawal (b : (string * string) + err) : DBM response :=
  match b with
  | inr _ => bad_request "decode payload err"
  | inl (owner, master) =>
      or_error StatusInternalServerError "save service withdrawal request err"
        (uc_CreateServiceJettonWithdrawal owner master) BMemo
  end.

Definition handle (r : route) : DBM response :=
  match r with
  | RCreateAddress b => createAddress b
  | RGetAddresses userID => getAddresses userID
  | RCreateWithdrawal (inl b) => createWithdrawal b
  | RServiceTon from => serviceTonWithdrawal from
  | RServiceJetton b => serviceJettonWithdrawal b
  | RWithdrawalStatus (inl id) => getWithdrawalStatus id
  | RSync => getSync
  | RIncome id type => getIncome_handler id type
  | RHistory q => getIncomeHistory q
  | RCreateWithdrawal (inr _) => bad_request "decode payload err"
  | RWithdrawalStatus (inr _) => bad_request "convert request ID err"
  end.

(** [AuthMiddleware] inside [RecoverMiddleware]; [log.Fatalf] ends the process
    all the same. *)
Definition serve (auth : string) (r : route) : DBM response := λ w,
  if checkToken auth (cfg_APIToken config) then
    match handle r w with
    | (Panic, w') => (Ok {| rs_status := StatusInternalServerError; rs_body := BEmpty |}, w')
    | o => o
    end
  else (Ok {| rs_status := StatusUnauthorized; rs_body := BEmpty |}, w).
End api.
