(* ===== verification/ApiFacts.v ===== *)
(** * What the interface and the reports promise

    The theorems about [api/] and about the queries of [db/] it relies on:
    authorisation, what a request to withdraw does, what the handler answers as it is started, and which incomes
    the reports contain. *)

From S2P Require Import Prelude TonUtils Config Models Core Db AddressBook Repository.
From S2P Require Import WithdrawalRepository BlockScanner Messages Api.
From stdpp Require Import pretty.
From Stdlib Require Import Ascii.

Local Open Scope string_scope.
Local Open Scope list_scope.
Local Open Scope Z_scope.

(** ** Authorisation *)

(** A request is authorised exactly when its header is the scheme
    [Bearer], one space and the configured token, which must contain no space:
    a token with a space authorises no request. *)
Theorem checkToken_spec auth token :
  checkToken auth token = true ↔
  auth = "Bearer " +:+ token ∧ occurs " "%char token = false.
Proof.
  unfold checkToken. split.
  - destruct (Split " "%char auth) as [|s [|x [|]]] eqn:E; try done.
    intros [->%bool_decide_eq_true ->%bool_decide_eq_true]%andb_true_iff.
    pose proof (Join_Split " "%char auth) as Hj. rewrite E in Hj. simpl in Hj. split; [done|].
    pose proof (Split_no_sep " "%char auth) as Hn. rewrite E in Hn.
    by inversion Hn as [|? ? _ Hn']; inversion Hn'.
  - intros [-> Hn].
    assert (Split " "%char ("Bearer " +:+ token) = ["Bearer"; token]) as ->.
    { apply (Split_Join " "%char ["Bearer"; token]); [done|]. by repeat constructor. }
    by rewrite !bool_decide_true.
Qed.

Section serving.
Context `{TL : TvmLib} `{UL : UuidLib} `{TW : !TonWalletLib} {O : Type}.
Context (config : Config) (gen : Z → res (TonWallet * Z)).
Context (genj : tonaddr → tonaddr → Z → res (JettonProxy * tonaddr)) (hot : tonaddr).

(** A request to withdraw is accepted and forgotten: whatever it asks,
    and even when its destination is refused, an authorised request is
    answered with status 200 and the identifier 0, and nothing is stored. *)
Theorem createWithdrawal_forgets repo wrepo ab b auth (w : World O) :
  checkToken auth (cfg_APIToken config) = true →
  serve config repo wrepo ab gen genj hot auth (RCreateWithdrawal (inl b)) w =
    (Ok {| rs_status := StatusOK; rs_body := BWithdrawalID 0 |}, w).
Proof.
  intros Ha. unfold serve. rewrite Ha. simpl. unfold createWithdrawal, uc_CreateWithdrawal.
  assert (∀ r, ParseAddress config (cw_Destination b) = r → r ≠ Panic ∧ r ≠ Fatal) as Hp.
  { intros r <-. unfold ParseAddress, AddressFromTonutilsAddress, AddressFromBytes.
    case_decide; [done|]. destruct (ParseAddr _) as [a|]; simpl; [|done].
    destruct (_ && _); [done|]. repeat (case_decide; [done|]).
    by destruct (mk_bytes 32 (addr_Data a)). }
  destruct (ParseAddress config (cw_Destination b)) as [a|e| |]; simpl; try done;
    by destruct (Hp _ eq_refl).
Qed.

(** The routes that [NewHandler] can serve: a request that could not be
    decoded, a currency or an address that is refused before anything else is
    looked at, and [POST /withdrawal]. *)
Definition served_without_state (r : route) : Prop :=
  match r with
  | RCreateAddress (inl (_, cur)) => IsValidCurrency config cur = false
  | RHistory q => IsValidCurrency config (gh_Currency q) = false
  | RServiceTon (inl a) => ∃ e, ParseAddress config a = Err e
  | RServiceJetton (inl (a, _)) => ∃ e, ParseAddress config a = Err e
  | RCreateWithdrawal _ => True
  | RSync => False
  | RGetAddresses u => ∃ e, u = inr e
  | RWithdrawalStatus u => ∃ e, u = inr e
  | RIncome u _ => ∃ e, u = inr e
  | _ => True
  end.

(** The interface as [main] starts it, with a handler whose repositories
    are nil, answers 500 to every authorised request that needs them, and
    changes nothing. *)
Theorem NewHandler_answers_500 auth r (w : World O) :
  checkToken auth (cfg_APIToken config) = true → ¬ served_without_state r →
  serve config nil_Repository nil_RequestRepo nil_AddressBook gen genj hot auth r w =
    (Ok {| rs_status := StatusInternalServerError; rs_body := BEmpty |}, w).
Proof.
  intros Ha Hn. unfold serve. rewrite Ha.
  assert (∀ a r, ParseAddress config a = r → r ≠ Panic ∧ r ≠ Fatal) as Hp.
  { intros a r' <-. unfold ParseAddress, AddressFromTonutilsAddress, AddressFromBytes.
    case_decide; [done|]. destruct (ParseAddr _) as [x|]; simpl; [|done].
    destruct (_ && _); [done|]. repeat (case_decide; [done|]).
    by destruct (mk_bytes 32 (addr_Data x)). }
  destruct r as [[[u cur]|]|[]|[]|[]|[[o m]|]|[]| |[] ty|q]; simpl in *;
    try (destruct Hn; by eauto); try done.
  - unfold or_error, uc_CreateAddress. by destruct (IsValidCurrency config cur).
  - unfold or_error, uc_CreateServiceTonWithdrawal, convertTonServiceWithdrawal, st_try, st_bind, st_lift.
    destruct (ParseAddress config s) as [a|e| |] eqn:E; simpl; try done;
      first [by destruct Hn; eauto | by destruct (Hp _ _ E)].
  - unfold or_error, uc_CreateServiceJettonWithdrawal, convertJettonServiceWithdrawal, st_try, st_bind, st_lift.
    destruct (ParseAddress config o) as [a|e| |] eqn:E; simpl; try done;
      first [by destruct Hn; eauto | by destruct (Hp _ _ E)].
  - unfold or_error, uc_GetIncome. by case_bool_decide.
  - unfold getIncomeHistory, or_error, uc_GetHistory. by destruct (IsValidCurrency config (gh_Currency q)).
Qed.
End serving.

(** ** Reports *)

Section reports.
Context `{PG : PgLib} {O : Type}.

(** What the hot wallet receives from jetton deposits is missing from the
    incomes counted on its side: an income recorded under the owner's address,
    as the scanner records them, is in no group of the report, whatever the
    user, when no wallet is reported under that address. *)
Theorem jetton_income_not_counted (incomes : list internal_income_row) d uid types owner i :
  in_deposit_address i = tw_address owner →
  (∀ tw, tw ∈ ton_wallets d → tw_address tw = tw_address owner →
     ∃ jw, jw ∈ jetton_wallets d ∧ jw_subwallet_id jw = tw_subwallet_id tw) →
  (∀ jw, jw ∈ jetton_wallets d → jw_address jw ≠ tw_address owner) →
  ∀ k, (k, Some i) ∉ income_rows in_deposit_address incomes uid types d.
Proof.
  intros Hi Hj Ha k Hk. unfold income_rows in Hk.
  apply list_elem_of_fmap in Hk as ([[tw ojw] oi] & Hkey & Hrow). simplify_eq/=.
  apply elem_of_left_join in Hrow as [Hrow [_ Hon]]. apply bool_decide_eq_true in Hon.
  apply elem_of_left_join in Hrow as [Htw Hjw]. apply list_elem_of_filter in Htw as [_ Htw].
  unfold income_key in Hon. destruct ojw as [jw|]; simpl in Hon.
  - destruct Hjw as [Hjw _]. apply (Ha jw Hjw). congruence.
  - destruct (Hj tw Htw) as (jw & Hjw' & He); [congruence|].
    specialize (Hjw jw Hjw'). apply bool_decide_eq_false in Hjw. done.
Qed.
End reports.
