(* ===== verification/Reports.v ===== *)
(** * The reports of the interface

    [getIncome] of [db/repository.go] joins the wallets of a user with the
    incomes and sums by deposit. Here is the report as one would define it, a line
    for each deposit with the sum of what it received, and the proof that the
    query gives it. *)

From S2P Require Import Prelude TonUtils Config Models Core Db AddressBook Repository Ledger.

Local Open Scope string_scope.
Local Open Scope list_scope.
Local Open Scope Z_scope.

(** ** Grouped sums over a left join *)

Section groups.
Context {A R K : Type} `{EqDecision K} (key : A → K) (on : A → R → bool) (amount : R → Z).
Abbreviation rows pairs incomes := (map (λ r, (key r.1, r.2)) (left_join on pairs incomes)).

(** What one line of the left side is joined with. *)
Definition joined (incomes : list R) (a : A) : Z := sumZ amount (List.filter (on a) incomes).

Lemma left_join_cons a pairs incomes :
  left_join on (a :: pairs) incomes = left_join on [a] incomes ++ left_join on pairs incomes.
Proof. unfold left_join. simpl. by rewrite app_nil_r. Qed.

Lemma group_total_app (l1 l2 : list (K * option R)) k :
  group_total amount (l1 ++ l2) k = group_total amount l1 k + group_total amount l2 k.
Proof. unfold group_total. by rewrite filter_app, sumZ_app. Qed.

(** The rows of a line count in its own group only. *)
Lemma group_total_one a incomes k :
  group_total amount (rows [a] incomes) k = if decide (key a = k) then joined incomes a else 0.
Proof.
  unfold left_join, joined, group_total. simpl. rewrite app_nil_r.
  assert (∀ bs : list R, sumZ (λ r, from_option amount 0 r.2)
    (filter (λ r, r.1 = k) (map (λ r, (key r.1, r.2)) (map (λ b, (a, Some b)) bs))) =
    if decide (key a = k) then sumZ amount bs else 0) as Hrows.
  { induction bs as [|b bs IH]; [by case_decide|]. simpl. rewrite filter_cons. simpl.
    case_decide; simpl; rewrite ?sumZ_cons; simpl; by rewrite IH. }
  destruct (List.filter (on a) incomes) as [|b bs]; [|apply (Hrows (b :: bs))].
  simpl. rewrite filter_cons. simpl. by case_decide.
Qed.

Lemma group_total_rows pairs incomes a :
  NoDup (map key pairs) → a ∈ pairs →
  group_total amount (rows pairs incomes) (key a) = joined incomes a.
Proof.
  assert (∀ pairs, key a ∉ map key pairs → group_total amount (rows pairs incomes) (key a) = 0) as Hnone.
  { clear pairs. induction pairs as [|b pairs IH]; intros Hn; [done|]. simpl in Hn.
    apply not_elem_of_cons in Hn as [Hb Hn]. rewrite left_join_cons, map_app, group_total_app, IH by done.
    rewrite group_total_one, decide_False by congruence. lia. }
  induction pairs as [|b pairs IH]; intros Hn Ha; [by apply elem_of_nil in Ha|]. simpl in Hn.
  apply NoDup_cons in Hn as [Hb Hn]. rewrite left_join_cons, map_app, group_total_app, group_total_one.
  apply elem_of_cons in Ha as [<-|Ha].
  - rewrite decide_True, Hnone by done. lia.
  - rewrite decide_False, IH; [lia|done|done|]. intros E. apply Hb. rewrite E. by apply list_elem_of_fmap_2.
Qed.

(** Every line has a row, so its group is there. *)
Lemma elem_of_row_keys pairs incomes k : k ∈ map fst (rows pairs incomes) ↔ k ∈ map key pairs.
Proof.
  rewrite !list_elem_of_fmap. split.
  - intros ([k' o] & -> & ([a o'] & E & Ha)%list_elem_of_fmap). simplify_eq/=.
    apply elem_of_left_join in Ha as [Ha _]. by exists a.
  - intros (a & -> & Ha). destruct (List.filter (on a) incomes) as [|b bs] eqn:E.
    + exists (key a, None). split; [done|]. apply list_elem_of_fmap. exists (a, None). split; [done|].
      apply elem_of_left_join. split; [done|]. intros b Hb. destruct (on a b) eqn:Eo; [|done].
      assert (In b (List.filter (on a) incomes)) as Hin
        by (apply filter_In; split; [by apply list_elem_of_In|done]). by rewrite E in Hin.
    + exists (key a, Some b). split; [done|]. apply list_elem_of_fmap. exists (a, Some b). split; [done|].
      apply elem_of_left_join. split; [done|].
      assert (In b (List.filter (on a) incomes)) as [Hin Ho]%filter_In by (rewrite E; by left).
      split; [by apply list_elem_of_In|done].
Qed.

Lemma row_keys pairs incomes :
  NoDup (map key pairs) → distinct (map fst (rows pairs incomes)) ≡ₚ map key pairs.
Proof.
  intros Hn. apply NoDup_Permutation; [apply NoDup_remove_dups|done|]. intros k. unfold distinct.
  rewrite elem_of_remove_dups. apply elem_of_row_keys.
Qed.
End groups.

(** ** The report *)

Section report.
Context `{AL : AddrLib} `{PG : PgLib} {O : Type}.

(** The deposits of a user: the TON wallets, with their jetton wallet if they
    own one. *)
Definition deposits_of (uid : string) (d : DB) : list (ton_wallet_row * option jetton_wallet_row) :=
  left_join (λ tw jw, bool_decide (jw_subwallet_id jw = tw_subwallet_id tw))
    (filter (λ tw, tw_user_id tw = uid ∧ tw_type tw ∈ [TonDepositWallet; JettonOwner]) (ton_wallets d))
    (jetton_wallets d).

(** The address that receives. *)
Definition deposit_address (p : ton_wallet_row * option jetton_wallet_row) : Address :=
  match p.2 with Some jw => jw_address jw | None => tw_address p.1 end.

Definition report_line (d : DB) (p : ton_wallet_row * option jetton_wallet_row) : TotalIncome := {|
  ti_Deposit := deposit_address p;
  ti_Amount := sumZ xi_amount (filter (λ i, xi_deposit_address i = deposit_address p) (external_incomes d));
  ti_Currency := match p.2 with Some jw => jw_currency jw | None => TonSymbol end |}.

(** Deposits of different wallets are told apart by their addresses. *)
Lemma deposit_keys uid d :
  NoDup (map tw_address (ton_wallets d)) → NoDup (map jw_address (jetton_wallets d)) →
  NoDup (map income_key (deposits_of uid d)).
Proof.
  intros Ht Hj. unfold deposits_of.
  assert (NoDup (map tw_address (filter (λ tw, tw_user_id tw = uid ∧ tw_type tw ∈ [TonDepositWallet; JettonOwner])
    (ton_wallets d)))) as Hn.
  { eapply sublist_NoDup; [exact Ht|]. apply fmap_sublist, sublist_filter. }
  induction (filter _ (ton_wallets d)) as [|tw tws IH]; [constructor|]. simpl in Hn.
  apply NoDup_cons in Hn as [Htw Hn]. rewrite left_join_cons, map_app. apply NoDup_app. split_and!; [| |by apply IH].
  - unfold left_join. simpl. rewrite app_nil_r.
    assert (∀ jws, NoDup (map jw_address jws) → NoDup (map income_key (map (λ b, (tw, Some b)) jws))) as Hjs.
    { intros jws. rewrite map_map. apply NoDup_map_finer. intros x y _ _ E. unfold income_key in E. simpl in E.
      congruence. }
    destruct (List.filter _ _) as [|b bs] eqn:E; [apply NoDup_singleton|]. apply (Hjs (b :: bs)). rewrite <- E.
    eapply sublist_NoDup; [exact Hj|]. apply fmap_sublist, List_filter_sublist.
  - intros k (p & -> & Hp)%list_elem_of_fmap (q & Hk & Hq)%list_elem_of_fmap.
    destruct p as [tw1 o1], q as [tw2 o2].
    apply elem_of_left_join in Hp as [->%list_elem_of_singleton _]. apply elem_of_left_join in Hq as [Hq _].
    apply Htw, list_elem_of_fmap. exists tw2. split; [|done]. unfold income_key in Hk. simpl in Hk. congruence.
Qed.

(** What the groups of the query add up to. *)
Lemma income_report uid d :
  db_inv d → NoDup (map tw_address (ton_wallets d)) →
  let rows := income_rows xi_deposit_address (external_incomes d) uid [TonDepositWallet; JettonOwner] d in
  map (λ k, {| ti_Deposit := k.1.1; ti_Amount := group_total xi_amount rows k; ti_Currency := default TonSymbol k.2 |})
    (plan (distinct (map fst rows))) ≡ₚ map (report_line d) (deposits_of uid d).
Proof.
  intros I Ht rows. pose proof (deposit_keys uid d Ht (inv_jetton _ I)) as Hk.
  rewrite plan_perm. unfold rows, income_rows. fold (deposits_of uid d).
  rewrite (row_keys income_key _ (deposits_of uid d) _ Hk), map_map. apply reflexive_eq, map_ext_in. intros p Hp%list_elem_of_In.
  rewrite (group_total_rows income_key _ xi_amount _ _ p Hk Hp). unfold joined, report_line.
  destruct p as [tw [jw|]]; simpl; by rewrite List_filter_decide.
Qed.

(** A query that can not run gives an error. *)
Lemma query_refused {A} (f : DB → res A) (w w' : World O) r e :
  query f w = (r, w') → f (w_db w) = Err e → ∃ e', r = Err e'.
Proof.
  intros H Hf. unfold query, exec in H. rewrite Hf in H. simpl in H.
  repeat case_match; injection H as <- _; by eexists.
Qed.

End report.
