(* ===== verification/Deposits.v ===== *)
(** * Creating a deposit, from the interface to the tables

    [CreateAddress] of [api/usecases/address.go] over the searches of
    [core/wallet/wallet.go] and the statements of [db/repository.go]: what a new
    deposit is, and that the tables of wallets stay sound. *)

From S2P Require Import Prelude TonUtils Config Models Core Db AddressBook Repository.
From S2P Require Import WithdrawalRepository Ledger BlockScanner Saving Incomes Messages Acceptance Wallets Api.
From stdpp Require Import pretty.

Local Open Scope string_scope.
Local Open Scope list_scope.
Local Open Scope Z_scope.

(** The interface calls a search without fuel; what it returns is what the
    search finds. *)
Definition finds {A} (search : nat → Z → option (res A)) (f : Z → res A) : Prop :=
  ∀ start x, f start = Ok x → ∃ fuel, search fuel start = Some (Ok x).

(** The identifier that follows the greatest one in use. *)
Lemma next_identifier `{WL : WalletLib} (d : DB) last start id :
  (let i := default DefaultSubwallet (maxZ (map tw_subwallet_id (ton_wallets d))) in
   if decide (0 ≤ i ≤ max_uint32) then Ok i else Err EEncode) = Ok last →
  start = wrap32 (last + 1) → start ≤ id →
  (∀ x, x ∈ ton_wallets d → 0 ≤ tw_subwallet_id x < max_uint32) →
  ∀ x, x ∈ ton_wallets d → tw_subwallet_id x < id.
Proof.
  intros Hlast -> Hid Hb x Hx. cbv zeta in Hlast. case_decide as Hr; [|done]. injection Hlast as <-.
  destruct (maxZ (map tw_subwallet_id (ton_wallets d))) as [m|] eqn:Em; simpl in Hid.
  - apply maxZ_spec in Em as [Hm1 Hm2]. apply list_elem_of_fmap in Hm1 as (y & -> & Hy).
    specialize (Hb y Hy). rewrite wrap32_small in Hid by (unfold max_uint32 in Hb; lia).
    assert (tw_subwallet_id x ≤ tw_subwallet_id y); [|lia].
    apply Hm2, list_elem_of_fmap. eauto.
  - apply maxZ_None in Em. destruct (ton_wallets d); [set_solver|done].
Qed.

(** A call that changes nothing when it fails. *)
Definition clean {O A} (m : ST (World O) A) : Prop :=
  ∀ w r w', m w = (r, w') → (∀ a, r ≠ Ok a) → w_db w' = w_db w.

Lemma clean_bind {O A B} (m : ST (World O) A) (k : A → ST (World O) B) :
  db_rel eq m → (∀ a, clean (k a)) → clean (st_bind m k).
Proof.
  intros Hm Hk w r w' H Hr. unfold st_bind in H. destruct (Hm w) as [Hw _].
  destruct (m w) as [[a| | |] w1]; simpl in Hw; [|by injection H as _ <-..].
  rewrite Hw. by eapply Hk.
Qed.

Lemma clean_ret {O A B} (m : ST (World O) A) (f : A → B) : clean m → clean (st_bind m (λ a, st_ret (f a))).
Proof.
  intros Hm w r w' H Hr. unfold st_bind in H. destruct (m w) as [[a| | |] w1] eqn:E; injection H as <- <-;
    [by destruct (Hr (f a))|by eapply Hm..].
Qed.

Lemma clean_fail {O A} e : clean (O:=O) (A:=A) (st_fail e).
Proof. intros w r w' [= _ <-] _. done. Qed.

Lemma clean_exec {O A} (f : DB → res (A * DB)) : clean (O:=O) (exec f).
Proof.
  intros w r w' H Hr. unfold exec in H.
  assert (∀ e (w : World O), w_db (abort_tx e w) = w_db w) as Hdb.
  { intros e w0. unfold abort_tx. by repeat case_match. }
  repeat case_match; simplify_eq; try done; try (by rewrite Hdb); by edestruct Hr.
Qed.

Lemma clean_in_tx {O A} (m : ST (World O) A) : clean (in_tx m).
Proof. intros w r w' H Hr. by eapply in_tx_error. Qed.

Lemma AddressFromTonutilsAddress_data `{AL : AddrLib} a x :
  AddressFromTonutilsAddress (Some a) = Ok x → Value x = addr_Data a.
Proof. unfold AddressFromTonutilsAddress. case_decide; [done|]. apply AddressFromBytes_Ok. Qed.

Lemma insert_ton_wallet_Ok `{PG : PgLib} r d d' :
  insert_ton_wallet r d = Ok (tt, d') → d' = set_ton_wallets (ton_wallets d ++ [r]) d.
Proof.
  unfold insert_ton_wallet. intros (? & _ & H)%res_bind_Ok.
  apply res_bind_Ok in H as (t & [_ ->]%insert_unique_Ok & H). by injection H as <-.
Qed.

Lemma insert_jetton_wallet_Ok `{PG : PgLib} r d d' :
  insert_jetton_wallet r d = Ok (tt, d') → d' = set_jetton_wallets (jetton_wallets d ++ [r]) d.
Proof.
  unfold insert_jetton_wallet. intros (? & _ & H)%res_bind_Ok. apply res_bind_Ok in H as (? & _ & H).
  apply res_bind_Ok in H as (t & [_ ->]%insert_unique_Ok & H). by injection H as <-.
Qed.

Section creating.
Context `{TL : TvmLib} `{UL : UuidLib} `{PG : PgLib} `{WL : WalletLib} `{TW : !TonWalletLib} {O : Type}.
Context (config : Config) (bc : Blockchain) (v : Version) (shard : Z).
Context (gen : Z → res (TonWallet * Z)).
Context (genj : tonaddr → tonaddr → Z → res (JettonProxy * tonaddr)) (hot : tonaddr).

Hypothesis gen_finds : finds (λ fuel, GenerateSubWallet bc v fuel shard (cfg_Seed config)) gen.
Hypothesis genj_finds : ∀ owner master,
  finds (λ fuel, GenerateDepositJettonWalletForProxy bc config fuel shard owner master) (genj owner master).
(** The flags of an address are not part of its data. *)
Hypothesis testnet_data : ∀ f a, addr_Data (addr_SetTestnetOnly f a) = addr_Data a.

Lemma last_identifier (w w' : World O) last :
  GetLastSubwalletID w = (Ok last, w') → w_db w' = w_db w ∧
  ∀ start id, start = wrap32 (last + 1) → start ≤ id →
    (∀ x, x ∈ ton_wallets (w_db w) → 0 ≤ tw_subwallet_id x < max_uint32) →
    ∀ x, x ∈ ton_wallets (w_db w) → tw_subwallet_id x < id.
Proof. intros (H & Hw & _)%query_Ok. split; [done|]. intros start id. by apply next_identifier. Qed.

(** Creating a TON deposit adds exactly one wallet: it belongs to the
    user, it is the sub-wallet of the seed with its identifier, its address is the
    one returned and is in the shard of the processor, and its identifier is
    greater than every identifier in use as long as those are below the largest
    [uint32]. *)
Theorem create_ton_deposit userID (w w' : World O) s :
  uc_CreateAddress config repository gen genj hot userID TonSymbol w = (Ok s, w') →
  ∃ r, ton_wallets (w_db w') = ton_wallets (w_db w) ++ [r] ∧
    jetton_wallets (w_db w') = jetton_wallets (w_db w) ∧
    tw_user_id r = pretty userID ∧ tw_type r = TonDepositWallet ∧
    s = ToUserFormat (cfg_Testnet config) (tw_address r) ∧ inShard (tw_address r) shard = true ∧
    (∃ basic b i sub, GenerateWallet bc (cfg_Seed config) v = Ok (basic, b, i) ∧
       GetSubwallet basic (tw_subwallet_id r) = Some sub ∧
       AddressFromTonutilsAddress (Some (w_Address sub)) = Ok (tw_address r)) ∧
    ((∀ x, x ∈ ton_wallets (w_db w) → 0 ≤ tw_subwallet_id x < max_uint32) →
     ∀ x, x ∈ ton_wallets (w_db w) → tw_subwallet_id x < tw_subwallet_id r).
Proof.
  intros H. unfold uc_CreateAddress in H.
  assert (IsValidCurrency config TonSymbol = true) as Hv.
  { unfold IsValidCurrency. by destruct (cfg_Jettons config !! TonSymbol). }
  rewrite Hv in H. simpl in H. apply st_bind_Ok in H as (last & w1 & Hlast & H).
  apply last_identifier in Hlast as [Hw Hid]. unfold createTonAddress in H.
  apply st_bind_Ok in H as ([sub id] & w2 & Hg & H). unfold st_lift in Hg. injection Hg as Hg <-.
  apply st_bind_Ok in H as (a & w3 & Ha & H). unfold st_lift in Ha. injection Ha as Ha <-.
  apply st_bind_Ok in H as ([] & w4 & (d & Hd & ->)%exec_Ok & H). unfold st_ret in H.
  change (AddressFromTonutilsAddress (Some (w_Address sub)) = Ok a) in Ha.
  apply gen_finds in Hg as (fuel & Hg). unfold GenerateSubWallet in Hg.
  destruct (GenerateWallet bc (cfg_Seed config) v) as [[[basic b] i]| | |] eqn:Eb; try done.
  apply find_subwallet_Ok in Hg as (Hstart & Hsub & a' & Ha' & Hin). rewrite Ha in Ha'.
  injection Ha' as <-.
  injection H as <- <-. apply insert_ton_wallet_Ok in Hd as ->.
  rewrite Hw. eexists. split_and!; [done..| |by eapply Hid]. exists basic, b, i, sub. done.
Qed.

Lemma CreateAddress_clean userID currency :
  clean (uc_CreateAddress (O:=O) config repository gen genj hot userID currency).
Proof.
  unfold uc_CreateAddress. destruct (negb _); [apply clean_fail|].
  apply clean_bind; [apply db_rel_query, _|intros last]. case_decide.
  - unfold createTonAddress. apply clean_bind; [apply preserves_lift, _|intros [? ?]].
    apply clean_bind; [apply preserves_lift, _|intros ?]. apply clean_ret, clean_exec.
  - unfold createJettonAddress. case_match; [|apply clean_fail].
    apply clean_bind; [apply preserves_lift, _|intros [? ?]].
    do 2 (apply clean_bind; [apply preserves_lift, _|intros ?]). apply clean_ret, clean_in_tx.
Qed.

Lemma jetton_deposit_rows userID currency (w w' : World O) s :
  currency ≠ TonSymbol →
  uc_CreateAddress config repository gen genj hot userID currency w = (Ok s, w') →
  ∃ j p raw t jw, cfg_Jettons config !! currency = Some j ∧
    NewJettonProxy (tw_subwallet_id t) (Some hot) = Ok p ∧
    wallets_GetJettonWalletAddress bc (px_address p) (j_Master j) = Ok raw ∧
    ton_wallets (w_db w') = ton_wallets (w_db w) ++ [t] ∧
    jetton_wallets (w_db w') = jetton_wallets (w_db w) ++ [jw] ∧
    tw_user_id t = pretty userID ∧ jw_user_id jw = pretty userID ∧
    tw_type t = JettonOwner ∧ jw_type jw = JettonDepositWallet ∧ jw_currency jw = currency ∧
    jw_subwallet_id jw = tw_subwallet_id t ∧
    AddressFromTonutilsAddress (Some (px_address p)) = Ok (tw_address t) ∧
    Value (jw_address jw) = addr_Data raw ∧ inShard (jw_address jw) shard = true ∧
    s = ToUserFormat (cfg_Testnet config) (tw_address t) ∧
    ((∀ x, x ∈ ton_wallets (w_db w) → 0 ≤ tw_subwallet_id x < max_uint32) →
     ∀ x, x ∈ ton_wallets (w_db w) → tw_subwallet_id x < tw_subwallet_id t).
Proof.
  intros Hcur H. unfold uc_CreateAddress in H.
  destruct (IsValidCurrency config currency); [|done]. simpl in H.
  apply st_bind_Ok in H as (last & w1 & Hlast & H). apply last_identifier in Hlast as [Hw Hid].
  rewrite decide_False in H by done. unfold createJettonAddress in H.
  destruct (cfg_Jettons config !! currency) as [j|]; [|done].
  apply st_bind_Ok in H as ([p a] & w2 & Hg & H). unfold st_lift in Hg. injection Hg as Hg <-.
  apply st_bind_Ok in H as (ja & w3 & Hja & H). unfold st_lift in Hja. injection Hja as Hja <-.
  apply st_bind_Ok in H as (pa & w4 & Hpa & H). unfold st_lift in Hpa. injection Hpa as Hpa <-.
  apply st_bind_Ok in H as ([] & w5 & Hsave & H). injection H as <- <-.
  change (AddressFromTonutilsAddress (Some (px_address p)) = Ok pa) in Hpa.
  apply genj_finds in Hg as (fuel & (id & raw & Hstart & (Hp & Hraw & Hhead) & ->)%find_proxy_Ok).
  apply (AddressFromTonutilsAddress_data (addr_SetTestnetOnly (cfg_Testnet config) raw)) in Hja as Hdata.
  rewrite testnet_data in Hdata.
  assert (inShard ja shard = true) as Hin by (apply bool_decide_eq_true; by rewrite <- Hhead, <- Hdata).
  assert (px_SubwalletID p = id) as Hpid.
  { unfold NewJettonProxy in Hp. do 2 apply res_bind_Ok in Hp as (? & _ & Hp). by injection Hp as <-. }
  apply in_tx_Ok in Hsave as (v1 & v2 & Hv1 & _ & Hsave & Hv2). rewrite Hw in Hv1.
  rewrite Hv2, <- Hv1.
  apply st_bind_Ok in Hsave as ([] & v3 & (d1 & H1 & ->)%exec_Ok & (d2 & H2 & ->)%exec_Ok).
  apply insert_ton_wallet_Ok in H1 as ->. apply insert_jetton_wallet_Ok in H2 as ->.
  eexists j, p, raw, _, _. rewrite <- Hv1 in Hid. simpl. rewrite Hpid.
  split_and!; try first [done|by eapply Hid]. exact Hp.
Qed.
(** C32. Creating a jetton deposit adds exactly one TON wallet and one jetton
    wallet with the same identifier, or, when it fails, nothing. The TON wallet is
    the proxy contract with that identifier, whose address is returned to the
    user; the jetton wallet is the one the master gives that proxy and is in the
    shard of the processor; the identifier is greater than every identifier in use
    as long as those are below the largest [uint32]. *)
Theorem create_jetton_deposit userID currency (w w' : World O) r :
  currency ≠ TonSymbol →
  uc_CreateAddress config repository gen genj hot userID currency w = (r, w') →
  ((∀ s, r ≠ Ok s) → w_db w' = w_db w) ∧
  ∀ s, r = Ok s → ∃ j p raw t jw, cfg_Jettons config !! currency = Some j ∧
    NewJettonProxy (tw_subwallet_id t) (Some hot) = Ok p ∧
    wallets_GetJettonWalletAddress bc (px_address p) (j_Master j) = Ok raw ∧
    ton_wallets (w_db w') = ton_wallets (w_db w) ++ [t] ∧
    jetton_wallets (w_db w') = jetton_wallets (w_db w) ++ [jw] ∧
    tw_user_id t = pretty userID ∧ jw_user_id jw = pretty userID ∧
    tw_type t = JettonOwner ∧ jw_type jw = JettonDepositWallet ∧ jw_currency jw = currency ∧
    jw_subwallet_id jw = tw_subwallet_id t ∧
    AddressFromTonutilsAddress (Some (px_address p)) = Ok (tw_address t) ∧
    Value (jw_address jw) = addr_Data raw ∧ inShard (jw_address jw) shard = true ∧
    s = ToUserFormat (cfg_Testnet config) (tw_address t) ∧
    ((∀ x, x ∈ ton_wallets (w_db w) → 0 ≤ tw_subwallet_id x < max_uint32) →
     ∀ x, x ∈ ton_wallets (w_db w) → tw_subwallet_id x < tw_subwallet_id t).
Proof.
  intros Hcur H. split; [by eapply CreateAddress_clean|]. intros s ->. by apply jetton_deposit_rows.
Qed.

(** ** The wallets stay sound *)

Lemma new_id_NoDup ids (id : Z) : NoDup ids → (∀ x, x ∈ ids → x < id) → NoDup (ids ++ [id]).
Proof.
  intros Hn Hlt. apply NoDup_app. split_and!; [done| |apply NoDup_singleton].
  intros x Hx ->%list_elem_of_singleton. apply Hlt in Hx. lia.
Qed.

Lemma sound_ton d d' r :
  wallets_sound hot d → ton_wallets d' = ton_wallets d ++ [r] → jetton_wallets d' = jetton_wallets d →
  tw_type r = TonDepositWallet → (∀ x, x ∈ ton_wallets d → tw_subwallet_id x < tw_subwallet_id r) →
  NoDup (map tw_address (ton_wallets d')) → wallets_sound hot d'.
Proof.
  intros [] E1 E2 Hty Hid Hn. rewrite E1 in Hn. split; rewrite ?E1, ?E2; try done.
  - rewrite map_app. apply new_id_NoDup; [done|]. intros x (t & -> & Ht)%list_elem_of_fmap. by apply Hid.
  - intros t [Ht| ->%list_elem_of_singleton]%elem_of_app; [by apply ws_owner|congruence].
  - intros j Hj Hjt. destruct (ws_deposit j Hj Hjt) as (t & ? & ? & ?). exists t. set_solver.
Qed.

Lemma sound_jetton d d' t jw :
  wallets_sound hot d → ton_wallets d' = ton_wallets d ++ [t] → jetton_wallets d' = jetton_wallets d ++ [jw] →
  tw_type t = JettonOwner → proxy_at hot (tw_subwallet_id t) (tw_address t) →
  jw_subwallet_id jw = tw_subwallet_id t → (∀ x, x ∈ ton_wallets d → tw_subwallet_id x < tw_subwallet_id t) →
  NoDup (map tw_address (ton_wallets d')) → wallets_sound hot d'.
Proof.
  intros [] E1 E2 Hty Hp Hjw Hid Hn. rewrite E1 in Hn.
  assert (∀ j, j ∈ jetton_wallets d → jw_type j = JettonDepositWallet → jw_subwallet_id j < tw_subwallet_id t) as Hold.
  { intros j Hj Hjt. destruct (ws_deposit j Hj Hjt) as (x & Hx & <- & _). by apply Hid. }
  split; rewrite ?E1, ?E2; [|done| | |].
  - rewrite map_app. apply new_id_NoDup; [done|]. intros x (y & -> & Hy)%list_elem_of_fmap. by apply Hid.
  - intros x [Hx| ->%list_elem_of_singleton]%elem_of_app; [by apply ws_owner|done].
  - intros j [Hj| ->%list_elem_of_singleton]%elem_of_app Hjt; [|exists t; set_solver].
    destruct (ws_deposit j Hj Hjt) as (x & ? & ? & ?). exists x. set_solver.
  - intros j j' [Hj| ->%list_elem_of_singleton]%elem_of_app [Hj'| ->%list_elem_of_singleton]%elem_of_app Ht Ht' E.
    + by apply ws_deposits.
    + apply Hold in Hj; [lia|done].
    + apply Hold in Hj'; [lia|done].
    + done.
Qed.

(** A book loaded from sound tables knows each TON wallet by its type. *)
Lemma loaded_book (w w' : World O) m t :
  NoDup (map tw_address (ton_wallets (w_db w))) → NoDup (map jw_address (jetton_wallets (w_db w))) →
  (∀ j, j ∈ jetton_wallets (w_db w) → jw_address j ∉ map tw_address (ton_wallets (w_db w))) →
  loadAddressBook w = (Ok m, w') → t ∈ ton_wallets (w_db w) →
  ab_GetWalletType (Some m) (tw_address t) = Ok (Some (tw_type t)).
Proof.
  intros Hn Hj Hd H Ht. apply loadAddressBook_spec in H as [(_ & H2 & H3) _]; [|done].
  destruct (H2 (tw_address t)) as (t' & Ht' & Ha & E).
  - intros j Hjin E. apply (Hd j Hjin). rewrite E. by apply list_elem_of_fmap_2.
  - by apply H3.
  - unfold ab_GetWalletType, ab_get. simpl. rewrite E.
    by rewrite (NoDup_map_eq tw_address _ t' t Hn Ht' Ht Ha).
Qed.

End creating.
