(* ===== verification/Router.v ===== *)
(** * [api/handlers/handlers.go]: the registered routes

    [Handler.Register] route by route, and what the handlers get from the path.
    The router is [bunrouter], an argument here: it matches a path against the
    pattern of a route and yields the values of the parameters that the pattern
    names. *)

From S2P Require Import Prelude TonUtils Config Models Core Db AddressBook Repository.
From S2P Require Import WithdrawalRepository BlockScanner Messages Api.
From Stdlib Require Import Ascii.

Local Open Scope string_scope.
Local Open Scope list_scope.
Local Open Scope Z_scope.

(** [bunrouter.Request]: the parameters of the path, the body, the query. *)
Record Request := {
  rq_params : gmap string string;
  rq_body : string;
  rq_query : string;
}.

(** [bunrouter], [encoding/json] and [gorilla/schema]. *)
Class HttpLib : Type := {
  match_path : string → string → option (gmap string string);
  Params_Int64 : gmap string string → string → Z + err;
  Decode_CreateAddress : string → (Z * string) + err;
  Decode_CreateWithdrawal : string → CreateWithdrawalBody + err;
  Decode_ServiceTonWithdrawal : string → string + err;
  Decode_ServiceJettonWithdrawal : string → (string * string) + err;
  Decode_GetHistory : string → GetHistoryRequest;
}.

Section router.
Context `{HL : HttpLib}.

Definition ByName (ps : gmap string string) (name : string) : string := default "" (ps !! name).

(** [Handler.Register]: method, pattern, and what its handler decodes. *)
Definition Register : list (string * string * (Request → route)) := [
  ("POST", "/address", λ r, RCreateAddress (Decode_CreateAddress (rq_body r)));
  ("GET", "/address/all", λ r, RGetAddresses (Params_Int64 (rq_params r) "user_id"));
  ("POST", "/withdrawal", λ r, RCreateWithdrawal (Decode_CreateWithdrawal (rq_body r)));
  ("POST", "/withdrawal/service/ton", λ r, RServiceTon (Decode_ServiceTonWithdrawal (rq_body r)));
  ("POST", "/withdrawal/service/jetton",
     λ r, RServiceJetton (Decode_ServiceJettonWithdrawal (rq_body r)));
  ("GET", "/withdrawal/status", λ r, RWithdrawalStatus (Params_Int64 (rq_params r) "id"));
  ("GET", "/system/sync", λ _, RSync);
  ("GET", "/income/:type",
     λ r, RIncome (Params_Int64 (rq_params r) "user_id") (ByName (rq_params r) "type"));
  ("GET", "/deposit/history", λ r, RHistory (Decode_GetHistory (rq_query r)))].

(** [notFoundHandler] of [main.go]. *)
Definition notFoundHandler (path : string) : Z * string :=
  (404, "<html>can't find a route that matches <strong>" +:+ path +:+ "</strong></html>").

(** What the router documents: the parameters of a path are those its pattern
    names, and an absent parameter is not a number. *)
Hypothesis match_path_named : ∀ pattern path ps name v,
  match_path pattern path = Some ps → ps !! name = Some v →
  ":" +:+ name ∈ Split "/"%char pattern.
Hypothesis Params_Int64_absent : ∀ ps name, ps !! name = None → ∃ e, Params_Int64 ps name = inr e.

Lemma unnamed_parameter pattern path ps name :
  match_path pattern path = Some ps → ":" +:+ name ∉ Split "/"%char pattern →
  ∃ e, Params_Int64 ps name = inr e.
Proof.
  intros Hm Hn. apply Params_Int64_absent. destruct (ps !! name) eqn:E; [|done].
  destruct Hn. eauto.
Qed.

Context `{TL : TvmLib} `{UL : UuidLib} `{TW : !TonWalletLib} {O : Type}.
Context (config : Config) (repo : Repo O) (withdrawalRepo : RequestRepo O) (ab : AddressBook).
Context (gen : Z → res (TonWallet * Z)) (genj : tonaddr → tonaddr → Z → res (JettonProxy * tonaddr)).
Context (hot : tonaddr).
Abbreviation handle := (handle config repo withdrawalRepo ab gen genj hot).

(** C40. The addresses of a user, the incomes of a user and the status of a
    withdrawal can not be asked for: their handlers read the identifier from
    the parameters of the path, the routes name no such parameter, and every
    request is refused with the status 400, whatever it says and whatever is
    stored. *)
Theorem identifiers_never_read method pattern path mk rq (w : World O) :
  (method, pattern, mk) ∈ Register →
  pattern ∈ ["/address/all"; "/income/:type"; "/withdrawal/status"] →
  match_path pattern path = Some (rq_params rq) →
  ∃ comment, handle (mk rq) w =
    (Ok {| rs_status := StatusBadRequest; rs_body := BError comment |}, w).
Proof.
  intros Hr Hp Hm. unfold Register in Hr.
  repeat apply elem_of_cons in Hr as [Hr|Hr]; [..|by apply elem_of_nil in Hr]; simplify_eq;
    try (contradict Hp; apply (bool_decide_unpack _); by vm_compute); cbv beta.
  all: match goal with |- context [Params_Int64 _ ?n] =>
         destruct (unnamed_parameter _ _ _ n Hm) as [e He];
           [apply (bool_decide_unpack _); by vm_compute|rewrite He; by eexists] end.
Qed.
End router.
