(* ===== verification/Processes.v ===== *)
(** * The loops of the program are paths of the protocol

    [Protocol] says which repository calls change the tables; here each loop of
    the program, as its own file models it, is shown to make only such steps:
    a block of the scanner, a pass of each of the three loops of the withdrawal
    processor, a request to the interface, and the start of the wallets. What
    is proved of reachable states therefore holds of the program. *)

From S2P Require Import Prelude TonUtils Config Models Core Db AddressBook Repository.
From S2P Require Import WithdrawalRepository Ledger BlockScanner Saving Protocol.
From S2P Require Import Messages Processor ProcessorFacts Wallets Api.

Local Open Scope string_scope.
Local Open Scope list_scope.
Local Open Scope Z_scope.

(** ** Calls *)

Section calls.
Context `{AL : AddrLib} `{UL : UuidLib} `{PG : PgLib} `{WL : WalletLib} {O : Type}.
Abbreviation step := (step (O:=O)).
Abbreviation DBM := (ST (World O)).

(** Whatever is picked, the tables change by steps. *)
Definition calls (d d' : DB) : Prop :=
  ∀ l, rtc step {| s_db := d; s_picked := l |} {| s_db := d'; s_picked := l |}.

#[export] Instance calls_preorder : PreOrder calls.
Proof. split; [intros d l; reflexivity|]. intros a b c H1 H2 l. etrans; [apply H1|apply H2]. Qed.

Lemma db_rel_call (m : DBM unit) : call m → db_rel calls m.
Proof.
  intros Hc w. split; [|apply (call_ledger m Hc w)]. intros l.
  destruct (m w) as [r w'] eqn:E. simpl. apply rtc_once.
  by apply (step_call m {| s_db := w_db w; s_picked := l |} w r w').
Qed.

(** A call whose result the program uses. *)
Lemma db_rel_call_result {A} (m : DBM A) :
  call (do! _ <- m; st_ret tt) → db_rel calls m.
Proof.
  intros Hc w. pose proof (db_rel_call _ Hc w) as H. unfold st_bind in H.
  by destruct (m w) as [[] w'].
Qed.

Lemma calls_bind {A B} (m : DBM A) (k : A → DBM B) :
  db_rel calls m → (∀ a, db_rel calls (k a)) → db_rel calls (st_bind m k).
Proof. apply preserves_bind, _. Qed.
Lemma calls_ret {A} (a : A) : db_rel calls (st_ret (S := World O) a).
Proof. apply preserves_ret, _. Qed.
Lemma calls_lift {A} (r : res A) : db_rel calls (st_lift (S := World O) r).
Proof. apply preserves_lift, _. Qed.
Lemma calls_fail {A} e : db_rel calls (st_fail (S := World O) (A := A) e).
Proof. apply preserves_fail, _. Qed.
Lemma calls_try {A} (m : DBM A) : db_rel calls m → db_rel calls (st_try m).
Proof. apply preserves_try. Qed.
Lemma calls_fatal {A} (m : DBM A) : db_rel calls m → db_rel calls (st_fatal m).
Proof. apply preserves_fatal. Qed.
Lemma calls_for {A B} (f : B → A → DBM B) l b :
  (∀ b x, x ∈ l → db_rel calls (f b x)) → db_rel calls (for_st f b l).
Proof. apply preserves_for, _. Qed.
Lemma calls_each {A} (f : A → DBM unit) l :
  (∀ x, x ∈ l → db_rel calls (f x)) → db_rel calls (each_st f l).
Proof. apply preserves_each, _. Qed.
Lemma calls_query {A} (f : DB → res A) : db_rel calls (query (O:=O) f).
Proof. apply db_rel_query, _. Qed.
Lemma calls_now : db_rel calls (now (O:=O)).
Proof. apply db_rel_now, _. Qed.
Lemma calls_NewV4 : db_rel calls (NewV4 (O:=O)).
Proof. apply db_rel_NewV4, _. Qed.

Lemma calls_CreateWithdrawalRequest wq : db_rel calls (CreateWithdrawalRequest (O:=O) wq).
Proof. apply db_rel_call_result, call_request. Qed.
Lemma calls_CreateServiceWithdrawalRequest s :
  db_rel calls (CreateServiceWithdrawalRequest (O:=O) s).
Proof. apply db_rel_call_result, call_service. Qed.
Lemma calls_UpdateServiceWithdrawalRequest t c e f :
  db_rel calls (UpdateServiceWithdrawalRequest (O:=O) t c e f).
Proof. apply db_rel_call, call_service_update. Qed.
Lemma calls_SaveInternalWithdrawalTask t e m :
  db_rel calls (SaveInternalWithdrawalTask (O:=O) t e m).
Proof. apply db_rel_call, call_internal. Qed.
Lemma calls_SaveTonWallet wd : db_rel calls (SaveTonWallet (O:=O) wd).
Proof. apply db_rel_call, call_ton_wallet. Qed.
Lemma calls_SaveJettonWallet o wd b : db_rel calls (SaveJettonWallet (O:=O) o wd b).
Proof. apply db_rel_call, call_jetton_wallet. Qed.
Lemma calls_SaveParsedBlockData e : db_rel calls (SaveParsedBlockData (O:=O) e).
Proof. apply db_rel_call, call_block. Qed.
Lemma calls_SetExpired : db_rel calls (SetExpired (O:=O)).
Proof. apply db_rel_call, call_expire. Qed.
Lemma calls_GetLastSavedBlock : db_rel calls (GetLastSavedBlock (O:=O)).
Proof. apply calls_bind; [apply calls_try, calls_query|intros; apply calls_lift]. Qed.
End calls.

Create HintDb calls.
#[export] Hint Resolve calls_ret calls_lift calls_fail calls_query calls_now calls_NewV4 calls_CreateWithdrawalRequest
  calls_CreateServiceWithdrawalRequest calls_UpdateServiceWithdrawalRequest
  calls_SaveInternalWithdrawalTask calls_SaveTonWallet calls_SaveJettonWallet
  calls_SaveParsedBlockData calls_SetExpired calls_GetLastSavedBlock : calls.

(** Walks through the statements of a program, splitting its branches. *)
Ltac calls :=
  repeat first
    [ progress intros
    | progress cbn zeta
    | solve [eauto 2 with calls]
    | apply calls_bind
    | apply calls_try | apply calls_fatal | apply calls_each | apply calls_for
    | case_match ].

(** ** Programs as paths

    [path x m Q]: from tables and a state [x] that goes with them where the
    invariant [I] holds, the program [m] makes steps of [R]; when it succeeds with
    [a] the state is one of which [Q a] is true, and when it returns an error one
    of which [E] is. *)

(** The steps keep the invariant. *)
Class Stable {S} (R : S → S → Prop) (I : S → Prop) : Prop := stable : ∀ s s', R s s' → I s → I s'.
#[export] Instance stable_True {S} (R : S → S → Prop) : Stable R (λ _, True).
Proof. by intros s s'. Qed.

Section path.
Context {O S X : Type} (mk : DB → X → S) (R : S → S → Prop) (I : S → Prop) (E : X → Prop) `{!Stable R I}.
Abbreviation DBM := (ST (World O)).

Lemma stable_rtc s s' : rtc R s s' → I s → I s'.
Proof. induction 1 as [|s1 s2 s3 H _ IH]; [done|]. intros HI. apply IH. by eapply stable. Qed.

Definition path {A} (x : X) (m : DBM A) (Q : A → X → Prop) : Prop :=
  ∀ w r w', I (mk (w_db w) x) → m w = (r, w') →
    ∃ x', rtc R (mk (w_db w) x) (mk (w_db w') x') ∧
      (∀ a, r = Ok a → Q a x') ∧ (∀ e, r = Err e → E x').

Lemma path_bind {A B} x (m : DBM A) (k : A → DBM B) Q Q' :
  path x m Q → (∀ a x', Q a x' → path x' (k a) Q') → path x (st_bind m k) Q'.
Proof.
  intros Hm Hk w r w' HI. unfold st_bind. destruct (m w) as [r1 w1] eqn:Em.
  destruct (Hm _ _ _ HI Em) as (x1 & H1 & HQ & HE). destruct r1 as [a|e| |].
  - intros H. pose proof (stable_rtc _ _ H1 HI) as HI1.
    destruct (Hk a x1 (HQ a eq_refl) _ _ _ HI1 H) as (x' & H' & HQ').
    exists x'. split; [by etrans|done].
  - intros [= <- <-]. exists x1. split_and!; [done|done|by intros e' [= <-]; eapply HE].
  - intros [= <- <-]. by exists x1.
  - intros [= <- <-]. by exists x1.
Qed.

Lemma path_ret {A} x (a : A) (Q : A → X → Prop) : Q a x → path x (st_ret a) Q.
Proof. intros HQ w r w' _ [= <- <-]. exists x. split_and!; [done|by intros a' [= <-]|done]. Qed.

Lemma path_fatal {A} x (m : DBM A) Q : path x m Q → path x (st_fatal m) Q.
Proof.
  intros H w r w' HI. unfold st_fatal. destruct (m w) as [r1 w1] eqn:Em.
  destruct (H _ _ _ HI Em) as (x1 & H1 & HQ & _). destruct r1; intros [= <- <-]; exists x1; naive_solver.
Qed.

Lemma path_Ok {A} x (m : DBM A) Q (P : A → Prop) :
  path x m Q → (∀ w a w', m w = (Ok a, w') → P a) → path x m (λ a x', P a ∧ Q a x').
Proof.
  intros H HP w r w' HI Em. destruct (H _ _ _ HI Em) as (x' & ? & HQ & HE). exists x'. split_and!; [done| |done].
  intros a ->. split; [by eapply HP|auto].
Qed.

Lemma path_weaken {A} x (m : DBM A) (Q Q' : A → X → Prop) :
  path x m Q → (∀ a x', Q a x' → Q' a x') → path x m Q'.
Proof. intros H HQ w r w' HI Em. destruct (H _ _ _ HI Em) as (x' & ? & ? & ?). exists x'. eauto. Qed.

(** A program that leaves the state alone. *)
Lemma path_same {A} (R' : DB → DB → Prop) x (m : DBM A) :
  (∀ d d', R' d d' → rtc R (mk d x) (mk d' x)) → E x → db_rel R' m → path x m (λ _ x', x' = x).
Proof.
  intros HR HE H w r w' _ Em. exists x. split_and!; [|done|done]. destruct (H w) as [Hc _]. rewrite Em in Hc. by apply HR.
Qed.
End path.

(** An error that is caught. *)
Lemma path_try {O S X A} (mk : DB → X → S) R I E E' x (m : ST (World O) A) Q :
  path mk R I E x m Q →
  path mk R I E' x (st_try m) (λ o x', match o with inl a => Q a x' | inr _ => E x' end).
Proof.
  intros H w r w' HI. unfold st_try. destruct (m w) as [r1 w1] eqn:Em.
  destruct (H _ _ _ HI Em) as (x1 & H1 & HQ & HE).
  destruct r1; intros [= <- <-]; exists x1; split_and!; try done; intros o [= <-]; eauto.
Qed.

Ltac path_step := eapply path_bind; [apply _| |].

(** ** The withdrawal processor *)

Section processor.
Context `{TL : TvmLib} `{UL : UuidLib} `{PG : PgLib} `{WL : WalletLib} `{GR : GoRuntime}.
Context `{TW : !TonWalletLib} {O : Type}.
Abbreviation DBM := (ST (World O)).
Context (config : Config) (ab : AddressBook) (bc : Blockchain) (ws : Wallet).
Context (cold : option tonaddr).
(** Randomness and the network, which do not touch the tables. *)
Context (Int63 : DBM Z) (BuildMessageForMany : list (WalletMessage tonaddr Cell) → DBM (ExternalMessage tonaddr Cell)).
Context (SendExternalMessage : ExternalMessage tonaddr Cell → DBM unit).
Context (wallet_Send : TonWallet → WalletMessage tonaddr Cell → DBM unit).
Context (HInt63 : db_rel eq Int63) (HBuild : ∀ l, db_rel eq (BuildMessageForMany l)).
Context (HSend : ∀ m, db_rel eq (SendExternalMessage m)).
Context (HwSend : ∀ t m, db_rel eq (wallet_Send t m)).

Abbreviation moves := (db_rel (O:=O) (calls (O:=O))).

Lemma calls_eq {A} (m : DBM A) : db_rel eq m → db_rel (calls (O:=O)) m.
Proof. intros H w. destruct (H w) as [He Ht]. split; [by rewrite He|done]. Qed.

#[local] Hint Resolve calls_eq : calls.

Lemma makeCold_calls :
  moves (makeColdWalletWithdrawals config bc ws withdrawal_repo cold).
Proof. unfold makeColdWalletWithdrawals, cold_jetton, cold_ton. simpl. calls. Qed.

Lemma service_turn_calls b t :
  moves (service_turn ab bc ws withdrawal_repo Int63 b t).
Proof.
  unfold service_turn, buildServiceWithdrawalMessage, buildServiceJettonWithdrawal. simpl. calls.
Qed.

Lemma internal_loop_calls b ts : moves (internal_loop config ws Int63 b ts).
Proof.
  revert b. induction ts as [|t ts IH]; intros b; simpl; unfold buildJettonInternalWithdrawalMessage; calls.
Qed.

Lemma withdrawTONs_calls t :
  moves (withdrawTONsFromDeposit config bc ws withdrawal_repo wallet_Send t).
Proof. unfold withdrawTONsFromDeposit, WithdrawTON. simpl. calls. Qed.

Lemma serviceWithdrawJettons_calls t :
  moves (serviceWithdrawJettons bc ws withdrawal_repo Int63 wallet_Send t).
Proof. unfold serviceWithdrawJettons, WithdrawJetton. simpl. calls. Qed.

#[local] Hint Resolve serviceWithdrawJettons_calls withdrawTONs_calls : calls.

Lemma internal_ton_pass_calls :
  moves (internal_ton_pass config bc ws withdrawal_repo Int63 wallet_Send).
Proof.
  unfold internal_ton_pass. simpl. calls.
Qed.

Lemma expiration_pass_calls : moves (expiration_pass SetExpired).
Proof. unfold expiration_pass. calls. Qed.

(** ** A pass that pays *)

(** From the tasks [l], the program makes steps of the protocol, and when it
    succeeds with [a] it holds tasks of which [Q a] is true. *)
Abbreviation path := (path (O:=O) (λ d l, {| s_db := d; s_picked := l |}) (step (O:=O)) (λ _, True) (λ _, True)).

Lemma path_moves {A} l (m : DBM A) : moves m → path l m (λ _ l', l' = l).
Proof. apply path_same; [|done]. intros d d' H. apply H. Qed.

Lemma external_loop_sublist b ts (w : World O) r w' :
  external_loop ab ws b ts w = (r, w') →
  w' = w ∧ ∀ b', r = Ok b' → ∃ l, w_External (bt_res b') = w_External (bt_res b) ++ l ∧ l `sublist_of` ts.
Proof.
  revert b r w'. induction ts as [|t ts IH]; intros b r w' H; simpl in H.
  { injection H as <- <-. split; [done|]. intros b' [= <-]. exists []. by rewrite app_nil_r. }
  case_decide.
  { injection H as <- <-. split; [done|]. intros b' [= <-]. exists []. rewrite app_nil_r.
    split; [done|apply sublist_nil_l]. }
  unfold st_bind, st_lift in H.
  destruct (GetWalletType ab _) as [[ty|]| | |]; try (injection H as <- <-; by split).
  { apply IH in H as [-> H]. split; [done|]. intros b' Hb. destruct (H b' Hb) as (l & ? & ?).
    exists l. split; [done|by apply sublist_cons]. }
  destruct (decreaseBalances _ _ _) as [[low bal]| | |]; try (injection H as <- <-; by split).
  destruct low.
  { apply IH in H as [-> H]. split; [done|]. intros b' Hb. destruct (H b' Hb) as (l & ? & ?).
    exists l. split; [done|by apply sublist_cons]. }
  destruct (buildExternalWithdrawalMessage ws t) as [m| | |]; try (injection H as <- <-; by split).
  apply IH in H as [-> H]. split; [done|]. intros b' Hb. destruct (H b' Hb) as (l & Hl & ?).
  exists (t :: l). simpl in Hl. rewrite <- app_assoc in Hl. split; [done|by constructor].
Qed.

(** The other loops of the batch add no external task. *)
Definition no_external (b : Batch) : Prop := w_External (bt_res b) = [].

Lemma service_turn_external b t (w : World O) b' w' :
  service_turn ab bc ws withdrawal_repo Int63 b t w = (Ok b', w') → no_external b → no_external b'.
Proof.
  unfold service_turn, no_external. intros H Hb.
  apply st_bind_Ok in H as ([low bal] & w1 & _ & H). destruct low; [by injection H as <- _|].
  apply st_bind_Ok in H as ([msg sw] & w2 & _ & H). case_decide.
  - injection H as <- _. simpl. by rewrite Hb.
  - apply st_bind_Ok in H as (t0 & w3 & _ & H). apply st_bind_Ok in H as ([] & w4 & _ & H).
    by injection H as <- _.
Qed.

Lemma internal_loop_external b ts (w : World O) b' w' :
  internal_loop config ws Int63 b ts w = (Ok b', w') → no_external b → no_external b'.
Proof.
  revert b w. induction ts as [|t ts IH]; intros b w H Hb; simpl in H; [by injection H as <- _|].
  case_decide; [by injection H as <- _|].
  apply st_bind_Ok in H as ([low bal] & w1 & _ & H). destruct low; [by eapply IH|].
  apply st_bind_Ok in H as ([msg u] & w2 & _ & H). eapply IH in H; [done|].
  unfold no_external in *. case_decide; simpl; by rewrite ?Hb.
Qed.

(** The tasks of a batch are picked among those the repository offers. *)
Lemma external_part_path b :
  w_External (bt_res b) = [] →
  path [] (do! tasks <- GetExternalWithdrawalTasks 250;
           do! b <- external_loop ab ws b tasks; st_ret (bt_res b))
    (λ wd l, l = w_External wd).
Proof.
  intros Hb w r w' _ H. unfold st_bind in H.
  destruct (GetExternalWithdrawalTasks 250 w) as [r1 w1] eqn:Eg.
  assert (w_db w1 = w_db w) as Hw1.
  { pose proof (db_rel_query eq (O:=O) (λ d, let! _ := need_flags d in
      Ok (map task_of_request (external_task_rows 250 d))) w) as [He _].
    unfold GetExternalWithdrawalTasks in Eg. rewrite Eg in He. by symmetry. }
  destruct r1 as [tasks| | |]; [|injection H as <- <-; exists []; by rewrite Hw1..].
  destruct (external_loop ab ws b tasks w1) as [r2 w2] eqn:El.
  destruct (external_loop_sublist _ _ _ _ _ El) as [-> Hl].
  destruct r2 as [b'| | |]; [|injection H as <- <-; exists []; by rewrite Hw1..].
  injection H as <- <-. destruct (Hl b' eq_refl) as (l & Hext & Hsub). rewrite Hb in Hext. simpl in Hext.
  exists l. rewrite Hw1. split; [|by split; [intros ? [= <-]|]]. apply rtc_once.
  by eapply (step_pick 250 {| s_db := w_db w; s_picked := [] |} w).
Qed.

Lemma build_path :
  path [] (buildWithdrawalMessages config ab bc ws withdrawal_repo Int63) (λ wd l, l = w_External wd).
Proof.
  unfold buildWithdrawalMessages. cbn [r_GetServiceHotWithdrawalTasks withdrawal_repo
    r_GetJettonInternalWithdrawalTasks r_GetExternalWithdrawalTasks].
  path_step; [apply path_moves; calls|]. intros b0 ? ->.
  path_step; [apply path_moves; calls|]. intros sts ? ->.
  path_step.
  { apply (path_Ok _ _ _ _ _ _ (λ _ l', l' = []) no_external); [apply path_moves; calls; apply service_turn_calls|].
    intros w b w'. apply (for_st_inv (λ _, no_external)); [done|].
    intros _ t b1 b2 w1 w2 _ H1 H2. by eapply service_turn_external. }
  intros b1 ? [Hb1 ->]. path_step; [apply path_moves; calls|]. intros its ? ->.
  path_step.
  { apply (path_Ok _ _ _ _ _ _ (λ _ l', l' = []) no_external); [apply path_moves, internal_loop_calls|].
    intros w b w' H. by eapply internal_loop_external. }
  intros b2 ? [Hb2 ->]. by apply external_part_path.
Qed.

Lemma pay_path wd info :
  path (w_External wd) (CreateExternalWithdrawals (w_External wd) (hi_UUID info) (hi_TTL info))
    (λ _ l, l = []).
Proof.
  intros w r w' _ H. exists []. split; [|done]. apply rtc_once.
  by eapply (step_pay (hi_UUID info) (hi_TTL info) {| s_db := w_db w; s_picked := w_External wd |} w).
Qed.

Lemma path_drop {A} l (m : DBM A) Q w r w' :
  path l m Q → m w = (r, w') →
  rtc (step (O:=O)) {| s_db := w_db w; s_picked := l |} {| s_db := w_db w'; s_picked := [] |}.
Proof.
  intros H E. destruct (H _ _ _ Logic.I E) as (l' & Hl & _). eapply rtc_r; [exact Hl|].
  apply (step_drop {| s_db := w_db w'; s_picked := l' |}).
Qed.

Lemma withdrawals_pass_path :
  path [] (withdrawals_pass config ab bc ws withdrawal_repo cold Int63 BuildMessageForMany
             SendExternalMessage) (λ _ _, True).
Proof.
  unfold withdrawals_pass. cbn [r_CreateExternalWithdrawals r_UpdateServiceWithdrawalRequest
    r_SaveInternalWithdrawalTask withdrawal_repo].
  path_step; [apply path_moves; calls; apply makeCold_calls|]. intros _ ? ->.
  path_step; [apply path_fatal, build_path|]. intros wd ? ->.
  case_decide; [eapply path_weaken; [apply path_moves; calls|done]|].
  path_step; [apply path_moves; calls|]. intros msg ? ->.
  path_step; [apply path_moves; calls|]. intros info ? ->.
  path_step; [apply path_fatal, pay_path|]. intros _ ? ->.
  eapply path_weaken; [apply path_moves; calls|done].
Qed.
End processor.

(** ** The scanner, the interface, the start of the wallets *)

Section others.
Context `{TL : TvmLib} `{UL : UuidLib} `{PG : PgLib} `{WL : WalletLib} `{GR : GoRuntime}.
Context `{TW : !TonWalletLib}.

Section scanner.
Context {O : Type} (config : Config) (ab : AddressBook) (bc : Blockchain) (ws : Wallet).
Context (notificators : list (incomeNotification → ST (World O) unit)).
Context (Hnot : ∀ p n, p ∈ notificators → db_rel eq (p n)).

Lemma scan_one_calls b : db_rel (calls (O:=O)) (scan_one ab ws bc config notificators b).
Proof.
  unfold scan_one, processBlock, pushNotifications, pushNotification. calls; apply calls_eq; auto.
Qed.
End scanner.

Section interface.
Context {O : Type} (config : Config) (ab : AddressBook).
Context (gen : Z → res (TonWallet * Z)) (genj : tonaddr → tonaddr → Z → res (JettonProxy * tonaddr)).
Context (hot : tonaddr).
Abbreviation moves := (db_rel (O:=O) (calls (O:=O))).

Lemma handle_calls r :
  moves (handle config repository request_repo ab gen genj hot r).
Proof.
  unfold handle, createAddress, getAddresses, createWithdrawal, getWithdrawalStatus, getSync, getIncome_handler, getIncomeHistory,
    serviceTonWithdrawal, serviceJettonWithdrawal, bad_request, or_error, respond.
  destruct r as [[[] |]|[]|[]|[]|[[]|]|[]| |[]|]; simpl;
  unfold uc_CreateAddress, createTonAddress, createJettonAddress, uc_GetAddresses,
    uc_CreateServiceTonWithdrawal, uc_CreateServiceJettonWithdrawal, uc_IsSynced, uc_GetIncome,
    uc_GetHistory; simpl; calls.
Qed.

Lemma serve_calls auth r :
  moves (serve config repository request_repo ab gen genj hot auth r).
Proof.
  intros w. unfold serve. destruct (checkToken _ _); [|by split].
  pose proof (handle_calls r w) as H. by destruct (handle _ _ _ _ _ _ _ _ w) as [[] w'].
Qed.
End interface.

Section start.
Context {O : Type} (config : Config) (bc : Blockchain) (version : Version).
Context (transfer : TonWallet → tonaddr → Z → ST (World O) unit).
Context (Htransfer : ∀ t a z, db_rel eq (transfer t a z)).
Abbreviation moves := (db_rel (O:=O) (calls (O:=O))).

#[local] Hint Resolve calls_eq : calls.

Lemma InitWallets_calls seed :
  moves (InitWallets bc config version repository transfer seed).
Proof.
  unfold InitWallets, initTonHotWallet, check_saved, DeployTonWallet, initJettonHotWallet. simpl. calls.
Qed.
End start.
End others.

(** ** Turns *)

Section turns.
Context `{TL : TvmLib} `{UL : UuidLib} `{PG : PgLib} `{WL : WalletLib} `{GR : GoRuntime}.
Context `{TW : !TonWalletLib} {O : Type}.
Abbreviation DBM := (ST (World O)).

(** One turn of a goroutine. What the node answers, the address book and the
    configuration may differ from one turn to the next; what acts on the network
    or draws numbers leaves the tables alone. *)
Inductive running : DBM unit → Prop :=
| run_block ab ws bc config notificators b :
    (∀ p n, p ∈ notificators → db_rel eq (p n)) →
    running (scan_one ab ws bc config notificators b)
| run_withdrawals config ab bc ws cold Int63 build send :
    db_rel eq Int63 → (∀ l, db_rel eq (build l)) → (∀ m, db_rel eq (send m)) →
    running (withdrawals_pass config ab bc ws withdrawal_repo cold Int63 build send)
| run_internal config bc ws Int63 wallet_Send :
    db_rel eq Int63 → (∀ t m, db_rel eq (wallet_Send t m)) →
    running (internal_ton_pass config bc ws withdrawal_repo Int63 wallet_Send)
| run_expiration : running (expiration_pass SetExpired)
| run_request config ab gen genj hot auth r :
    running (do! _ <- serve config repository request_repo ab gen genj hot auth r; st_ret tt).

(** A turn of the program is one of those, or the start of the wallets. *)
Inductive turn : DBM unit → Prop :=
| turn_start bc config version transfer seed :
    (∀ t a z, db_rel eq (transfer t a z)) →
    turn (do! _ <- InitWallets bc config version repository transfer seed; st_ret tt)
| turn_running m : running m → turn m.

Lemma turn_path m :
  turn m → path (λ d l, {| s_db := d; s_picked := l |}) (step (O:=O)) (λ _, True) (λ _, True) [] m (λ _ _, True).
Proof.
  intros Ht. assert (db_rel (calls (O:=O)) m →
    path (λ d l, {| s_db := d; s_picked := l |}) (step (O:=O)) (λ _, True) (λ _, True) [] m (λ _ _, True)) as Hm.
  { intros H. eapply path_weaken; [by apply path_moves|done]. }
  destruct Ht as [|m Ht]; [|destruct Ht].
  - apply Hm, calls_bind; [by apply InitWallets_calls|intros; apply calls_ret].
  - by apply Hm, scan_one_calls.
  - by apply withdrawals_pass_path.
  - by apply Hm, internal_ton_pass_calls.
  - apply Hm, expiration_pass_calls.
  - apply Hm, calls_bind; [apply serve_calls|intros; apply calls_ret].
Qed.

(** A turn keeps the invariant of the tables. *)
Lemma turn_inv m (w w' : World O) r : turn m → m w = (r, w') → db_inv (w_db w) → db_inv (w_db w').
Proof.
  intros Ht E I. pose proof (path_drop _ _ _ _ _ _ (turn_path m Ht) E) as H.
  destruct (steps_inv _ _ H) as [[I' _] _]; [|exact I']. split; [exact I|apply payable_nil].
Qed.

(** C12. The program makes only steps of the protocol: whatever one turn of the
    scanner, of a loop of the withdrawal processor, of the interface or of the
    start does, on any tables, with any answers of the node, any failure and
    any outcome, the tables after it are reached from those before it by steps
    of the protocol, which holds no task at either end. *)
Theorem turns_step m (w w' : World O) r :
  turn m → m w = (r, w') →
  rtc (step (O:=O)) {| s_db := w_db w; s_picked := [] |} {| s_db := w_db w'; s_picked := [] |}.
Proof. intros Ht E. eapply path_drop; [by apply turn_path|exact E]. Qed.
End turns.
