(* ===== verification/Progress.v ===== *)
(** * Progress: every request is taken up

    A pass of the withdrawal processor takes up every request that the query
    offers, as long as the hot wallet covers it, its destination is not one of the
    program, and the message has room. Repeating the pass of
    [core/withdrawal_processor.go] therefore leaves no idle request, after as many
    passes as there are idle requests at most. *)

From S2P Require Import Prelude TonUtils Config Models Core Db AddressBook Repository.
From S2P Require Import WithdrawalRepository Ledger BlockScanner Saving Protocol Lifecycle.
From S2P Require Import Messages Processor ProcessorFacts Processes.

Local Open Scope string_scope.
Local Open Scope list_scope.
Local Open Scope Z_scope.

(** ** Recording tasks *)

Section recording.
Context `{PG : PgLib} {O : Type}.
Implicit Types w : World O.

(** The requests of the tasks are no longer idle. *)
Lemma pay_all_idle u e tasks w w' :
  each_st (λ t, do! _ <- insert_external (new_external u e t);
                update_processing true (et_QueryID t)) tasks w = (Ok tt, w') →
  idle (w_db w') = filter (λ r, wr_query_id r ∉ map et_QueryID tasks) (idle (w_db w)) ∧
  db_schema (w_db w') = db_schema (w_db w).
Proof.
  unfold each_st. generalize tt at 1 as x. revert w.
  induction tasks as [|t ts IH]; intros w x H.
  { simpl in H. unfold st_ret in H. simplify_eq. split; [|done].
    symmetry. apply filter_keep. set_solver. }
  apply st_bind_Ok in H as ([] & w2 & H1 & H).
  apply st_bind_Ok in H1 as ([] & w1 & (d1 & Hi & ->)%exec_Ok & (d2 & Hu & ->)%exec_Ok).
  apply res_bind_Ok in Hi as (rows & _ & [= <-]).
  apply res_bind_Ok in Hu as ([] & _ & [= <-]).
  apply IH in H as [-> ->]. split; [|done]. unfold idle. simpl.
  generalize (withdrawal_requests (w_db w)) as l. unfold update_where. intros l.
  rewrite !list_filter_filter. induction l as [|r l IHl]; [done|].
  simpl map. rewrite !filter_cons, IHl.
  case_bool_decide as Hq; [by rewrite !decide_False by (simpl; set_solver)|].
  destruct (decide ((wr_query_id r ∉ map et_QueryID ts) ∧ wr_processing r = false)).
  - by rewrite decide_True by set_solver.
  - by rewrite decide_False by set_solver.
Qed.

(** There is a task as long as a request is idle. *)
Lemma some_task limit d : (0 < limit)%nat → idle d ≠ [] → external_task_rows limit d ≠ [].
Proof.
  intros Hl Hi. unfold external_task_rows.
  destruct (merge_sort by_dest_query (plan (idle d))) as [|r rs] eqn:E.
  - destruct Hi. apply Permutation_nil_r. rewrite <- (plan_perm (idle d)).
    by rewrite <- (merge_sort_Permutation by_dest_query), E.
  - unfold idle in E. rewrite E. cbn [distinct_on]. rewrite decide_False by set_solver. by destruct limit; [lia|].
Qed.

(** Taking up the tasks leaves fewer idle requests. *)
Lemma offered_shrinks limit d :
  (0 < limit)%nat → idle d ≠ [] →
  (length (filter (λ r, wr_query_id r ∉ map wr_query_id (external_task_rows limit d)) (idle d)) < length (idle d))%nat.
Proof.
  intros Hl Hi. pose proof (some_task _ _ Hl Hi) as Hs.
  destruct (external_task_rows limit d) as [|r rs] eqn:E; [done|]. apply (length_filter_lt _ _ r).
  - apply list_elem_of_filter. apply and_comm, external_task_rows_idle with limit. rewrite E. set_solver.
  - simpl. set_solver.
Qed.

(** What the query offers is part of what is idle. *)
Lemma offered_submseteq limit d : external_task_rows limit d ⊆+ idle d.
Proof.
  unfold external_task_rows, idle. rewrite <- (plan_perm (filter _ _)) at 2.
  rewrite <- (merge_sort_Permutation by_dest_query (plan _)) at 2. apply sublist_submseteq.
  etrans; [apply sublist_take|apply distinct_on_sublist].
Qed.
End recording.

(** ** What the hot wallet covers *)

(** The TONs a payment takes from the balance. *)
Definition ton_cost (t : ExternalWithdrawalTask) : Z :=
  if decide (et_Currency t = TonSymbol) then et_Amount t else JettonTransferTonAmount.

(** The balances cover the payments [ts], and [spare] TONs beside them. *)
Record covers (b : balances) (spare : Z) (ts : list ExternalWithdrawalTask) : Prop := {
  cov_ton : ∃ ton, b !! TonSymbol = Some ton ∧ spare + sumZ ton_cost ts ≤ ton;
  cov_jetton : ∀ t, t ∈ ts → et_Currency t ≠ TonSymbol → ∃ z, b !! et_Currency t = Some z ∧ paid (et_Currency t) ts ≤ z;
}.

Definition nonneg_amounts (ts : list ExternalWithdrawalTask) : Prop := ∀ t, t ∈ ts → 0 ≤ et_Amount t.

Lemma ton_cost_nonneg ts : nonneg_amounts ts → 0 ≤ sumZ ton_cost ts.
Proof.
  intros Hp. apply sumZ_nonneg. intros t Ht. apply Hp in Ht. unfold ton_cost, JettonTransferTonAmount.
  case_decide; lia.
Qed.

Lemma paid_cons cur t ts : paid cur (t :: ts) = (if decide (et_Currency t = cur) then et_Amount t else 0) + paid cur ts.
Proof. unfold paid. rewrite filter_cons. case_decide; [by rewrite sumZ_cons|done]. Qed.

Lemma paid_nonneg cur ts : nonneg_amounts ts → 0 ≤ paid cur ts.
Proof. intros Hp. apply sumZ_nonneg. intros t [_ Ht]%list_elem_of_filter. by apply Hp. Qed.

(** Fewer payments are covered too. *)
Lemma covers_part b spare ts ts' : nonneg_amounts ts → ts' ⊆+ ts → covers b spare ts → covers b spare ts'.
Proof.
  intros Hp [k Hk]%submseteq_Permutation [(ton & Ht & Hle) Hj].
  assert (nonneg_amounts k) as Hpk by (intros t Hin; apply Hp; rewrite Hk; set_solver). split.
  - exists ton. split; [done|]. rewrite Hk, sumZ_app in Hle. pose proof (ton_cost_nonneg k Hpk). lia.
  - intros t Hin Hc. destruct (Hj t) as (z & Hz & Hle'); [rewrite Hk; set_solver|done|]. exists z. split; [done|].
    unfold paid in *. rewrite Hk, filter_app, sumZ_app in Hle'. pose proof (paid_nonneg (et_Currency t) k Hpk).
    unfold paid in *. lia.
Qed.

(** The balance of TONs pays the fee of a message. *)
Lemma covers_fee b spare ts low bal :
  covers b (JettonTransferTonAmount + spare) ts →
  decreaseBalances b TonSymbol JettonTransferTonAmount = Ok (low, bal) → covers bal spare ts.
Proof.
  intros [(ton & Ht & Hle) Hj] [[_ ->]|(ton' & Ht' & _ & [(_ & _ & ->)|[]])]%decreaseBalances_Ok; [| |done].
  - split; [|done]. exists ton. split; [done|]. unfold JettonTransferTonAmount in Hle. lia.
  - rewrite Ht in Ht'. injection Ht' as <-. split.
    + exists (ton - JettonTransferTonAmount). rewrite lookup_insert_eq. split; [done|lia].
    + intros t Hin Hc. rewrite lookup_insert_ne by done. by apply Hj.
Qed.

(** A payment that is covered is taken, and the others stay covered. *)
Lemma covers_take b t ts low bal :
  nonneg_amounts (t :: ts) → covers b 0 (t :: ts) →
  decreaseBalances b (et_Currency t) (et_Amount t) = Ok (low, bal) → low = false ∧ covers bal 0 ts.
Proof.
  intros Hp [(ton & Ht & Hle) Hj] H. rewrite sumZ_cons in Hle.
  assert (nonneg_amounts ts) as Hps by (intros x Hx; apply Hp; set_solver).
  pose proof (ton_cost_nonneg ts Hps) as Hcost. unfold ton_cost at 1 in Hle.
  unfold decreaseBalances, balance_of in H. rewrite Ht in H. simpl in H. case_decide as Hc.
  - rewrite decide_False in H by lia. injection H as <- <-. split; [done|]. split.
    + exists (ton - et_Amount t). rewrite lookup_insert_eq. split; [done|lia].
    + intros x Hx Hcx. destruct (Hj x) as (z & Hz & Hz'); [set_solver|done|]. exists z.
      rewrite lookup_insert_ne by done. rewrite paid_cons, decide_False in Hz' by congruence. split; [done|lia].
  - destruct (Hj t) as (z & Hz & Hz'); [set_solver|done|]. rewrite paid_cons, decide_True in Hz' by done.
    pose proof (paid_nonneg (et_Currency t) ts Hps) as Hpaid. rewrite Hz in H. simpl in H.
    rewrite decide_False in H by lia. rewrite decide_False in H by lia. injection H as <- <-. split; [done|]. split.
    + exists (ton - JettonTransferTonAmount). rewrite lookup_insert_eq. split; [done|lia].
    + intros x Hx Hcx. rewrite lookup_insert_ne by done.
      destruct (decide (et_Currency t = et_Currency x)) as [E|Hne].
      * exists (z - et_Amount t). rewrite E, lookup_insert_eq. split; [done|]. rewrite <- E. lia.
      * destruct (Hj x) as (z2 & Hz2 & Hz2'); [set_solver|done|]. exists z2. rewrite lookup_insert_ne by done.
        rewrite paid_cons, decide_False in Hz2' by done. split; [done|lia].
Qed.

(** ** A batch *)

Section batch.
Context `{TL : TvmLib} `{UL : UuidLib} `{PG : PgLib} `{GR : GoRuntime} `{TW : !TonWalletLib} {O : Type}.
Context (config : Config) (ab : AddressBook) (bc : Blockchain) (ws : Wallet) (Int63 : ST (World O) Z).
Context (HInt63 : db_rel eq Int63).

Lemma service_turn_covers b t (w w' : World O) b' spare ts :
  service_turn ab bc ws withdrawal_repo Int63 b t w = (Ok b', w') →
  covers (bt_balances b) (JettonTransferTonAmount + spare) ts → covers (bt_balances b') spare ts.
Proof.
  unfold service_turn. intros ([low bal] & w1 & Hd & H)%st_bind_Ok Hc. injection Hd as Hd _.
  eapply covers_fee in Hc; [|exact Hd]. destruct low; [by injection H as <- _|].
  apply st_bind_Ok in H as ([ms sw] & w2 & _ & H). case_decide; [by injection H as <- _|].
  do 2 apply st_bind_Ok in H as (? & ? & _ & H). by injection H as <- _.
Qed.

Lemma service_loop_covers sts b (w w' : World O) b' spare ts :
  for_st (service_turn ab bc ws withdrawal_repo Int63) b sts w = (Ok b', w') →
  covers (bt_balances b) (JettonTransferTonAmount * Z.of_nat (length sts) + spare) ts →
  covers (bt_balances b') spare ts.
Proof.
  revert b w. induction sts as [|t sts IH]; intros b w H Hc; simpl in H.
  { injection H as <- _. simpl length in Hc. by rewrite Z.mul_0_r in Hc. }
  apply st_bind_Ok in H as (b1 & w1 & H1 & H). eapply IH; [exact H|]. eapply service_turn_covers; [exact H1|].
  simpl length in Hc. by replace (JettonTransferTonAmount + _) with
    (JettonTransferTonAmount * Z.of_nat (S (length sts)) + spare) by lia.
Qed.

Lemma internal_loop_covers its b (w w' : World O) b' spare ts :
  0 ≤ spare → internal_loop config ws Int63 b its w = (Ok b', w') →
  covers (bt_balances b) (JettonTransferTonAmount * Z.of_nat (length its) + spare) ts →
  covers (bt_balances b') spare ts.
Proof.
  assert (∀ b s s', s' ≤ s → covers b s ts → covers b s' ts) as Hless.
  { intros b0 s s' Hs [(ton & ? & ?) Hj]. split; [exists ton; split; [done|lia]|done]. }
  intros Hsp. revert b w. induction its as [|t its IH]; intros b w H Hc; simpl in H.
  { injection H as <- _. eapply Hless; [|exact Hc]. simpl length. lia. }
  case_decide; [injection H as <- _; eapply Hless; [|exact Hc]; unfold JettonTransferTonAmount; lia|].
  apply st_bind_Ok in H as ([low bal] & w1 & Hd & H). injection Hd as Hd _.
  replace (JettonTransferTonAmount * Z.of_nat (length (t :: its)) + spare) with
    (JettonTransferTonAmount + (JettonTransferTonAmount * Z.of_nat (length its) + spare)) in Hc by (simpl length; lia).
  eapply covers_fee in Hc; [|exact Hd].
  destruct low; [by eapply IH in H|].
  apply st_bind_Ok in H as ([ms memo] & w2 & _ & H). eapply IH; [exact H|]. by case_decide.
Qed.

(** Covered payments to outside addresses are all taken, unless the message is full. *)
Lemma external_loop_all ts b (w w' : World O) b' :
  external_loop ab ws b ts w = (Ok b', w') → (length (w_Messages (bt_res b')) ≤ 250)%nat →
  (∀ t, t ∈ ts → GetWalletType ab (et_Destination t) = Ok None) → nonneg_amounts ts → covers (bt_balances b) 0 ts →
  w' = w ∧ w_External (bt_res b') = w_External (bt_res b) ++ ts ∧
  (length (w_Messages (bt_res b)) + length ts ≤ length (w_Messages (bt_res b')))%nat.
Proof.
  revert b. induction ts as [|t ts IH]; intros b H Hl Ho Hp Hc; simpl in H.
  { injection H as <- <-. rewrite app_nil_r. simpl. split_and!; [done..|lia]. }
  case_decide; [injection H as <- <-; lia|]. apply st_bind_Ok in H as (ty & w1 & Hty & H). injection Hty as Hty <-.
  rewrite Ho in Hty by set_solver. injection Hty as <-.
  apply st_bind_Ok in H as ([low bal] & w1 & Hd & H). injection Hd as Hd <-.
  apply (covers_take _ _ _ _ _ Hp Hc) in Hd as [-> Hc'].
  apply st_bind_Ok in H as (m & w1 & Hm & H). injection Hm as Hm <-.
  apply IH in H as (-> & Hx & Hlen); [|done|set_solver|intros x Hx; apply Hp; set_solver|done].
  simpl in *. rewrite Hx, <- app_assoc. rewrite length_app in Hlen. simpl in Hlen. split_and!; [done..|lia].
Qed.

(** The statements that leave the payments alone. *)
Definition same_payments (d d' : DB) : Prop :=
  withdrawal_requests d' = withdrawal_requests d ∧ external_withdrawals d' = external_withdrawals d.
#[local] Instance same_payments_preorder : PreOrder same_payments.
Proof. split; [by split|]. intros d1 d2 d3 [] []. split; congruence. Qed.

Abbreviation keeps := (db_rel (O:=O) same_payments).

Lemma leaves_eq {A} (m : ST (World O) A) : db_rel eq m → keeps m.
Proof. intros H w. destruct (H w) as [He Ht]. split; [by rewrite He|done]. Qed.

Ltac keep := repeat first
  [ progress db_steps | apply leaves_eq; by auto
  | apply db_rel_exec; [apply _|intros; inv_res; repeat case_match; simplify_eq/=; by split] ].

Lemma service_turn_leaves b t : keeps (service_turn ab bc ws withdrawal_repo Int63 b t).
Proof.
  unfold service_turn, buildServiceWithdrawalMessage, buildServiceJettonWithdrawal.
  cbn [r_UpdateServiceWithdrawalRequest withdrawal_repo]. unfold UpdateServiceWithdrawalRequest. keep.
Qed.

Lemma service_loop_leaves b ts : keeps (for_st (service_turn ab bc ws withdrawal_repo Int63) b ts).
Proof. apply preserves_for; [apply _|]. intros b' t _. apply service_turn_leaves. Qed.

Lemma internal_loop_leaves b ts : keeps (internal_loop config ws Int63 b ts).
Proof.
  revert b. induction ts as [|t ts IH]; intros b; simpl; unfold buildJettonInternalWithdrawalMessage; keep; apply IH.
Qed.

(** All that is idle goes to outside addresses, and the hot wallet covers it
    beside the fees of all the other messages of a batch. *)
Record serviceable (d : DB) : Prop := {
  sv_outside : ∀ r, r ∈ idle d → GetWalletType ab (wr_dest_address r) = Ok None;
  sv_amounts : ∀ r, r ∈ idle d → 0 ≤ wr_amount r;
  sv_balances : ∃ b, getHotWalletBalances bc ws = Ok b ∧
    covers b (JettonTransferTonAmount * 500) (map task_of_request (idle d));
}.

Abbreviation build := (buildWithdrawalMessages config ab bc ws withdrawal_repo Int63).
Abbreviation offered d := (map task_of_request (external_task_rows 250 d)).

Lemma same_offered d d' : same_payments d d' → offered d' = offered d.
Proof. intros [E _]. unfold external_task_rows, idle. by rewrite E. Qed.

(** A batch with room takes up all that the query offers. *)
Lemma build_offers (w w' : World O) wd :
  serviceable (w_db w) → build w = (Ok wd, w') → (length (w_Messages wd) ≤ 250)%nat →
  same_payments (w_db w) (w_db w') ∧ w_External wd = offered (w_db w) ∧
  (length (offered (w_db w)) ≤ length (w_Messages wd))%nat.
Proof.
  intros [Ho Ha (b0 & Hb0 & Hc)] H Hl. unfold buildWithdrawalMessages in H. rewrite Hb0 in H.
  cbn [r_GetServiceHotWithdrawalTasks r_GetJettonInternalWithdrawalTasks r_GetExternalWithdrawalTasks withdrawal_repo] in H.
  apply st_bind_Ok in H as (b0' & w0 & Hbal & H). injection Hbal as <- <-.
  apply st_bind_Ok in H as (sts & w1 & ([= <-] & E1 & _)%query_Ok & H).
  apply st_bind_Ok in H as (b1 & w2 & H1 & H).
  apply st_bind_Ok in H as (its & w3 & ([= <-] & E3 & _)%query_Ok & H).
  apply st_bind_Ok in H as (b2 & w4 & H2 & H).
  apply st_bind_Ok in H as (ets & w5 & [-> E5]%GetExternalWithdrawalTasks_Ok & H).
  apply st_bind_Ok in H as (b3 & w6 & H3 & H). injection H as <- <-.
  assert (same_payments (w_db w1) (w_db w2)) as S2.
  { match type of H1 with for_st _ _ ?ts _ = _ => destruct (service_loop_leaves (start_batch b0) ts w1) as [Hs _] end.
    by rewrite H1 in Hs. }
  assert (same_payments (w_db w3) (w_db w4)) as S4.
  { match type of H2 with internal_loop _ _ _ _ ?ts _ = _ => destruct (internal_loop_leaves b1 ts w3) as [Hs _] end.
    by rewrite H2 in Hs. }
  rewrite E1 in S2. rewrite E3 in S4. assert (same_payments (w_db w) (w_db w4)) as S by by etrans.
  assert (no_external b2) as Hn.
  { eapply internal_loop_external; [exact H2|]. eapply (for_st_inv (λ _, no_external)); [| |exact H1]; [done|].
    intros _ t x x' v v' _ Hx Hv. by eapply service_turn_external. }
  assert (offered (w_db w4) = offered (w_db w)) as Eo by by apply same_offered.
  rewrite Eo in H3. eapply (external_loop_all (offered (w_db w)) b2) in H3 as (-> & Hx & Hlen); [|done|..].
  - split_and!; [by rewrite E5| |].
    + unfold no_external in Hn. by rewrite Hx, Hn.
    + lia.
  - intros t (r & -> & Hr)%list_elem_of_fmap. apply Ho. eapply elem_of_submseteq; [exact Hr|apply offered_submseteq].
  - intros t (r & -> & Hr)%list_elem_of_fmap. apply Ha. eapply elem_of_submseteq; [exact Hr|apply offered_submseteq].
  - assert (∀ s s', s' ≤ s → covers b0 s (offered (w_db w)) → covers b0 s' (offered (w_db w))) as Hless.
    { intros s s' Hs [(ton & ? & ?) Hj]. split; [exists ton; split; [done|lia]|done]. }
    eapply internal_loop_covers; [done|exact H2|]. eapply service_loop_covers; [exact H1|]. simpl.
    eapply Hless; [|eapply covers_part; [|apply (fmap_submseteq task_of_request), offered_submseteq|exact Hc]].
    + unfold service_rows. rewrite !length_map, !length_take. unfold JettonTransferTonAmount. lia.
    + intros t (r & -> & Hr)%list_elem_of_fmap. by apply Ha.
Qed.

(** ** A pass *)

Context (BuildMessageForMany : list (WalletMessage tonaddr Cell) → ST (World O) (ExternalMessage tonaddr Cell)).
Context (SendExternalMessage : ExternalMessage tonaddr Cell → ST (World O) unit).
Context (HBuild : ∀ l, db_rel eq (BuildMessageForMany l)) (HSend : ∀ m, db_rel eq (SendExternalMessage m)).

Abbreviation pass := (withdrawals_pass config ab bc ws withdrawal_repo None Int63 BuildMessageForMany SendExternalMessage).

(** The message of the batch has room: it is not full. *)
Definition has_room (w : World O) : Prop := ∀ wd w', build w = (Ok wd, w') → (length (w_Messages wd) ≤ 250)%nat.

(** A pass that ends well pays all that the query offers. *)
Lemma pass_pays (w w' : World O) :
  serviceable (w_db w) → has_room w → pass w = (Ok tt, w') →
  ∃ u e, external_withdrawals (w_db w') = external_withdrawals (w_db w) ++ map (new_external u e) (offered (w_db w)) ∧
    idle (w_db w') = filter (λ r, wr_query_id r ∉ map et_QueryID (offered (w_db w))) (idle (w_db w)).
Proof.
  intros Hs Hr H. unfold withdrawals_pass in H. cbn [r_CreateExternalWithdrawals r_UpdateServiceWithdrawalRequest
    r_SaveInternalWithdrawalTask withdrawal_repo makeColdWalletWithdrawals] in H.
  apply st_bind_Ok in H as ([] & w0 & H0 & H). injection H0 as <-.
  apply st_bind_Ok in H as (wd & w1 & Hwd%st_fatal_Ok & H).
  pose proof (build_offers _ _ _ Hs Hwd (Hr _ _ Hwd)) as ([E1 E2] & Hx & Hlen).
  case_decide as Hno.
  { injection H as <-. exists (zero_bytes 16), 0. destruct (offered (w_db w)); [|simpl in Hlen; lia].
    rewrite E2, app_nil_r. split; [done|]. unfold idle. rewrite E1. symmetry. apply filter_keep. intros r _ []%elem_of_nil. }
  apply st_bind_Ok in H as (msg & w2 & Hmsg%st_fatal_Ok & H).
  assert (w_db w2 = w_db w1) as F2 by (destruct (HBuild (w_Messages wd) w1) as [F _]; by rewrite Hmsg in F).
  apply st_bind_Ok in H as (info & w3 & Hinfo%st_fatal_Ok & H). injection Hinfo as _ <-.
  apply st_bind_Ok in H as ([] & w4 & Hpay%st_fatal_Ok & H). exists (hi_UUID info), (hi_TTL info).
  apply in_tx_Ok in Hpay as (v1 & v2 & Ev1 & _ & Hpay & Ev2). rewrite Hx in Hpay.
  pose proof (pay_all_rows _ _ _ _ _ Hpay) as [Hrows _]. pose proof (pay_all_idle _ _ _ _ _ Hpay) as [Hidle _].
  assert (same_payments (w_db w4) (w_db w')) as [G1 G2].
  { match type of H with ?m w4 = _ => assert (keeps m) as Hk end.
    { unfold UpdateServiceWithdrawalRequest, SaveInternalWithdrawalTask. keep. }
    destruct (Hk w4) as [Hk' _]. by rewrite H in Hk'. }
  rewrite G2, Ev2, Hrows, Ev1, F2, E2. split; [done|].
  assert (idle (w_db w') = idle (w_db v2)) as -> by (unfold idle; by rewrite G1, Ev2).
  rewrite Hidle, Ev1, F2. unfold idle. by rewrite E1.
Qed.
End batch.

(** ** Passes *)

Section passes.
Context `{TL : TvmLib} `{UL : UuidLib} `{PG : PgLib} `{WL : WalletLib} `{GR : GoRuntime} `{TW : !TonWalletLib} {O : Type}.
Context (config : Config) (ab : AddressBook) (Int63 : ST (World O) Z).
Context (BuildMessageForMany : list (WalletMessage tonaddr Cell) → ST (World O) (ExternalMessage tonaddr Cell)).
Context (SendExternalMessage : ExternalMessage tonaddr Cell → ST (World O) unit).
Context (HInt63 : db_rel eq Int63) (HBuild : ∀ l, db_rel eq (BuildMessageForMany l)).
Context (HSend : ∀ m, db_rel eq (SendExternalMessage m)).

Abbreviation pass bc ws := (withdrawals_pass config ab bc ws withdrawal_repo None Int63 BuildMessageForMany SendExternalMessage).

(** [n] passes, one after the other, each of which ends well and has room in its
    message. The node and the wallets of a pass are its own, as balances change
    from pass to pass, and cover what is still idle; the clock, what was sent and
    the failures of the driver may be anything. *)
Inductive passes : nat → DB → DB → Prop :=
| passes_none d : passes 0 d d
| passes_more n d bc ws (w w' : World O) d' :
    w_db w = d → serviceable ab bc ws d → has_room config ab bc ws Int63 w → pass bc ws w = (Ok tt, w') →
    passes n (w_db w') d' → passes (S n) d d'.

(** What is being paid stays so while rows are added. *)
Lemma payment_stays l l' q : payment l q = Paying → payment (l ++ l') q = Paying.
Proof.
  intros H. rewrite payment_app. destruct (decide _) as [|Hu]; [done|]. apply payment_unpaid in Hu. congruence.
Qed.

Lemma passes_drain n d d' :
  passes n d d' → db_inv d → (length (idle d) ≤ n)%nat →
  idle d' = [] ∧ (∃ new, external_withdrawals d' = external_withdrawals d ++ new) ∧
  ∀ r, r ∈ idle d → payment (external_withdrawals d') (wr_query_id r) = Paying.
Proof.
  induction 1 as [d|n d bc ws w w' d' <- Hs Hr Hp _ IH]; intros I Hn.
  { destruct (idle d); [|simpl in Hn; lia]. split_and!; [done|exists []; by rewrite app_nil_r|set_solver]. }
  pose proof (pass_pays config ab bc ws Int63 HInt63 _ _ HBuild HSend _ _ Hs Hr Hp) as (u & e & Hx & Hi).
  rewrite map_map in Hi. change (λ x, et_QueryID (task_of_request x)) with wr_query_id in Hi.
  destruct IH as (H1 & (new & Hnew) & H2).
  - eapply (turn_inv (pass bc ws) w w'); [apply turn_running; by apply run_withdrawals|exact Hp|exact I].
  - rewrite Hi. destruct (decide (idle (w_db w) = [])) as [->|Hne]; [simpl; lia|].
    pose proof (offered_shrinks 250 (w_db w) ltac:(lia) Hne). lia.
  - split_and!; [done|eexists; by rewrite Hnew, Hx, <- app_assoc|]. intros r Hr'.
    destruct (decide (wr_query_id r ∈ map wr_query_id (external_task_rows 250 (w_db w)))) as [Hq|Hq].
    + rewrite Hnew. apply payment_stays. rewrite Hx, payment_app, payment_new, map_map. simpl.
      apply list_elem_of_filter in Hr' as [Hr1 Hr2].
      rewrite decide_False by (by apply (inv_idle _ I)). by rewrite decide_True.
    + apply H2. rewrite Hi. by apply list_elem_of_filter.
Qed.

End passes.
