(* ===== verification/Restart.v ===== *)
(** * Starting again

    [InitWallets] stores the hot wallets on the first start and must find them
    on every later one: whatever the program did in between, a restart with the
    same seed, configuration and node changes nothing and yields the same wallets. *)

From S2P Require Import Prelude TonUtils Config Models Core Db AddressBook Repository.
From S2P Require Import WithdrawalRepository Ledger BlockScanner Protocol Messages Processor Wallets Api Processes.

Local Open Scope string_scope.
Local Open Scope list_scope.
Local Open Scope Z_scope.

(** A query that finds no row: the statement ran. *)
Lemma query_not_found {O A} (f : DB → res A) (w w' : World O) :
  query f w = (Err ENotFound, w') → f (w_db w) = Err ENotFound ∧ w_db w' = w_db w.
Proof.
  unfold query, exec. case_decide; [done|]. destruct (default _ _); [done|].
  destruct (f (w_db w)) as [|e| |]; simpl; intros [= -> <-]. split; [done|].
  unfold abort_tx. simpl. by destruct (w_tx w).
Qed.

Lemma query_db {O A} (f : DB → res A) (w : World O) : w_db (query f w).2 = w_db w.
Proof. by destruct (db_rel_query eq f w) as [<- _]. Qed.

(** The rows of a query when there is one at most. *)
Lemma plan_singleton `{PG : PgLib} {A} (x : A) : plan [x] = [x].
Proof. apply Permutation_singleton_r, plan_perm. Qed.

(** ** What runs between two starts *)

Section between.
Context `{TL : TvmLib} `{UL : UuidLib} `{PG : PgLib} `{WL : WalletLib} `{GR : GoRuntime}.
Context `{TW : !TonWalletLib} {O : Type}.
Abbreviation DBM := (ST (World O)).

(** One turn, from tables to tables. *)
Definition ran (d d' : DB) : Prop :=
  ∃ m r (v v' : World O), running m ∧ w_db v = d ∧ m v = (r, v') ∧ w_db v' = d'.

(** No hot wallet comes or goes, and no jetton wallet goes. *)
Definition hot_kept (d d' : DB) : Prop :=
  filter (λ r, tw_type r = TonHotWallet) (ton_wallets d') = filter (λ r, tw_type r = TonHotWallet) (ton_wallets d) ∧
  jetton_wallets d ⊆ jetton_wallets d'.
#[local] Instance hot_kept_preorder : PreOrder hot_kept.
Proof. split; [by split|]. intros a b c [H1 H2] [H3 H4]. split; [congruence|by etrans]. Qed.

Abbreviation keeps := (db_rel (O:=O) hot_kept).

Lemma keeps_same {A} (m : DBM A) : db_rel eq m → keeps m.
Proof. intros H w. destruct (H w) as [He Ht]. split; [by rewrite He|done]. Qed.

Lemma insert_ton_kept r : tw_type r ≠ TonHotWallet → keeps (exec (insert_ton_wallet r)).
Proof.
  intros Hr. apply db_rel_exec; [apply _|]. intros d a d' H. unfold insert_ton_wallet in H.
  apply res_bind_Ok in H as (? & _ & H). apply res_bind_Ok in H as (l & [_ ->]%insert_unique_Ok & [= _ <-]).
  split; [|done]. simpl. by rewrite filter_app, filter_cons_False, filter_nil, app_nil_r.
Qed.

Lemma insert_jetton_kept r : keeps (exec (insert_jetton_wallet r)).
Proof.
  apply db_rel_exec; [apply _|]. intros d a d' H. unfold insert_jetton_wallet in H.
  apply res_bind_Ok in H as (? & _ & H). apply res_bind_Ok in H as (? & _ & H).
  apply res_bind_Ok in H as (l & [_ ->]%insert_unique_Ok & [= _ <-]). split; [done|]. simpl. set_solver.
Qed.

Ltac kept := repeat first
  [ progress db_steps | apply keeps_same; by auto | apply insert_ton_kept; done | apply insert_jetton_kept
  | apply db_rel_exec; [apply _|intros; inv_res; repeat case_match; simplify_eq/=; by split] ].

Lemma save_kept e : keeps (SaveParsedBlockData e).
Proof.
  unfold SaveParsedBlockData. apply db_rel_RunInTx; [apply _|]. apply db_rel_ok.
  unfold save_events, save_lists, SaveExternalIncome, SaveInternalIncome, SaveBlock, ApplySendingConfirmations,
    UpdateInternalWithdrawal, UpdateExternalWithdrawal, ApplyJettonWithdrawalConfirmation. kept.
Qed.

Lemma scan_kept ab ws bc config (notificators : list (incomeNotification → DBM unit)) b :
  (∀ p n, p ∈ notificators → db_rel eq (p n)) → keeps (scan_one ab ws bc config notificators b).
Proof.
  intros Hn. unfold scan_one, processBlock, pushNotifications, pushNotification. kept;
    first [apply save_kept|apply keeps_same; auto].
Qed.

Section processor.
Context (config : Config) (ab : AddressBook) (bc : Blockchain) (ws : Wallet) (Int63 : DBM Z).
Context (HInt63 : db_rel eq Int63).

Ltac tables := unfold CreateWithdrawalRequest, GetInternalWithdrawalStatus, UpdateServiceWithdrawalRequest,
  SaveInternalWithdrawalTask, CreateExternalWithdrawals, insert_external, update_processing.

Lemma internal_loop_kept b ts : keeps (internal_loop config ws Int63 b ts).
Proof.
  revert b. induction ts as [|t ts IH]; intros b; simpl; unfold buildJettonInternalWithdrawalMessage;
    kept; apply IH.
Qed.

Lemma external_loop_kept b ts : keeps (external_loop ab ws b ts).
Proof. revert b. induction ts as [|t ts IH]; intros b; simpl; kept; apply IH. Qed.

Lemma build_kept : keeps (buildWithdrawalMessages config ab bc ws withdrawal_repo Int63).
Proof.
  unfold buildWithdrawalMessages, service_turn, buildServiceWithdrawalMessage, buildServiceJettonWithdrawal.
  simpl. tables. kept; first [apply internal_loop_kept|apply external_loop_kept].
Qed.

Lemma withdrawals_kept cold build send :
  (∀ l, db_rel eq (build l)) → (∀ m, db_rel eq (send m)) →
  keeps (withdrawals_pass config ab bc ws withdrawal_repo cold Int63 build send).
Proof.
  intros Hb Hs. unfold withdrawals_pass, makeColdWalletWithdrawals, cold_jetton, cold_ton. simpl. tables.
  kept; first [apply internal_loop_kept|apply external_loop_kept].
Qed.

Lemma internal_ton_kept wallet_Send :
  (∀ t m, db_rel eq (wallet_Send t m)) →
  keeps (internal_ton_pass config bc ws withdrawal_repo Int63 wallet_Send).
Proof.
  intros Hs. unfold internal_ton_pass, withdrawTONsFromDeposit, WithdrawTON, serviceWithdrawJettons, WithdrawJetton.
  simpl. tables. kept.
Qed.
End processor.

Lemma handle_kept config ab gen genj hot r :
  keeps (handle config repository request_repo ab gen genj hot r).
Proof.
  unfold handle, createAddress, getAddresses, createWithdrawal, getWithdrawalStatus, getSync, getIncome_handler,
    getIncomeHistory, serviceTonWithdrawal, serviceJettonWithdrawal, bad_request, or_error, respond.
  destruct r as [[[] |]|[]|[]|[]|[[]|]|[]| |[]|]; simpl;
  unfold uc_CreateAddress, createTonAddress, createJettonAddress, uc_GetAddresses,
    uc_CreateServiceTonWithdrawal, uc_CreateServiceJettonWithdrawal, uc_IsSynced, uc_GetIncome,
    uc_GetHistory; simpl; unfold CreateServiceWithdrawalRequest, GetLastSavedBlock; kept.
Qed.

Lemma running_kept m : running m → keeps m.
Proof.
  destruct 1 as [ab ws bc config ns b Hn|config ab bc ws cold Int63 build send H1 H2 H3|config bc ws Int63 send H1 H2| |
    config ab gen genj hot auth r].
  - by apply scan_kept.
  - by apply withdrawals_kept.
  - by apply internal_ton_kept.
  - unfold expiration_pass, SetExpired. kept.
  - apply preserves_bind; [apply _| |intros; apply preserves_ret, _]. intros w. unfold serve.
    destruct (checkToken _ _); [|by split]. pose proof (handle_kept config ab gen genj hot r w) as H.
    by destruct (handle _ _ _ _ _ _ _ _ w) as [[] w'].
Qed.

Lemma ran_kept d d' : rtc ran d d' → hot_kept d d'.
Proof.
  induction 1 as [|d1 d2 d3 (m & r & v & v' & Hm & <- & E & <-) _ IH]; [done|]. etrans; [|exact IH].
  pose proof (running_kept m Hm v) as [H _]. by rewrite E in H.
Qed.

(** They keep the invariant of the tables. *)
Lemma ran_inv d d' : rtc ran d d' → db_inv d → db_inv d'.
Proof.
  induction 1 as [|d1 d2 d3 (m & r & v & v' & Hm & <- & E & <-) _ IH]; [done|]. intros I. apply IH.
  eapply turn_inv; [by apply turn_running|exact E|exact I].
Qed.
End between.

Section restart.
Context `{TL : TvmLib} `{UL : UuidLib} `{PG : PgLib} `{WL : WalletLib} `{GR : GoRuntime}.
Context `{TW : !TonWalletLib} {O : Type}.
Abbreviation DBM := (ST (World O)).
Context (bc : Blockchain) (config : Config) (version : Version).
Context (transfer : TonWallet → tonaddr → Z → DBM unit).
Context (Htransfer : ∀ t a z, db_rel eq (transfer t a z)).

(** ** The TON hot wallet *)

Definition hot_rows (d : DB) : list Address :=
  plan (map tw_address (filter (λ r, tw_type r = TonHotWallet) (ton_wallets d))).

Lemma check_saved_db a (w : World O) : w_db (check_saved repository a w).2 = w_db w.
Proof.
  unfold check_saved, st_bind, st_try. simpl. unfold GetTonHotWalletAddress.
  match goal with |- context [query ?f w] => pose proof (query_db f w) as H; destruct (query f w) as [[x|[]| |] w1] end;
    simpl in *; try done. by case_decide.
Qed.

Lemma check_saved_Ok a (w w' : World O) b :
  check_saved repository a w = (Ok b, w') → head (hot_rows (w_db w)) = if b then Some a else None.
Proof.
  unfold check_saved, st_bind, st_try. simpl. unfold GetTonHotWalletAddress.
  match goal with |- context [query ?f w] => destruct (query f w) as [[x|[]| |] w1] eqn:E end; try done.
  - case_decide as Hx; intros [= <- _]. apply query_Ok in E as (E & _). apply of_option_Ok in E.
    by subst.
  - intros [= <- _]. apply query_not_found in E as [E _]. unfold hot_rows.
    by destruct (head _).
Qed.

Lemma DeployTonWallet_db t (w : World O) : w_db (DeployTonWallet bc transfer t w).2 = w_db w.
Proof.
  symmetry. enough (db_rel eq (DeployTonWallet bc transfer t)) as H by apply (H w).
  unfold DeployTonWallet. apply preserves_bind; [apply _|apply preserves_lift, _|]. intros [bal st].
  case_decide; [apply preserves_fail, _|]. case_decide; [apply preserves_ret, _|].
  apply preserves_bind; [apply _|apply Htransfer|intros; apply preserves_lift, _].
Qed.

(** What a successful start of the hot wallet leaves. *)
Lemma initTon_Ok seed (w w' : World O) t shard sub :
  initTonHotWallet bc config version repository transfer seed w = (Ok (t, shard, sub), w') →
  GenerateDefaultWallet bc version seed true = Ok (t, shard, sub) ∧
  ∃ a, AddressMustFromTonutilsAddress (Some (w_Address t)) = Ok a ∧
    head (hot_rows (w_db w')) = Some a ∧ jetton_wallets (w_db w') = jetton_wallets (w_db w).
Proof.
  intros H. unfold initTonHotWallet in H.
  apply st_bind_Ok in H as ([[t0 s0] i0] & w1 & Hg & H). unfold st_lift in Hg. injection Hg as Hg <-.
  apply st_bind_Ok in H as ([] & w2 & Hv & H). unfold st_lift in Hv. injection Hv as _ <-.
  apply st_bind_Ok in H as (a & w3 & Ha & H). unfold st_lift in Ha. injection Ha as Ha <-.
  apply st_bind_Ok in H as (b & w4 & Hc & H).
  pose proof (check_saved_db a w) as Hdb. rewrite Hc in Hdb. simpl in Hdb.
  apply check_saved_Ok in Hc.
  apply st_bind_Ok in H as ([bal st] & w5 & Hb & H). unfold st_lift in Hb. injection Hb as _ <-.
  case_decide; [done|]. apply st_bind_Ok in H as ([] & w6 & Hd & H).
  assert (w_db w6 = w_db w4) as H6.
  { case_decide; [by injection Hd as <-|]. pose proof (DeployTonWallet_db t0 w4) as Hdep.
    by rewrite Hd in Hdep. }
  apply st_bind_Ok in H as ([] & w7 & Hs & H). unfold st_ret in H. injection H as <- <- <- <-.
  split; [done|]. exists a. split; [done|]. destruct b.
  - injection Hs as <-. by rewrite H6, Hdb.
  - apply exec_Ok in Hs as (d & Hs & ->). unfold insert_ton_wallet in Hs.
    apply res_bind_Ok in Hs as (? & _ & Hs).
    apply res_bind_Ok in Hs as (l & [_ ->]%insert_unique_Ok & [= <-]).
    simpl. rewrite H6, Hdb. split; [|done]. unfold hot_rows in *. simpl.
    rewrite filter_app, map_app, filter_cons_True, filter_nil by done.
    destruct (map tw_address (filter _ (ton_wallets (w_db w)))) as [|y ys] eqn:E.
    + simpl. by rewrite plan_singleton.
    + assert (y ∈ plan (y :: ys)) as Hin by (apply elem_of_plan; set_solver).
      destruct (plan (y :: ys)); [set_solver|done].
Qed.

(** Once it is stored, a start leaves the tables alone. *)
Lemma initTon_again seed (w w' : World O) t shard sub a r :
  GenerateDefaultWallet bc version seed true = Ok (t, shard, sub) →
  AddressMustFromTonutilsAddress (Some (w_Address t)) = Ok a →
  head (hot_rows (w_db w)) = Some a →
  initTonHotWallet bc config version repository transfer seed w = (r, w') →
  w_db w' = w_db w.
Proof.
  intros Hg Ha Hh. unfold initTonHotWallet. rewrite Hg. unfold st_bind at 1, st_lift at 1.
  destruct (decide (w_Spec t = SpecHighloadV2R2)).
  2: { unfold st_bind, st_lift. by intros [= <- <-]. }
  rewrite Ha. unfold st_bind at 1, st_lift at 1, st_bind at 1, st_lift at 1, st_bind at 1.
  pose proof (check_saved_db a w) as Hdb. destruct (check_saved repository a w) as [rb w1] eqn:Ec.
  simpl in Hdb. destruct rb as [b| | |]; try (by intros [= <- <-]).
  apply check_saved_Ok in Ec. destruct b; [|congruence].
  unfold st_bind at 1, st_lift at 1. destruct (GetAccountCurrentState bc (w_Address t)) as [[bal st]| | |];
    try (by intros [= <- <-]).
  case_decide; [by intros [= <- <-]|]. unfold st_bind at 1.
  case_decide; [by intros [= <- <-]|]. pose proof (DeployTonWallet_db t w1) as Hdep.
  destruct (DeployTonWallet bc transfer t w1) as [[] w2]; simpl in Hdep; intros [= <- <-]; congruence.
Qed.

(** ** The jetton hot wallets *)

Definition jetton_saved (d : DB) (hot : tonaddr) (cj : string * Jetton) : Prop :=
  ∃ a aa r, wallets_GetJettonWalletAddress bc hot (j_Master cj.2) = Ok a ∧
    AddressFromTonutilsAddress (Some a) = Ok aa ∧
    r ∈ jetton_wallets d ∧ jw_address r = aa ∧ jw_currency r = cj.1.

Lemma initJetton_Ok hot cj sub (w w' : World O) jw :
  initJettonHotWallet bc repository hot (j_Master cj.2) cj.1 sub w = (Ok jw, w') →
  (∃ a, wallets_GetJettonWalletAddress bc hot (j_Master cj.2) = Ok a ∧
        jw = {| jwal_Address := a; jwal_Currency := cj.1 |}) ∧
  jetton_saved (w_db w') hot cj ∧ ton_wallets (w_db w') = ton_wallets (w_db w) ∧
  jetton_wallets (w_db w) ⊆ jetton_wallets (w_db w').
Proof.
  intros H. unfold initJettonHotWallet in H.
  apply st_bind_Ok in H as (a & w1 & Ha & H). unfold st_lift in Ha. injection Ha as Ha <-.
  cbv zeta in H. apply st_bind_Ok in H as (o & w2 & Ho & H). unfold st_lift in Ho. injection Ho as _ <-.
  apply st_bind_Ok in H as (aa & w3 & Haa & H). unfold st_lift in Haa. injection Haa as Haa <-.
  apply st_bind_Ok in H as (wd & w4 & (Hq & Hdb & _)%query_Ok & H). injection Hq as <-.
  destruct (head _) as [r|] eqn:Eh.
  - case_decide as Hc; [|done]. unfold st_ret in H. injection H as <- <-. simpl in Hc.
    rewrite Hdb. split_and!; [by eauto| |done|done]. exists a, aa, r.
    assert (r ∈ filter (λ r, jw_address r = aa) (jetton_wallets (w_db w))) as [Hr1 Hr2]%list_elem_of_filter.
    { apply elem_of_plan. destruct (plan _); simplify_eq/=. set_solver. }
    done.
  - apply st_bind_Ok in H as ([] & w5 & Hs & H). unfold st_ret in H. injection H as <- <-.
    apply in_tx_Ok in Hs as (w6 & w7 & H6 & _ & Hs & H7).
    apply st_bind_Ok in Hs as ([] & w8 & H8 & Hs). injection H8 as <-.
    apply exec_Ok in Hs as (d & Hs & ->). unfold insert_jetton_wallet in Hs.
    apply res_bind_Ok in Hs as (? & _ & Hs). apply res_bind_Ok in Hs as (? & _ & Hs).
    apply res_bind_Ok in Hs as (l & [_ ->]%insert_unique_Ok & [= <-]).
    rewrite H7, H6, Hdb. simpl. split_and!; [by eauto| |done|set_solver].
    exists a, aa. eexists. split_and!; [done|done|apply elem_of_app; right; by apply list_elem_of_singleton|done|done].
Qed.

Lemma initJetton_again hot cj sub (w w' : World O) r :
  NoDup (map jw_address (jetton_wallets (w_db w))) → jetton_saved (w_db w) hot cj →
  initJettonHotWallet bc repository hot (j_Master cj.2) cj.1 sub w = (r, w') →
  w_db w' = w_db w.
Proof.
  intros Hn (a & aa & row & Ha & Haa & Hrow & Hra & Hrc). unfold initJettonHotWallet.
  rewrite Ha. unfold st_bind at 1, st_lift at 1. cbv zeta.
  unfold st_bind at 1, st_lift at 1. destruct (AddressFromTonutilsAddress (Some hot)) as [o| | |];
    try (by intros [= <- <-]).
  rewrite Haa. unfold st_bind at 1, st_lift at 1, st_bind at 1. simpl. unfold GetJettonWallet.
  match goal with |- context [query ?f w] => pose proof (query_db f w) as Hdb;
    destruct (query f w) as [[wd| | |] w1] eqn:Eq end; simpl in Hdb; try (by intros [= <- <-]).
  apply query_Ok in Eq as ([= <-] & _).
  destruct (head _) as [r0|] eqn:Eh.
  - assert (row = r0) as ->.
    { by eapply (head_plan_unique jw_address (λ r, jw_address r = aa)); [|congruence|..]. }
    simpl. rewrite decide_True by done. by intros [= <- <-].
  - assert (row ∈ plan (filter (λ r, jw_address r = aa) (jetton_wallets (w_db w)))) as Hin.
    { apply elem_of_plan, list_elem_of_filter. done. }
    destruct (plan _); [set_solver|done].
Qed.

(** ** All of them *)

Abbreviation jetton_turn hot sub := (λ (m : gmap string JettonWallet) (cj : string * Jetton),
  do! jw <- initJettonHotWallet bc repository hot (j_Master cj.2) cj.1 sub;
  st_ret (S:=World O) (<[cj.1 := jw]> m)).

(** The map the loop builds, as a function of the node's answers. *)
Definition jetton_wallets_of (hot : tonaddr) (m : gmap string JettonWallet)
    (l : list (string * Jetton)) : gmap string JettonWallet :=
  foldl (λ m cj, match wallets_GetJettonWalletAddress bc hot (j_Master cj.2) with
                 | Ok a => <[cj.1 := {| jwal_Address := a; jwal_Currency := cj.1 |}]> m
                 | _ => m
                 end) m l.

Lemma jetton_saved_mono d d' hot cj :
  jetton_wallets d ⊆ jetton_wallets d' → jetton_saved d hot cj → jetton_saved d' hot cj.
Proof. intros Hs (a & aa & r & ? & ? & ? & ? & ?). exists a, aa, r. split_and!; try done. by apply Hs. Qed.

Lemma jetton_loop_Ok hot sub l m (w w' : World O) m' :
  for_st (jetton_turn hot sub) m l w = (Ok m', w') →
  m' = jetton_wallets_of hot m l ∧ ton_wallets (w_db w') = ton_wallets (w_db w) ∧
  jetton_wallets (w_db w) ⊆ jetton_wallets (w_db w') ∧
  ∀ cj, cj ∈ l → jetton_saved (w_db w') hot cj.
Proof.
  revert m w. induction l as [|cj l IH]; intros m w H; simpl in H.
  { injection H as <- <-. split_and!; [done|done|done|set_solver]. }
  apply st_bind_Ok in H as (m1 & w1 & H1 & H). apply st_bind_Ok in H1 as (jw & w0 & H1 & H0).
  unfold st_ret in H0. injection H0 as <- <-.
  apply initJetton_Ok in H1 as ((a & Ha & ->) & Hs & Ht & Hj).
  apply IH in H as (-> & Ht' & Hj' & Hs'). split_and!.
  - unfold jetton_wallets_of. simpl. by rewrite Ha.
  - congruence.
  - by etrans.
  - intros cj' [->|Hin]%elem_of_cons; [by eapply jetton_saved_mono|auto].
Qed.

Lemma jetton_loop_again hot sub l m (w w' : World O) r :
  NoDup (map jw_address (jetton_wallets (w_db w))) → (∀ cj, cj ∈ l → jetton_saved (w_db w) hot cj) →
  for_st (jetton_turn hot sub) m l w = (r, w') → w_db w' = w_db w.
Proof.
  revert m w. induction l as [|cj l IH]; intros m w Hn Hs H; simpl in H; [by injection H as _ <-|].
  unfold st_bind at 1, st_bind at 1 in H.
  destruct (initJettonHotWallet _ _ _ _ _ _ w) as [r1 w1] eqn:E.
  apply initJetton_again in E; [|done|apply Hs; set_solver].
  destruct r1 as [jw| | |]; try (injection H as _ <-; done). simpl in H.
  apply IH in H; rewrite ?E; [congruence|done|]. intros. apply Hs. set_solver.
Qed.

Lemma InitWallets_inv seed (w w1 : World O) r :
  InitWallets bc config version repository transfer seed w = (r, w1) → db_inv (w_db w) → db_inv (w_db w1).
Proof.
  intros H I. set (m := do! _ <- InitWallets bc config version repository transfer seed; st_ret tt).
  assert (w_db (m w).2 = w_db w1) as <- by (unfold m, st_bind at 1; rewrite H; by destruct r).
  eapply (turn_inv m w _ (m w).1); [by apply turn_start|apply surjective_pairing|exact I].
Qed.

(** C33. Starting again changes nothing: after a successful start and any turns of
    the scanner, the loops of the withdrawal processor and the interface, whatever
    they did and whatever failed, a later start with the same seed, configuration
    and answers of the node leaves the tables as it finds them, whatever fails, and
    when it succeeds its wallets are those of the first start. *)
Theorem InitWallets_restart seed (w w1 w2 w3 : World O) ws r :
  db_inv (w_db w) →
  InitWallets bc config version repository transfer seed w = (Ok ws, w1) →
  rtc (ran (O:=O)) (w_db w1) (w_db w2) →
  InitWallets bc config version repository transfer seed w2 = (r, w3) →
  w_db w3 = w_db w2 ∧ (∀ ws', r = Ok ws' → ws' = ws).
Proof.
  intros I H Hran H2. assert (db_inv (w_db w2)) as I2.
  { eapply ran_inv; [exact Hran|]. by eapply InitWallets_inv. }
  apply ran_kept in Hran as [Hhot Hjs]. unfold InitWallets in H, H2.
  apply st_bind_Ok in H as ([[t shard] sub] & v1 & Ht & H).
  apply initTon_Ok in Ht as (Hg & a & Ha & Hh & _).
  apply st_bind_Ok in H as ([[basic s0] i0] & v2 & Hb & H). unfold st_lift in Hb. injection Hb as Hb <-.
  apply st_bind_Ok in H as (m & v3 & Hm & H). unfold st_ret in H. injection H as <- <-.
  apply jetton_loop_Ok in Hm as (-> & Htw & _ & Hs).
  assert (head (hot_rows (w_db w2)) = Some a) as Hh2 by (unfold hot_rows in *; by rewrite Hhot, Htw).
  unfold st_bind at 1 in H2.
  destruct (initTonHotWallet _ _ _ _ _ _ w2) as [r1 u1] eqn:E1.
  pose proof (initTon_again _ _ _ _ _ _ _ _ Hg Ha Hh2 E1) as Hu1.
  destruct r1 as [[[t' shard'] sub']| | |]; try (by injection H2 as <- <-).
  apply initTon_Ok in E1 as (Hg' & _). rewrite Hg in Hg'. injection Hg' as <- <- <-.
  unfold st_bind at 1, st_lift at 1, GenerateDefaultWallet in H2. rewrite Hb in H2.
  unfold st_bind at 1 in H2.
  destruct (for_st _ ∅ _ u1) as [r2 u2] eqn:E2.
  assert (w_db u2 = w_db w2) as Hu2.
  { rewrite <- Hu1. eapply jetton_loop_again; [| |exact E2]; rewrite Hu1; [apply I2|].
    intros cj Hcj. eapply jetton_saved_mono; [exact Hjs|by apply Hs]. }
  destruct r2 as [m'| | |]; try (by injection H2 as <- <-).
  apply jetton_loop_Ok in E2 as (-> & _). unfold st_ret in H2. injection H2 as <- <-.
  split; [done|]. by intros ws' [= <-].
Qed.
End restart.
