(* ===== verification/Pipeline.v ===== *)
(** * The tracker and the scanner over the channel

    [cmd/processor/main.go] starts the shard tracker and the block scanner as
    goroutines joined by an unbuffered channel, and closes the channel when the
    program is told to stop. Here the two are one transition system: the tracker
    of [Shard] in small steps, the rendezvous, the scanner of [BlockScanner] on
    the shared tables, the other processes of [Protocol] in between, and the
    goroutine that waits for the signal. *)

From S2P Require Import Prelude TonUtils Config Models Core Db AddressBook Repository.
From S2P Require Import WithdrawalRepository Ledger BlockScanner BlockScannerFacts Saving Protocol.
From S2P Require Import Shard Incomes Processes.

Local Open Scope string_scope.
Local Open Scope list_scope.
Local Open Scope Z_scope.

(** ** The tracker in small steps *)

(** Where the tracker is. *)
Inductive tracker_position :=
| AtMaster                                                     (** [getCurrentMasterBlock] *)
| AtBlock (i : BlockIDExt) (currentBlock : option BlockIDExt)  (** the loop of [getShardBlocks] *)
| AtSend (i : BlockIDExt) (h : ShardBlockHeader).              (** [s.blocksChan <- &h] *)

(** A turn of [Start] up to the loop: the newest block of the shard. *)
Definition newest_block (masters : list (res BlockIDExt))
    (shardsInfo : BlockIDExt → list (res (list BlockIDExt))) (s : ShardTracker)
    : option (res BlockIDExt * ShardTracker) :=
  '(m, s) ← getCurrentMasterBlock masters s;
  match m with
  | Ok masterBlock =>
      r ← until_ready (shardsInfo masterBlock);
      Some (let! blocksShardsInfo := r in filterByShard blocksShardsInfo (t_shard s), s)
  | Err e => Some (Err e, s)
  | Panic => Some (Panic, s)
  | Fatal => Some (Fatal, s)
  end.

(** The loop of [getShardBlocks] up to the send. *)
Definition examine (GetBlockData : BlockIDExt → list (res Block)) (i : BlockIDExt)
    (currentBlock : option BlockIDExt) (s : ShardTracker) : option (res tracker_position * ShardTracker) :=
  match t_lastKnownShardBlock s, currentBlock with
  | Some known, Some currentBlock =>
      if is_known known currentBlock then Some (Ok AtMaster, set_known i s) else
      r ← getShardBlocksHeader GetBlockData currentBlock (t_shard s);
      Some (let! h := r in Ok (AtSend i h), s)
  | _, _ => Some (Panic, s)
  end.

(** The loop in small steps is the loop of [Shard]: a send is followed by the
    parent of what was sent. *)
Lemma walk_back_examine GetBlockData fuel i c s :
  walk_back GetBlockData (S fuel) i c s =
  ('(r, s') ← examine GetBlockData i c s;
   match r with
   | Ok (AtSend _ h) => walk_back GetBlockData fuel i (sb_Parent h) (send h s')
   | Ok _ => Some (Ok tt, s')
   | Err e => Some (Err e, s')
   | Panic => Some (Panic, s')
   | Fatal => Some (Fatal, s')
   end).
Proof.
  unfold examine. simpl. destruct (t_lastKnownShardBlock s), c; try done.
  destruct (is_known _ _); [done|]. by destruct (getShardBlocksHeader _ _ _) as [[]|].
Qed.

Lemma track_once_newest GetBlockData fuel masters shardsInfo s :
  track_once GetBlockData fuel masters shardsInfo s =
  ('(r, s') ← newest_block masters shardsInfo s;
   match r with
   | Ok i => '(r, s') ← getShardBlocks GetBlockData fuel i s';
             Some (match r with Err _ => Ok tt | r => r end, s')
   | Err _ => Some (Ok tt, s')
   | Panic => Some (Panic, s')
   | Fatal => Some (Fatal, s')
   end).
Proof.
  unfold track_once, newest_block. destruct (getCurrentMasterBlock _ _) as [[m s']|]; [|done]. simpl.
  destruct m; try done. unfold loadShardBlocksBatch.
  destruct (until_ready _) as [[l| | |]|]; try done. simpl. by destruct (filterByShard _ _).
Qed.

(** ** The other processes *)

Section side.
Context `{AL : AddrLib} `{UL : UuidLib} `{PG : PgLib} `{WL : WalletLib} {O : Type}.
Implicit Types s : State.

(** A step of [Protocol] that saves no block. *)
Inductive side : State → State → Prop :=
| side_call m s w r w' :
    call m → (∀ e, m ≠ SaveParsedBlockData e) → w_db w = s_db s → m w = (r, w') →
    side s {| s_db := w_db (O:=O) w'; s_picked := s_picked s |}
| side_pick limit s w tasks picked w' :
    w_db w = s_db s → s_picked s = [] →
    GetExternalWithdrawalTasks (O:=O) limit w = (Ok tasks, w') → picked `sublist_of` tasks →
    side s {| s_db := s_db s; s_picked := picked |}
| side_pay u e s w r w' :
    w_db w = s_db s → CreateExternalWithdrawals (O:=O) (s_picked s) u e w = (r, w') →
    side s {| s_db := w_db w'; s_picked := [] |}
| side_drop s : side s {| s_db := s_db s; s_picked := [] |}.

Lemma side_step s s' : side s s' → step (O:=O) s s'.
Proof.
  destruct 1; [by eapply step_call|by eapply step_pick|by eapply step_pay|apply step_drop].
Qed.

(** What the scanner alone writes. *)
Definition same_chain (d d' : DB) : Prop :=
  block_data d' = block_data d ∧ external_incomes d' = external_incomes d.
#[local] Instance same_chain_preorder : PreOrder same_chain.
Proof. split; [done|]. intros d1 d2 d3 [] []. split; congruence. Qed.

Ltac leaves_alone :=
  unfold SetExpired, SaveTonWallet, SaveJettonWallet, CreateWithdrawalRequest, UpdateWithdrawalRequest,
    CreateServiceWithdrawalRequest, UpdateServiceWithdrawalRequest, SaveInternalWithdrawalTask,
    CreateExternalWithdrawals, insert_external, update_processing;
  repeat first
    [ progress intros
    | apply preserves_bind; [apply _| |]
    | apply preserves_each; [apply _|]
    | apply db_rel_in_tx; [apply _|apply db_rel_ok]
    | apply db_rel_query, _ | apply db_rel_now, _ | apply db_rel_NewV4, _
    | apply db_rel_exec; [apply _|unfold insert_ton_wallet, insert_jetton_wallet;
        intros; inv_res; repeat case_match; simplify_eq/=; split; reflexivity]
    | apply preserves_ret, _
    | case_match ].

Lemma call_same m : call m → (∀ e, m ≠ SaveParsedBlockData e) → db_rel (O:=O) same_chain m.
Proof. destruct 1; intros Hne; [by destruct (Hne e)| leaves_alone..]. Qed.

Lemma side_same s s' : side s s' → same_chain (s_db s) (s_db s').
Proof.
  destruct 1 as [m s w r w' Hc Hne Hw H| |u e s w r w' Hw H|]; simpl; [|done| |done].
  - destruct (call_same m Hc Hne w) as [Hs _]. by rewrite H, Hw in Hs.
  - assert (db_rel (O:=O) same_chain (CreateExternalWithdrawals (s_picked s) u e)) as Hs by leaves_alone.
    specialize (Hs w) as [Hs _]. by rewrite H, Hw in Hs.
Qed.
End side.

(** ** The two goroutines *)

Inductive scanner_position :=
| Selecting                            (** the [select] of [Start] *)
| Scanning (block : ShardBlockHeader) (late : bool)
    (** inside [processBlock], which began with a cancelled context if [late] *)
| Stopped.

Section pipeline.
Context `{TL : TvmLib} `{UL : UuidLib} `{PG : PgLib} `{WL : WalletLib} `{GR : GoRuntime}.
Context `{TW : !TonWalletLib} {O : Type}.
Context (ws : Wallet) (config : Config).
Abbreviation DBM := (ST (World O)).

(** A block the scanner has left behind, with the address book it used. *)
Record scanned_block := { sc_block : ShardBlockHeader; sc_book : AddressBook; sc_saved : bool }.

(** The row of the block is there after the turn, and was not before. *)
Definition was_saved (d d' : DB) : bool := (length (block_data d) <? length (block_data d'))%nat.

Record Sys := {
  y_tracker : ShardTracker;
  y_at : tracker_position;
  y_scanner : scanner_position;
  y_state : State;              (** the tables, and the tasks about to be paid *)
  y_scanned : list scanned_block;        (** oldest first *)
  y_cancelled : bool;           (** [scannerCancel] *)
  y_closed : bool;              (** [close(blocksChan)] *)
  y_dead : bool;                (** a panic or [log.Fatalf] of a goroutine *)
}.

Definition move (t : ShardTracker) (p : tracker_position) (y : Sys) : Sys :=
  Build_Sys t p (y_scanner y) (y_state y) (y_scanned y) (y_cancelled y) (y_closed y) (y_dead y).
Definition on_tables (s : State) (y : Sys) : Sys :=
  Build_Sys (y_tracker y) (y_at y) (y_scanner y) s (y_scanned y) (y_cancelled y) (y_closed y) (y_dead y).
Definition die (y : Sys) : Sys :=
  Build_Sys (y_tracker y) (y_at y) (y_scanner y) (y_state y) (y_scanned y) (y_cancelled y) (y_closed y) true.

(** The header goes from one goroutine to the other. *)
Definition hand_over (i : BlockIDExt) (h : ShardBlockHeader) (y : Sys) : Sys :=
  Build_Sys (send h (y_tracker y)) (AtBlock i (sb_Parent h)) (Scanning h (y_cancelled y)) (y_state y) (y_scanned y)
    (y_cancelled y) (y_closed y) (y_dead y).

(** The scanner leaves the block [h], with the outcome [r] and the tables [d]. *)
Definition leave (ab : AddressBook) (h : ShardBlockHeader) (r : res unit) (d : DB) (y : Sys) : Sys :=
  Build_Sys (y_tracker y) (y_at y) Selecting {| s_db := d; s_picked := s_picked (y_state y) |}
    (y_scanned y ++ [{| sc_block := h; sc_book := ab; sc_saved := was_saved (s_db (y_state y)) d |}])
    (y_cancelled y) (y_closed y) (negb (is_Ok r)).

Definition stop_scanner (y : Sys) : Sys :=
  Build_Sys (y_tracker y) (y_at y) Stopped (y_state y) (y_scanned y) (y_cancelled y) (y_closed y) (y_dead y).
Definition scannerCancel (y : Sys) : Sys :=
  Build_Sys (y_tracker y) (y_at y) (y_scanner y) (y_state y) (y_scanned y) true (y_closed y) (y_dead y).

(** A goroutine that is blocked in a send panics when the channel is closed. *)
Definition close_chan (y : Sys) : Sys :=
  Build_Sys (y_tracker y) (y_at y) (y_scanner y) (y_state y) (y_scanned y) (y_cancelled y) true
    (match y_at y with AtSend _ _ => true | _ => y_dead y end).

(** What the node may announce as the newest block, answer for the data of a
    block, and answer to the scanner. *)
Context (announced : ShardTracker → BlockIDExt → Prop) (answers : (BlockIDExt → list (res Block)) → Prop).
Context (node : Blockchain → Prop).

(** Every call to the node is made with the context of the goroutine: once that
    is cancelled it fails, a call that is being repeated too. A call that had
    returned before belongs to a step before the cancellation. *)
Definition asked (y : Sys) (G : BlockIDExt → list (res Block)) : Prop :=
  answers G ∧ (y_cancelled y = true → ∀ b, ∃ e, until_ready (G b) = Some (Err e)).
Definition scans_with (late : bool) (bc : Blockchain) : Prop :=
  node bc ∧ (late = true → ∀ b, ∃ e, GetTransactionIDsFromBlock bc b = Err e).

Inductive sys_step (y : Sys) : Sys → Prop :=
| sys_newest masters shardsInfo i t :
    y_dead y = false → y_cancelled y = false → y_at y = AtMaster →
    newest_block masters shardsInfo (y_tracker y) = Some (Ok i, t) → announced t i →
    sys_step y (move t (AtBlock i (Some i)) y)
| sys_newest_error masters shardsInfo e t :
    y_dead y = false → y_at y = AtMaster →
    newest_block masters shardsInfo (y_tracker y) = Some (Err e, t) → sys_step y (move t AtMaster y)
| sys_newest_end masters shardsInfo r t :
    y_dead y = false → y_cancelled y = false → y_at y = AtMaster → r = Panic ∨ r = Fatal →
    newest_block masters shardsInfo (y_tracker y) = Some (r, t) → sys_step y (die y)
| sys_examine G i c p t :
    y_dead y = false → y_at y = AtBlock i c → asked y G →
    examine G i c (y_tracker y) = Some (Ok p, t) → sys_step y (move t p y)
| sys_examine_error G i c e t :
    y_dead y = false → y_at y = AtBlock i c → asked y G →
    examine G i c (y_tracker y) = Some (Err e, t) → sys_step y (move t AtMaster y)
| sys_examine_end G i c r t :
    y_dead y = false → y_at y = AtBlock i c → asked y G → r = Panic ∨ r = Fatal →
    examine G i c (y_tracker y) = Some (r, t) → sys_step y (die y)
| sys_hand_over i h :
    y_dead y = false → y_closed y = false → y_at y = AtSend i h → y_scanner y = Selecting →
    sys_step y (hand_over i h y)
| sys_send_closed i h :
    y_dead y = false → y_closed y = true → y_at y = AtSend i h → sys_step y (die y)
| sys_scan ab bc notificators h late w r w' :
    y_dead y = false → y_scanner y = Scanning h late → scans_with late bc →
    (∀ p n, p ∈ notificators → db_rel (O:=O) eq (p n)) → w_db w = s_db (y_state y) →
    scan_one ab ws bc config notificators (Some h) w = (r, w') →
    sys_step y (leave ab h r (w_db w') y)
| sys_nil :   (** what a closed channel delivers *)
    y_dead y = false → y_closed y = true → y_scanner y = Selecting → sys_step y y
| sys_stop :
    y_dead y = false → y_cancelled y = true → y_scanner y = Selecting → sys_step y (stop_scanner y)
| sys_side s :
    y_dead y = false → side (O:=O) (y_state y) s → sys_step y (on_tables s y)
| sys_cancel : y_dead y = false → sys_step y (scannerCancel y)
| sys_close :
    y_dead y = false → y_cancelled y = true → y_closed y = false → sys_step y (close_chan y).

Definition start (shard : Z) (startBlock : BlockIDExt) (s : State) : Sys := {|
  y_tracker := NewShardTracker shard (Some startBlock); y_at := AtMaster; y_scanner := Selecting;
  y_state := s; y_scanned := []; y_cancelled := false; y_closed := false; y_dead := false |}.

(** ** Invariants of every run *)

Definition in_scanner (y : Sys) : list ShardBlockHeader :=
  match y_scanner y with Scanning h _ => [h] | _ => [] end.

(** What was sent is what the scanner has left behind or holds. *)
Definition delivered (y : Sys) : Prop :=
  t_blocksChan (y_tracker y) = map sc_block (y_scanned y) ++ in_scanner y.

Lemma newest_block_tracker masters shardsInfo s r t :
  newest_block masters shardsInfo s = Some (r, t) →
  t_shard t = t_shard s ∧ t_lastKnownShardBlock t = t_lastKnownShardBlock s ∧ t_blocksChan t = t_blocksChan s.
Proof.
  unfold newest_block. destruct (getCurrentMasterBlock _ _) as [[m s']|] eqn:E; [|done]. simpl.
  apply getCurrentMasterBlock_first in E as (_ & _ & _ & _ & _ & ->).
  destruct m; [destruct (until_ready _); [|done]|..]; simpl; intros [= _ <-]; done.
Qed.

Lemma examine_tracker G i c s p t :
  examine G i c s = Some (p, t) →
  t_shard t = t_shard s ∧ t_blocksChan t = t_blocksChan s ∧
  ((p = Ok AtMaster ∧ t_lastKnownShardBlock t = Some i ∧
    ∃ known b, t_lastKnownShardBlock s = Some known ∧ c = Some b ∧ is_known known b = true) ∨
   (t = s ∧ ∀ q, p = Ok q → ∃ known h b, q = AtSend i h ∧ c = Some b ∧
     t_lastKnownShardBlock s = Some known ∧ is_known known b = false ∧
     getShardBlocksHeader G b (t_shard s) = Some (Ok h))).
Proof.
  unfold examine. destruct (t_lastKnownShardBlock s) as [k|] eqn:Ek, c as [b|];
    [|intros [= <- <-]; split_and!; [done|done|by right]..].
  destruct (is_known k b) eqn:Hk.
  - intros [= <- <-]. split_and!; [done|done|]. left. split_and!; [done..|by exists k, b].
  - destruct (getShardBlocksHeader G b (t_shard s)) as [r|] eqn:Er; [|done]. simpl.
    intros [= <- <-]. split_and!; [done|done|]. right. split; [done|].
    intros q (h & -> & [= <-])%res_bind_Ok. by exists k, h, b.
Qed.

Lemma step_delivered y y' : sys_step y y' → delivered y → delivered y'.
Proof.
  unfold delivered. destruct 1 as
    [? ? ? ? _ _ _ (_ & _ & Hc)%newest_block_tracker _|? ? ? ? _ _ (_ & _ & Hc)%newest_block_tracker| |
     ? ? ? ? ? _ _ _ (_ & Hc & _)%examine_tracker|? ? ? ? ? _ _ _ (_ & Hc & _)%examine_tracker| |
     i h _ _ _ Hs| |? ? ? h ? ? ? ? _ Hs _ _ _ _| |_ _ Hs| | |]; intros Hd;
    unfold in_scanner in *; simpl in *; try rewrite Hc; try exact Hd.
  - rewrite Hs in Hd. by rewrite Hd, app_nil_r.
  - rewrite Hs in Hd. by rewrite Hd, map_app, app_nil_r.
  - rewrite Hs in Hd. exact Hd.
Qed.

(** The tables change by steps of the protocol. *)
Lemma scan_one_steps ab bc notificators h (w w' : World O) r l :
  (∀ p n, p ∈ notificators → db_rel (O:=O) eq (p n)) →
  scan_one ab ws bc config notificators (Some h) w = (r, w') →
  rtc (step (O:=O)) {| s_db := w_db w; s_picked := l |} {| s_db := w_db w'; s_picked := l |}.
Proof.
  intros Hn H. destruct (scan_one_calls config ab bc ws notificators Hn (Some h) w) as [Hc _].
  rewrite H in Hc. apply Hc.
Qed.

Lemma step_tables y y' : sys_step y y' → rtc (step (O:=O)) (y_state y) (y_state y').
Proof.
  destruct 1 as [| | | | | | | |ab bc ns h late w r w' _ _ _ Hn Hw H| | |s _ Hs| |]; try reflexivity.
  - eapply (scan_one_steps _ _ _ _ _ _ _ (s_picked (y_state y))) in H; [|done].
    rewrite Hw in H. revert H. simpl. by destruct (y_state y).
  - apply rtc_once. by eapply side_step.
Qed.

Lemma run_tables y y' : rtc sys_step y y' → rtc (step (O:=O)) (y_state y) (y_state y').
Proof. induction 1 as [|y1 y2 y3 H _ IH]; [done|]. etrans; [by eapply step_tables|done]. Qed.

Lemma run_inv (P : Sys → Prop) y y' :
  (∀ y y', sys_step y y' → P y → P y') → rtc sys_step y y' → P y → P y'.
Proof. intros HP. induction 1; eauto. Qed.

(** ** The shutdown *)

Lemma step_closed y y' :
  sys_step y y' → y_closed y = true →
  y_closed y' = true ∧ t_blocksChan (y_tracker y') = t_blocksChan (y_tracker y).
Proof.
  destruct 1 as
    [? ? ? ? _ _ _ (_ & _ & Hc)%newest_block_tracker _|? ? ? ? _ _ (_ & _ & Hc)%newest_block_tracker| |
     ? ? ? ? ? _ _ _ (_ & Hc & _)%examine_tracker|? ? ? ? ? _ _ _ (_ & Hc & _)%examine_tracker| |
     i h _ Ho _ _| | | | | | |]; intros Hcl; simpl; try done. congruence.
Qed.

(** Under a cancelled context the tracker stays where it is or is back at the
    beginning of its loop, unless it already waits to send. *)
Lemma step_cancelled p y y' :
  (∀ i h, p ≠ AtSend i h) → sys_step y y' →
  y_cancelled y = true ∧ (y_at y = AtMaster ∨ y_at y = p) →
  y_cancelled y' = true ∧ (y_at y' = AtMaster ∨ y_at y' = p).
Proof.
  intros Hp H [Hca Hat]. destruct H as
    [| | |G i c q t _ Ha [_ HG] He%examine_tracker| | |i h _ _ Ha _| | | | | | |];
    try (split; [done|by (left + auto)]).
  - congruence.
  - split; [done|]. left. simpl. destruct He as (_ & _ & [([= ->] & _)|[_ He]]); [done|].
    destruct (He q eq_refl) as (_ & h & b & _ & _ & _ & _ & Hg). unfold getShardBlocksHeader in Hg.
    destruct (HG Hca b) as [e E]. by rewrite E in Hg.
  - destruct Hat as [E|E]; [congruence|]. rewrite Ha in E. by destruct (Hp i h).
Qed.

(** At the beginning of the loop every turn fails, is logged and starts again. *)
Lemma spins y : y_dead y = false → y_at y = AtMaster → sys_step y y.
Proof.
  intros Hd Ha. assert (move (y_tracker y) AtMaster y = y) as E by (destruct y; simpl in *; by rewrite Ha).
  rewrite <- E at 2. by apply (sys_newest_error y [Err (ELib "context canceled")] (λ _, []) (ELib "context canceled")).
Qed.

(** C37. What [SIGTERM] does to the tracker: the goroutine that waits for it
    cancels the context and closes the channel under the sender. A tracker that
    is waiting to hand over a header panics at once, and whatever happens no
    header is handed over afterwards. One that is not waiting is not stopped: as
    every call to the node now fails it never comes to a send again; it stays where
    it is or goes back to the beginning of its loop, which it can repeat for as
    long as the process lives. *)
Theorem shutdown_panics y :
  y_dead y = false → y_cancelled y = true → y_closed y = false →
  sys_step y (close_chan y) ∧
  (∀ i h, y_at y = AtSend i h → y_dead (close_chan y) = true) ∧
  (∀ y', rtc sys_step (close_chan y) y' → t_blocksChan (y_tracker y') = t_blocksChan (y_tracker y)) ∧
  ((∀ i h, y_at y ≠ AtSend i h) → ∀ y', rtc sys_step (close_chan y) y' →
     (y_at y' = AtMaster ∨ y_at y' = y_at y) ∧
     (y_at y' = AtMaster → y_dead y' = false → sys_step y' y')).
Proof.
  intros Hd Hca Hcl. split_and!.
  - by apply sys_close.
  - intros i h Ha. simpl. by rewrite Ha.
  - intros y' H. apply (run_inv (λ z, y_closed z = true ∧ t_blocksChan (y_tracker z) = t_blocksChan (y_tracker y))) in H
      as [_ H]; [done| |done].
    intros y1 y2 Hs [H1 H2]. destruct (step_closed _ _ Hs H1) as [? ->]. done.
  - intros Hns y' H. split; [|intros ? ?; by apply spins].
    apply (run_inv (λ z, y_cancelled z = true ∧ (y_at z = AtMaster ∨ y_at z = y_at y))) in H as [_ H];
      [done| |by split; [|right]]. intros y1 y2. by apply step_cancelled.
Qed.
End pipeline.
