(* ===== verification/Delivery.v ===== *)
(** * From the chain to the table, through the channel

    The runs of [Pipeline] on a chain of shard blocks: which headers the tracker
    hands over, what the tables hold when it has caught up, and what is lost when
    the program is stopped in the middle of a walk. The chain is given by its
    blocks, numbered upwards, and what a node that is not lying may answer about
    them; it may fail at any time. *)

From S2P Require Import Prelude TonUtils Config Models Core Db AddressBook Repository.
From S2P Require Import WithdrawalRepository Ledger BlockScanner BlockScannerFacts Saving Protocol.
From S2P Require Import Shard Blockchain Incomes Processes Pipeline.

Local Open Scope string_scope.
Local Open Scope list_scope.
Local Open Scope Z_scope.

Section delivery.
Context `{TL : TvmLib} `{UL : UuidLib} `{PG : PgLib} `{WL : WalletLib} `{GR : GoRuntime}.
Context `{TW : !TonWalletLib} {O : Type}.
Context (ws : Wallet) (config : Config).
Abbreviation DBM := (ST (World O)).
Implicit Types (y : Sys) (n m k p : nat).

(** ** The chain *)

Context (shard : Z) (blk : nat → BlockIDExt) (data : nat → Block).
Hypothesis blk_distinct : ∀ n m, is_known (blk n) (blk m) = true → n = m.
Hypothesis data_parents : ∀ n, ∃ parents,
  b_GetParentBlocks (data (S n)) = Ok parents ∧ filterByShard parents shard = Ok (blk n).

(** The header the tracker makes of the [n]-th block. *)
Definition hdr (n : nat) : ShardBlockHeader := {|
  sb_NotMaster := b_NotMaster (data n); sb_GenUtime := b_GenUtime (data n);
  sb_StartLt := b_StartLt (data n); sb_EndLt := b_EndLt (data n);
  sb_Parent := Some (blk (pred n)); sb_BlockIDExt := Some (blk n) |}.

(** The node has no data of the first block, and that of any other. *)
Definition honest_data (G : BlockIDExt → list (res Block)) : Prop :=
  ∀ n block, until_ready (G (blk n)) = Some (Ok block) → n ≠ 0%nat ∧ block = data n.

(** It announces blocks of the chain, or only such that are not older than
    the last known one. *)
Definition on_chain (t : ShardTracker) (i : BlockIDExt) : Prop := ∃ p, i = blk p.
Definition forward (t : ShardTracker) (i : BlockIDExt) : Prop :=
  ∃ k p, t_lastKnownShardBlock t = Some (blk k) ∧ (k ≤ p)%nat ∧ i = blk p.

(** The transactions of a block. *)
Context (listed : BlockIDExt → list TransactionShortInfo).
Context (tx_at : BlockIDExt → TransactionShortInfo → Transaction tonaddr Cell).
Hypothesis accounts : ∀ b id x, id ∈ listed b → ti_Account id = Value x → of_account x (tx_at b id).

Definition honest_node (bc : Blockchain) : Prop := ∀ b,
  (∀ ids, GetTransactionIDsFromBlock bc (Some b) = Ok ids → ids ≡ₚ listed b) ∧
  ∀ id tx, GetTransactionFromBlock bc (Some b) id = Ok tx → tx = tx_at b id.

(** The connection is such a node when the server lists every block in pages. *)
Lemma connection_honest pages client :
  (∀ b, ∃ n, paged (cl_GetBlockTransactionsV2 client (Some b)) None (listed b) n ∧ (n ≤ pages)%nat) →
  (∀ b id tx, cl_GetTransaction client b (NewAddress 0 (blk_Workchain b `mod` 256) (ti_Account id)) (ti_LT id) = Ok tx →
     tx = tx_at b id) →
  honest_node (connection_ops pages client).
Proof.
  intros Hp Ht b. split; [|intros id tx; apply Ht].
  intros ids H. destruct (Hp b) as (n & Hpaged & Hn).
  destruct (GetTransactionIDs_complete _ _ _ _ Hpaged Hn) as (l & Hl & Hperm & _).
  simpl in H. rewrite Hl in H. injection H as <-. exact Hperm.
Qed.

Lemma honest_header G n h :
  honest_data G → getShardBlocksHeader G (blk n) shard = Some (Ok h) → ∃ m, n = S m ∧ h = hdr n.
Proof.
  intros HG. unfold getShardBlocksHeader. destruct (until_ready _) as [[block| | |]|] eqn:Eu; try done.
  destruct (HG n block Eu) as [Hn ->]. destruct n as [|m]; [done|]. simpl.
  destruct (data_parents m) as (ps & Hps & Hf). unfold convertBlockToShardHeader. rewrite Hps, Hf.
  intros [= <-]. by exists m.
Qed.

Lemma hdr_inj n m : hdr n = hdr m → n = m.
Proof.
  intros H. apply blk_distinct. assert (blk n = blk m) as ->.
  { assert (sb_BlockIDExt (hdr n) = sb_BlockIDExt (hdr m)) as He by (by rewrite H). by injection He. }
  unfold is_known. by rewrite bool_decide_true.
Qed.

(** ** What is handed over *)

Definition handed (y : Sys) (n : nat) : Prop := hdr n ∈ t_blocksChan (y_tracker y).

(** Where the walk is: everything between here and the block it started from
    has been handed over. *)
Definition walk_at (y : Sys) : Prop :=
  match y_at y with
  | AtMaster => True
  | AtBlock i c => ∃ p m, i = blk p ∧ c = Some (blk m) ∧ (m ≤ p)%nat ∧
      ∀ n, (m < n ≤ p)%nat → handed y n
  | AtSend i h => ∃ p m, i = blk p ∧ h = hdr (S m) ∧ (S m ≤ p)%nat ∧
      ∀ n, (S m < n ≤ p)%nat → handed y n
  end.

Record caught (first : nat) (y : Sys) : Prop := {
  ca_shard : t_shard (y_tracker y) = shard;
  ca_known : ∃ k, t_lastKnownShardBlock (y_tracker y) = Some (blk k) ∧ (first ≤ k)%nat ∧
    ∀ n, (first < n ≤ k)%nat → handed y n;
  ca_walk : walk_at y;
  ca_sent : ∀ h, h ∈ t_blocksChan (y_tracker y) → ∃ n, h = hdr n;
}.

Abbreviation sys_step ann := (sys_step (O:=O) ws config ann honest_data honest_node).

(** Steps that leave the tracker and its position alone. *)
Lemma caught_same first y y' :
  y_tracker y' = y_tracker y → y_at y' = y_at y → caught first y → caught first y'.
Proof.
  intros Ht Ha [? ? Hw ?]. split; unfold walk_at, handed in *; by rewrite ?Ht, ?Ha.
Qed.

Lemma caught_known first y i t c :
  y_at y = AtBlock i c → t_shard t = t_shard (y_tracker y) → t_blocksChan t = t_blocksChan (y_tracker y) →
  t_lastKnownShardBlock t = Some i →
  (∃ known b, t_lastKnownShardBlock (y_tracker y) = Some known ∧ c = Some b ∧ is_known known b = true) →
  caught first y → caught first (move t AtMaster y).
Proof.
  intros Ha Hsh Hch Hk (known & b & Hk' & -> & Hb) [H1 (k & E & Hf & Hh) Hw H4].
  unfold walk_at in Hw. rewrite Ha in Hw. destruct Hw as (q & m & -> & [= ->] & Hmq & Hq).
  rewrite E in Hk'. injection Hk' as <-. apply blk_distinct in Hb as ->.
  split; unfold handed in *; simpl; rewrite ?Hch; [congruence| |done|done].
  exists q. split_and!; [done|lia|]. intros n Hn.
  destruct (decide (n ≤ m)%nat); [apply Hh; lia|apply Hq; lia].
Qed.

Lemma step_caught ann first y y' :
  (∀ t i, ann t i → on_chain t i) → sys_step ann y y' → caught first y → caught first y'.
Proof.
  intros Hann H C. pose proof C as [H1 (k & E & Hf & Hh) Hw H4]. destruct H as
    [? ? i t _ _ _ (Hs & Hk & Hc)%newest_block_tracker Ha|? ? ? t _ _ (Hs & Hk & Hc)%newest_block_tracker|
     |G i c q t _ Ha [HG _] (Hs & Hc & He)%examine_tracker|G i c e t _ Ha _ (Hs & Hc & He)%examine_tracker|
     |i h _ _ Ha _| | | | | | |]; try exact C; try (by apply (caught_same first y)).
  - apply Hann in Ha as [p ->]. split; unfold walk_at, handed in *; simpl; rewrite ?Hk, ?Hc; [congruence| | |done].
    + by exists k.
    + exists p, p. split_and!; [done..|lia].
  - split; unfold walk_at, handed in *; simpl; rewrite ?Hk, ?Hc; [congruence| |done|done]. by exists k.
  - destruct He as [([= ->] & Hk & Hx)|[-> He]]; [by eapply caught_known|].
    destruct (He q eq_refl) as (? & h & b & -> & -> & _ & _ & Hg). clear He.
    unfold walk_at in Hw. rewrite Ha in Hw. destruct Hw as (p & m & -> & [= ->] & Hmp & Hq).
    rewrite H1 in Hg. apply honest_header in Hg as (m' & -> & ->); [|done].
    split; unfold walk_at, handed in *; simpl; [done|by exists k| |done].
    exists p, m'. done.
  - destruct He as [([=] & _)|[-> _]].
    split; unfold walk_at, handed in *; simpl; [done|by exists k|done|done].
  - unfold walk_at in Hw. rewrite Ha in Hw. destruct Hw as (p & m & -> & -> & Hmp & Hq).
    assert (∀ n, handed y n → handed (hand_over (blk p) (hdr (S m)) y) n) as Hmono.
    { intros n Hn. unfold handed in *. simpl. set_solver. }
    split; [done|exists k; split_and!; auto| |].
    + unfold walk_at. simpl. exists p, m. split_and!; [done|done|lia|]. intros n Hn.
      destruct (decide (n = S m)) as [->|Hne]; [unfold handed; simpl; set_solver|apply Hmono, Hq; lia].
    + intros h [Hx|Hx]%elem_of_app; [auto|]. apply list_elem_of_singleton in Hx as ->. by exists (S m).
Qed.

Lemma start_caught first s : caught first (start shard (blk first) s).
Proof.
  split; simpl; [done| |done|].
  - exists first. split_and!; [done..|lia].
  - intros h Hh. by apply elem_of_nil in Hh.
Qed.

(** ** What the tables hold *)

Definition header_key (h : ShardBlockHeader) : option (Z * Z) :=
  b ← sb_BlockIDExt h; Some (blk_Shard b, blk_SeqNo b).
Definition block_keys (d : DB) : list (option (Z * Z)) :=
  map (λ r, Some (bl_shard r, bl_seqno r)) (block_data d).

(** The payments to the deposit [a] in a block, read with the address book
    the scanner had. *)
Definition payments (a : Address) (e : scanned_block) : list external_income_row :=
  match sb_BlockIDExt (sc_block e) with
  | Some b => omap (payment_row (sc_book e) a)
                (map (tx_at b) (filter (λ id, ti_Account id = Value a) (listed b)))
  | None => []
  end.

Definition incomes (a : Address) (d : DB) : list external_income_row :=
  filter (λ r, xi_deposit_address r = a) (external_incomes d).

Definition saved (y : Sys) : list scanned_block := filter sc_saved (y_scanned y).

(** The address books of the run know the deposit. *)
Definition knows (a : Address) (e : scanned_block) : Prop :=
  GetWalletType (sc_book e) a = Ok (Some TonDepositWallet).

Record recorded (a : Address) (d0 : DB) (y : Sys) : Prop := {
  rec_blocks : block_keys (s_db (y_state y)) = block_keys d0 ++ map (λ e, header_key (sc_block e)) (saved y);
  rec_incomes : incomes a (s_db (y_state y)) ≡ₚ incomes a d0 ++ concat (map (payments a) (saved y));
}.

Lemma scan_one_processBlock ab bc notificators h (w w' : World O) r :
  scan_one ab ws bc config notificators (Some h) w = (r, w') →
  ∃ r', processBlock ab ws bc config notificators h w = (r', w').
Proof.
  unfold scan_one, st_bind, st_try. destruct (processBlock _ _ _ _ _ _ w) as [[] w1]; intros [= _ <-]; eauto.
Qed.

Lemma Forall2_tx_at bc b ids txs :
  honest_node bc → Forall2 (λ id tx, GetTransactionFromBlock bc (Some b) id = Ok tx) ids txs →
  txs = map (tx_at b) ids.
Proof.
  intros Hn. induction 1 as [|id tx ids txs H _ ->]; [done|]. simpl. by rewrite (proj2 (Hn b) id tx H).
Qed.

Lemma was_saved_same d : was_saved d d = false.
Proof. apply Nat.ltb_irrefl. Qed.
Lemma was_saved_row d d' r : block_data d' = block_data d ++ [r] → was_saved d d' = true.
Proof. intros H. unfold was_saved. rewrite H, length_app. apply Nat.ltb_lt. simpl. lia. Qed.

(** A block the scanner leaves: its payments and its row, or nothing. *)
Lemma leave_recorded a d0 y ab bc notificators b h (w w' : World O) r :
  sb_BlockIDExt h = Some b → honest_node bc →
  (∀ publish x, publish ∈ notificators → db_rel (O:=O) eq (publish x)) → w_db w = s_db (y_state y) →
  scan_one ab ws bc config notificators (Some h) w = (r, w') →
  GetWalletType ab a = Ok (Some TonDepositWallet) → recorded a d0 y →
  recorded a d0 (leave ab h r (w_db w') y).
Proof.
  intros Hb Hn Hnot Hw (r' & H)%scan_one_processBlock Ha [R1 R2].
  assert (∀ d : DB, d = s_db (y_state y) → recorded a d0 (leave ab h r d y)) as Hnone.
  { intros d ->. split; unfold saved, leave; cbn [y_state y_scanned s_db];
      rewrite was_saved_same, filter_app, filter_cons_False, filter_nil, app_nil_r by auto;
      [exact R1|exact R2]. }
  eapply processed_incomes in H as [H|(ids & txs & new & Hids & Htxs & Hrow & Hnew & Hrows)];
    [| |intros publish x Hp v; unfold no_db; by destruct (Hnot publish x Hp v) as [<- _]|done|done|].
  - apply Hnone. congruence.
  - rewrite Hw in *. pose proof (was_saved_row _ _ _ Hrow) as Hsaved.
    split; unfold saved, leave; cbn [y_state y_scanned s_db];
      rewrite Hsaved, filter_app, filter_cons_True, filter_nil, map_app by done.
    + unfold block_keys in *. rewrite Hrow, map_app, R1, <- app_assoc. simpl.
      unfold header_key. by rewrite Hb.
    + unfold incomes in *. rewrite Hnew, filter_app, R2, Hrows, concat_app, <- app_assoc. simpl.
      rewrite app_nil_r. do 2 apply Permutation_app_head. unfold payments. simpl. rewrite Hb.
      rewrite (Forall2_tx_at bc b _ _ Hn Htxs). unfold ids_of.
      by rewrite (proj1 (Hn b) ids Hids).
  - intros ids id x tx Hids Hin Hx Htx. apply (Hn b) in Htx as ->. eapply accounts; [|done].
    by rewrite <- (proj1 (Hn b) ids Hids).
Qed.

(** The steps of a run on the chain keep the account of the deposit. *)
Lemma step_recorded ann a d0 y y' :
  sys_step ann y y' → (∀ h, h ∈ t_blocksChan (y_tracker y) → ∃ n, h = hdr n) → delivered y →
  Forall (knows a) (y_scanned y') → recorded a d0 y → recorded a d0 y'.
Proof.
  intros H Hsent Hd Hk R. destruct H as
    [| | | | | | | |ab bc ns h late w r w' _ Hs [Hn _] Hnot Hw H| | |s _ Hs| |]; try (by destruct R).
  - destruct (Hsent h) as [n Hh]; [|eapply leave_recorded; [| | | |done| |done]; try done].
    + rewrite Hd. unfold in_scanner. rewrite Hs. set_solver.
    + by rewrite Hh.
    + simpl in Hk. apply Forall_app in Hk as [_ Hk]. by apply Forall_inv in Hk.
  - destruct R as [R1 R2]. destruct (side_same _ _ Hs) as [Hb Hi].
    split; unfold block_keys, incomes, saved in *; simpl; by rewrite ?Hb, ?Hi.
Qed.

Lemma scanned_grow ann y y' : sys_step ann y y' → ∃ l, y_scanned y' = y_scanned y ++ l.
Proof. destruct 1; solve [by exists []; rewrite app_nil_r | eexists; done]. Qed.

(** What holds in every run from the block [first] and the tables [s0]. *)
Lemma run_recorded ann first s0 y :
  (∀ t i, ann t i → on_chain t i) → rtc (sys_step ann) (start shard (blk first) s0) y →
  caught first y ∧ delivered y ∧ ∀ a, Forall (knows a) (y_scanned y) → recorded a (s_db s0) y.
Proof.
  intros Hann H. apply (run_inv _ _ _ _ _ (λ y, caught first y ∧ delivered y ∧
    ∀ a, Forall (knows a) (y_scanned y) → recorded a (s_db s0) y) _ _) in H; [exact H| |].
  - clear H. intros y1 y2 H (C & D & R). split_and!.
    + by eapply step_caught.
    + by eapply step_delivered.
    + intros a Hk. eapply step_recorded; [done|apply C|done|done|]. apply R.
      destruct (scanned_grow _ _ _ H) as [l E]. rewrite E in Hk. by apply Forall_app in Hk as [? _].
  - split_and!; [apply start_caught|done|]. intros a _.
    split; simpl; by rewrite app_nil_r.
Qed.

Lemma block_keys_NoDup d : db_inv d → NoDup (block_keys d).
Proof.
  intros I. pose proof (inv_block d I) as Hn. unfold block_keys.
  rewrite <- (map_map (λ r, (bl_shard r, bl_seqno r)) Some). by apply (NoDup_fmap_2 Some).
Qed.

Lemma header_key_inj n m : header_key (hdr n) = header_key (hdr m) → n = m.
Proof.
  intros H. apply blk_distinct. unfold is_known. apply bool_decide_eq_true.
  unfold header_key in H. simpl in H. by injection H as -> ->.
Qed.

(** C6. Every payment reaches the table. The processor starts from a saved
    block of the chain and runs, with every failure of the node and of the
    database, beside all the other processes; whenever the tracker waits for the
    next master block and the scanner for the next header, every block after the
    first up to the last known one has been scanned; those the database accepted
    are saved once each; and the incomes of a deposit are those of before and,
    for each saved block, the payments of that block to the deposit, each once. *)
Theorem payments_reach_the_table first s0 y a k :
  state_inv s0 → (∀ n, (first < n)%nat → header_key (hdr n) ∉ block_keys (s_db s0)) →
  rtc (sys_step on_chain) (start shard (blk first) s0) y →
  y_at y = AtMaster → in_scanner y = [] → t_lastKnownShardBlock (y_tracker y) = Some (blk k) →
  Forall (knows a) (y_scanned y) →
  (first ≤ k)%nat ∧
  (∀ n, (first < n ≤ k)%nat → ∃ e, e ∈ y_scanned y ∧ sc_block e = hdr n) ∧
  NoDup (map sc_block (saved y)) ∧
  (∀ n, (first < n)%nat → header_key (hdr n) ∈ block_keys (s_db (y_state y)) ↔
     ∃ e, e ∈ saved y ∧ sc_block e = hdr n) ∧
  incomes a (s_db (y_state y)) ≡ₚ incomes a (s_db s0) ++ concat (map (payments a) (saved y)).
Proof.
  intros I Hnew H Hat Hsc Hk Ha. pose proof (run_tables _ _ _ _ _ _ _ H) as Hsteps.
  destruct (steps_inv _ _ Hsteps I) as [[I' _] _]. simpl in I'.
  destruct (run_recorded on_chain first s0 y (λ _ _ x, x) H) as ([_ (k' & E & Hf & Hh) _ Hs] & D & R).
  destruct (R a Ha) as [R1 R2]. unfold delivered in D. rewrite Hsc, app_nil_r in D.
  rewrite E in Hk. injection Hk as Hk.
  assert (k' = k) as -> by (apply blk_distinct; rewrite Hk; unfold is_known; by rewrite bool_decide_true).
  assert (∀ e, e ∈ y_scanned y → ∃ n, sc_block e = hdr n) as Hhdr.
  { intros e He. apply Hs. rewrite D. by apply list_elem_of_fmap_2. }
  split_and!; [done| | | |exact R2].
  - intros n Hn. specialize (Hh n Hn). unfold handed in Hh. rewrite D in Hh.
    apply list_elem_of_fmap in Hh as (e & -> & He). by exists e.
  - apply block_keys_NoDup in I'. rewrite R1 in I'. apply NoDup_app in I' as (_ & _ & I').
    apply (NoDup_fmap_1 header_key). by rewrite <- list_fmap_compose.
  - intros n Hn. rewrite R1, elem_of_app. split.
    + intros [Hx|Hx]; [by destruct (Hnew n Hn)|]. apply list_elem_of_fmap in Hx as (e & Hx & He).
      exists e. split; [done|]. pose proof He as [_ He']%list_elem_of_filter.
      destruct (Hhdr e He') as [m Hm]. rewrite Hm in Hx |- *. by apply header_key_inj in Hx as ->.
    + intros (e & He & Hb). right. rewrite <- Hb. apply list_elem_of_fmap. by exists e.
Qed.

(** ** Catching up *)

(** The data of every block but the first one. *)
Definition full_data (G : BlockIDExt → list (res Block)) : Prop :=
  honest_data G ∧ ∀ n, until_ready (G (blk (S n))) = Some (Ok (data (S n))).

Lemma full_header G n : full_data G → getShardBlocksHeader G (blk (S n)) shard = Some (Ok (hdr (S n))).
Proof.
  intros [HG Hn]. assert (∃ h, getShardBlocksHeader G (blk (S n)) shard = Some (Ok h)) as [h Hh].
  { unfold getShardBlocksHeader. rewrite Hn. simpl. unfold convertBlockToShardHeader.
    destruct (data_parents n) as (ps & -> & ->). by eexists. }
  rewrite Hh. by apply honest_header in Hh as (m & _ & ->).
Qed.

Lemma is_known_blk n : is_known (blk n) (blk n) = true.
Proof. unfold is_known. by rewrite bool_decide_true. Qed.
Lemma is_known_other n m : n ≠ m → is_known (blk n) (blk m) = false.
Proof. intros H. destruct (is_known _ _) eqn:E; [by apply blk_distinct in E|done]. Qed.

(** The headers of the blocks after [k] up to [k + d], the newest first. *)
Definition newest_first (k d : nat) : list ShardBlockHeader := map hdr (rev (seq (S k) d)).

Lemma newest_first_S k d : newest_first k (S d) = hdr (S (k + d)) :: newest_first k d.
Proof. unfold newest_first. by rewrite seq_S, rev_app_distr. Qed.

Definition any_world (d : DB) : World O := Build_World d NoTx [] 0 [] [].

(** C15. The two goroutines get through every walk: while the node answers and
    the blocks can be read, the tracker and the scanner, over their unbuffered
    channel, come from the newest block back to the last known one after one
    rendezvous for each block between them, the newest first, and are then both
    ready again, whether or not the database accepted the blocks. *)
Theorem walk_drains G ab bc (notificators : list (incomeNotification → DBM unit)) p k d y :
  full_data G → honest_node bc → (∀ publish x, publish ∈ notificators → db_rel (O:=O) eq (publish x) ∧ survives (publish x)) →
  (∀ a, returns (GetOwner ab a) = true) → (∀ n, returns (parse_block ab ws bc (hdr n)) = true) →
  y_dead y = false → y_cancelled y = false → y_closed y = false → y_scanner y = Selecting →
  t_shard (y_tracker y) = shard → t_lastKnownShardBlock (y_tracker y) = Some (blk k) → y_at y = AtBlock (blk p) (Some (blk (k + d))) →
  ∃ y', rtc (sys_step forward) y y' ∧ y_at y' = AtMaster ∧ y_scanner y' = Selecting ∧ y_dead y' = false ∧
    t_lastKnownShardBlock (y_tracker y') = Some (blk p) ∧
    map sc_block (y_scanned y') = map sc_block (y_scanned y) ++ newest_first k d.
Proof.
  intros HG Hbc Hpub Howner Hparse.
  assert (∀ publish x, publish ∈ notificators → db_rel (O:=O) eq (publish x)) as Hnot
    by (intros publish x Hx; by apply Hpub).
  assert (∀ n (w : World O), is_Ok (scan_one ab ws bc config notificators (Some (hdr n)) w).1 = true)
    as Hscan.
  { intros n. apply scan_one_survives; [done|apply Hparse|apply Howner|].
    intros publish x Hx. by apply Hpub. }
  clear Hpub Howner Hparse. revert y. induction d as [|d IH]; intros y Hd Hca Hc Hs Hsh Hk Hat.
  all: assert (asked honest_data y G) as Hask by (split; [apply HG|congruence]).
  - rewrite Nat.add_0_r in Hat.
    eexists. split; [apply rtc_once; eapply (sys_examine _ _ _ _ _ y G); [done|exact Hat|exact Hask|]|].
    + unfold examine. rewrite Hk, is_known_blk. done.
    + by rewrite app_nil_r.
  - rewrite Nat.add_succ_r in Hat. set (h := hdr (S (k + d))).
    set (y1 := move (y_tracker y) (AtSend (blk p) h) y).
    set (y2 := hand_over (blk p) h y1).
    pose proof (Hscan (S (k + d)) (any_world (s_db (y_state y)))) as Hok.
    destruct (scan_one _ _ _ _ _ _ _) as [r w'] eqn:E. simpl in Hok.
    set (y3 := leave ab h r (w_db w') y2).
    destruct (IH y3) as (y' & Hrun & ? & ? & ? & ? & Hlog); [simpl; by rewrite Hok|done..|].
    exists y'. split_and!; try done.
    + eapply rtc_l; [|eapply rtc_l; [|eapply rtc_l; [|exact Hrun]]].
      * eapply (sys_examine _ _ _ _ _ y G); [done|exact Hat|exact Hask|]. unfold examine.
        rewrite Hk, is_known_other by lia. by rewrite Hsh, full_header.
      * by apply sys_hand_over.
      * eapply (sys_scan _ _ _ _ _ y2 ab bc notificators h false (any_world (s_db (y_state y)))); try done.
        simpl. by rewrite Hca.
    + rewrite Hlog, newest_first_S. simpl. by rewrite map_app, <- app_assoc.
Qed.

(** ** What a stop loses *)

(** Going forward from [first], only newer blocks are handed over. *)
Definition ahead (first : nat) (y : Sys) : Prop :=
  t_shard (y_tracker y) = shard ∧ (∀ n, handed y n → (first < n)%nat) ∧
  ∃ k, t_lastKnownShardBlock (y_tracker y) = Some (blk k) ∧ (first ≤ k)%nat ∧
    match y_at y with
    | AtMaster => True
    | AtBlock i c => ∃ p m, i = blk p ∧ c = Some (blk m) ∧ (k ≤ m ≤ p)%nat
    | AtSend i h => ∃ p m, i = blk p ∧ h = hdr (S m) ∧ (k ≤ m < p)%nat
    end.

Lemma step_ahead first y y' : sys_step forward y y' → ahead first y → ahead first y'.
Proof.
  intros H A. pose proof A as (H1 & H2 & k & E & Hf & Hat). destruct H as
    [? ? i t _ _ _ (Hs & Hk & Hc)%newest_block_tracker Ha|? ? ? t _ _ (Hs & Hk & Hc)%newest_block_tracker|
     |G i c q t _ Ha [HG _] (Hs & Hc & He)%examine_tracker|G i c e t _ Ha _ (Hs & Hc & He)%examine_tracker|
     |i h _ _ Ha _| | | | | | |]; try exact A; unfold ahead, handed in *; simpl.
  - destruct Ha as (k' & p & E' & Hp & ->). rewrite Hs, Hk, Hc in *. split_and!; [done..|].
    exists k. split_and!; [done..|]. rewrite E in E'. injection E' as Hkk.
    assert (k' = k) as -> by (apply blk_distinct; rewrite <- Hkk; apply is_known_blk). exists p, p. done.
  - rewrite Hs, Hk, Hc. split_and!; [done..|]. by exists k.
  - rewrite Hs, Hc. split_and!; [done..|]. rewrite Ha in Hat. destruct Hat as (p & m & -> & -> & Hm).
    destruct He as [([= ->] & Hk & known & b & E' & [= <-] & Hb)|[-> He]].
    + rewrite E in E'. injection E' as <-. apply blk_distinct in Hb as ->.
      exists p. split_and!; [done|lia|done].
    + destruct (He q eq_refl) as (known & h & b & -> & [= <-] & E' & Hb & Hg). rewrite H1 in Hg.
      rewrite E in E'. injection E' as <-. exists k. split_and!; [done..|].
      apply honest_header in Hg as (m' & -> & ->); [|done]. exists p, m'. split_and!; [done..| |lia].
      destruct (decide (k = S m')) as [->|]; [by rewrite is_known_blk in Hb|lia].
  - rewrite Hs, Hc. split_and!; [done..|]. destruct He as [([=] & _)|[-> _]]. by exists k.
  - rewrite Ha in Hat. destruct Hat as (p & m & -> & -> & Hm). split_and!; [done| |].
    + intros n [Hn|Hn%list_elem_of_singleton]%elem_of_app; [auto|]. apply hdr_inj in Hn. lia.
    + exists k. split_and!; [done..|]. exists p, m. split_and!; [done..|lia|lia].
Qed.

Lemma run_ahead first s0 y : rtc (sys_step forward) (start shard (blk first) s0) y → ahead first y.
Proof.
  intros H. apply (run_inv _ _ _ _ _ (ahead first) _ _) in H; [done|intros ??; apply step_ahead|].
  split_and!; [done|intros n Hn; by apply elem_of_nil in Hn|]. simpl. eauto.
Qed.

(** C36. A stop in the middle of a walk loses blocks for good. The walk hands
    over the newest block first: when the program is stopped after that block has
    been saved, it is the newest saved block, from which the next start goes on,
    and the blocks before it are handed over in neither run. *)
Theorem restart_loses_blocks masters shardsInfo G ab bc notificators first p s0 t (w w' : World O) :
  newest_block masters shardsInfo (NewShardTracker shard (Some (blk first))) = Some (Ok (blk (S p)), t) →
  (first < p)%nat → full_data G → honest_node bc →
  (∀ publish x, publish ∈ notificators → db_rel (O:=O) eq (publish x)) → w_db w = s_db s0 →
  scan_one ab ws bc config notificators (Some (hdr (S p))) w = (Ok tt, w') →
  ∃ y, rtc (sys_step forward) (start shard (blk first) s0) y ∧ y_scanner y = Stopped ∧
    map sc_block (y_scanned y) = [hdr (S p)] ∧ s_db (y_state y) = w_db w' ∧
    (∀ n, (n ≤ p)%nat → ¬ handed y n) ∧
    ∀ s y', rtc (sys_step forward) (start shard (blk (S p)) s) y' →
      ∀ n, (first < n ≤ p)%nat → ¬ handed y' n.
Proof.
  intros Ht Hp HG Hbc Hnot Hw Hscan. pose proof (newest_block_tracker _ _ _ _ _ Ht) as (Hs & Hk & Hc).
  set (y0 := start shard (blk first) s0). set (i := blk (S p)). set (h := hdr (S p)).
  set (y1 := move t (AtBlock i (Some i)) y0). set (y2 := move t (AtSend i h) y1).
  set (y3 := hand_over i h y2). set (y4 := leave ab h (Ok tt) (w_db w') y3).
  exists (stop_scanner (scannerCancel y4)). split_and!; [|done|done|done| |].
  - eapply rtc_l; [|eapply rtc_l; [|eapply rtc_l; [|eapply rtc_l; [|eapply rtc_l; [|apply rtc_once]]]]].
    + eapply (sys_newest _ _ _ _ _ y0); [done|done|done|exact Ht|]. exists first, (S p). split_and!; [done|lia|done].
    + eapply (sys_examine _ _ _ _ _ y1 G); [done|done|by split; [apply HG|]|]. unfold examine. simpl. rewrite Hk. simpl.
      unfold i at 1. rewrite is_known_other by lia. rewrite Hs. simpl. unfold i. by rewrite full_header.
    + by apply (sys_hand_over _ _ _ _ _ y2).
    + by eapply (sys_scan _ _ _ _ _ y3 ab bc notificators h false w).
    + by apply (sys_cancel _ _ _ _ _ y4).
    + by apply sys_stop.
  - intros n Hn Hh. unfold handed in Hh. simpl in Hh. rewrite Hc in Hh. simpl in Hh.
    apply list_elem_of_singleton in Hh. apply hdr_inj in Hh. lia.
  - intros s y' Hrun n Hn Hh. apply run_ahead in Hrun as (_ & Hah & _). specialize (Hah n Hh). lia.
Qed.

(** When the node announces an older block than the last known one, the
    walk never meets the known block: it hands over every block down to the
    beginning of the chain once more, and what was known stays known. *)
Theorem older_block_rescans G fuel p k s e :
  full_data G → until_ready (G (blk 0)) = Some (Err e) → t_shard s = shard →
  t_lastKnownShardBlock s = Some (blk k) → (p < k)%nat → (p < fuel)%nat →
  ∃ s', getShardBlocks G fuel (blk p) s = Some (Err e, s') ∧
    t_lastKnownShardBlock s' = Some (blk k) ∧ t_blocksChan s' = t_blocksChan s ++ newest_first 0 p.
Proof.
  intros HG H0 Hsh Hk Hp Hf. eexists. split; [eapply walk_back_part; [exact Hk| |]|done].
  - rewrite Hsh. clear Hf. induction p as [|p IH].
    + apply part_error; [apply is_known_other; lia|]. unfold getShardBlocksHeader. by rewrite H0.
    + rewrite newest_first_S. eapply part_more; [apply is_known_other; lia|by apply full_header|done|].
      apply IH. lia.
  - unfold newest_first. by rewrite length_map, length_rev, length_seq.
Qed.

End delivery.
