(* ===== verification/Service.v ===== *)
(** * The life of a service withdrawal

    A service withdrawal, asked for by an operator, takes lost jettons or TONs
    out of a deposit. Two loops of the withdrawal processor share the table of
    these requests: the batch loop takes up new ones, which it either finishes or,
    for the jettons of a TON deposit, fills with TONs first; the loop of the
    deposits finishes the filled ones. Here is the abstract machine of one request
    and the proof that the loops, interleaved statement by statement and with any
    failures, keep to it. *)

From S2P Require Import Prelude TonUtils Config Models Core Db AddressBook Repository.
From S2P Require Import WithdrawalRepository Ledger BlockScanner Protocol Tasks Messages Processor Processes.

Local Open Scope string_scope.
Local Open Scope list_scope.
Local Open Scope Z_scope.

(** ** The machine of one request *)

Inductive service_status : Set := New | Filled | Done.

Inductive service_move : service_status → service_status → Prop :=
| move_fill : service_move New Filled      (** TONs are sent to the deposit *)
| move_finish : service_move New Done      (** the batch withdraws, or there is nothing to withdraw *)
| move_withdraw : service_move Filled Done. (** the deposit sends its jettons *)

Definition service_status_of (r : service_request_row) : service_status :=
  if sv_processed r then Done else if sv_filled r then Filled else New.

(** What may become of a row: it stays, or makes moves of the machine, and
    keeps what was asked. *)
Record sv_step (r r' : service_request_row) : Prop := {
  svs_memo : sv_memo r' = sv_memo r;
  svs_from : sv_from_address r' = sv_from_address r;
  svs_master : sv_jetton_master r' = sv_jetton_master r;
  svs_moves : rtc service_move (service_status_of r) (service_status_of r');
  svs_done : service_status_of r = Done → r' = r;
}.

#[export] Instance sv_step_preorder : PreOrder sv_step.
Proof.
  split; [by intros r; split|].
  intros a b c [] []; split; [congruence..|by etrans|]. intros H. rewrite (svs_done0 H) in *. auto.
Qed.

Definition requests (d : DB) : list service_request_row := service_withdrawal_requests d.
Definition memos (d : DB) : list UUID := map sv_memo (requests d).

(** A request with this memo is in this status. *)
Definition in_status (st : service_status) (d : DB) (memo : UUID) : Prop :=
  ∃ r, r ∈ requests d ∧ sv_memo r = memo ∧ service_status_of r = st.

(** ** The two loops on the table *)

Section service.
Context `{PG : PgLib} {O : Type}.
Abbreviation DBM := (ST (World O)).

(** The tables, and the memos of the tasks each loop holds. *)
Record SState := { v_db : DB; v_hot : list UUID; v_deposit : list UUID }.

Definition without (memo : UUID) (l : list UUID) : list UUID := filter (λ m, m ≠ memo) l.

(** The other processes may do anything to the other tables. *)
Inductive sstep : SState → SState → Prop :=
| ss_other s d :
    requests d = requests (v_db s) →
    sstep s {| v_db := d; v_hot := v_hot s; v_deposit := v_deposit s |}
| ss_create q s w r w' :
    w_db w = v_db s → CreateServiceWithdrawalRequest (O:=O) q w = (r, w') →
    sstep s {| v_db := w_db w'; v_hot := v_hot s; v_deposit := v_deposit s |}
| ss_hot_pick limit s w tasks w' :
    w_db w = v_db s → GetServiceHotWithdrawalTasks (O:=O) limit w = (Ok tasks, w') →
    sstep s {| v_db := v_db s; v_hot := map st_Memo tasks; v_deposit := v_deposit s |}
| ss_hot_update t c e f s w r w' :
    st_Memo t ∈ v_hot s → w_db w = v_db s →
    UpdateServiceWithdrawalRequest (O:=O) t c e f w = (r, w') →
    sstep s {| v_db := w_db w'; v_hot := without (st_Memo t) (v_hot s); v_deposit := v_deposit s |}
| ss_deposit_pick limit s w tasks w' :
    w_db w = v_db s → GetServiceDepositWithdrawalTasks (O:=O) limit w = (Ok tasks, w') →
    sstep s {| v_db := v_db s; v_hot := v_hot s; v_deposit := map st_Memo tasks |}
| ss_deposit_update t c e s w r w' :
    st_Memo t ∈ v_deposit s → w_db w = v_db s →
    UpdateServiceWithdrawalRequest (O:=O) t c e false w = (r, w') →
    sstep s {| v_db := w_db w'; v_hot := v_hot s; v_deposit := without (st_Memo t) (v_deposit s) |}.

(** The batch loop holds new requests, the loop of the deposits filled ones. *)
Record sinv (s : SState) : Prop := {
  si_memos : NoDup (memos (v_db s));
  si_hot : ∀ m, m ∈ v_hot s → in_status New (v_db s) m;
  si_deposit : ∀ m, m ∈ v_deposit s → in_status Filled (v_db s) m;
}.

Definition sgrows (d d' : DB) : Prop := grows sv_step (requests d) (requests d').

Lemma sgrows_refl d : sgrows d d.
Proof. unfold sgrows. reflexivity. Qed.

Lemma in_status_unique st d m r :
  NoDup (memos d) → in_status st d m → r ∈ requests d → sv_memo r = m → service_status_of r = st.
Proof.
  intros Hn (r' & Hr' & Hm & Hst) Hr Hm'.
  assert (r = r') as ->; [|done]. eapply (NoDup_map_eq sv_memo (requests d)); [done..|congruence].
Qed.

(** A row of the table after an update, and of other memos before it. *)
Lemma in_status_update st d m m' f :
  (∀ r, sv_memo (f r) = sv_memo r) → m ≠ m' → in_status st d m →
  in_status st (set_service_requests (update_where (λ r, bool_decide (sv_memo r = m')) f (requests d)) d) m.
Proof.
  intros Hf Hne (r & Hr & Hm & Hst). exists r. split_and!; [|done|done].
  apply elem_of_update_where. exists r. split; [done|]. by rewrite bool_decide_false by congruence.
Qed.

Lemma hot_tasks_new limit (w w' : World O) tasks m :
  GetServiceHotWithdrawalTasks limit w = (Ok tasks, w') → m ∈ map st_Memo tasks →
  in_status New (w_db w) m.
Proof.
  intros (H & _ & _)%query_Ok Hm. injection H as <-. rewrite map_map in Hm.
  apply list_elem_of_fmap in Hm as (x & -> & Hx). simpl.
  apply service_rows_spec in Hx as (Hx & _ & _ & HP). exists x.1. split_and!; [done..|].
  rewrite !andb_true_iff in HP. destruct HP as [[Hp Hf] _]. unfold service_status_of.
  by destruct (sv_processed x.1), (sv_filled x.1).
Qed.

Lemma deposit_tasks_filled limit (w w' : World O) tasks m :
  GetServiceDepositWithdrawalTasks limit w = (Ok tasks, w') → m ∈ map st_Memo tasks →
  in_status Filled (w_db w) m.
Proof.
  intros (H & _ & _)%query_Ok Hm. injection H as <-. rewrite map_map in Hm.
  apply list_elem_of_fmap in Hm as (x & -> & Hx). simpl.
  apply service_rows_spec in Hx as (Hx & _ & _ & HP). exists x.1. split_and!; [done..|].
  rewrite !andb_true_iff in HP. destruct HP as [[Hp Hf] _]. unfold service_status_of.
  by destruct (sv_processed x.1), (sv_filled x.1).
Qed.

(** What an update does: nothing, or it moves the one row of the memo. *)
Lemma UpdateService_cases t c e f (w w' : World O) r :
  UpdateServiceWithdrawalRequest t c e f w = (r, w') →
  w_db w' = w_db w ∨
  w_db w' = set_service_requests
    (update_where (λ r, bool_decide (sv_memo r = st_Memo t)) (update_service t c e f)
       (requests (w_db w))) (w_db w).
Proof.
  unfold UpdateServiceWithdrawalRequest, exec. case_decide; [intros [= _ <-]; by left|].
  destruct (default _ _); [intros [= _ <-]; left; unfold abort_tx; by repeat case_match|].
  intros [= _ <-]. by right.
Qed.

Lemma update_service_status t c e f r :
  service_status_of (update_service t c e f r) = if f then Filled else Done.
Proof. unfold service_status_of. simpl. by destruct f. Qed.

Lemma update_sgrows t c e (f : bool) st d :
  NoDup (memos d) → in_status st d (st_Memo t) →
  service_move st (if f then Filled else Done) →
  sgrows d (set_service_requests
    (update_where (λ r, bool_decide (sv_memo r = st_Memo t)) (update_service t c e f) (requests d)) d).
Proof.
  intros Hn Hst Hmove. apply grows_update; [apply _|]. intros r Hr Hm%bool_decide_eq_true.
  pose proof (in_status_unique _ _ _ _ Hn Hst Hr Hm) as Hs.
  split; [done..| |].
  - rewrite update_service_status, Hs. by apply rtc_once.
  - intros Hd. rewrite Hs in Hd. rewrite Hd in Hmove. by inversion Hmove.
Qed.

(** Growing keeps the memos distinct when the new ones are. *)
Lemma step_service s s' : sstep s s' → sinv s → sinv s' ∧ sgrows (v_db s) (v_db s').
Proof.
  intros H [I1 I2 I3]. destruct H as
    [s d E|q s w r w' Hw H|limit s w tasks w' Hw H|t c e f s w r w' Ht Hw H|limit s w tasks w' Hw H
    |t c e s w r w' Ht Hw H]; simpl in *.
  - unfold sgrows, memos, in_status in *. simpl. rewrite E. split; [split; unfold memos, in_status; simpl; by rewrite ?E|done].
  - assert (w_db w' = w_db w ∨ ∃ new, requests (w_db w') = requests (w_db w) ++ [new] ∧
      NoDup (memos (w_db w'))) as [E|(new & E & Hn)].
    { unfold CreateServiceWithdrawalRequest, st_bind, NewV4, exec in H.
      destruct (w_rand w) as [|u us]; [injection H as _ <-; by left|].
      case_decide; [injection H as _ <-; by left|].
      destruct (default _ _); [injection H as _ <-; left; unfold abort_tx; by repeat case_match|].
      simpl in H. destruct (insert_unique _ _ _) as [l| | |] eqn:El; simpl in H;
        [|injection H as _ <-; left; unfold abort_tx; by repeat case_match| |];
        [|by (injection H as _ <-; left)..].
      apply insert_unique_Ok in El as [Hnew ->]. injection H as _ <-. right. eexists. split; [reflexivity|].
      unfold memos, requests. simpl. rewrite map_app. apply NoDup_app. split_and!; [by rewrite <- Hw in I1| |].
      + intros x Hx ->%list_elem_of_singleton. by apply Hnew.
      + apply NoDup_singleton. }
    + rewrite E, Hw. split; [by split|apply sgrows_refl].
    + rewrite Hw in E. split; [split|]; simpl; [done| | |].
      * intros m Hm. destruct (I2 m Hm) as (r0 & Hr & ?). exists r0. rewrite E. split; [set_solver|done].
      * intros m Hm. destruct (I3 m Hm) as (r0 & Hr & ?). exists r0. rewrite E. split; [set_solver|done].
      * unfold sgrows. rewrite E. apply grows_snoc, _.
  - split; [split; [done| |done]|apply sgrows_refl]. intros m. rewrite <- Hw. by eapply hot_tasks_new.
  - destruct (UpdateService_cases _ _ _ _ _ _ _ H) as [E|E]; rewrite E, Hw; simpl.
    + split; [split; [done| |done]|apply sgrows_refl]. intros m Hm. apply I2.
      by apply list_elem_of_filter in Hm as [_ Hm].
    + split; [split; simpl| by apply (update_sgrows _ _ _ _ New); [done|auto|destruct f; constructor]].
      * unfold memos, requests. simpl. by rewrite map_key_update_where.
      * intros m [Hne Hm]%list_elem_of_filter. by apply in_status_update; auto.
      * intros m Hm. apply in_status_update; [done| |auto]. intros ->.
        destruct (I3 _ Hm) as (r0 & Hr & Hmm & Hst).
        by rewrite (in_status_unique New _ _ _ I1 (I2 _ Ht) Hr Hmm) in Hst.
  - split; [split; [done|done|]|apply sgrows_refl]. intros m. rewrite <- Hw. by eapply deposit_tasks_filled.
  - destruct (UpdateService_cases _ _ _ _ _ _ _ H) as [E|E]; rewrite E, Hw; simpl.
    + split; [split; [done|done|]|apply sgrows_refl]. intros m Hm. apply I3.
      by apply list_elem_of_filter in Hm as [_ Hm].
    + split; [split; simpl| by apply (update_sgrows _ _ _ _ Filled); [done|auto|constructor]].
      * unfold memos, requests. simpl. by rewrite map_key_update_where.
      * intros m Hm. apply in_status_update; [done| |auto]. intros ->.
        destruct (I2 _ Hm) as (r0 & Hr & Hmm & Hst).
        by rewrite (in_status_unique Filled _ _ _ I1 (I3 _ Ht) Hr Hmm) in Hst.
      * intros m [Hne Hm]%list_elem_of_filter. by apply in_status_update; auto.
Qed.

#[export] Instance service_stable : Stable sstep sinv.
Proof. intros s s' H I. by apply (step_service s s' H I). Qed.

Lemma steps_service s s' : rtc sstep s s' → sinv s → sinv s' ∧ sgrows (v_db s) (v_db s').
Proof.
  induction 1 as [s|s1 s2 s3 H _ IH]; intros I; [split; [done|apply sgrows_refl]|].
  destruct (step_service _ _ H I) as [I2 G2]. destruct (IH I2) as [I3 G3].
  split; [done|]. unfold sgrows in *. by etrans.
Qed.

(** C13. A service withdrawal goes through its life once. Whatever the two loops
    and the other processes do, in any order and with any failures: the batch loop
    holds new requests only and the loop of the deposits filled ones only, so that
    never both hold one; a request once made stays and keeps what was asked, moves
    only from new to filled or done and from filled to done; and once it is done
    its row never changes again. *)
Theorem service_life s s' :
  NoDup (memos (v_db s)) → v_hot s = [] → v_deposit s = [] → rtc sstep s s' →
  (∀ m, m ∈ v_hot s' → in_status New (v_db s') m) ∧
  (∀ m, m ∈ v_deposit s' → in_status Filled (v_db s') m) ∧
  (∀ m, m ∈ v_hot s' → m ∉ v_deposit s') ∧
  ∀ s'' r, rtc sstep s' s'' → r ∈ requests (v_db s') →
    ∃ r', r' ∈ requests (v_db s'') ∧ sv_memo r' = sv_memo r ∧ sv_from_address r' = sv_from_address r ∧
      sv_jetton_master r' = sv_jetton_master r ∧
      rtc service_move (service_status_of r) (service_status_of r') ∧
      (service_status_of r = Done → r' = r).
Proof.
  intros Hn Hh Hd H. assert (sinv s) as I.
  { split; [done|rewrite Hh|rewrite Hd]; intros m Hm; by apply elem_of_nil in Hm. }
  destruct (steps_service _ _ H I) as [I' _]. pose proof I' as [J1 J2 J3]. split_and!; [done|done| |].
  - intros m Hm Hm'. destruct (J3 _ Hm') as (r & Hr & Hmm & Hst).
    by rewrite (in_status_unique New _ _ _ J1 (J2 _ Hm) Hr Hmm) in Hst.
  - intros s'' r H' Hr. destruct (steps_service _ _ H' I') as [_ G].
    destruct (grows_elem _ _ _ _ G Hr) as (r' & Hr' & []). by exists r'.
Qed.
End service.

(** ** The passes of the loops *)

Section passes.
Context `{TL : TvmLib} `{UL : UuidLib} `{PG : PgLib} `{WL : WalletLib} `{GR : GoRuntime}.
Context `{TW : !TonWalletLib} {O : Type}.
Abbreviation DBM := (ST (World O)).
Context (config : Config) (ab : AddressBook) (bc : Blockchain) (ws : Wallet).
Context (cold : option tonaddr).
Context (Int63 : DBM Z) (BuildMessageForMany : list (WalletMessage tonaddr Cell) → DBM (ExternalMessage tonaddr Cell)).
Context (SendExternalMessage : ExternalMessage tonaddr Cell → DBM unit).
Context (wallet_Send : TonWallet → WalletMessage tonaddr Cell → DBM unit).
Context (HInt63 : db_rel eq Int63) (HBuild : ∀ l, db_rel eq (BuildMessageForMany l)).
Context (HSend : ∀ m, db_rel eq (SendExternalMessage m)).
Context (HwSend : ∀ t m, db_rel eq (wallet_Send t m)).

Definition same_requests (d d' : DB) : Prop := requests d' = requests d.
#[local] Instance same_requests_preorder : PreOrder same_requests.
Proof. split; [done|]. intros d1 d2 d3 H1 H2. unfold same_requests in *. congruence. Qed.

Abbreviation keeps := (db_rel (O:=O) same_requests).

Lemma keeps_eq {A} (m : DBM A) : db_rel eq m → keeps m.
Proof. intros H w. destruct (H w) as [He Ht]. split; [by unfold same_requests; rewrite He|done]. Qed.

(** The statements that leave the table of service requests alone. *)
Ltac keep_requests := repeat first [ progress db_steps | apply keeps_eq; by auto ].

Lemma makeCold_keeps : keeps (makeColdWalletWithdrawals config bc ws withdrawal_repo cold).
Proof.
  unfold makeColdWalletWithdrawals, cold_jetton, cold_ton. simpl.
  unfold CreateWithdrawalRequest, GetInternalWithdrawalStatus. keep_requests.
Qed.

Lemma buildService_keeps t : keeps (buildServiceWithdrawalMessage ab bc ws Int63 t).
Proof. unfold buildServiceWithdrawalMessage, buildServiceJettonWithdrawal. keep_requests. Qed.

Lemma filling_memo t msg sw :
  buildServiceFilling ws t = Ok (msg, sw) → st_Memo (sw_Task sw) = st_Memo t.
Proof.
  unfold buildServiceFilling. intros H. do 3 apply res_bind_Ok in H as (? & _ & H).
  case_decide; [by injection H as _ <-|]. apply res_bind_Ok in H as (? & _ & H). by injection H as _ <-.
Qed.

Lemma service_ton_memo t msg sw :
  buildServiceTonWithdrawal bc ws t = Ok (msg, sw) → st_Memo (sw_Task sw) = st_Memo t.
Proof.
  unfold buildServiceTonWithdrawal. intros H. apply res_bind_Ok in H as (? & _ & H).
  apply res_bind_Ok in H as ([? ?] & _ & H).
  case_decide; [by injection H as _ <-|]. apply res_bind_Ok in H as (? & _ & H). by injection H as _ <-.
Qed.

Lemma service_jetton_memo t (w w' : World O) msg sw :
  buildServiceJettonWithdrawal ab ws Int63 t w = (Ok (msg, sw), w') → st_Memo (sw_Task sw) = st_Memo t.
Proof.
  unfold buildServiceJettonWithdrawal. intros H. do 4 apply st_bind_Ok in H as (? & ? & _ & H).
  case_match; [by injection H as _ <- _|]. apply st_bind_Ok in H as (? & ? & _ & H).
  case_decide; [by injection H as _ <- _|]. do 2 apply st_bind_Ok in H as (? & ? & _ & H).
  by injection H as _ <- _.
Qed.

(** The message of a task is accounted for under the task's memo. *)
Lemma buildService_memo t (w w' : World O) msg sw :
  buildServiceWithdrawalMessage ab bc ws Int63 t w = (Ok (msg, sw), w') → st_Memo (sw_Task sw) = st_Memo t.
Proof.
  intros (ty & w1 & _ & H)%st_bind_Ok. destruct ty as [[]|]; try done.
  - injection H as H _. by eapply filling_memo.
  - destruct (st_JettonMaster t); [by eapply service_jetton_memo|]. injection H as H _. by eapply service_ton_memo.
Qed.

(** ** The batch loop *)

Section hot.
Context (dep : list UUID).
Abbreviation hot := (λ d l, {| v_db := d; v_hot := l; v_deposit := dep |}).
Abbreviation hot_path := (path (O:=O) hot (sstep (O:=O)) sinv (λ _, True)).

Lemma hot_keeps {A} l (m : DBM A) : keeps m → hot_path l m (λ _ l', l' = l).
Proof. apply path_same; [|done]. intros d d' H. apply rtc_once. by apply (ss_other (hot d l)). Qed.

(** The memos a batch is to update. *)
Definition held (b : Batch) : list UUID := map (λ sw, st_Memo (sw_Task sw)) (w_Service (bt_res b)).

Lemma hot_update t c e f l :
  st_Memo t ∈ l → hot_path l (UpdateServiceWithdrawalRequest t c e f) (λ _ l', l' = without (st_Memo t) l).
Proof.
  intros Ht w r w' _ E. eexists. split; [|done]. apply rtc_once.
  by apply (ss_hot_update t c e f (hot (w_db w) l) w r w').
Qed.

Lemma without_sub m l l' : m ∉ l' → l' ⊆ l → l' ⊆ without m l.
Proof. intros Hm Hl x Hx. apply list_elem_of_filter. split; [by intros ->|auto]. Qed.

Lemma service_turn_path b t l rest :
  NoDup (held b ++ st_Memo t :: rest) → held b ++ st_Memo t :: rest ⊆ l →
  hot_path l (service_turn ab bc ws withdrawal_repo Int63 b t)
    (λ b' l', NoDup (held b' ++ rest) ∧ held b' ++ rest ⊆ l').
Proof.
  intros Hn Hl. unfold service_turn.
  assert (NoDup (held b ++ rest) ∧ (st_Memo t ∉ held b ++ rest) ∧ held b ++ rest ⊆ l) as (Hn' & Hnt & Hl').
  { rewrite <- Permutation_middle in Hn. apply NoDup_cons in Hn as [? ?]. split_and!; [done..|]. set_solver. }
  path_step; [apply hot_keeps, preserves_lift, _|]. intros [low bal] ? ->.
  destruct low; [by apply path_ret|].
  path_step.
  { apply (path_Ok _ _ _ _ _ _ (λ _ l', l' = l) (λ x, st_Memo (sw_Task x.2) = st_Memo t)); [apply hot_keeps, buildService_keeps|].
    intros w [msg sw] w'. apply buildService_memo. }
  intros [msg sw] ? [Hm ->]. simpl in Hm. case_decide.
  - apply path_ret. unfold held. simpl. rewrite map_app. simpl. rewrite Hm, <- app_assoc. done.
  - path_step; [apply hot_keeps, db_rel_now, _|]. intros now ? ->.
    path_step; [apply hot_update; rewrite Hm; set_solver|]. intros [] ? ->. rewrite Hm.
    apply path_ret. split; [done|by apply without_sub].
Qed.

Lemma service_loop_path tasks b l :
  NoDup (held b ++ map st_Memo tasks) → held b ++ map st_Memo tasks ⊆ l →
  hot_path l (for_st (service_turn ab bc ws withdrawal_repo Int63) b tasks)
    (λ b' l', NoDup (held b') ∧ held b' ⊆ l').
Proof.
  revert b l. induction tasks as [|t ts IH]; intros b l Hn Hl; simpl in *.
  - rewrite app_nil_r in *. by apply path_ret.
  - path_step; [by apply service_turn_path|]. intros b' l' [Hn' Hl']. by apply IH.
Qed.

(** The other loops of the batch add no service withdrawal. *)
Lemma internal_loop_held b ts (w w' : World O) b' :
  internal_loop config ws Int63 b ts w = (Ok b', w') → held b' = held b.
Proof.
  revert b w. induction ts as [|t ts IH]; intros b w H; simpl in H; [by injection H as <- _|].
  case_decide; [by injection H as <- _|].
  apply st_bind_Ok in H as ([low bal] & w1 & _ & H). destruct low; [by apply IH in H|].
  apply st_bind_Ok in H as ([msg u] & w2 & _ & H). apply IH in H as ->. unfold held.
  case_decide; simpl; by rewrite ?app_nil_r.
Qed.

Lemma external_loop_held b ts (w w' : World O) b' :
  external_loop ab ws b ts w = (Ok b', w') → held b' = held b.
Proof.
  revert b w. induction ts as [|t ts IH]; intros b w H; simpl in H; [by injection H as <- _|].
  case_decide; [by injection H as <- _|].
  apply st_bind_Ok in H as ([ty|] & w1 & _ & H); [by apply IH in H|].
  apply st_bind_Ok in H as ([low bal] & w2 & _ & H). destruct low; [by apply IH in H|].
  apply st_bind_Ok in H as (m & w3 & _ & H). apply IH in H as ->. unfold held. simpl. by rewrite ?app_nil_r.
Qed.

Lemma internal_loop_keeps b ts : keeps (internal_loop config ws Int63 b ts).
Proof.
  revert b. induction ts as [|t ts IH]; intros b; simpl; unfold buildJettonInternalWithdrawalMessage;
    keep_requests; apply IH.
Qed.

Lemma external_loop_keeps b ts : keeps (external_loop ab ws b ts).
Proof. revert b. induction ts as [|t ts IH]; intros b; simpl; keep_requests; apply IH. Qed.

(** The tasks of a query have different memos. *)
Lemma service_tasks_NoDup P limit d :
  NoDup (memos d) → NoDup (map (λ x, sv_memo x.1) (service_rows P limit d)).
Proof.
  intros Hn. apply (NoDup_map_finer (λ x, sv_from_address x.1)).
  - intros x y (Hx & _)%service_rows_spec (Hy & _)%service_rows_spec Hm.
    assert (x.1 = y.1) as ->; [|done]. by eapply (NoDup_map_eq sv_memo (requests d)).
  - apply service_rows_keys.
Qed.

(** What the query returns is what the loop holds, once each. *)
Lemma hot_pick l limit :
  hot_path l (GetServiceHotWithdrawalTasks limit) (λ tasks l', l' = map st_Memo tasks ∧ NoDup l').
Proof.
  intros w r w' HI E. pose proof (db_rel_query eq (O:=O) (λ d, Ok (map (λ r, {|
      st_From := sv_from_address r.1; st_JettonMaster := sv_jetton_master r.1;
      st_JettonAmount := ZeroCoins; st_Memo := sv_memo r.1;
      st_SubwalletID := tw_subwallet_id r.2 |})
    (service_rows (λ r, negb (sv_processed r.1) && negb (sv_filled r.1)
                        && bool_decide (tw_type r.2 ∈ [JettonOwner; TonDepositWallet])) limit d))) w) as [Hw _].
  unfold GetServiceHotWithdrawalTasks in E. rewrite E in Hw. simpl in Hw.
  destruct r as [tasks| | |]; [|by (exists l; rewrite Hw)..].
  exists (map st_Memo tasks). split.
  - rewrite <- Hw. apply rtc_once. by apply (ss_hot_pick limit (hot (w_db w) l) w tasks w').
  - split; [|done]. intros a [= <-]. split; [done|]. apply query_Ok in E as ([= <-] & _ & _). rewrite map_map.
    by apply service_tasks_NoDup, (si_memos _ HI).
Qed.

Lemma hot_build_path l :
  hot_path l (buildWithdrawalMessages config ab bc ws withdrawal_repo Int63)
    (λ wd l', NoDup (map (λ sw, st_Memo (sw_Task sw)) (w_Service wd)) ∧
              map (λ sw, st_Memo (sw_Task sw)) (w_Service wd) ⊆ l').
Proof.
  unfold buildWithdrawalMessages. cbn [r_GetServiceHotWithdrawalTasks withdrawal_repo
    r_GetJettonInternalWithdrawalTasks r_GetExternalWithdrawalTasks].
  path_step; [apply hot_keeps, preserves_lift, _|]. intros b0 ? ->.
  path_step; [apply hot_pick|]. intros tasks ? [-> Hn].
  path_step; [by apply service_loop_path|]. intros b1 l1 [Hn1 Hl1].
  path_step; [apply hot_keeps, db_rel_query, _|]. intros its ? ->.
  path_step.
  { apply (path_Ok _ _ _ _ _ _ (λ _ l', l' = l1) (λ b, held b = held b1)); [apply hot_keeps, internal_loop_keeps|].
    intros w b w'. apply internal_loop_held. }
  intros b2 ? [H2 ->]. path_step; [apply hot_keeps, db_rel_query, _|]. intros xts ? ->.
  path_step.
  { apply (path_Ok _ _ _ _ _ _ (λ _ l', l' = l1) (λ b, held b = held b2)); [apply hot_keeps, external_loop_keeps|].
    intros w b w'. apply external_loop_held. }
  intros b3 ? [H3 ->]. apply path_ret. unfold held in *. by rewrite H3, H2.
Qed.

Lemma hot_updates_path ttl sws l :
  NoDup (map (λ sw, st_Memo (sw_Task sw)) sws) → map (λ sw, st_Memo (sw_Task sw)) sws ⊆ l →
  hot_path l (each_st (λ sw, st_fatal (UpdateServiceWithdrawalRequest (sw_Task sw) (sw_TonAmount sw)
                                         ttl (sw_Filled sw))) sws) (λ _ _, True).
Proof.
  unfold each_st. generalize tt at 1 as u. revert l. induction sws as [|sw sws IH]; intros l u Hn Hl.
  - by apply path_ret.
  - simpl in *. apply NoDup_cons in Hn as [Hm Hn].
    path_step; [apply path_fatal, hot_update; set_solver|]. intros u' ? ->. apply IH; [done|].
    apply without_sub; [done|set_solver].
Qed.

(** The batch loop makes only moves of the machine. *)
Lemma hot_pass_path l :
  hot_path l (withdrawals_pass config ab bc ws withdrawal_repo cold Int63 BuildMessageForMany
                SendExternalMessage) (λ _ _, True).
Proof.
  unfold withdrawals_pass. cbn [r_CreateExternalWithdrawals r_UpdateServiceWithdrawalRequest
    r_SaveInternalWithdrawalTask withdrawal_repo].
  path_step; [apply hot_keeps, preserves_fatal, makeCold_keeps|]. intros _ ? ->.
  path_step; [apply path_fatal, hot_build_path|]. intros wd l1 [Hn Hl].
  case_decide; [by apply path_ret|].
  path_step; [apply hot_keeps; keep_requests|]. intros msg ? ->.
  path_step; [apply hot_keeps; keep_requests|]. intros info ? ->.
  path_step; [apply hot_keeps; unfold CreateExternalWithdrawals, insert_external, update_processing;
    keep_requests|]. intros _ ? ->.
  path_step; [by apply hot_updates_path|]. intros _ l2 _.
  eapply path_weaken; [apply hot_keeps; unfold SaveInternalWithdrawalTask; keep_requests|done].
Qed.
End hot.

(** ** The loop of the deposits *)

Section deposit.
Context (hot : list UUID).
Abbreviation dep := (λ d l, {| v_db := d; v_hot := hot; v_deposit := l |}).
(** [E]: the memos held when an error is returned. *)
Abbreviation deposit_path E := (path (O:=O) dep (sstep (O:=O)) sinv E).

Lemma deposit_keeps {A} (E : list UUID → Prop) l (m : DBM A) :
  E l → keeps m → deposit_path E l m (λ _ l', l' = l).
Proof. apply path_same. intros d d' H. apply rtc_once. by apply (ss_other (dep d l)). Qed.

Lemma deposit_update (E : list UUID → Prop) t c e l :
  st_Memo t ∈ l → E (without (st_Memo t) l) →
  deposit_path E l (UpdateServiceWithdrawalRequest t c e false) (λ _ l', l' = without (st_Memo t) l).
Proof.
  intros Ht HE w r w' _ Em. eexists. split; [|by split; [|intros]]. apply rtc_once.
  by apply (ss_deposit_update t c e (dep (w_db w) l) w r w').
Qed.

Lemma deposit_pick l limit :
  deposit_path (λ _, True) l (GetServiceDepositWithdrawalTasks limit) (λ tasks l', l' = map st_Memo tasks ∧ NoDup l').
Proof.
  intros w r w' HI E. pose proof (db_rel_query eq (O:=O) (λ d, Ok (map (λ r, {|
      st_From := sv_from_address r.1; st_JettonMaster := sv_jetton_master r.1;
      st_JettonAmount := sv_jetton_amount r.1; st_Memo := sv_memo r.1;
      st_SubwalletID := tw_subwallet_id r.2 |})
    (service_rows (λ r, negb (sv_processed r.1) && sv_filled r.1
                        && bool_decide (tw_type r.2 = TonDepositWallet)) limit d))) w) as [Hw _].
  unfold GetServiceDepositWithdrawalTasks in E. rewrite E in Hw. simpl in Hw.
  destruct r as [tasks| | |]; [|by (exists l; rewrite Hw)..].
  exists (map st_Memo tasks). split.
  - rewrite <- Hw. apply rtc_once. by apply (ss_deposit_pick limit (dep (w_db w) l) w tasks w').
  - split; [|done]. intros a [= <-]. split; [done|]. apply query_Ok in E as ([= <-] & _ & _). rewrite map_map.
    by apply service_tasks_NoDup, (si_memos _ HI).
Qed.

(** One task: its request is finished, or left as it is when the task fails
    before that; the other memos are still held. *)
Lemma withdraw_path t l :
  st_Memo t ∈ l →
  deposit_path (λ l', without (st_Memo t) l ⊆ l') l
    (serviceWithdrawJettons bc ws withdrawal_repo Int63 wallet_Send t)
    (λ _ l', without (st_Memo t) l ⊆ l').
Proof.
  intros Ht.
  assert (without (st_Memo t) l ⊆ l) as Hsub by (intros x Hx; by apply list_elem_of_filter in Hx as [_ Hx]).
  unfold serviceWithdrawJettons. cbn [r_UpdateServiceWithdrawalRequest withdrawal_repo].
  path_step; [apply deposit_keeps; [done|apply preserves_lift, _]|]. intros sub ? ->.
  path_step; [apply deposit_keeps; [done|apply preserves_lift, _]|]. intros _ ? ->.
  path_step; [apply deposit_keeps; [done|apply preserves_lift, _]|]. intros [bal st] ? ->.
  case_decide; [by apply path_ret|].
  path_step; [apply deposit_keeps; [done|apply preserves_lift, _]|]. intros master ? ->.
  path_step; [apply deposit_keeps; [done|apply preserves_lift, _]|]. intros jw ? ->.
  path_step; [apply deposit_keeps; [done|apply db_rel_now, _]|]. intros now ? ->.
  path_step; [by apply deposit_update|]. intros _ ? ->.
  eapply path_weaken; [apply deposit_keeps; [done|unfold WithdrawJetton; keep_requests]|]. by intros _ ? ->.
Qed.

Lemma withdraws_path tasks l :
  NoDup (map st_Memo tasks) → map st_Memo tasks ⊆ l →
  deposit_path (λ _, True) l
    (each_st (λ task, do! _ <- st_try (serviceWithdrawJettons bc ws withdrawal_repo Int63 wallet_Send task);
                      st_ret tt) tasks) (λ _ _, True).
Proof.
  unfold each_st. generalize tt at 2 as u. revert l. induction tasks as [|t ts IH]; intros l u Hn Hl.
  - by apply path_ret.
  - simpl in *. apply NoDup_cons in Hn as [Hm Hn]. path_step.
    + path_step; [eapply path_try, withdraw_path; set_solver|]. intros o l1 Ho. apply path_ret.
      instantiate (1 := λ _ l', map st_Memo ts ⊆ l'). simpl.
      assert (without (st_Memo t) l ⊆ l1) as Hl1 by (destruct o; exact Ho).
      etrans; [apply (without_sub (st_Memo t) l); [exact Hm|set_solver]|exact Hl1].
    + intros u' l1 Hl1. by apply IH.
Qed.

(** The loop of the deposits makes only moves of the machine. *)
Lemma deposit_pass_path l :
  deposit_path (λ _, True) l (internal_ton_pass config bc ws withdrawal_repo Int63 wallet_Send) (λ _ _, True).
Proof.
  unfold internal_ton_pass. cbn [r_GetServiceDepositWithdrawalTasks r_GetTonInternalWithdrawalTasks withdrawal_repo].
  path_step; [eapply path_try, deposit_pick|]. intros o l1 Ho.
  path_step.
  { apply withdraws_path; destruct o; simpl in *; [by destruct Ho as [-> ?]|constructor|by destruct Ho as [-> _]|].
    by intros m Hm%elem_of_nil. }
  intros _ l2 _. eapply path_weaken; [apply deposit_keeps; [done|]|done].
  unfold withdrawTONsFromDeposit, WithdrawTON. cbn [r_SaveInternalWithdrawalTask withdrawal_repo].
  unfold SaveInternalWithdrawalTask. keep_requests.
Qed.
End deposit.

(** C14. The loops of the withdrawal processor move service withdrawals only as
    the machine does: a pass of the batch loop, and a pass of the loop of the
    deposits, whatever the node answers, whatever fails and however it ends, is a
    sequence of steps of the two loops, in which the other loop may hold any
    tasks. *)
Theorem service_passes (w w' : World O) r hot dep :
  sinv {| v_db := w_db w; v_hot := hot; v_deposit := dep |} →
  (withdrawals_pass config ab bc ws withdrawal_repo cold Int63 BuildMessageForMany SendExternalMessage w = (r, w') →
   ∃ hot', rtc (sstep (O:=O)) {| v_db := w_db w; v_hot := hot; v_deposit := dep |}
                               {| v_db := w_db w'; v_hot := hot'; v_deposit := dep |}) ∧
  (internal_ton_pass config bc ws withdrawal_repo Int63 wallet_Send w = (r, w') →
   ∃ dep', rtc (sstep (O:=O)) {| v_db := w_db w; v_hot := hot; v_deposit := dep |}
                               {| v_db := w_db w'; v_hot := hot; v_deposit := dep' |}).
Proof.
  intros I. split; intros H.
  - destruct (hot_pass_path dep hot w r w') as (l' & Hl & _); [done..|]. by exists l'.
  - destruct (deposit_pass_path hot dep w r w') as (l' & Hl & _); [done..|]. by exists l'.
Qed.
End passes.
