(* ===== verification/Main.v ===== *)
(** * [cmd/processor/main.go]: starting the program

    What [main] does before the goroutines run: configuration, connections,
    the wallets, the notificators, and what the constructors of the scanner and
    of the withdrawal processor put into the interfaces they hold. The client
    libraries are arguments: whether each of their calls succeeds. *)

From S2P Require Import Prelude TonUtils Config Models Core Db AddressBook Repository.
From S2P Require Import WithdrawalRepository BlockScanner Shard Messages Processor.
From S2P Require Import ProcessorFacts Wallets Notify Blockchain Saving.

Local Open Scope string_scope.
Local Open Scope list_scope.
Local Open Scope Z_scope.

Section main.
Context `{TL : TvmLib} `{UL : UuidLib} `{PG : PgLib} `{WL : WalletLib} `{GR : GoRuntime}.
Context `{TW : !TonWalletLib} `{DL : DecimalLib} {O : Type}.
Abbreviation DBM := (ST (World O)).

(** What the libraries answer: the lite servers, the clock around the node's
    time, the four calls to the database, the queue. *)
Record Libraries := {
  l_lite : res unit;
  l_before : Z; l_after : Z; l_time : res Z;
  l_connect : res unit; l_ping : res unit; l_pool : res unit; l_pool_ping : res unit;
  l_dial : bool; l_channel : bool; l_declare : bool;
}.

(** What the goroutines are started with. *)
Record Running := {
  run_config : Config;
  run_wallets : Wallet;
  run_tracker : ShardTracker;
  run_notificators : list (AmqpClient + WebhookClient);
}.

(** ** [NewBlockScanner], [NewWithdrawalsProcessor]

    The fields the constructors do not set are nil interfaces. *)

Definition NewBlockScanner_Start (bc : Blockchain) (ws : Wallet) (config : Config)
    (notificators : list (incomeNotification → DBM unit))
    (blocks : list (option ShardBlockHeader)) : DBM unit :=
  scan nil_AddressBook ws bc config notificators blocks.

Definition NewWithdrawalsProcessor_pass (config : Config) (bc : Blockchain) (ws : Wallet)
    (coldWallet : option tonaddr) Int63 BuildMessageForMany SendExternalMessage : DBM unit :=
  withdrawals_pass config nil_AddressBook bc ws nil_repo coldWallet Int63 BuildMessageForMany
    SendExternalMessage.

Definition NewWithdrawalsProcessor_internal (config : Config) (bc : Blockchain) (ws : Wallet)
    Int63 wallet_Send : DBM unit :=
  internal_ton_pass config bc ws nil_repo Int63 wallet_Send.

(** ** [main] *)

(** [startBlock, err := repo.GetLastSavedBlock(ctx)]: nil when there is none. *)
Definition start_block (repo : Repo O) : DBM (option ShardBlockHeader) :=
  do! r <- st_try (p_GetLastSavedBlock repo);
  match r with
  | inl b => st_ret (Some b)
  | inr ENotFound => st_ret None
  | inr _ => st_lift Fatal
  end.

Definition start_notificators (env : EnvConfig) (libs : Libraries)
    : DBM (list (AmqpClient + WebhookClient)) :=
  do! queue <- (if env_QueueEnabled env then
                  do! c <- st_fatal (st_lift (NewAmqpClient true (l_dial libs) (l_channel libs)
                                                (l_declare libs) (env_QueueName env)));
                  st_ret [inl c]
                else st_ret []);
  do! webhook <- (if decide (env_WebhookEndpoint env ≠ "") then
                    do! c <- st_fatal (st_lift (NewWebhookClient (env_WebhookEndpoint env)
                                                  (env_WebhookToken env)));
                    st_ret [inr c]
                  else st_ret []);
  st_ret (queue ++ webhook).

Definition connections (libs : Libraries) : DBM unit :=
  do! _ <- st_fatal (st_lift (l_lite libs));
  do! _ <- st_lift (NewConnection (l_before libs) (l_after libs) (l_time libs));
  do! _ <- st_fatal (st_lift (l_connect libs));
  do! _ <- st_fatal (st_lift (l_ping libs));
  do! _ <- st_fatal (st_lift (l_pool libs));
  st_fatal (st_lift (l_pool_ping libs)).

(** The error of [InitWallets] is dropped: [wallets] is then a nil interface,
    and [wallets.Shard()] panics, as [startBlock.BlockIDExt] does on nil. *)
Definition main (env : option EnvConfig) (libs : Libraries) (repo : Repo O) (bc : Blockchain)
    (version : Version) (transfer : TonWallet → tonaddr → Z → DBM unit) : DBM Running :=
  do! config <- st_lift (GetConfig env);
  match env with
  | None => st_lift Fatal
  | Some e =>
      do! _ <- connections libs;
      do! startBlock <- start_block repo;
      do! wallets <- st_try (InitWallets bc config version repo transfer (cfg_Seed config));
      do! notificators <- start_notificators e libs;
      match wallets, startBlock with
      | inl ws, Some b =>
          st_ret {| run_config := config; run_wallets := ws;
                    run_tracker := NewShardTracker (Core.Shard ws) (sb_BlockIDExt b);
                    run_notificators := notificators |}
      | _, _ => st_lift Panic
      end
  end.

(** ** What a start requires *)

Lemma st_fatal_lift_Ok {A} (r : res A) (w w' : World O) a :
  st_fatal (st_lift r) w = (Ok a, w') → r = Ok a ∧ w' = w.
Proof. unfold st_fatal, st_lift. destruct r; naive_solver. Qed.

Lemma connections_Ok libs w w' :
  connections libs w = (Ok tt, w') →
  w' = w ∧ NewConnection (l_before libs) (l_after libs) (l_time libs) = Ok tt.
Proof.
  unfold connections. intros H.
  apply st_bind_Ok in H as ([] & w1 & [_ ->]%st_fatal_lift_Ok & H).
  apply st_bind_Ok in H as ([] & w2 & [= Hn <-] & H).
  do 3 (apply st_bind_Ok in H as ([] & ? & [_ ->]%st_fatal_lift_Ok & H)).
  by apply st_fatal_lift_Ok in H as [_ ->].
Qed.

Lemma start_block_Ok repo (w w' : World O) o :
  start_block repo w = (Ok o, w') →
  match o with
  | Some b => p_GetLastSavedBlock repo w = (Ok b, w')
  | None => p_GetLastSavedBlock repo w = (Err ENotFound, w')
  end.
Proof.
  unfold start_block, st_bind, st_try, st_ret, st_lift.
  destruct (p_GetLastSavedBlock repo w) as [[b|[]| |] w1]; simpl; by intros [= <- <-].
Qed.

Lemma start_notificators_Ok e libs (w w' : World O) l :
  start_notificators e libs w = (Ok l, w') →
  w' = w ∧ (env_QueueEnabled e = true ↔ ∃ c, inl c ∈ l ∧ am_exchange c = env_QueueName e) ∧
  (env_WebhookEndpoint e ≠ "" ↔ ∃ c, inr c ∈ l ∧ wc_uri c = env_WebhookEndpoint e).
Proof.
  unfold start_notificators. intros H. apply st_bind_Ok in H as (q & w1 & Hq & H).
  apply st_bind_Ok in H as (h & w2 & Hh & H). unfold st_ret in H. injection H as <- <-.
  assert (w1 = w ∧ (q = [] ∧ env_QueueEnabled e = false ∨
    ∃ c, q = [inl c] ∧ env_QueueEnabled e = true ∧ am_exchange c = env_QueueName e)) as [-> Hq'].
  { destruct (env_QueueEnabled e); [|injection Hq as <- <-; auto].
    apply st_bind_Ok in Hq as (c & ? & [Hc ->]%st_fatal_lift_Ok & Hq). injection Hq as <- <-.
    split; [done|]. right. exists c. unfold NewAmqpClient in Hc.
    destruct (l_dial libs), (l_channel libs), (l_declare libs); simplify_eq/=. done. }
  assert (w2 = w ∧ (h = [] ∧ env_WebhookEndpoint e = "" ∨
    ∃ c, h = [inr c] ∧ env_WebhookEndpoint e ≠ "" ∧ wc_uri c = env_WebhookEndpoint e)) as [-> Hh'].
  { destruct (decide (env_WebhookEndpoint e = "")) as [Hn|Hn].
    { rewrite decide_False in Hh by tauto. injection Hh as <- <-. auto. }
    rewrite decide_True in Hh by done.
    apply st_bind_Ok in Hh as (c & ? & [Hc ->]%st_fatal_lift_Ok & Hh). injection Hh as <- <-.
    split; [done|]. right. exists c. unfold NewWebhookClient in Hc. rewrite decide_False in Hc by done.
    by injection Hc as <-. }
  split; [done|].
  destruct Hq' as [[-> ->]|(c1 & -> & -> & ?)], Hh' as [[-> ->]|(c2 & -> & ? & ?)]; set_solver.
Qed.

(** A start that reaches the goroutines has everything they need: the
    configuration was read, the clock agrees with the node's, a block was
    saved before, the wallets are ready, the notificators are those that are
    configured, and the tracker starts from the saved block in the shard of
    the hot wallet. *)
Lemma main_runs env libs repo bc version transfer w run w' :
  main env libs repo bc version transfer w = (Ok run, w') →
  ∃ e b w1, env = Some e ∧ GetConfig env = Ok (run_config run) ∧
    NewConnection (l_before libs) (l_after libs) (l_time libs) = Ok tt ∧
    p_GetLastSavedBlock repo w = (Ok b, w1) ∧
    InitWallets bc (run_config run) version repo transfer (cfg_Seed (run_config run)) w1 =
      (Ok (run_wallets run), w') ∧
    run_tracker run = NewShardTracker (Core.Shard (run_wallets run)) (sb_BlockIDExt b) ∧
    (env_QueueEnabled e = true ↔
       ∃ c, inl c ∈ run_notificators run ∧ am_exchange c = env_QueueName e) ∧
    (env_WebhookEndpoint e ≠ "" ↔
       ∃ c, inr c ∈ run_notificators run ∧ wc_uri c = env_WebhookEndpoint e).
Proof.
  unfold main. intros H. apply st_bind_Ok in H as (config & w0 & [= Hc <-] & H).
  destruct env as [e|]; [|done].
  apply st_bind_Ok in H as ([] & ? & [-> Hn]%connections_Ok & H).
  apply st_bind_Ok in H as (start & w1 & Hs%start_block_Ok & H).
  apply st_bind_Ok in H as (ws & w2 & Hw & H).
  apply st_bind_Ok in H as (l & w3 & (-> & Hq & Hh)%start_notificators_Ok & H).
  destruct ws as [ws|]; [|done]. destruct start as [b|]; [|done].
  unfold st_ret in H. injection H as <- <-. unfold st_try in Hw.
  destruct (InitWallets _ _ _ _ _ _ w1) as [[] w4] eqn:E; simplify_eq/=. eauto 20.
Qed.

(** ** What happens instead *)

(** A repository that reports that no block is saved, as a correct one does
    before the first block, leaves the start without a block to dereference. *)
Lemma first_start_fails env libs repo bc version transfer w w1 run w' :
  p_GetLastSavedBlock repo w = (Err ENotFound, w1) →
  main env libs repo bc version transfer w ≠ (Ok run, w').
Proof.
  intros Hg (e & b & w2 & _ & _ & _ & Hb & _)%main_runs. congruence.
Qed.

Lemma GetLastSavedBlock_panics (w : World O) :
  ∃ w1, GetLastSavedBlock w = (Panic, w1) ∧ w_db w1 = w_db w ∧ w_out w1 = w_out w.
Proof.
  unfold GetLastSavedBlock, st_bind, st_try, st_lift.
  pose proof (db_rel_query eq (O:=O) (λ d, Ok (block_data d)) w) as [Hd _].
  pose proof (query_same_out (O:=O) (λ d, Ok (block_data d)) w) as Ho. unfold same_out in Ho.
  assert ((query (λ d, Ok (block_data d)) w).1 ≠ Panic ∧
          (query (λ d, Ok (block_data d)) w).1 ≠ Fatal) as [Hp Hf].
  { unfold query, exec. case_decide; [done|]. by destruct (default _ _). }
  destruct (query _ w) as [[]]; simpl in *; try done; eauto.
Qed.

(** C39. The program never starts. With the repository of this commit no start
    reaches the goroutines, whatever the configuration, the connections and the
    tables are, and a failed start stores and sends nothing. Nor would a correct
    repository help on a fresh database: when it reports that no block is saved
    yet, no start reaches the goroutines, and the scanner, which would save the
    first block, is one of them. *)
Theorem main_never_runs env libs bc version transfer w r w' :
  (main env libs repository bc version transfer w = (r, w') →
   (∀ run, r ≠ Ok run) ∧ w_db w' = w_db w ∧ w_out w' = w_out w) ∧
  (∀ repo w1, p_GetLastSavedBlock repo w = (Err ENotFound, w1) →
     ∀ run w2, main env libs repo bc version transfer w ≠ (Ok run, w2)).
Proof.
  split; [|intros repo w1 H run w2; by eapply first_start_fails]. intros H. split.
  { intros run ->. apply main_runs in H as (e & b & w1 & _ & _ & _ & Hb & _). simpl in Hb.
    destruct (GetLastSavedBlock_panics w) as (w2 & Hp & _). congruence. }
  unfold main, st_bind in H. unfold st_lift at 1 in H.
  destruct (GetConfig env) as [config| | |]; try (by injection H as _ <-).
  destruct env as [e|]; [|by injection H as _ <-].
  assert (preserves eq (connections libs)) as Hc.
  { unfold connections. repeat (apply preserves_bind; [apply _| |intros ?]);
      try apply preserves_fatal; apply preserves_lift, _. }
  specialize (Hc w). destruct (connections libs w) as [[] w0]; simpl in Hc; subst w0;
    try (by injection H as _ <-).
  destruct (GetLastSavedBlock_panics w) as (w2 & Hp & Hd & Ho).
  unfold start_block, st_bind, st_try in H. simpl in H. rewrite Hp in H. by injection H as _ <-.
Qed.

(** ** Nil interfaces *)

Lemma cold_nil config bc ws cold (w w' : World O) r :
  makeColdWalletWithdrawals config bc ws nil_repo (Some cold) w = (r, w') →
  w' = w ∧ ∀ u, r ≠ Ok u.
Proof.
  unfold makeColdWalletWithdrawals, st_bind, st_lift.
  destruct (GetAccountCurrentState bc _) as [[bal ?]| | |]; try by intros [= <- <-].
  destruct (AddressMustFromTonutilsAddress _) as [dest| | |]; try by intros [= <- <-].
  destruct (map_order _) as [|[cur jw] l]; simpl; by intros [= <- <-].
Qed.

(** Even a program that started would stop at once: the scanner is given
    no address book, so that the first transaction of the first block panics;
    the withdrawal processor is given no repository of withdrawals, so that
    the first pass of each of its two paying loops ends the process, before
    anything is stored or sent. *)
Theorem wired_with_nil bc ws config :
  (∀ notificators b ids id bs (w : World O), sb_BlockIDExt b ≠ None →
     GetTransactionIDsFromBlock bc (sb_BlockIDExt b) = Ok (id :: ids) →
     length (ti_Account id) = 32%nat →
     NewBlockScanner_Start bc ws config notificators (Some b :: bs) w = (Panic, w)) ∧
  (∀ cold Int63 build send (w w' : World O) r,
     NewWithdrawalsProcessor_pass config bc ws cold Int63 build send w = (r, w') →
     (r = Panic ∨ r = Fatal) ∧ w' = w) ∧
  (∀ Int63 wallet_Send (w : World O),
     NewWithdrawalsProcessor_internal config bc ws Int63 wallet_Send w = (Panic, w)).
Proof.
  split_and!; [| |done].
  - intros nots b ids id bs w Hb Hids Hlen.
    unfold NewBlockScanner_Start, scan, each_st. simpl. unfold st_bind at 1, scan_one, st_bind at 1, st_try.
    unfold BlockScanner.processBlock. rewrite decide_False by done. unfold st_bind, st_lift, parse_block.
    rewrite Hids. simpl. unfold filterTXs. simpl. unfold filter_tx at 1, AddressFromBytes.
    destruct (mk_bytes 32 (ti_Account id)) eqn:E; [done|]. by apply mk_bytes_None in E.
  - intros cold Int63 build send w w' r. unfold NewWithdrawalsProcessor_pass, withdrawals_pass.
    unfold st_bind at 1, st_fatal at 1. destruct cold as [cold|].
    + destruct (makeColdWalletWithdrawals _ _ _ _ _ w) as [r0 w0] eqn:E.
      apply cold_nil in E as [-> Hr]. destruct r0 as [[]| | |]; [by destruct (Hr tt)|..];
        intros [= <- <-]; auto.
    + simpl. unfold st_bind at 1, st_fatal at 1, buildWithdrawalMessages, st_bind, st_lift.
      destruct (getHotWalletBalances bc ws); simpl; intros [= <- <-]; auto.
Qed.
End main.
