(* ===== verification/AuditLog.v ===== *)
(** * [audit/log.go], [cmd/testwebhook/main.go]: what is only printed

    The audit log formats lines for the logger; the test webhook prints what it
    receives. A definition yields the line, or the lines, that are printed.
    The rest of the development leaves out the calls of the audit log. *)

From S2P Require Import Prelude TonUtils Config.
From Stdlib Require Import Ascii.

Local Open Scope string_scope.
Local Open Scope list_scope.
Local Open Scope Z_scope.

(** ** The audit log *)

(** [type Severity string]: other values exist and print nothing. *)
Definition Severity : Type := string.
Definition Error : Severity := "ERROR".
Definition Warning : Severity := "WARNING".
Definition Info : Severity := "INFO".

Record message := { m_Severity : Severity; m_Text : string }.

Definition bar : Ascii.ascii := "|"%char.

(** [%x] of a byte string. *)
Definition hex_digit (n : Z) : Ascii.ascii :=
  ascii_of_nat (Z.to_nat (if n <? 10 then 48 + n else 87 + n)).
Definition hex (l : list Z) : string :=
  foldr (λ b s, String (hex_digit (b `div` 16)) (String (hex_digit (b `mod` 16)) s)) "" l.

(** [now]: [time.Now().Format(time.RFC1123)]. *)
Definition pushLog (now : string) (m : message) : option string :=
  if decide (m_Severity m ∈ [Error; Warning; Info]) then
    Some (Join bar ["AUDIT"; m_Severity m; now; m_Text m])
  else None.

Definition LogTX (now : string) (severity : Severity) (location : string) (hash : list Z)
    (text : string) : option string :=
  pushLog now {| m_Severity := severity; m_Text := Join bar [location; "TX:" +:+ hex hash; text] |}.

Definition Log (now : string) (severity : Severity) (location event text : string) : option string :=
  pushLog now {| m_Severity := severity; m_Text := Join bar [location; event; text] |}.

Lemma Join_app sep fs gs : fs ≠ [] → gs ≠ [] → Join sep (fs ++ [Join sep gs]) = Join sep (fs ++ gs).
Proof.
  intros Hf Hg. induction fs as [|f fs IH]; [done|]. simpl app.
  destruct fs as [|f' fs]; [by destruct gs|]. rewrite !Join_cons by done. by rewrite IH.
Qed.

(** Splitting an audit line at its bars gives back what was logged, for
    fields without a bar. *)
Lemma Log_fields now severity location event text line :
  Log now severity location event text = Some line →
  Forall (λ f, occurs bar f = false) [severity; now; location; event; text] →
  Split bar line = ["AUDIT"; severity; now; location; event; text].
Proof.
  unfold Log, pushLog. case_decide; [|done]. cbn [m_Severity m_Text]. intros [= <-] Hf.
  change (Split bar (Join bar (["AUDIT"; severity; now] ++ [Join bar [location; event; text]])) =
    ["AUDIT"; severity; now; location; event; text]).
  rewrite Join_app by done. apply Split_Join; [done|]. by constructor.
Qed.

(** ** The test webhook *)

Definition webhook_token : string := "123".

(** [checkToken] of the test webhook: it prints, and returns nothing. *)
Definition testwebhook_checkToken (header token : string) : list string :=
  if decide (header = "") then ["no authorization header"] else
  match Split " "%char header with
  | [scheme; x] =>
      if decide (scheme ≠ "Bearer") then ["not Bearer token"]
      else if decide (x = token) then [] else ["invalid token"]
  | _ => ["not Bearer token"]
  end.

(** [getNotification]: what is printed and the status written, if any; [body]
    is the error, or the bytes, of reading the request's body. *)
Definition getNotification (post : bool) (header : string) (body : string + string)
    : list string * option Z :=
  let lines := (if post then [] else ["Not a post request!"])
               ++ testwebhook_checkToken header webhook_token in
  match body with
  | inl err => (lines ++ ["notification read error: " +:+ err], None)
  | inr b => (lines ++ ["Notification: " +:+ b], Some 200)
  end.

(** A notification is acknowledged whatever its token: the check only prints. *)
Lemma getNotification_acknowledges post header body :
  (getNotification post header (inr body)).2 = Some 200.
Proof. done. Qed.
