(* ===== verification/Witnesses.v ===== *)
(** * Witnesses

    For each theorem with hypotheses, a concrete input at which they hold and
    the theorem applied to it, over the toy library of [TonUtils] and the inputs
    of [Fixtures]. *)

From S2P Require Import Prelude TonUtils Config Models Core Db AddressBook Fixtures Repository.
From S2P Require Import WithdrawalRepository Ledger BlockScanner BlockScannerFacts Saving Protocol.
From S2P Require Import Shard Messages Processor ProcessorFacts Wallets Notify Blockchain Api ApiFacts Deposits.
From stdpp Require Import pretty.

Local Open Scope string_scope.
Local Open Scope list_scope.
Local Open Scope Z_scope.

Import Toy Fix.

(** The result, and the state after, of a computation that succeeds. *)
Definition result {S A} (a0 : A) (m : res A * S) : A := match m.1 with Ok a => a | _ => a0 end.

Lemma result_Ok {S A} (a0 : A) (m : res A * S) : is_Ok m.1 = true → m = (Ok (result a0 m), m.2).
Proof. by destruct m as [[]]. Qed.

Lemma done_Ok {S} (m : res unit * S) : is_Ok m.1 = true → m = (Ok tt, m.2).
Proof. by destruct m as [[[]| | |]]. Qed.

Lemma w_db_world {O} d : w_db (world (O := O) d) = d.
Proof. done. Qed.

(** Evaluates a decidable proposition. *)
Ltac evaluate := apply (bool_decide_unpack _); vm_compute; exact I.

(** ** Address book *)

Lemma loadAddressBook_spec_witness :
  let w := world (O := unit) (tables query_schema) in
  load_spec (w_db w) (result ∅ (loadAddressBook w)) ∧ w_db (loadAddressBook w).2 = w_db w.
Proof.
  intros w. refine (loadAddressBook_spec w _ _ _ _); [evaluate|by apply result_Ok].
Defined.

Lemma NewAddressBook_knows_nothing_witness :
  let w := world (O := unit) (tables query_schema) in
  let ab := result None (NewAddressBook w) in
  GetWalletType (book_ops ab) (addr32 2) = Ok None ∧ GetOwner (book_ops ab) (addr32 2) = Ok None.
Proof.
  intros w ab. refine (NewAddressBook_knows_nothing w _ ab (addr32 2) _). by apply result_Ok.
Defined.

(** ** Searches *)

Lemma find_subwallet_first_witness :
  max_uint32 - (max_uint32 - 4) ≤ 4 ∧
  ∃ w, find_subwallet 4 basic 253 (max_uint32 - 4) = Some (Ok (w, max_uint32 - 2)) ∧
    ∀ i, max_uint32 - 4 ≤ i < max_uint32 - 2 → outside basic 253 i.
Proof.
  split; [lia|]. destruct (find_subwallet_first 4 basic 253 (max_uint32 - 4)) as (r & Hr & Hf & _); [lia|].
  vm_compute in Hr. injection Hr as <-. eexists. split; [by vm_compute|]. apply (Hf _ _ eq_refl).
Defined.

Lemma find_proxy_first_witness :
  max_uint32 - (max_uint32 - 4) ≤ 4 ∧
  ∃ r, find_proxy node config 4 253 (std 1) (std 30) (max_uint32 - 4) = Some r ∧ is_Ok r = true.
Proof.
  split; [lia|]. destruct (find_proxy_first node config 4 253 (std 1) (std 30) (max_uint32 - 4))
    as (r & Hr & _); [lia|].
  exists r. split; [exact Hr|].
  assert (from_option is_Ok false (find_proxy node config 4 253 (std 1) (std 30) (max_uint32 - 4)) = true)
    as Hok by (vm_compute; reflexivity).
  by rewrite Hr in Hok.
Defined.

(** ** Following the shard *)

(** Three shards: the first half of the accounts, and two quarters. *)
Definition three_shards : split_tree := Split2 Whole (Split2 Whole Whole).
Definition shard_block (shard : Z) : BlockIDExt :=
  {| blk_Workchain := 0; blk_Shard := shard; blk_SeqNo := 1; blk_RootHash := []; blk_FileHash := [] |}.
Definition listed : list BlockIDExt :=
  [shard_block (5 * 2 ^ 61 - 2 ^ 64); shard_block (2 ^ 62); shard_block (7 * 2 ^ 61 - 2 ^ 64)].

Lemma filterByShard_split_witness :
  depth three_shards ≤ 8 ∧
  ∃ h, filterByShard listed 200 = Ok h ∧ wrap64 (blk_Shard h) = shard_prefix 2 3 ∧
    ∀ h', h' ∈ listed → isInShard (wrap64 (blk_Shard h')) 200 = Ok true →
      wrap64 (blk_Shard h') = wrap64 (blk_Shard h).
Proof.
  split; [by vm_compute|].
  destruct (filterByShard_split three_shards listed 200) as (h & l & Hh & _ & _ & _ & _ & Hu);
    [by vm_compute|lia|vm_compute; apply perm_swap|].
  vm_compute in Hh. injection Hh as <-. eexists. split_and!; [by vm_compute..|exact Hu].
Defined.

(** A node whose blocks 1, 2, ... each have the previous one as only parent; it
    is first asked about block [late] before the block is applied, and can not
    read the block [broken] or the parents of the block [orphan]. *)
Definition data (late broken orphan : option Z) (i : BlockIDExt) : list (res Block) :=
  if decide (Some (blk_SeqNo i) = broken) then [Err (EText "lost")] else
  (if decide (Some (blk_SeqNo i) = late) then [Err (ELib "block is not applied")] else []) ++
  [Ok {| b_NotMaster := true; b_GenUtime := blk_SeqNo i; b_StartLt := 0; b_EndLt := 1;
         b_GetParentBlocks := if decide (Some (blk_SeqNo i) = orphan) then Err (ELib "parents")
                              else Ok [block_id (blk_SeqNo i - 1)] |}].
Definition tracker : ShardTracker := NewShardTracker 1 (Some (block_id 4)).

Lemma data_chain late known q hs :
  q ≠ known → chain (data late None None) 1 (block_id known) (block_id (q - 1)) hs →
  chain (data late None None) 1 (block_id known) (block_id q) (header_of q :: hs).
Proof.
  intros Hq Hc. refine (chain_more _ 1 _ (block_id q) {|
    b_NotMaster := true; b_GenUtime := q; b_StartLt := 0; b_EndLt := 1;
    b_GetParentBlocks := Ok [block_id (q - 1)] |} (block_id (q - 1)) hs _ _ _ Hc).
  - intros [_ E]. simpl in E. congruence.
  - unfold data. repeat case_decide; done.
  - exists [], []. split_and!; [done|set_solver|by vm_compute].
Qed.

Lemma getShardBlocks_catches_up_witness :
  ∃ s', getShardBlocks (data (Some 6) None None) 3 (block_id 6) tracker = Some (Ok tt, s') ∧
    t_blocksChan s' = [header_of 6; header_of 5] ∧ t_lastKnownShardBlock s' = Some (block_id 6).
Proof.
  apply (getShardBlocks_catches_up (data (Some 6) None None) 3 (block_id 6) [header_of 6; header_of 5] tracker
           (block_id 4)); [done| |simpl; lia].
  do 2 (apply data_chain; [done|]). by apply chain_end.
Defined.

Lemma interrupted_walk_resends_witness :
  ∃ s1 s2 rest, getShardBlocks (data None (Some 6) None) 5 (block_id 7) tracker = Some (Err (EText "lost"), s1) ∧
    t_blocksChan s1 = [header_of 7] ∧
    getShardBlocks (data (Some 6) None None) 5 (block_id 7) s1 = Some (Ok tt, s2) ∧
    t_blocksChan s2 = [header_of 7] ++ [header_of 7] ++ rest.
Proof.
  refine (interrupted_walk_resends (data None (Some 6) None) (data (Some 6) None None) 5 (block_id 7) [header_of 7]
           [header_of 7; header_of 6; header_of 5] (EText "lost") tracker (block_id 4)
           eq_refl _ _ _ _ _); [|simpl; lia| | |simpl; lia].
  - eapply part_more; [by vm_compute..|]. by apply part_error; vm_compute.
  - intros c h. unfold getShardBlocksHeader, data. repeat (case_decide; try done).
  - do 3 (apply data_chain; [done|]). by apply chain_end.
Defined.

Lemma unreadable_parents_panic_witness :
  getShardBlocks (data None None (Some 6)) 2 (block_id 6) tracker = Some (Panic, Shard.send zero_header tracker).
Proof.
  refine (unreadable_parents_panic (data None None (Some 6)) 0 (block_id 6) tracker (block_id 4)
    {| b_NotMaster := true; b_GenUtime := 6; b_StartLt := 0; b_EndLt := 1;
       b_GetParentBlocks := Err (ELib "parents") |} (ELib "parents") [] _ _ _ _); reflexivity.
Defined.

(** ** Saving a block *)

(** Closes the invariant of concrete tables. *)
Ltac concrete_inv := split; first [ evaluate | rewrite <- (Forall_forall _ _); evaluate ].

Lemma SaveParsedBlockData_ledger_witness :
  let w := world (O := unit) (busy query_schema) in
  let w' := (SaveParsedBlockData (events_of some_events 7) w).2 in
  (SaveParsedBlockData (events_of some_events 7) w).1 = Ok tt ∧
  db_inv (w_db w') ∧ evolves (w_db w) (w_db w') ∧ calm (w_db w) (w_db w').
Proof.
  intros w w'. split; [evaluate|].
  refine (SaveParsedBlockData_ledger (events_of some_events 7) w w' _ _ (surjective_pairing _)).
  concrete_inv.
Defined.

Lemma block_saved_once_witness :
  let w := world (O := unit) (busy query_schema) in
  let m := SaveParsedBlockData (events_of some_events 6) w in
  m.1 ≠ Ok tt ∧ w_db m.2 = w_db w.
Proof.
  intros w m. refine (block_saved_once (events_of some_events 6) w _ _ _ _ (surjective_pairing m));
    [concrete_inv|].
  exists (block_id 6). split; [done|evaluate].
Defined.

Lemma large_query_id_blocks_witness :
  let e := Build_Events [income 5] [] [] [] [] [{| jc_QueryId := 2 ^ 63 |}] in
  let w := world (O := unit) (busy query_schema) in
  let m := SaveParsedBlockData (events_of e 7) w in
  m.1 ≠ Ok tt ∧ w_db m.2 = w_db w.
Proof.
  intros e w m.
  refine (large_query_id_blocks (events_of e 7) {| jc_QueryId := 2 ^ 63 |} w _ _ _ _ (surjective_pairing m));
    [set_solver|by vm_compute].
Defined.

Lemma deployed_schema_blocks_witness :
  let w := world (O := unit) (busy deployed_schema) in
  let m := SaveParsedBlockData (events_of some_events 7) w in
  m.1 ≠ Ok tt ∧ w_db m.2 = w_db w.
Proof.
  intros w m.
  refine (deployed_schema_blocks (events_of some_events 7) w _ _ _ eq_refl _ (surjective_pairing m));
    [concrete_inv|done].
Defined.

(** One notificator, which sends; and the block 6 of [node]. *)
Definition senders : list (incomeNotification → ST (World incomeNotification) unit) := [output].

Lemma senders_no_db publish n : publish ∈ senders → preserves no_db (publish n).
Proof. intros ->%list_elem_of_singleton w. done. Qed.

Lemma processBlock_atomic_witness :
  let w := world (tables query_schema) in
  let m := processBlock book wallets node config senders (header_of 6) w in
  m.1 = Ok tt ∧
  (w_db m.2 = w_db w ∨
   m.1 = Ok tt ∧ ∃ e (w1 w2 : World incomeNotification), parse_block book wallets node (header_of 6) = Ok e ∧ w_db w1 = w_db w ∧
     save_events e w1 = (Ok tt, w2) ∧ w_db m.2 = w_db w2).
Proof.
  intros w m. split; [evaluate|].
  refine (processBlock_atomic book wallets node config senders senders_no_db (header_of 6) w _ _
            (surjective_pairing m)).
Defined.

Definition block6 : BlockEvents :=
  match parse_block book wallets node (header_of 6) with
  | Ok e => e | _ => events_of no_events 0
  end.

Lemma notified_not_saved_witness :
  let w := world (busy query_schema) in
  let w1 := (pushNotifications book config senders block6 w).2 in
  let w' := (SaveParsedBlockData block6 w1).2 in
  length (w_out w1) = 2%nat ∧
  processBlock book wallets node config senders (header_of 6) w = ((SaveParsedBlockData block6 w1).1, w') ∧
  w_db w' = w_db w ∧ w_out w' = w_out w1.
Proof.
  intros w w1 w'. split; [by vm_compute|].
  refine (notified_not_saved book wallets node config senders senders_no_db (header_of 6) block6 w w1 w'
            _ _ _ _ (surjective_pairing _) _); [done|..].
  - unfold block6. assert (is_Ok (parse_block book wallets node (header_of 6)) = true) as H
      by (vm_compute; reflexivity).
    by destruct (parse_block book wallets node (header_of 6)).
  - apply (injective_projections _ _); [evaluate|reflexivity].
  - evaluate.
Defined.

(** ** The processes together *)

(** What a call leads to when nothing fails. *)
Definition after (m : ST (World unit) unit) (s : State) : State :=
  {| s_db := w_db (m (world (s_db s))).2; s_picked := s_picked s |}.
Definition pick (s : State) : State :=
  {| s_db := s_db s;
     s_picked := result [] (GetExternalWithdrawalTasks 250 (world (O := unit) (s_db s))) |}.
Definition pay (u : UUID) (s : State) : State :=
  {| s_db := w_db (CreateExternalWithdrawals (s_picked s) u (2000 * second) (world (O := unit) (s_db s))).2;
     s_picked := [] |}.

Definition asked : WithdrawalRequest :=
  {| wq_QueryID := "q"; wq_UserID := "u"; wq_Currency := TonSymbol; wq_Amount := 5;
     wq_Bounceable := false; wq_IsInternal := false; wq_Destination := addr32 9; wq_Comment := "" |}.
Definition save (es : Events) (n : Z) (s : State) : State := after (SaveParsedBlockData (events_of es n)) s.
Definition only_paid (u : UUID) (lt : Z) (failed : bool) : Events := Build_Events [] [] [] [] [paid u 9 lt failed] [].

(** A request is made, picked, paid by a message that fails, picked and paid
    again, and the second message succeeds. *)
Definition made : State := after (do! _ <- CreateWithdrawalRequest asked; st_ret tt) (initial query_schema).
Definition paying : State := pay (uuid16 40) (pick made).
Definition failed : State := save (only_paid (uuid16 40) 5 true) 6 paying.
Definition again : State := pay (uuid16 41) (pick failed).
Definition settled : State := save (only_paid (uuid16 41) 9 false) 7 again.

Lemma after_step m s : call m → step (O := unit) s (after m s).
Proof. intros Hm. by apply (step_call m s (world (s_db s)) _ _ Hm eq_refl (surjective_pairing _)). Qed.

Lemma pick_step s :
  s_picked s = [] → is_Ok (GetExternalWithdrawalTasks 250 (world (O := unit) (s_db s))).1 = true →
  step (O := unit) s (pick s).
Proof.
  intros Hs Ho. eapply (step_pick 250 s (world (s_db s)) _ _ _ eq_refl Hs); [by apply (result_Ok [])|done].
Qed.

Lemma pay_step u s : step (O := unit) s (pay u s).
Proof. by apply (step_pay u _ s (world (s_db s)) _ _ eq_refl (surjective_pairing _)). Qed.

Lemma made_reachable : reachable (O := unit) query_schema made.
Proof. apply rtc_once, after_step, call_request. Qed.

Lemma made_paying : rtc (step (O := unit)) made paying.
Proof. eapply rtc_l; [apply pick_step; by vm_compute|]. apply rtc_once, pay_step. Qed.

Lemma paying_failed : rtc (step (O := unit)) paying failed.
Proof. apply rtc_once, after_step, call_block. Qed.

Lemma failed_settled : rtc (step (O := unit)) failed settled.
Proof.
  eapply rtc_l; [apply pick_step; by vm_compute|]. eapply rtc_l; [apply pay_step|].
  apply rtc_once, after_step, call_block.
Qed.

Lemma failed_reachable : reachable (O := unit) query_schema failed.
Proof.
  unfold reachable. etrans; [apply made_reachable|]. etrans; [apply made_paying|apply paying_failed].
Qed.

Lemma settled_reachable : reachable (O := unit) query_schema settled.
Proof. unfold reachable. etrans; [apply failed_reachable|apply failed_settled]. Qed.

Lemma reachable_ledger_witness :
  length (external_withdrawals (s_db settled)) = 2%nat ∧
  db_inv (s_db settled) ∧ payable (map et_QueryID (s_picked settled)) (s_db settled).
Proof.
  split; [evaluate|]. refine (reachable_ledger query_schema settled _). apply settled_reachable.
Defined.

Lemma no_double_payment_witness :
  ∃ r2, last (external_withdrawals (s_db settled)) = Some r2 ∧ xw_failed r2 = false ∧
    ∀ r1, r1 ∈ external_withdrawals (s_db settled) →
      xw_query_id r1 = xw_query_id r2 → xw_failed r1 = false → r1 = r2.
Proof.
  assert (xw_failed <$> last (external_withdrawals (s_db settled)) = Some false) as H by evaluate.
  destruct (last (external_withdrawals (s_db settled))) as [r2|] eqn:E; [|discriminate H].
  exists r2. injection H as H. split_and!; [reflexivity|exact H|]. intros r1 H1 Hq Hf.
  exact (no_double_payment query_schema settled r1 r2 settled_reachable H1 (last_Some_elem_of _ _ E) Hq Hf H).
Defined.

Lemma offered_unpaid_witness :
  let w := world (O := unit) (s_db failed) in
  let tasks := result [] (GetExternalWithdrawalTasks 250 w) in
  map et_QueryID tasks = [1] ∧ NoDup (map et_QueryID tasks) ∧ (length tasks ≤ 250)%nat ∧
  ∀ t, t ∈ tasks →
    (∃ r, r ∈ withdrawal_requests (s_db failed) ∧ wr_processing r = false ∧ t = task_of_request r) ∧
    ∀ x, x ∈ external_withdrawals (s_db failed) → xw_query_id x = et_QueryID t → xw_failed x = true.
Proof.
  intros w tasks. split; [evaluate|].
  refine (offered_unpaid query_schema failed 250 w _ tasks failed_reachable (w_db_world _) _).
  by apply (result_Ok []).
Defined.

Lemma failure_is_final_witness :
  (∀ r, r ∈ internal_withdrawals (s_db failed) → iwr_failed r = true →
     r ∈ internal_withdrawals (s_db settled)) ∧
  (∀ r, r ∈ external_withdrawals (s_db failed) → xw_failed r = true →
     ∃ r', r' ∈ external_withdrawals (s_db settled) ∧ xw_msg_uuid r' = xw_msg_uuid r ∧
       xw_address r' = xw_address r ∧ xw_failed r' = true ∧ xw_processed_lt r' = xw_processed_lt r).
Proof. exact (failure_is_final query_schema failed settled failed_reachable failed_settled). Defined.

Lemma records_stay_witness :
  external_incomes (s_db failed) ⊆ external_incomes (s_db settled) ∧
  internal_incomes (s_db failed) ⊆ internal_incomes (s_db settled) ∧
  block_data (s_db failed) ⊆ block_data (s_db settled) ∧
  (∀ r, r ∈ withdrawal_requests (s_db failed) →
     ∃ r', r' ∈ withdrawal_requests (s_db settled) ∧ wr_step r r') ∧
  (∀ r, r ∈ external_withdrawals (s_db failed) →
     ∃ r', r' ∈ external_withdrawals (s_db settled) ∧ xw_step r r') ∧
  (∀ r, r ∈ internal_withdrawals (s_db failed) →
     ∃ r', r' ∈ internal_withdrawals (s_db settled) ∧ iw_step r r').
Proof. exact (records_stay query_schema failed settled failed_reachable failed_settled). Defined.

(** ** Reading a block *)

(** A jetton transfer notification of [amount] from the stranger [9], sent by
    the jetton deposit to its owner; and a message nobody understands. *)
Definition notify (amount : Z) : Message addr cell := MsgTypeInternal {|
  im_SrcAddr := Some (std 3); im_DstAddr := Some (std 4); im_Amount := 1; im_CreatedLT := 11;
  im_CreatedAt := 100; im_Comment := "";
  im_Payload := Some (mkCell ([StoreUInt 0x7362d09c 32; StoreUInt 0 64; StoreBigCoins amount;
                               StoreAddr (std 9); StoreBoolBit false] ++ comment_stores "hi")) |}.
Definition with_outs (outs : list (Message addr cell)) (tx : Transaction addr cell) : Transaction addr cell :=
  {| tx_Now := tx_Now tx; tx_LT := tx_LT tx; tx_In := tx_In tx; tx_Description := tx_Description tx;
     tx_Out := Some {| ml_ToSlice := Ok outs; ml_All := map (λ _, mkCell []) outs |} |}.

Definition jetton_group : transactions :=
  {| ts_Address := addr32 3; ts_WalletType := Some JettonDepositWallet;
     ts_Transactions := [with_outs [notify 30] (incoming 9 3 1 10 None)] |}.
Definition deposit_group : transactions :=
  {| ts_Address := addr32 2; ts_WalletType := Some TonDepositWallet;
     ts_Transactions := [incoming 9 2 50 5 None; incoming 9 2 70 7 None] |}.

(** What a computation that succeeds returns. *)
Definition value {A} (a0 : A) (r : res A) : A := match r with Ok a => a | _ => a0 end.

Lemma value_Ok {A} (a0 : A) r : is_Ok r = true → r = Ok (value a0 r).
Proof. by destruct r. Qed.

(** A block with two payments to the deposit [2], one to a stranger and a notice
    to the jetton deposit [3], whose balance grows by more than it is told. *)
Definition mixed_ids : list TransactionShortInfo :=
  ids ++ [{| ti_Account := account 3; ti_LT := 10; ti_Hash := [10] |}].
Definition mixed_node : Blockchain := {|
  GetTransactionIDsFromBlock _ := Ok mixed_ids;
  GetTransactionFromBlock blk id :=
    if decide (ti_LT id = 10) then Ok (with_outs [notify 30] (incoming 9 3 1 10 None))
    else GetTransactionFromBlock node blk id;
  GenerateWallet := GenerateWallet node;
  GenerateHighloadWallet := GenerateHighloadWallet node;
  GetAccountCurrentState := GetAccountCurrentState node;
  GetWalletData := GetWalletData node;
  GetLastWalletData := GetLastWalletData node;
  JettonClient_GetJettonWallet := JettonClient_GetJettonWallet node;
  WaitStatus := WaitStatus node;
|}.

Lemma block_events_witness :
  let h := header_of 6 in
  let e := value (events_of no_events 0) (parse_block book wallets mixed_node h) in
  map ei_Amount (ExternalIncomes (be_Events e)) = [30; 0; 70; 50; 70] ∧
  be_Block e = h ∧ ∃ l accounts es,
    GetTransactionIDsFromBlock mixed_node (sb_BlockIDExt h) = Ok l ∧ NoDup accounts ∧
    (∀ a, a ∈ accounts ↔ known book a ∧ ∃ id, id ∈ l ∧ ti_Account id = Value a) ∧
    Forall2 (λ a ev, ∃ t txs, GetWalletType book a = Ok (Some t) ∧
      Forall2 (λ id tx, GetTransactionFromBlock mixed_node (sb_BlockIDExt h) id = Ok tx) (ids_of a l) txs ∧
      account_meaning book wallets h a txs t ev) accounts es ∧
    be_Events e = foldl Append no_events es.
Proof.
  intros h e. split; [by vm_compute|].
  refine (block_events book wallets mixed_node h e _). by apply value_Ok.
Defined.

(** The balance grows by 100, of which 30 are notified. *)
Lemma jetton_accounting_witness :
  let blk := Some (block_id 6) in let prv := Some (block_id 5) in
  let e := value no_events (processJettonDepositWalletTXs book wallets jetton_group blk prv) in
  map ei_Amount (ExternalIncomes e) = [30; 0; 70] ∧
  ∃ p before after,
    for_res (processJettonDepositTX book) jetton_pass_start (ts_Transactions jetton_group) = Ok p ∧
    GetJettonBalance wallets (ToTonutilsAddressStd 0 (addr32 3)) prv = Ok before ∧
    GetJettonBalance wallets (ToTonutilsAddressStd 0 (addr32 3)) blk = Ok after ∧
    let income := after - before + jp_totalWithdrawalsAmount p in
    sumZ ei_Amount (ExternalIncomes e) =
      if decide (income > jp_knownIncomeAmount p ∧ jp_unknownTransactions p ≠ [])
      then income else jp_knownIncomeAmount p.
Proof.
  intros blk prv e. split; [by vm_compute|].
  refine (jetton_accounting book wallets jetton_group blk prv e _). by apply value_Ok.
Defined.

(** A batch that pays the strangers [9] and [10] and the deposit [2]. *)
Definition payment (a amount : Z) : cell :=
  mkCell [StoreRef (msg_cell {| om_Bounce := false; om_DstAddr := std a; om_Amount := amount;
                                om_Body := None; om_StateInit := None |})].
Definition batch : ExternalMessage tonaddr Cell :=
  {| em_DstAddr := Some (std 1);
     em_Payload := Some (mkCell [StoreUInt 40 32; StoreUInt (2 ^ 32) 64; StoreRef (payment 9 5);
                                 StoreRef (payment 10 6); StoreRef (payment 2 7)]) |}.
Definition sent (a amount : Z) : Message addr cell := MsgTypeInternal {|
  im_SrcAddr := Some (std 1); im_DstAddr := Some (std a); im_Amount := amount; im_CreatedLT := 12;
  im_CreatedAt := 100; im_Comment := ""; im_Payload := None |}.
Definition batch_tx : Transaction tonaddr Cell := with_outs [sent 9 5] (incoming 9 1 0 12 None).
Definition batch_set : UUID * gset Address := default (uuid16 0, ∅) (value None (parseExternalMessage (Some batch))).

Lemma batch_parsed : parseExternalMessage (Some batch) = Ok (Some (batch_set.1, batch_set.2)).
Proof.
  assert (match parseExternalMessage (Some batch) with Ok (Some _) => true | _ => false end = true)
    as H by (vm_compute; reflexivity).
  unfold batch_set. by destruct (parseExternalMessage (Some batch)) as [[[u s]|]| | |].
Qed.

Lemma parseExternalMessage_unique_witness :
  elements batch_set.2 ≡ₚ [addr32 9; addr32 10; addr32 2] ∧
  ∃ info l, getHighLoadWalletExtMsgInfo batch = Ok info ∧ batch_set.1 = hi_UUID info ∧
    Forall2 (λ c a, batch_address c = Ok (Some a)) (hi_Messages info) l ∧ NoDup l ∧
    batch_set.2 = list_to_set l.
Proof.
  split; [evaluate|]. exact (parseExternalMessage_unique batch batch_set.1 batch_set.2 batch_parsed).
Defined.

Lemma batch_outcome_witness :
  let e := value no_events (processTonHotWalletExternalInMsg book batch batch_tx) in
  map (λ w, (ToBytes (ew_To w), ew_IsFailed w)) (ExternalWithdrawals e) =
    [(account 9, false); (account 10, true)] ∧
  ∃ messages events addrsOut,
    out_messages batch_tx = Ok messages ∧
    for_res (hot_wallet_out book batch_set.1) (no_events, ∅) messages = Ok (events, addrsOut) ∧
    (∀ w, w ∈ ExternalWithdrawals e → ew_ExtMsgUuid w = batch_set.1) ∧
    (∀ w, w ∈ ExternalWithdrawals e → ew_IsFailed w = false → ew_To w ∈ addrsOut) ∧
    (∀ w, w ∈ ExternalWithdrawals e → ew_IsFailed w = true →
       ew_To w ∈ batch_set.2 ∧ (ew_To w ∉ addrsOut) ∧ GetWalletType book (ew_To w) = Ok None) ∧
    NoDup (map ew_To (filter (λ w, ew_IsFailed w = true) (ExternalWithdrawals e))) ∧
    (∀ a, a ∈ batch_set.2 → a ∉ addrsOut → GetWalletType book a = Ok None →
       failed_withdrawal batch_set.1 a ∈ ExternalWithdrawals e).
Proof.
  intros e. split; [vm_compute; reflexivity|].
  refine (batch_outcome book batch batch_tx e batch_set.1 batch_set.2 batch_parsed _).
  by apply value_Ok.
Defined.

Lemma filterTXs_groups_witness :
  let blk := Some (block_id 6) in
  let gs := value [] (filterTXs book node blk ids) in
  map (λ g, (ToBytes (ts_Address g), map tx_LT (ts_Transactions g))) gs = [(account 2, [5; 7])] ∧
  NoDup (map ts_Address gs) ∧
  (∀ g, g ∈ gs →
     (∃ t, GetWalletType book (ts_Address g) = Ok (Some t) ∧ ts_WalletType g = Some t) ∧
     Forall2 (λ id tx, GetTransactionFromBlock node blk id = Ok tx)
       (ids_of (ts_Address g) ids) (ts_Transactions g)) ∧
  (∀ id a, id ∈ ids → ti_Account id = Value a → known book a → ∃ g, g ∈ gs ∧ ts_Address g = a).
Proof.
  intros blk gs. split; [vm_compute; reflexivity|].
  refine (filterTXs_groups book node blk ids gs _). by apply value_Ok.
Defined.

(** A transfer of the deposit [2] to the hot wallet, and another elsewhere. *)
Definition order : ExternalMessage tonaddr Cell := {| em_DstAddr := Some (std 2); em_Payload := None |}.
Definition swept : Transaction tonaddr Cell := with_outs [sent 1 5; sent 9 6] (incoming 9 2 0 13 None).

Lemma deposit_external_paired_witness :
  let e := value no_events (processTonDepositWalletExternalInMsg book order swept) in
  length (InternalWithdrawals e) = 1%nat ∧
  SendingConfirmations e = map confirmation_of (InternalWithdrawals e) ∧
  (∀ w, w ∈ InternalWithdrawals e → iw_IsFailed w = false ∧
     AddressFromTonutilsAddress (em_DstAddr order) = Ok (iw_From w)) ∧
  ExternalIncomes e = [] ∧ InternalIncomes e = [] ∧
  ExternalWithdrawals e = [] ∧ WithdrawalConfirmations e = [].
Proof.
  intros e. split; [vm_compute; reflexivity|].
  refine (deposit_external_paired book order swept e _). by apply value_Ok.
Defined.

(** ** The withdrawal processor *)

Definition task : ExternalWithdrawalTask :=
  {| et_QueryID := 1; et_Currency := "USDT"; et_Amount := 5; et_Destination := addr32 9;
     et_Bounceable := false; et_Comment := "thanks" |}.

Lemma jetton_payment_read_back_witness :
  let msg := BuildJettonWithdrawalMessage task (std 1) (std 20) in
  let m := {| im_SrcAddr := Some (std 1); im_DstAddr := Some (std 20); im_Amount := 0; im_CreatedLT := 1;
              im_CreatedAt := 100; im_Comment := "";
              im_Payload := match msg with Ok x => om_Body (wm_Message x) | _ => None end |} in
  0 ≤ et_Amount task ∧
  ∃ tr, DecodeJettonTransfer (Some m) = Ok tr ∧ jt_Amount tr = 5 ∧
    AddressFromTonutilsAddress (jt_Destination tr) = Ok (addr32 9) ∧ jt_Comment tr = "thanks".
Proof.
  intros msg m. split; [done|].
  assert (is_Ok msg = true) as H by (vm_compute; reflexivity). destruct msg as [x| | |] eqn:E; try discriminate H.
  exact (jetton_payment_read_back task (std 1) (std 20) x m ltac:(done) E eq_refl).
Defined.

Lemma decreaseBalances_spec_witness :
  decreaseBalances {[ TonSymbol := 10 ^ 9; "USDT" := 30 ]} "USDT" 20 =
    Ok (false, <[TonSymbol := 10 ^ 9 - JettonTransferTonAmount]>
                 (<["USDT" := 10]> {[ TonSymbol := 10 ^ 9; "USDT" := 30 ]})) ∧
  decreaseBalances {[ TonSymbol := 10; "USDT" := 30 ]} "USDT" 20 =
    Ok (true, {[ TonSymbol := 10; "USDT" := 30 ]}).
Proof.
  split.
  - rewrite (decreaseBalances_spec {[ TonSymbol := 10 ^ 9; "USDT" := 30 ]} "USDT" 20 (10 ^ 9) 30);
      [by vm_compute..].
  - rewrite (decreaseBalances_spec {[ TonSymbol := 10; "USDT" := 30 ]} "USDT" 20 10 30); [by vm_compute..].
Defined.

(** Two requests: one to the stranger [10], one to an address of the processor. *)
Definition two_requests : DB :=
  set_withdrawal_requests [request_row 1 2 false; request_row 2 10 false] (tables query_schema).
Definition random63 : ST (World unit) Z := st_ret 42.
Definition no_withdrawals : withdrawals := Build_withdrawals [] [] [] [].
Definition batch_of (w : World unit) : withdrawals :=
  result no_withdrawals (buildWithdrawalMessages config book node wallets withdrawal_repo random63 w).

Lemma buildWithdrawalMessages_budget_witness :
  let w := world two_requests in
  map et_QueryID (w_External (batch_of w)) = [2] ∧
  (length (w_Messages (batch_of w)) ≤ 251)%nat ∧
  (∃ ton0, ({[ TonSymbol := 1000 ]} : balances) !! TonSymbol = Some ton0 ∧
     sumZ ProcessorFacts.cost (w_Messages (batch_of w)) ≤ ton0) ∧
  (∀ cur, cur ≠ TonSymbol → ProcessorFacts.paid cur (w_External (batch_of w)) ≤
     default 0 (({[ TonSymbol := 1000 ]} : balances) !! cur)) ∧
  (∀ t, t ∈ w_External (batch_of w) → GetWalletType book (et_Destination t) = Ok None) ∧
  ∃ offered (w1 w2 : World unit), GetExternalWithdrawalTasks 250 w1 = (Ok offered, w2) ∧
    w_External (batch_of w) `sublist_of` offered.
Proof.
  intros w. split; [vm_compute; reflexivity|].
  refine (buildWithdrawalMessages_budget config book node wallets withdrawal_repo random63 w (batch_of w) _
            {[ TonSymbol := 1000 ]} _ _ _ _).
  - intros n x ts x' ([= <-] & _)%query_Ok. rewrite length_map. unfold service_rows.
    rewrite length_take. lia.
  - by vm_compute.
  - intros cur z [_ <-]%lookup_singleton_Some. done.
  - by apply (result_Ok no_withdrawals).
Defined.

Lemma cold_request_repeats_witness :
  let w := world (O := unit) (busy query_schema) in
  let w' := (cold_ton config withdrawal_repo (std 50) (addr32 50) 1000 w).2 in
  all_pending (addr32 50) (w_db w) ∧ c_HotWalletMax (cfg_Ton config) < 1000 ∧
  (∃ r, withdrawal_requests (w_db w') = withdrawal_requests (w_db w) ++ [r] ∧
     wr_amount r = 900 ∧ wr_dest_address r = addr32 50 ∧ wr_currency r = TonSymbol ∧
     wr_processing r = false) ∧ all_pending (addr32 50) (w_db w').
Proof.
  intros w w'.
  assert (all_pending (addr32 50) (w_db w)) as Hp
    by (split; [reflexivity|rewrite <- (Forall_forall _ _); evaluate]).
  split; [exact Hp|]. split; [reflexivity|].
  refine (cold_request_repeats config (std 50) (addr32 50) 1000 w w' Hp eq_refl _).
  refine (done_Ok (cold_ton config withdrawal_repo (std 50) (addr32 50) 1000 w) _). vm_compute. reflexivity.
Defined.

(** The first check finds a block from second 900, the second one from 999. *)
Definition two_checks : ST (World Z) ShardBlockHeader := λ w,
  (Ok (header_of (if decide (w_out w = []) then 900 else 999)), w).

Lemma waitSync_synced_witness :
  let w := world (empty_db query_schema) in
  let m := waitSync two_checks (output 1) [false; false] w in
  ∃ w' block w1, m = Some (Ok tt, w', []) ∧ w_out w' = [1] ∧ two_checks w1 = (Ok block, w') ∧
    time_Sub (w_now w') (time_Unix (sb_GenUtime block)) ≤ AllowableBlockchainLagging.
Proof.
  intros w m. assert (m = Some (Ok tt, with_out [1] w, [])) as Hm by by vm_compute.
  destruct (waitSync_synced two_checks (output 1) [false; false] [] w (with_out [1] w)) as (block & w1 & H1 & H2);
    [by repeat constructor|exact Hm|].
  exists (with_out [1] w), block, w1. split_and!; [exact Hm|reflexivity|exact H1|exact H2].
Defined.

(** ** Notifications and the node *)

Lemma webhook_Publish_attempts_witness :
  let answers i := if decide (i = 0%nat) then NoAnswer else Answer 200 true in
  let p := webhook_Publish {| wc_uri := "http://a"; wc_token := "t" |} (Some "{}") answers in
  p.1 = Ok tt ∧ length p.2 = 2%nat ∧
  answers (length p.2 - 1)%nat = Answer 200 true ∧
  (∀ j, (S j < length p.2)%nat → answers j ≠ Answer 200 true).
Proof.
  intros answers p. split; [reflexivity|]. split; [reflexivity|].
  destruct (webhook_Publish_attempts {| wc_uri := "http://a"; wc_token := "t" |} "{}" answers p.1 p.2)
    as (_ & _ & H & _); [reflexivity|]. exact (H eq_refl).
Defined.

(** Two pages: the entries 7 and 5, then 6. *)
Definition entry (lt : Z) : TransactionShortInfo := {| ti_Account := account 2; ti_LT := lt; ti_Hash := [lt] |}.
Definition pages (from : option TransactionShortInfo) : res (list TransactionShortInfo * bool) :=
  match from with
  | None => Ok ([entry 7; entry 5], true)
  | Some _ => Ok ([entry 6], false)
  end.

Lemma GetTransactionIDs_complete_witness :
  ∃ l', connection_GetTransactionIDsFromBlock pages 2 = Some (Ok l') ∧
    l' ≡ₚ [entry 7; entry 5; entry 6] ∧ StronglySorted (λ a b, ti_LT a ≤ ti_LT b) l'.
Proof.
  refine (GetTransactionIDs_complete pages [entry 7; entry 5; entry 6] 2 2 _ _); [|lia].
  eapply (paged_more pages None [entry 7; entry 5]); [reflexivity..|]. by apply paged_last.
Defined.

(** ** The interface *)

Definition request_body : CreateWithdrawalBody :=
  {| cw_UserID := "u"; cw_QueryID := "q"; cw_Currency := TonSymbol; cw_Amount := 5;
     cw_Destination := "nowhere"; cw_Comment := "" |}.
Definition gen (start : Z) : res (TonWallet * Z) := Ok (basic, start).
Definition no_proxy (owner master : tonaddr) (start : Z) : res (JettonProxy * tonaddr) := Err (EText "none").

Lemma createWithdrawal_forgets_witness :
  checkToken "Bearer tok" (cfg_APIToken config) = true ∧
  serve config repository request_repo book gen no_proxy (std 1) "Bearer tok"
    (RCreateWithdrawal (inl request_body)) (world (O := unit) (tables query_schema)) =
    (Ok {| rs_status := StatusOK; rs_body := BWithdrawalID 0 |}, world (tables query_schema)).
Proof.
  split; [reflexivity|]. exact (createWithdrawal_forgets config gen no_proxy (std 1) repository request_repo
    book request_body "Bearer tok" (world (O := unit) (tables query_schema)) eq_refl).
Defined.

Lemma NewHandler_answers_500_witness :
  serve config nil_Repository nil_RequestRepo nil_AddressBook gen no_proxy (std 1) "Bearer tok" RSync
    (world (O := unit) (tables query_schema)) =
    (Ok {| rs_status := StatusInternalServerError; rs_body := BEmpty |}, world (tables query_schema)).
Proof.
  refine (NewHandler_answers_500 config gen no_proxy (std 1) "Bearer tok" RSync
    (world (O := unit) (tables query_schema)) eq_refl _). intros [].
Defined.

(** The searches of the wallets, with fuel for the identifiers that occur. *)
Definition searched {A} (r : option (res A)) : res A := default (Err (ELib "fuel")) r.
Definition found (start : Z) : res (TonWallet * Z) := searched (GenerateSubWallet node 3 30 20 "seed" start).
Definition found_proxy (owner master : tonaddr) (start : Z) : res (JettonProxy * tonaddr) :=
  searched (GenerateDepositJettonWalletForProxy node config 30 20 owner master start).

Lemma searched_finds {A} n (search : nat → Z → option (res A)) :
  finds search (λ start, searched (search n start)).
Proof. intros start x H. exists n. destruct (search n start) as [r|]; [|done]. simpl in H. by rewrite H. Qed.

Lemma create_ton_deposit_witness :
  let w := world (O := unit) (tables query_schema) in
  let m := uc_CreateAddress config repository found found_proxy (std 1) 5 TonSymbol w in
  is_Ok m.1 = true ∧
  ∃ r, ton_wallets (w_db m.2) = ton_wallets (w_db w) ++ [r] ∧ tw_type r = TonDepositWallet ∧
    tw_subwallet_id r = 20 ∧ ∀ x, x ∈ ton_wallets (w_db w) → tw_subwallet_id x < tw_subwallet_id r.
Proof.
  intros w m. assert (is_Ok m.1 = true) as Hm by (vm_compute; reflexivity). split; [exact Hm|].
  destruct (create_ton_deposit config node 3 20 found found_proxy (std 1)
    (searched_finds 30 (λ fuel, GenerateSubWallet node 3 fuel 20 "seed"))
    5 w m.2 (result "" m) (result_Ok "" m Hm)) as (r & Hr & _ & _ & Ht & _ & _ & _ & Hid).
  exists r. split_and!; [exact Hr|exact Ht| |].
  - assert (map tw_subwallet_id (ton_wallets (w_db m.2)) = [1; 11; 12; 20]) as E by (vm_compute; reflexivity).
    rewrite Hr in E. injection E as E. exact E.
  - apply Hid. rewrite <- (Forall_forall _ _). evaluate.
Defined.

Lemma create_jetton_deposit_witness :
  let w := world (O := unit) (tables query_schema) in
  let m := uc_CreateAddress config repository found found_proxy (std 1) 5 "USDT" w in
  "USDT" ≠ TonSymbol ∧ is_Ok m.1 = true ∧
  ∃ t jw, ton_wallets (w_db m.2) = ton_wallets (w_db w) ++ [t] ∧
    jetton_wallets (w_db m.2) = jetton_wallets (w_db w) ++ [jw] ∧
    tw_subwallet_id t = jw_subwallet_id jw ∧ inShard (jw_address jw) 20 = true.
Proof.
  intros w m. assert (is_Ok m.1 = true) as Hm by (vm_compute; reflexivity).
  assert ("USDT" ≠ TonSymbol) as Hc by (vm_compute; discriminate). split_and!; [exact Hc|exact Hm|].
  destruct (create_jetton_deposit config node 20 found found_proxy (std 1)
    (λ owner master, searched_finds 30 (λ fuel, GenerateDepositJettonWalletForProxy node config fuel 20 owner master))
    (λ _ _, eq_refl) 5 "USDT" w m.2 m.1 Hc (surjective_pairing m)) as [_ H].
  destruct (H (result "" m)) as (j & p & raw & t & jw & _ & _ & _ & Ht & Hj & _ & _ & _ & _ & _ & Hid & _ & _ & Hs & _).
  { pose proof (result_Ok "" m Hm) as E. apply (f_equal fst) in E. exact E. }
  exists t, jw. split_and!; [exact Ht|exact Hj|exact (eq_sym Hid)|exact Hs].
Defined.

(** An income of the jetton deposit [3] as the scanner records it on the side
    of the hot wallet: under its owner [4]. *)
Definition owner_income : internal_income_row :=
  {| in_lt := 5; in_utime := 100; in_deposit_address := addr32 4; in_amount := 50; in_memo := uuid16 1 |}.

Lemma jetton_income_not_counted_witness :
  in_deposit_address owner_income = addr32 4 ∧ ∀ k, (k, Some owner_income) ∉
    income_rows in_deposit_address [owner_income] "u" [TonDepositWallet; JettonOwner] (tables query_schema).
Proof.
  split; [reflexivity|].
  refine (jetton_income_not_counted [owner_income] (tables query_schema) "u" [TonDepositWallet; JettonOwner]
    (ton_row JettonOwner 12 4) owner_income eq_refl _ _).
  - assert (∀ tw, tw ∈ ton_wallets (tables query_schema) → tw_address tw = addr32 4 →
      12 = tw_subwallet_id tw) as H by (rewrite <- (Forall_forall _ _); evaluate).
    intros tw Hin Ha. exists (jetton_row 12 3). split; [apply list_elem_of_here|exact (H tw Hin Ha)].
  - rewrite <- (Forall_forall _ _); evaluate.
Defined.
