(* ===== verification/RunWitnesses.v ===== *)
(** * Witnesses of whole runs

    The witnesses of the theorems about the processes together, the start of
    the program and the tasks, at the states and inputs
    of [Fixtures] and [Witnesses]. *)

From S2P Require Import Prelude TonUtils Config Models Core Db AddressBook Fixtures Repository.
From S2P Require Import WithdrawalRepository Ledger BlockScanner Protocol Lifecycle Tasks.
From S2P Require Import Shard Messages Processor ProcessorFacts Sending Wallets Restart Blockchain Api Incomes Settlement.
From S2P Require Import Reports Router Processes Main Witnesses.
From stdpp Require Import pretty.
From Stdlib Require Import Ascii.

Local Open Scope string_scope.
Local Open Scope list_scope.
Local Open Scope Z_scope.

Import Toy Fix.

(** ** Payments *)

Lemma payments_refine_witness :
  map (λ s, a_status (abs s) 1) [made; paying; failed; again; settled] =
    [Unpaid; Paying; Unpaid; Paying; Paid] ∧
  rtc astep ainitial (abs failed) ∧ astep (abs failed) (abs (pick failed)).
Proof.
  split; [evaluate|].
  destruct (payments_refine query_schema failed failed_reachable) as [Hr Hs]. split; [exact Hr|].
  apply Hs, pick_step; by vm_compute.
Defined.

(** A turn of the withdrawal processor in which the message is not sent. *)
Definition build_batch (l : list (WalletMessage tonaddr Cell)) : ST (World unit) (ExternalMessage tonaddr Cell) :=
  st_ret batch.
Definition send_fails (m : ExternalMessage tonaddr Cell) : ST (World unit) unit := st_lift (Err (ELib "send")).
Definition pass : ST (World unit) unit :=
  withdrawals_pass config book node wallets withdrawal_repo None random63 build_batch send_fails.

Lemma turns_step_witness :
  let w := world two_requests in
  length (external_withdrawals (w_db (pass w).2)) = 1%nat ∧
  rtc (step (O := unit)) {| s_db := w_db w; s_picked := [] |} {| s_db := w_db (pass w).2; s_picked := [] |}.
Proof.
  intros w. split; [by vm_compute|].
  refine (turns_step pass w (pass w).2 (pass w).1 _ (surjective_pairing _)).
  apply turn_running, run_withdrawals; intros; by split.
Defined.

Lemma only_requested_paid_witness :
  ∃ x, last (external_withdrawals (s_db settled)) = Some x ∧
    ∃ r, r ∈ withdrawal_requests (s_db settled) ∧ wr_query_id r = xw_query_id x.
Proof.
  assert (xw_failed <$> last (external_withdrawals (s_db settled)) = Some false) as H by evaluate.
  destruct (last (external_withdrawals (s_db settled))) as [x|] eqn:E; [|discriminate H].
  exists x. injection H as H. split; [reflexivity|].
  exact (only_requested_paid query_schema settled x settled_reachable (last_Some_elem_of _ _ E) H).
Defined.

(** ** Incomes *)

(** A client that lists the block in two pages: the transactions 7 and 6, then
    5; those of the accounts [2] and [9] are payments they receive from [9]. *)
Definition listing (from : option TransactionShortInfo) : res (list TransactionShortInfo * bool) :=
  match from with
  | None => Ok (rev (drop 1 ids), true)
  | Some _ => Ok (take 1 ids, false)
  end.
Definition client : Client := {|
  cl_GetBlockTransactionsV2 _ := listing;
  cl_GetTransaction _ a lt := Ok (incoming 9 (default 0 (head (addr_Data a))) (10 * lt) lt None);
  cl_CurrentMasterchainInfo := Ok (block_id 6);
  cl_GetAccount _ _ := Ok {| ac_IsActive := true; ac_Balance := 1000; ac_Status := AccountStatusActive |};
  cl_LookupBlock _ _ n := Ok (block_id n);
  cl_RunGetMethod _ _ _ := [];
  cl_account_turns _ := [];
  cl_GetJettonWallet _ owner := Ok owner;
|}.

Lemma client_accounts id x tx :
  id ∈ rev (drop 1 ids) ++ take 1 ids → ti_Account id = Value x →
  GetTransactionFromBlock (connection_ops 2 client) (Some (block_id 6)) id = Ok tx → of_account x tx.
Proof.
  intros Hin Hx H. injection H as <-. split; [|by intros ms m [= <-] Hm%elem_of_nil].
  intros m [= <-]. cbn in Hin.
  repeat apply elem_of_cons in Hin as [->|Hin]; [| | |by apply elem_of_nil in Hin];
    [assert (x = addr32 2) as -> by by apply dsig_eq|assert (x = addr32 9) as -> by by apply dsig_eq
    |assert (x = addr32 2) as -> by by apply dsig_eq]; vm_compute; reflexivity.
Qed.

Lemma ton_incomes_exact_witness :
  let bc := connection_ops 2 client in
  let w := world (tables query_schema) in
  let m := processBlock book wallets bc config senders (header_of 6) w in
  map xi_lt (external_incomes (w_db m.2)) = [5; 7] ∧
  ∃ ids txs new, ids ≡ₚ filter (λ id, ti_Account id = Value (addr32 2)) (rev (drop 1 Fix.ids) ++ take 1 Fix.ids) ∧
    StronglySorted (λ x y, ti_LT x ≤ ti_LT y) ids ∧
    Forall2 (λ id tx, GetTransactionFromBlock bc (Some (block_id 6)) id = Ok tx) ids txs ∧
    external_incomes (w_db m.2) = external_incomes (w_db w) ++ new ∧
    filter (λ r, xi_deposit_address r = addr32 2) new = omap (payment_row book (addr32 2)) txs.
Proof.
  intros bc w m. assert (map xi_lt (external_incomes (w_db m.2)) = [5; 7]) as Hrows
    by (vm_compute; reflexivity).
  split; [exact Hrows|].
  destruct (ton_incomes_exact book wallets config senders senders_no_db client 2 2
    (rev (drop 1 ids) ++ take 1 ids) (block_id 6) (header_of 6) (addr32 2) w m.2) as [H|H];
    [|lia|reflexivity|evaluate|exact client_accounts| | |exact H].
  - apply (paged_more _ _ _ (default (entry 0) (last (rev (drop 1 ids))))); [reflexivity..|].
    by apply paged_last.
  - apply done_Ok. vm_compute. reflexivity.
  - exfalso. rewrite H in Hrows. discriminate Hrows.
Defined.

(** The block holds the transaction [batch_tx] of the hot wallet: its message
    was to pay [9], [10] and the deposit [2], and it paid [9]. *)
Definition started : Transaction tonaddr Cell := {|
  tx_Now := 100; tx_LT := 12; tx_In := Some (MsgTypeExternalIn batch); tx_Out := tx_Out batch_tx;
  tx_Description := TransactionDescriptionOrdinary |}.
Definition hot_entry : TransactionShortInfo := {| ti_Account := account 1; ti_LT := 12; ti_Hash := [12] |}.
Definition hot_node : Blockchain := {|
  GetTransactionIDsFromBlock _ := Ok [hot_entry];
  GetTransactionFromBlock _ _ := Ok started;
  GenerateWallet := GenerateWallet node;
  GenerateHighloadWallet := GenerateHighloadWallet node;
  GetAccountCurrentState := GetAccountCurrentState node;
  GetWalletData := GetWalletData node;
  GetLastWalletData := GetLastWalletData node;
  JettonClient_GetJettonWallet := JettonClient_GetJettonWallet node;
  WaitStatus := WaitStatus node;
|}.
Definition two_payments : DB :=
  set_external_withdrawals [paying_row (uuid16 40) 1 9; paying_row (uuid16 40) 2 10]
    (set_withdrawal_requests [request_row 1 9 true; request_row 2 10 true] (tables query_schema)).

Lemma batch_settles_witness :
  let w := world two_payments in
  let m := processBlock book wallets hot_node config senders (header_of 7) w in
  map (λ r, (xw_processed_lt r, xw_failed r)) (external_withdrawals (w_db m.2)) =
    [(Some 12, false); (None, true)] ∧
  map wr_processing (withdrawal_requests (w_db m.2)) = [true; false] ∧
  (w_db m.2 = w_db w ∨
   ∃ r, r ∈ external_withdrawals (w_db m.2) ∧ xw_msg_uuid r = batch_set.1 ∧ xw_address r = addr32 10 ∧
    ((∃ o, o ∈ [sent 9 5] ∧ pays book_map o (addr32 10)) → is_Some (xw_processed_lt r)) ∧
    ((¬ ∃ o, o ∈ [sent 9 5] ∧ pays book_map o (addr32 10)) → xw_failed r = true)).
Proof.
  intros w m. split; [vm_compute; reflexivity|]. split; [vm_compute; reflexivity|].
  refine (batch_settles book_map wallets hot_node config senders senders_no_db (block_id 7) (header_of 7)
    [hot_entry] (addr32 1) hot_entry started batch batch_set.1 batch_set.2 [sent 9 5] (addr32 10) w m.2
    eq_refl eq_refl (list_elem_of_here _ _) _ _ eq_refl eq_refl batch_parsed _ _ _ _);
    [reflexivity|evaluate|vm_compute; reflexivity|evaluate|evaluate|].
  apply done_Ok. vm_compute. reflexivity.
Defined.

(** ** Sending *)

(** A pass over two requests: the one to the stranger [10] is paid. *)
Definition send (m : ExternalMessage tonaddr Cell) : ST (World (ExternalMessage tonaddr Cell)) unit := output m.

Lemma sent_is_recorded_witness :
  let w := world two_requests in
  let m := withdrawals_pass config book node wallets withdrawal_repo None (st_ret 42) (λ _, st_ret batch) send w in
  length (w_out m.2) = 1%nat ∧ map xw_query_id (external_withdrawals (w_db m.2)) = [2] ∧
  ∃ wd msg info, w_out m.2 = w_out w ++ [msg] ∧
    (∃ w1 w2 : World (ExternalMessage tonaddr Cell),
       buildWithdrawalMessages config book node wallets withdrawal_repo (st_ret 42) w1 = (Ok wd, w2)) ∧
    (∃ w1 w2 : World (ExternalMessage tonaddr Cell), st_ret batch w1 = (Ok msg, w2)) ∧
    getHighLoadWalletExtMsgInfo msg = Ok info ∧
    (∀ t, t ∈ w_External wd →
       new_external (hi_UUID info) (hi_TTL info) t ∈ external_withdrawals (w_db m.2)) ∧
    (∀ i, i ∈ w_Internal wd →
       new_internal (inw_Task i) (hi_TTL info) (inw_Memo i) ∈ internal_withdrawals (w_db m.2)).
Proof.
  intros w m. assert (length (w_out m.2) = 1%nat) as Hl by (vm_compute; reflexivity).
  split; [exact Hl|]. split; [vm_compute; reflexivity|].
  destruct (sent_is_recorded config book node wallets None (st_ret 42) (λ _, st_ret batch) send (λ m, m)
    ltac:(by intros ?) ltac:(by intros ??) ltac:(intros ??; split; [done|by eauto])
    w m.1 m.2 (surjective_pairing _)) as [H|H]; [|exact H].
  exfalso. rewrite H in Hl. discriminate Hl.
Defined.

(** ** Tasks *)

(** Three idle requests, two to one address: the older one is offered first. *)
Definition three_requests : DB :=
  set_withdrawal_requests [request_row 1 9 false; request_row 2 9 false; request_row 3 10 false]
    (empty_db query_schema).


(** The deposits [2] and [3] have incomes that nothing has swept. *)
Definition external_income (a lt : Z) : external_income_row :=
  {| xi_lt := lt; xi_utime := 100; xi_payer_workchain := Some 0; xi_deposit_address := addr32 a;
     xi_payer_address := Some (account 9); xi_amount := 50; xi_comment := "" |}.
Definition due : DB := set_external_incomes [external_income 2 5; external_income 3 6] (tables query_schema).



(** ** Reports *)

(** A driver that writes an identifier in decimal digits, as the interface does
    when it stores the wallets; the wallets of the user [5]. *)
Definition text_driver : PgLib := {|
  plan A l := l;
  plan_perm A l := Permutation_refl l;
  text_of_int64 z := Some (pretty z);
  text_ok _ := true;
  int8_of_string _ := None;
|}.
Definition due_of_5 : DB :=
  set_ton_wallets (map (λ r, {| tw_subwallet_id := tw_subwallet_id r; tw_user_id := "5";
                                tw_type := tw_type r; tw_address := tw_address r |}) (ton_wallets due)) due.


(** ** Configuration *)

(** Decimal numbers written as digits. *)
#[local] Instance decimal_lib : DecimalLib := {|
  decimal := Z;
  decimal_NewFromString s :=
    if forallb (λ b, (48 <=? b) && (b <=? 57)) (bytes_of_str s) then
      Some (foldl (λ n b, 10 * n + (b - 48)) 0 (bytes_of_str s))
    else None;
  decimal_BigInt d := d;
  decimal_Cmp := Z.compare;
|}.

Definition some_address : string := "0123456789abcdef0123456789abcdef".
Definition usdt : Config.jetton_entry :=
  {| je_currency := "USDT"; je_address := some_address; je_max := "1000"; je_withdrawal := "10" |}.
Definition env : EnvConfig := {|
  env_Seed := "seed"; env_APIToken := "tok"; env_Testnet := false;
  env_ColdWalletString := some_address; env_JettonString := show_jettons [usdt];
  env_TonString := "10:100:50"; env_IsDepositSideCalculation := true; env_QueueURI := "";
  env_QueueName := ""; env_QueueEnabled := false; env_WebhookEndpoint := ""; env_WebhookToken := "";
|}.
Definition parsed : tonaddr := default (std 0) (ParseAddr some_address).

Lemma GetConfig_reads_back_witness :
  env_JettonString env = "USDT:0123456789abcdef0123456789abcdef:1000:10" ∧
  GetConfig (Some env) = Ok {|
    cfg_Seed := "seed"; cfg_APIToken := "tok"; cfg_Testnet := false;
    cfg_IsDepositSideCalculation := true;
    cfg_Jettons := {[ "USDT" := {| j_Master := parsed; j_WithdrawalCutoff := 10;
                                   j_HotWalletMaxCutoff := 1000 |} ]};
    cfg_Ton := {| c_HotWalletMin := 10; c_HotWalletMax := 100; c_Withdrawal := 50 |};
    cfg_ColdWallet := Some parsed |}.
Proof.
  split; [reflexivity|].
  refine (GetConfig_reads_back env [usdt]
    [{| j_Master := parsed; j_WithdrawalCutoff := 10; j_HotWalletMaxCutoff := 1000 |}]
    "10" "100" "50" 10 100 50 parsed _ _ eq_refl _ _ _ eq_refl _ eq_refl eq_refl _).
  - repeat constructor.
  - repeat constructor.
  - by split.
  - by split.
  - by split.
  - discriminate.
  - discriminate.
Defined.

(** ** The start *)

Definition no_transfer (t : @TonWallet addr_lib ton_wallet_lib) (a : tonaddr) (z : Z) : ST (World unit) unit := st_ret tt.

(** Between the starts a user asks for a deposit, in the shard of the hot wallet. *)
Definition found_far (start : Z) : res (TonWallet * Z) := searched (GenerateSubWallet node 3 300 20 "seed" start).
Definition ask_deposit : ST (World unit) unit :=
  do! _ <- serve config repository request_repo book found_far found_proxy (std 1) "Bearer tok"
             (RCreateAddress (inl (5, TonSymbol))); st_ret tt.

Lemma InitWallets_restart_witness :
  let w := world (empty_db query_schema) in
  let start := InitWallets node config 3 repository no_transfer "seed" in
  let used := (ask_deposit (world (w_db (start w).2))).2 in
  is_Ok (start w).1 = true ∧ length (ton_wallets (w_db (start w).2)) = 1%nat ∧
  length (ton_wallets (w_db used)) = 2%nat ∧
  let again := start (world (w_db used)) in
  w_db again.2 = w_db used ∧
  ∀ ws', again.1 = Ok ws' → ws' = result wallets (start w).
Proof.
  intros w start used. assert (is_Ok (start w).1 = true) as Hs by (vm_compute; reflexivity).
  split; [exact Hs|]. split; [by vm_compute|]. split; [by vm_compute|]. intros again.
  refine (InitWallets_restart node config 3 no_transfer _ "seed" w (start w).2 (world (w_db used)) again.2
    (result wallets (start w)) again.1 _ _ _ (surjective_pairing _)).
  - by intros t a z ?.
  - concrete_inv.
  - by apply (result_Ok wallets).
  - apply rtc_once. exists ask_deposit, (ask_deposit (world (w_db (start w).2))).1, (world (w_db (start w).2)), used.
    split_and!; [apply run_request|apply w_db_world|apply surjective_pairing|symmetry; apply w_db_world].
Defined.

(** All the libraries answer, and the clock agrees with the node's. *)
Definition libs : Libraries := {|
  l_lite := Ok tt; l_before := 1000 * second; l_after := 1000 * second; l_time := Ok 1000;
  l_connect := Ok tt; l_ping := Ok tt; l_pool := Ok tt; l_pool_ping := Ok tt;
  l_dial := true; l_channel := true; l_declare := true |}.

(** A repository that reports that no block is saved. *)
Definition first_time : Repo unit := {|
  p_GetLastSubwalletID := p_GetLastSubwalletID repository;
  p_SaveTonWallet := p_SaveTonWallet repository;
  p_SaveJettonWallet := p_SaveJettonWallet repository;
  p_GetTonWalletsAddresses := p_GetTonWalletsAddresses repository;
  p_GetJettonOwnersAddresses := p_GetJettonOwnersAddresses repository;
  p_GetInternalIncome := p_GetInternalIncome repository;
  p_GetExternalIncome := p_GetExternalIncome repository;
  p_GetIncomeHistory := p_GetIncomeHistory repository;
  p_GetLastSavedBlock := st_lift (Err ENotFound);
  p_GetJettonWallet := p_GetJettonWallet repository;
  p_GetTonHotWalletAddress := p_GetTonHotWalletAddress repository;
|}.

Definition panics {A} (r : res A) : bool := match r with Panic => true | _ => false end.

Lemma main_never_runs_witness :
  let w := world (busy query_schema) in
  let start repo := main (Some env) libs repo node 3 no_transfer w in
  panics (start repository).1 = true ∧ w_db (start repository).2 = w_db w ∧
  panics (start first_time).1 = true ∧ ∀ run w2, start first_time ≠ (Ok run, w2).
Proof.
  intros w start. split; [vm_compute; reflexivity|].
  destruct (main_never_runs (Some env) libs node 3 no_transfer w (start repository).1 (start repository).2)
    as [H1 H2].
  destruct (H1 (surjective_pairing _)) as (_ & Hd & _). split; [exact Hd|]. split; [vm_compute; reflexivity|].
  exact (H2 first_time w eq_refl).
Defined.

(** A block with a transaction, for the scanner; and a balance above the
    maximum, for the withdrawal processor. *)
Lemma wired_with_nil_witness :
  let w := world (busy query_schema) in
  NewBlockScanner_Start node wallets config [] [Some (header_of 6)] w = (Panic, w) ∧
  (let m := NewWithdrawalsProcessor_pass config node wallets (Some (std 50)) random63 build_batch send_fails w in
   (m.1 = Panic ∨ m.1 = Fatal) ∧ m.2 = w) ∧
  NewWithdrawalsProcessor_internal config node wallets random63 (λ _ _, st_ret tt) w = (Panic, w).
Proof.
  intros w. destruct (wired_with_nil (O := unit) node wallets config) as (H1 & H2 & H3). split_and!.
  - apply (H1 [] (header_of 6) (tail ids) (default (entry 0) (head ids)) [] w); [discriminate|reflexivity..].
  - apply (H2 (Some (std 50)) random63 build_batch send_fails w). apply surjective_pairing.
  - apply H3.
Defined.

(** ** The routes *)

(** A router that matches the segments of a path one by one. *)
Fixpoint match_segments (pattern path : list string) : option (gmap string string) :=
  match pattern, path with
  | [], [] => Some ∅
  | (String c name as p) :: ps, s :: ss =>
      m ← match_segments ps ss;
      if decide (c = ":"%char) then Some (<[name := s]> m)
      else if decide (p = s) then Some m else None
  | "" :: ps, "" :: ss => match_segments ps ss
  | _, _ => None
  end.

Lemma match_segments_named pattern path ps name v :
  match_segments pattern path = Some ps → ps !! name = Some v → ":" +:+ name ∈ pattern.
Proof.
  revert path ps. induction pattern as [|[|c n] pattern IH]; intros [|s path] ps H Hl; simpl in H; try done.
  - injection H as <-. by rewrite lookup_empty in Hl.
  - destruct s; [|done]. apply list_elem_of_further. eauto.
  - destruct (match_segments pattern path) as [m|] eqn:E; simpl in H; [|done].
    destruct (decide (c = ":"%char)) as [->|].
    + injection H as <-. apply lookup_insert_Some in Hl as [[-> _]|[_ Hl]]; [by left|].
      apply list_elem_of_further. eauto.
    + destruct (decide (String c n = s)); [|done]. injection H as <-. apply list_elem_of_further. eauto.
Qed.

#[local] Instance http_lib : HttpLib := {|
  match_path pattern path := match_segments (Split "/"%char pattern) (Split "/"%char path);
  Params_Int64 ps name := match ps !! name with Some s => inl (Z.of_nat (String.length s)) | None => inr (ELib "") end;
  Decode_CreateAddress _ := inr (ELib "");
  Decode_CreateWithdrawal _ := inr (ELib "");
  Decode_ServiceTonWithdrawal _ := inr (ELib "");
  Decode_ServiceJettonWithdrawal _ := inr (ELib "");
  Decode_GetHistory _ := {| gh_UserID := 0; gh_Currency := ""; gh_Page := 0; gh_PerPage := 0 |};
|}.

Lemma identifiers_never_read_witness :
  let w := world (O := unit) (tables query_schema) in
  let rq := {| rq_params := {[ "type" := "internal" ]}; rq_body := ""; rq_query := "user_id=5" |} in
  match_path "/income/:type" "/income/internal" = Some (rq_params rq) ∧
  ∃ comment,
    handle config repository request_repo book gen no_proxy (std 1)
      (RIncome (Params_Int64 (rq_params rq) "user_id") "internal") w =
    (Ok {| rs_status := StatusBadRequest; rs_body := BError comment |}, w).
Proof.
  intros w rq. split; [evaluate|].
  refine (identifiers_never_read _ _ config repository request_repo book gen no_proxy (std 1)
    "GET" "/income/:type" "/income/internal"
    (λ r, RIncome (Params_Int64 (rq_params r) "user_id") (ByName (rq_params r) "type")) rq w _ _ _).
  - intros pattern path ps name v. apply match_segments_named.
  - intros ps name H. unfold Params_Int64. simpl. rewrite H. by eexists.
  - by apply (list_elem_of_lookup_2 _ 7).
  - evaluate.
  - evaluate.
Defined.
