(* ===== verification/ChainWitnesses.v ===== *)
(** * Witnesses on a chain of blocks

    The theorems of [Pipeline] and [Delivery] applied to a chain of blocks with
    one shard, each with the transactions of [Fixtures]; those of [Sweeps],
    [Service] and [Progress] at tables that change along it. *)

From S2P Require Import Prelude TonUtils Config Models Core Db AddressBook Fixtures Repository.
From S2P Require Import WithdrawalRepository Ledger BlockScanner Saving Protocol Lifecycle ProcessorFacts.
From S2P Require Import Shard Incomes Processes Pipeline Delivery Settlement Sweeps Processor Progress Service Wallets Deposits Witnesses RunWitnesses.

Local Open Scope string_scope.
Local Open Scope list_scope.
Local Open Scope Z_scope.

Import Toy Fix.

Definition chain_blk (n : nat) : BlockIDExt := block_id (Z.of_nat n).
Definition chain_data (n : nat) : Block := {|
  b_NotMaster := true; b_GenUtime := Z.of_nat n; b_StartLt := 0; b_EndLt := 1;
  b_GetParentBlocks := match n with O => Err (ELib "parents") | S m => Ok [chain_blk m] end |}.

Lemma chain_distinct n m : is_known (chain_blk n) (chain_blk m) = true → n = m.
Proof. unfold is_known. intros [_ H]%bool_decide_eq_true. simpl in H. lia. Qed.

Lemma chain_parents n : ∃ parents,
  b_GetParentBlocks (chain_data (S n)) = Ok parents ∧ filterByShard parents 1 = Ok (chain_blk n).
Proof.
  exists [chain_blk n]. split; [reflexivity|]. unfold filterByShard, chain_blk, block_id.
  cbn [blk_Shard].
  assert (isInShard (wrap64 (- 2 ^ 63)) 1 = Ok true) as -> by (vm_compute; reflexivity). reflexivity.
Qed.

(** The node answers with the data of every block but the first. *)
Definition block_data_of (b : BlockIDExt) : list (res Block) :=
  [if decide (blk_SeqNo b = 0) then Err (ELib "block") else Ok (chain_data (Z.to_nat (blk_SeqNo b)))].

Lemma chain_full : full_data chain_blk chain_data block_data_of.
Proof.
  assert (∀ n, until_ready (block_data_of (chain_blk (S n))) = Some (Ok (chain_data (S n)))) as Hs.
  { intros n. unfold block_data_of, chain_blk, block_id. cbn [blk_SeqNo]. rewrite decide_False, Nat2Z.id by lia.
    reflexivity. }
  split; [|exact Hs]. intros [|n] block H; [by vm_compute in H|]. rewrite Hs in H. by injection H as <-.
Qed.

(** Every block holds the transactions the node of [Fixtures] knows. *)
Definition chain_listed (b : BlockIDExt) : list TransactionShortInfo := ids.
Definition chain_tx (b : BlockIDExt) (id : TransactionShortInfo) : Transaction tonaddr Cell :=
  incoming 9 (default 0 (head (ti_Account id))) (10 * ti_LT id) (ti_LT id) None.

Lemma chain_accounts b id x : id ∈ chain_listed b → ti_Account id = Value x → of_account x (chain_tx b id).
Proof.
  intros Hin Hx. split; [|by intros ms m [= <-] Hm%elem_of_nil]. intros m [= <-]. cbn in Hin.
  repeat apply elem_of_cons in Hin as [->|Hin]; [| | |by apply elem_of_nil in Hin];
    [assert (x = addr32 2) as -> by by apply dsig_eq|assert (x = addr32 9) as -> by by apply dsig_eq
    |assert (x = addr32 2) as -> by by apply dsig_eq]; vm_compute; reflexivity.
Qed.

Lemma chain_node : honest_node chain_listed chain_tx node.
Proof. intros b. split; [by intros l [= <-]|by intros id tx [= <-]]. Qed.

Abbreviation chain_hdr := (hdr chain_blk chain_data).
Abbreviation chain_step := (sys_step (O := incomeNotification) wallets config (on_chain chain_blk)
  (honest_data chain_blk chain_data) (honest_node chain_listed chain_tx)).

(** The newest block of the shard is the [p]-th. *)
Definition masters : list (res BlockIDExt) := [Ok (block_id 100)].
Definition shards (p : nat) (m : BlockIDExt) : list (res (list BlockIDExt)) := [Ok [chain_blk p]].

(** The saved block is the sixth, and the seventh is the newest. *)
Definition before_run : State := {| s_db := tables query_schema; s_picked := [] |}.
Definition at_start : Sys := Pipeline.start 1 (chain_blk 6) before_run.
Definition announced : Sys :=
  move (set_master (block_id 100) (y_tracker at_start)) (AtBlock (chain_blk 7) (Some (chain_blk 7))) at_start.
Definition waiting : Sys := move (y_tracker announced) (AtSend (chain_blk 7) (chain_hdr 7)) announced.
Definition handed_over : Sys := hand_over (chain_blk 7) (chain_hdr 7) waiting.
Definition scanned : ST (World incomeNotification) unit := scan_one book wallets node config senders (Some (chain_hdr 7)).
Definition after_scan : Sys :=
  leave book (chain_hdr 7) (Ok tt) (w_db (scanned (world (tables query_schema))).2) handed_over.
Definition caught_up : Sys :=
  move (set_known (chain_blk 7) (y_tracker after_scan)) AtMaster after_scan.

Lemma caught_up_reached : rtc chain_step at_start caught_up.
Proof.
  eapply rtc_l; [|eapply rtc_l; [|eapply rtc_l; [|eapply rtc_l; [|apply rtc_once]]]].
  - apply (sys_newest _ _ _ _ _ at_start masters (shards 7) (chain_blk 7)); [reflexivity..|by exists 7%nat].
  - eapply (sys_examine _ _ _ _ _ announced block_data_of); [reflexivity..|by split; [apply chain_full|]|]. vm_compute. reflexivity.
  - by apply (sys_hand_over _ _ _ _ _ waiting).
  - eapply (sys_scan _ _ _ _ _ handed_over book node senders (chain_hdr 7) false (world (tables query_schema)));
      [reflexivity..|by split; [apply chain_node|]|by intros publish x ->%list_elem_of_singleton|reflexivity|].
    apply done_Ok. vm_compute. reflexivity.
  - eapply (sys_examine _ _ _ _ _ after_scan block_data_of); [reflexivity..|by split; [apply chain_full|]|]. vm_compute. reflexivity.
Qed.

Lemma chain_keys_new n : (6 < n)%nat → header_key (chain_hdr n) ∉ block_keys (s_db before_run).
Proof. intros _ H. by apply elem_of_nil in H. Qed.

Lemma payments_reach_the_table_witness :
  map xi_lt (incomes (addr32 2) (s_db (y_state caught_up))) = [5; 7] ∧
  NoDup (map sc_block (saved caught_up)) ∧
  (header_key (chain_hdr 7) ∈ block_keys (s_db (y_state caught_up)) ↔
     ∃ e, e ∈ saved caught_up ∧ sc_block e = chain_hdr 7) ∧
  incomes (addr32 2) (s_db (y_state caught_up)) ≡ₚ
    incomes (addr32 2) (s_db before_run) ++ concat (map (payments chain_listed chain_tx (addr32 2)) (saved caught_up)).
Proof.
  split; [vm_compute; reflexivity|].
  destruct (payments_reach_the_table (O := incomeNotification) wallets config 1 chain_blk chain_data chain_distinct chain_parents
    chain_listed chain_tx chain_accounts 6 before_run caught_up (addr32 2) 7) as (_ & _ & H1 & H2 & H3).
  - split; [concrete_inv|apply payable_nil].
  - apply chain_keys_new.
  - exact caught_up_reached.
  - reflexivity.
  - reflexivity.
  - reflexivity.
  - constructor; [|constructor]. vm_compute. reflexivity.
  - split; [exact H1|]. split; [apply (H2 7%nat); lia|exact H3].
Defined.

Lemma owners_known m a :
  map_Forall (λ (_ : Address) i, ai_Type i = JettonDepositWallet → ai_Owner i ≠ None) m →
  returns (ab_GetOwner (Some m) a) = true.
Proof.
  intros H. unfold ab_GetOwner, ab_get. simpl. destruct (m !! a) as [i|] eqn:E; [|done].
  specialize (H a i E). simpl in H. destruct (ai_Type i); try done. destruct (ai_Owner i); [done|by destruct H].
Qed.

Lemma book_owners a : returns (GetOwner book a) = true.
Proof. apply owners_known. evaluate. Qed.

(** A walk over two blocks; every block can be read. *)
Definition two_behind : Sys :=
  move (set_master (block_id 100) (y_tracker at_start)) (AtBlock (chain_blk 8) (Some (chain_blk 8))) at_start.

Lemma walk_drains_witness :
  t_blocksChan (y_tracker two_behind) = [] ∧
  ∃ y', rtc (sys_step (O := incomeNotification) wallets config (forward chain_blk)
              (honest_data chain_blk chain_data) (honest_node chain_listed chain_tx)) two_behind y' ∧
    y_at y' = AtMaster ∧ y_scanner y' = Selecting ∧ y_dead y' = false ∧
    t_lastKnownShardBlock (y_tracker y') = Some (chain_blk 8) ∧
    map sc_block (y_scanned y') = [] ++ [chain_hdr 8; chain_hdr 7].
Proof.
  split; [reflexivity|].
  refine (walk_drains wallets config 1 chain_blk chain_data chain_distinct chain_parents chain_listed chain_tx
    block_data_of book node senders 8 6 2 two_behind chain_full chain_node _ _ _
    eq_refl eq_refl eq_refl eq_refl eq_refl eq_refl eq_refl).
  - intros publish x ->%list_elem_of_singleton. by split.
  - exact book_owners.
  - intros n. vm_compute. reflexivity.
Defined.

(** The newest block, the eighth, is saved and the program is stopped. *)
Definition newest_only : ST (World incomeNotification) unit :=
  scan_one book wallets node config senders (Some (chain_hdr 8)).

Lemma restart_loses_blocks_witness :
  let w := world (tables query_schema) in
  block_keys (w_db (newest_only w).2) = [header_key (chain_hdr 8)] ∧
  ∃ y, rtc (sys_step (O := incomeNotification) wallets config (forward chain_blk)
             (honest_data chain_blk chain_data) (honest_node chain_listed chain_tx)) at_start y ∧
    y_scanner y = Stopped ∧ map sc_block (y_scanned y) = [chain_hdr 8] ∧
    s_db (y_state y) = w_db (newest_only w).2 ∧
    (∀ n, (n ≤ 7)%nat → ¬ handed chain_blk chain_data y n) ∧
    ∀ s y', rtc (sys_step (O := incomeNotification) wallets config (forward chain_blk)
             (honest_data chain_blk chain_data) (honest_node chain_listed chain_tx))
             (Pipeline.start 1 (chain_blk 8) s) y' →
      ∀ n, (6 < n ≤ 7)%nat → ¬ handed chain_blk chain_data y' n.
Proof.
  intros w. split; [vm_compute; reflexivity|].
  refine (restart_loses_blocks wallets config 1 chain_blk chain_data chain_distinct chain_parents
    chain_listed chain_tx masters (shards 8) block_data_of book node senders 6 7 before_run
    (set_master (block_id 100) (y_tracker at_start)) w (newest_only w).2 _ _ chain_full chain_node _ eq_refl _).
  - vm_compute. reflexivity.
  - lia.
  - by intros publish x ->%list_elem_of_singleton.
  - apply done_Ok. vm_compute. reflexivity.
Defined.

(** The signal comes while the tracker waits to hand over the seventh block,
    or while it is about to look at it. *)
Lemma shutdown_panics_witness :
  let y := scannerCancel waiting in
  let z := scannerCancel announced in
  chain_step y (close_chan y) ∧ y_dead (close_chan y) = true ∧
  (∀ y', rtc chain_step (close_chan y) y' → t_blocksChan (y_tracker y') = []) ∧
  ∀ z', rtc chain_step (close_chan z) z' → y_at z' = AtMaster ∨ y_at z' = AtBlock (chain_blk 7) (Some (chain_blk 7)).
Proof.
  intros y z.
  destruct (shutdown_panics (O := incomeNotification) wallets config (on_chain chain_blk)
    (honest_data chain_blk chain_data) (honest_node chain_listed chain_tx) y eq_refl eq_refl eq_refl)
    as (H1 & H2 & H3 & _).
  destruct (shutdown_panics (O := incomeNotification) wallets config (on_chain chain_blk)
    (honest_data chain_blk chain_data) (honest_node chain_listed chain_tx) z eq_refl eq_refl eq_refl)
    as (_ & _ & _ & H4).
  split; [exact H1|]. split; [by eapply H2|]. split; [exact H3|].
  intros z' Hz. refine (proj1 (H4 _ z' Hz)). intros i h E. discriminate E.
Defined.

(** The node goes back to the second block when the sixth is known. *)
Lemma older_block_rescans_witness :
  ∃ s', getShardBlocks block_data_of 5 (chain_blk 2) (y_tracker at_start) = Some (Err (ELib "block"), s') ∧
    t_lastKnownShardBlock s' = Some (chain_blk 6) ∧ t_blocksChan s' = [] ++ [chain_hdr 2; chain_hdr 1].
Proof.
  refine (older_block_rescans 1 chain_blk chain_data chain_distinct chain_parents block_data_of 5 2 6
    (y_tracker at_start) (ELib "block") chain_full eq_refl eq_refl eq_refl _ _); lia.
Defined.

(** ** Sweeps *)

Definition sweep_memo : UUID := uuid16 65.
Definition sweep_row : internal_withdrawal_row := {|
  iwr_failed := false; iwr_since_lt := 7; iwr_sending_lt := None; iwr_finish_lt := None;
  iwr_finished_at := None; iwr_expired_at := Some (2000 * second); iwr_amount := 0;
  iwr_from_address := addr32 2; iwr_memo := sweep_memo |}.
Definition sweeping : DB := set_internal_withdrawals [sweep_row] (tables query_schema).

(** The deposit [2] sends to the hot wallet [1]. *)
Definition sweep_message : InternalMessage tonaddr Cell := {|
  im_SrcAddr := Some (std 2); im_DstAddr := Some (std 1); im_Amount := 70; im_CreatedLT := 14;
  im_CreatedAt := 100; im_Payload := None; im_Comment := uuid_String sweep_memo |}.
Definition sweep_out : Transaction tonaddr Cell := {|
  tx_Now := 100; tx_LT := 13; tx_In := Some (MsgTypeExternalIn order);
  tx_Out := Some {| ml_ToSlice := Ok [MsgTypeInternal sweep_message]; ml_All := [mkCell []] |};
  tx_Description := TransactionDescriptionOrdinary |}.
Definition sweep_in : Transaction tonaddr Cell := {|
  tx_Now := 100; tx_LT := 15; tx_In := Some (MsgTypeInternal sweep_message);
  tx_Out := Some {| ml_ToSlice := Ok []; ml_All := [] |}; tx_Description := TransactionDescriptionOrdinary |}.
Definition entry_of (a lt : Z) : TransactionShortInfo :=
  {| ti_Account := account a; ti_LT := lt; ti_Hash := [lt] |}.
Definition node_of (id : TransactionShortInfo) (tx : Transaction tonaddr Cell) : Blockchain := {|
  GetTransactionIDsFromBlock _ := Ok [id];
  GetTransactionFromBlock _ _ := Ok tx;
  GenerateWallet := GenerateWallet node;
  GenerateHighloadWallet := GenerateHighloadWallet node;
  GetAccountCurrentState := GetAccountCurrentState node;
  GetWalletData := GetWalletData node;
  GetLastWalletData := GetLastWalletData node;
  JettonClient_GetJettonWallet := JettonClient_GetJettonWallet node;
  WaitStatus := WaitStatus node;
|}.

Lemma sweep_settles_witness :
  let w := world sweeping in
  let m := processBlock book wallets (node_of (entry_of 2 13) sweep_out) config senders (header_of 7) w in
  map (λ r, (iwr_sending_lt r, iwr_finish_lt r, iwr_amount r)) (internal_withdrawals (w_db m.2)) =
    [(Some 14, Some 14, 70)] ∧
  (w_db m.2 = w_db w ∨ Sweeps.swept sweep_memo (w_db m.2)).
Proof.
  intros w m. split; [vm_compute; reflexivity|].
  refine (sweep_settles book_map wallets (node_of (entry_of 2 13) sweep_out) config senders senders_no_db (block_id 7)
    (header_of 7) [entry_of 2 13] (addr32 2) (entry_of 2 13) sweep_out order [MsgTypeInternal sweep_message]
    sweep_message sweep_memo w m.2 _ eq_refl eq_refl (list_elem_of_here _ _) _ _ eq_refl eq_refl eq_refl
    (list_elem_of_here _ _) _ _ _).
  - concrete_inv.
  - reflexivity.
  - evaluate.
  - evaluate.
  - vm_compute. reflexivity.
  - apply done_Ok. vm_compute. reflexivity.
Defined.

Lemma sweep_received_witness :
  let w := world sweeping in
  let m := processBlock book wallets (node_of (entry_of 1 15) sweep_in) config senders (header_of 7) w in
  map (λ r, (in_lt r, in_amount r)) (internal_incomes (w_db m.2)) = [(14, 70)] ∧
  (w_db m.2 = w_db w ∨
   ∃ r, r ∈ internal_incomes (w_db m.2) ∧ in_memo r = sweep_memo ∧ in_lt r = 14 ∧
     in_deposit_address r = addr32 2 ∧ in_amount r = 70).
Proof.
  intros w m. split; [vm_compute; reflexivity|].
  refine (sweep_received book_map wallets (node_of (entry_of 1 15) sweep_in) config senders senders_no_db (block_id 7)
    (header_of 7) [entry_of 1 15] (addr32 1) (entry_of 1 15) sweep_in sweep_message (addr32 2) (addr32 1)
    sweep_memo w m.2 _ eq_refl eq_refl (list_elem_of_here _ _) _ _ eq_refl eq_refl _ _ _ _ _).
  - concrete_inv.
  - reflexivity.
  - evaluate.
  - vm_compute. reflexivity.
  - vm_compute. reflexivity.
  - evaluate.
  - vm_compute. reflexivity.
  - apply done_Ok. vm_compute. reflexivity.
Defined.

(** ** Service withdrawals *)

(** Lost jettons on the TON deposit [2]: the batch loop sends it TONs, then
    the loop of the deposits withdraws. *)
Definition lost : service_request_row := {|
  sv_memo := uuid16 70; sv_expired_at := None; sv_filled := false; sv_processed := false;
  sv_ton_amount := 0; sv_jetton_amount := 0; sv_from_address := addr32 2;
  sv_jetton_master := Some (addr32 30) |}.
Definition asked_for : DB := set_service_requests [lost] (tables query_schema).
Definition service_start : SState := {| v_db := asked_for; v_hot := []; v_deposit := [] |}.
Definition hot_tasks : list ServiceWithdrawalTask :=
  result [] (GetServiceHotWithdrawalTasks (O := unit) 5 (world asked_for)).
Definition service_held : SState :=
  {| v_db := asked_for; v_hot := map st_Memo hot_tasks; v_deposit := [] |}.
Definition hot_task : ServiceWithdrawalTask :=
  default {| st_From := addr32 0; st_JettonMaster := None; st_JettonAmount := 0; st_Memo := uuid16 0;
             st_SubwalletID := 0 |} (head hot_tasks).
Definition fill : ST (World unit) unit := UpdateServiceWithdrawalRequest hot_task 0 (2000 * second) true.
Definition service_filled : SState :=
  {| v_db := w_db (fill (world asked_for)).2; v_hot := []; v_deposit := [] |}.
Definition deposit_tasks : list ServiceWithdrawalTask :=
  result [] (GetServiceDepositWithdrawalTasks (O := unit) 5 (world (v_db service_filled))).
Definition service_deposit : SState :=
  {| v_db := v_db service_filled; v_hot := []; v_deposit := map st_Memo deposit_tasks |}.

Lemma service_held_reached : rtc (sstep (O := unit)) service_start service_deposit.
Proof.
  eapply rtc_l; [|eapply rtc_l; [|apply rtc_once]].
  - apply (ss_hot_pick 5 service_start (world asked_for) hot_tasks (world asked_for) eq_refl).
    vm_compute. reflexivity.
  - refine (ss_hot_update hot_task 0 (2000 * second) true service_held (world asked_for) _ _ _ eq_refl
      (surjective_pairing _)). evaluate.
  - apply (ss_deposit_pick 5 service_filled (world (v_db service_filled)) deposit_tasks
      (world (v_db service_filled)) eq_refl).
    vm_compute. reflexivity.
Qed.

Lemma service_life_witness :
  v_deposit service_deposit = [uuid16 70] ∧
  (∀ m, m ∈ v_deposit service_deposit → in_status Filled (v_db service_deposit) m) ∧
  (∀ m, m ∈ v_hot service_deposit → m ∉ v_deposit service_deposit).
Proof.
  split; [evaluate|].
  destruct (service_life (O := unit) service_start service_deposit) as (_ & H1 & H2 & _).
  - evaluate.
  - reflexivity.
  - reflexivity.
  - exact service_held_reached.
  - split; [exact H1|exact H2].
Defined.

(** A node on which the hot wallet can pay for messages. *)
Definition paying_node (balance : Z) : Blockchain := {|
  GetTransactionIDsFromBlock := GetTransactionIDsFromBlock node;
  GetTransactionFromBlock := GetTransactionFromBlock node;
  GenerateWallet := GenerateWallet node;
  GenerateHighloadWallet := GenerateHighloadWallet node;
  GetAccountCurrentState _ := Ok (balance, AccountStatusActive);
  GetWalletData := GetWalletData node;
  GetLastWalletData := GetLastWalletData node;
  JettonClient_GetJettonWallet := JettonClient_GetJettonWallet node;
  WaitStatus := WaitStatus node;
|}.
Definition rich_node : Blockchain := paying_node (10 ^ 12).
Definition rich_pass : ST (World unit) unit :=
  withdrawals_pass config book rich_node wallets withdrawal_repo None random63 build_batch send_fails.

Lemma service_passes_witness :
  let w := world asked_for in
  let m := rich_pass w in
  map service_status_of (Service.requests (w_db m.2)) = [Filled] ∧
  ∃ hot', rtc (sstep (O := unit)) {| v_db := w_db w; v_hot := []; v_deposit := [] |}
    {| v_db := w_db m.2; v_hot := hot'; v_deposit := [] |}.
Proof.
  intros w m. split; [vm_compute; reflexivity|].
  refine (proj1 (service_passes config book rich_node wallets None random63 build_batch send_fails (λ _ _, st_ret tt)
    _ _ _ _ w m.2 m.1 [] [] _) (surjective_pairing _)); try (by intros; split).
  split; [evaluate|by intros x Hx%elem_of_nil..].
Defined.

(** ** Requests *)

(** Two requests to the same outside address, which take two passes; the second
    finds less on the hot wallet. *)
Definition two_asked : DB :=
  set_seq 3 (set_withdrawal_requests [request_row 1 9 false; request_row 2 9 false] (tables query_schema)).
Definition later_node : Blockchain := paying_node (10 ^ 12 - 5).
Definition later_batch : ExternalMessage tonaddr Cell :=
  {| em_DstAddr := Some (std 1);
     em_Payload := Some (mkCell [StoreUInt 41 32; StoreUInt (2 ^ 32) 64; StoreRef (payment 9 5)]) |}.
Definition build_next (l : list (WalletMessage tonaddr Cell)) : ST (World unit) (ExternalMessage tonaddr Cell) :=
  λ w, (Ok (match external_withdrawals (w_db w) with [] => batch | _ => later_batch end), w).
Definition pass_at (bc : Blockchain) : ST (World unit) unit :=
  withdrawals_pass config book bc wallets withdrawal_repo None random63 build_next send_fails.
Definition first_pass : World unit := (pass_at rich_node (world two_asked)).2.
Definition second_pass : World unit := (pass_at later_node (world (w_db first_pass))).2.

Lemma room_of bc (w : World unit) :
  (length (w_Messages (result no_withdrawals
     (buildWithdrawalMessages config book bc wallets withdrawal_repo random63 w))) <=? 250)%nat = true →
  has_room config book bc wallets random63 w.
Proof. intros H wd w' E. rewrite E in H. by apply Nat.leb_le. Qed.

Lemma first_done : pass_at rich_node (world two_asked) = (Ok tt, first_pass).
Proof. unfold first_pass. apply done_Ok. vm_compute. reflexivity. Qed.
Lemma second_done : pass_at later_node (world (w_db first_pass)) = (Ok tt, second_pass).
Proof. unfold second_pass. apply done_Ok. vm_compute. reflexivity. Qed.

(** The idle requests are to [9], in TONs, and the balance covers them. *)
Lemma serviceable_at balance d :
  bool_decide (Forall (λ r, wr_dest_address r = addr32 9 ∧ 0 ≤ wr_amount r ∧ wr_currency r = TonSymbol) (idle d)) = true →
  (JettonTransferTonAmount * 500 + sumZ ton_cost (map task_of_request (idle d)) <=? balance) = true →
  serviceable book (paying_node balance) wallets d.
Proof.
  intros Hd%bool_decide_eq_true Hc%Z.leb_le. rewrite Forall_forall in Hd. split.
  - intros r (-> & _)%Hd. reflexivity.
  - by intros r (_ & ? & _)%Hd.
  - exists {[ TonSymbol := balance ]}. split; [reflexivity|]. split.
    + exists balance. split; [by rewrite lookup_singleton_eq|done].
    + intros t (r & -> & (_ & _ & Hr)%Hd)%list_elem_of_fmap Hn. by destruct Hn.
Qed.

