(* ===== verification/FollowWitnesses.v ===== *)
(** * Witnesses of payments and sweeps followed

    A batch is built and sent, and a block with its transaction is scanned; a
    deposit is swept, and a block with the sweep is scanned. *)

From S2P Require Import Prelude TonUtils Config Models Core Db AddressBook Fixtures Repository.
From S2P Require Import WithdrawalRepository Ledger BlockScanner Saving Messages Processor Sending.
From S2P Require Import Wallets Api Deposits.
From S2P Require Import Acceptance Settlement Sweeps Follow FollowJetton Witnesses RunWitnesses ChainWitnesses.

Local Open Scope string_scope.
Local Open Scope list_scope.
Local Open Scope Z_scope.

Import Toy Fix.

(** The cells of a batch hold its messages. *)
Definition wrapped (x : WalletMessage tonaddr Cell) : cell := mkCell [StoreRef (msg_cell (wm_Message x))].
Definition highload (l : list (WalletMessage tonaddr Cell)) : ExternalMessage tonaddr Cell := {|
  em_DstAddr := Some (std 1);
  em_Payload := Some (mkCell (StoreUInt 40 32 :: StoreUInt (2 ^ 32) 64 :: map (λ x, StoreRef (wrapped x)) l)) |}.
Abbreviation Out := (ExternalMessage tonaddr Cell).
Definition build_many (l : list (WalletMessage tonaddr Cell)) : ST (World Out) Out := st_ret (highload l).

Lemma refs_of_map l : refs_of (map (λ x, StoreRef (wrapped x)) l) = map wrapped l.
Proof. induction l as [|x l IH]; [done|]. cbn in *. by f_equal. Qed.

Lemma wrapped_wraps x : wraps x (wrapped x).
Proof.
  exists (stores (msg_cell (wm_Message x))). eexists. split; [reflexivity|]. split; [reflexivity|].
  split; [reflexivity|]. destruct (wm_Message x) as [? ? ? [c|] ?]; reflexivity.
Qed.

Lemma build_many_wraps l (w : World Out) msg (w' : World Out) info :
  build_many l w = (Ok msg, w') → getHighLoadWalletExtMsgInfo msg = Ok info → Forall2 wraps l (hi_Messages info).
Proof.
  intros [= <- <-] H. unfold getHighLoadWalletExtMsgInfo in H. cbn [em_Payload highload of_option res_bind] in H.
  destruct (decide _); [done|]. apply res_bind_Ok in H as (u & _ & H).
  apply res_bind_Ok in H as (d & Hd%of_option_Ok & [= <-]).
  change (highload_of (StoreUInt 40 32 :: StoreUInt (2 ^ 32) 64 :: map (λ x, StoreRef (wrapped x)) l) = Some d) in Hd.
  cbn [highload_of] in Hd. injection Hd as <-. simpl. rewrite refs_of_map.
  apply Forall2_fmap_r, Forall_Forall2_diag, Forall_forall. intros x _. apply wrapped_wraps.
Qed.

Definition asked : DB := set_seq 3 two_requests.

(** The request to the stranger [10] is paid, and the block shows it. *)
Definition paying_pass : ST (World Out) unit :=
  withdrawals_pass config book node wallets withdrawal_repo None (st_ret 42) build_many send.
Definition after_pass : World Out := (paying_pass (world asked)).2.
Definition sent_batch : Out := default batch (head (w_out after_pass)).
Definition batch_run : Transaction tonaddr Cell := {|
  tx_Now := 100; tx_LT := 12; tx_In := Some (MsgTypeExternalIn sent_batch);
  tx_Out := Some {| ml_ToSlice := Ok [sent 10 5]; ml_All := [mkCell []] |};
  tx_Description := TransactionDescriptionOrdinary |}.
Definition batch_node : Blockchain := node_of hot_entry batch_run.
Definition block_scanned : res unit * World Out :=
  processBlock book wallets batch_node config [] (header_of 7) (world (w_db after_pass)).

Lemma batch_executed : executed book_map batch_node sent_batch (header_of 7) batch_run.
Proof.
  exists (block_id 7), [hot_entry], (addr32 1), hot_entry, sent_batch.
  split_and!; first [apply list_elem_of_here|vm_compute; reflexivity].
Qed.

Lemma quiet_42 : preserves (same_out (O:=Out)) (st_ret 42).
Proof. by intros w. Qed.
Lemma quiet_build l : preserves (same_out (O:=Out)) (build_many l).
Proof. by intros w. Qed.
Lemma send_out (m : Out) (w : World Out) : w_db (send m w).2 = w_db w ∧
  (w_out (send m w).2 = w_out w ∨ w_out (send m w).2 = w_out w ++ [m]).
Proof. split; [done|by right]. Qed.
Lemma no_senders {O} (publish : incomeNotification → ST (World O) unit) n :
  publish ∈ [] → preserves no_db (publish n).
Proof. intros H. by apply elem_of_nil in H. Qed.

Lemma payment_followed_witness :
  map (λ x, (xw_query_id x, xw_processed_lt x, xw_failed x)) (external_withdrawals (w_db block_scanned.2)) =
    [(2, Some 12, false)] ∧
  ∃ wd, (∃ v1 v2 : World Out, buildWithdrawalMessages config book node wallets withdrawal_repo (st_ret 42) v1 = (Ok wd, v2)) ∧
    ∀ t, t ∈ w_External wd → 0 ≤ et_Amount t →
      ∃ x ms, x ∈ external_withdrawals (w_db block_scanned.2) ∧ out_messages batch_run = Ok ms ∧
        xw_query_id x = et_QueryID t ∧
        ((∃ m, m ∈ ms ∧ pays book_map m (et_Destination t)) → is_Some (xw_processed_lt x)) ∧
        ((¬ ∃ m, m ∈ ms ∧ pays book_map m (et_Destination t)) → xw_failed x = true).
Proof.
  assert (map (λ x, (xw_query_id x, xw_processed_lt x, xw_failed x)) (external_withdrawals (w_db block_scanned.2)) =
    [(2, Some 12, false)]) as Hrows by (vm_compute; reflexivity). split; [exact Hrows|].
  destruct (payment_followed config book_map wallets node batch_node None (st_ret 42) build_many send (λ m, m) []
    quiet_42 quiet_build send_out build_many_wraps no_senders
    (world asked) after_pass (paying_pass (world asked)).1 (surjective_pairing _))
    as [H|(wd & msg & info & Hout & _ & Hwd & H)].
  - exfalso. assert (length (w_out after_pass) = 1%nat) as Hl by (vm_compute; reflexivity).
    rewrite H in Hl. discriminate Hl.
  - exists wd. split; [exact Hwd|]. intros t Ht Ha. destruct (H t Ht Ha) as (_ & _ & Hb).
    assert (sent_batch = msg) as E by (unfold sent_batch; rewrite Hout; reflexivity). rewrite <- E in Hb.
    destruct (Hb (world (w_db after_pass)) block_scanned.2 (header_of 7) batch_run) as [Hs|(x & ms & H1 & H2 & H3 & _ & _ & H4 & H5)].
    + reflexivity.
    + concrete_inv.
    + exact batch_executed.
    + apply done_Ok. vm_compute. reflexivity.
    + exfalso. rewrite Hs in Hrows. vm_compute in Hrows. discriminate Hrows.
    + exists x, ms. split_and!; [exact H1|exact H2|exact H3|exact H4|exact H5].
Defined.

(** ** The sweep of the deposit [2] *)

Abbreviation Sent := (@TonWallet addr_lib ton_wallet_lib * WalletMessage tonaddr Cell)%type.
Definition wallet_send (t : @TonWallet addr_lib ton_wallet_lib) (m : WalletMessage tonaddr Cell)
    : ST (World Sent) unit := output (t, m).
Definition sweep_pass : res unit * World Sent :=
  internal_ton_pass config node wallets withdrawal_repo (st_ret 42) wallet_send (world due).
Definition swept_tables : World Sent := sweep_pass.2.
Definition nothing_sent : Sent := (basic, Build_WalletMessage 0 (Build_OutMessage false (std 0) 0 None None)).
Definition first_sent : Sent := default nothing_sent (head (w_out swept_tables)).

(** The chain delivers it with its comment. *)
Definition sweep_delivered : InternalMessage tonaddr Cell := {|
  im_SrcAddr := Some (std 2); im_DstAddr := Some (std 1); im_Amount := 70; im_CreatedLT := 14;
  im_CreatedAt := 100; im_Payload := None;
  im_Comment := match om_Body (wm_Message first_sent.2) with
                | Some (mkCell [_; StoreStringSnake s]) => s
                | _ => ""
                end |}.
Definition sweep_run : Transaction tonaddr Cell := {|
  tx_Now := 100; tx_LT := 13; tx_In := Some (MsgTypeExternalIn order);
  tx_Out := Some {| ml_ToSlice := Ok [MsgTypeInternal sweep_delivered]; ml_All := [mkCell []] |};
  tx_Description := TransactionDescriptionOrdinary |}.
Definition sweep_node : Blockchain := node_of (entry_of 2 13) sweep_run.
Definition sweep_scanned : res unit * World Sent :=
  processBlock book wallets sweep_node config [] (header_of 7) (world (w_db swept_tables)).

Lemma first_delivered : delivers first_sent.2 sweep_delivered.
Proof.
  split; [vm_compute; reflexivity|]. unfold sweep_delivered. cbn [im_Comment].
  destruct (om_Body (wm_Message first_sent.2)) as [c|]; [|done]. by intros s [= <-].
Qed.

Lemma first_seen : sweep_seen book_map sweep_node first_sent.2 (header_of 7).
Proof.
  exists (block_id 7), [entry_of 2 13], (addr32 2), (entry_of 2 13), sweep_run, order,
    [MsgTypeInternal sweep_delivered], sweep_delivered.
  split_and!; first [apply list_elem_of_here|exact first_delivered|reflexivity|vm_compute; reflexivity].
Qed.

Lemma first_plain : om_Bounce (wm_Message first_sent.2) = false.
Proof. vm_compute. reflexivity. Qed.

Lemma jettons_bounce x : jettons_sent wallets x → om_Bounce (wm_Message x.2) = true.
Proof. intros (t & jw & rnd & _ & (body & _ & E)%res_bind_Ok). apply (f_equal (λ r, match r with Ok m => om_Bounce (wm_Message m) | _ => true end)) in E. by rewrite <- E. Qed.

Lemma wallet_send_out t m (w : World Sent) : w_db (wallet_send t m w).2 = w_db w ∧
  (w_out (wallet_send t m w).2 = w_out w ∨ w_out (wallet_send t m w).2 = w_out w ++ [(t, m)]).
Proof. split; [done|by right]. Qed.

Lemma sweep_followed_witness :
  map (λ r, (iwr_sending_lt r, iwr_finish_lt r)) (internal_withdrawals (w_db sweep_scanned.2)) = [(Some 14, Some 14)] ∧
  ∃ x task memo, sweep_sent wallets (w_db swept_tables) x task memo ∧
    ∃ row, row ∈ internal_withdrawals (w_db sweep_scanned.2) ∧ iwr_memo row = memo ∧
      iwr_from_address row = it_From task ∧ is_Some (iwr_sending_lt row) ∧ is_Some (iwr_finish_lt row).
Proof.
  assert (map (λ r, (iwr_sending_lt r, iwr_finish_lt r)) (internal_withdrawals (w_db sweep_scanned.2)) =
    [(Some 14, Some 14)]) as Hrows by (vm_compute; reflexivity). split; [exact Hrows|].
  destruct (sweep_followed config book_map wallets node sweep_node (st_ret 42) wallet_send pair
    (λ w, conj eq_refl eq_refl) wallet_send_out [] no_senders ltac:(vm_compute; reflexivity)
    (world due) swept_tables sweep_pass.1 (surjective_pairing _)) as (l & Hl & H).
  destruct l as [|x l].
  { exfalso. assert (length (w_out swept_tables) = 1%nat) as Hn by (vm_compute; reflexivity).
    rewrite Hl in Hn. discriminate Hn. }
  assert (first_sent.2 = x.2) as Hx by (unfold first_sent; rewrite Hl; reflexivity).
  destruct (H x (list_elem_of_here _ _)) as [Hj|(task & memo & Hs & Hb)].
  { exfalso. apply jettons_bounce in Hj. rewrite <- Hx, first_plain in Hj. discriminate Hj. }
  exists x, task, memo. split; [exact Hs|]. pose proof first_seen as Hseen. rewrite Hx in Hseen.
  destruct (Hb (world (w_db swept_tables)) sweep_scanned.2 (header_of 7)) as [E|(row & H1 & H2 & H3 & _ & H4 & H5)].
  - reflexivity.
  - concrete_inv.
  - exact Hseen.
  - apply done_Ok. vm_compute. reflexivity.
  - exfalso. rewrite E in Hrows. vm_compute in Hrows. discriminate Hrows.
  - exists row. split_and!; [exact H1|exact H2|exact H3|exact H4|exact H5].
Defined.

(** ** A batch of every kind

    The deposit [2] is filled with TONs for a service withdrawal, the jetton
    deposit [3] of the proxy [12] is swept, the stranger [10] is paid TONs and the
    stranger [11] jettons of the hot jetton wallet [5]. *)

Definition batch_book : option (gmap Address AddressInfo) := Some (list_to_map [
  (addr32 1, {| ai_Type := TonHotWallet; ai_Owner := None |});
  (addr32 2, {| ai_Type := TonDepositWallet; ai_Owner := None |});
  (addr32 3, {| ai_Type := JettonDepositWallet; ai_Owner := Some (addr32 12) |});
  (addr32 5, {| ai_Type := JettonHotWallet; ai_Owner := None |});
  (addr32 12, {| ai_Type := JettonOwner; ai_Owner := None |})]).
Definition batch_wallets : Wallet := {|
  GetJettonWalletAddress owner _ := Ok owner;
  GetJettonBalance := GetJettonBalance wallets;
  GetLastJettonBalance _ := Ok 500;
  TonHotWalletOf := 1; TonBasicWalletOf := 7;
  JettonHotWallets := {[ "USDT" := {| jwal_Address := std 5; jwal_Currency := "USDT" |} ]};
  Shard := 1 |}.
Definition rich_node : Blockchain := {|
  GetTransactionIDsFromBlock := GetTransactionIDsFromBlock node;
  GetTransactionFromBlock := GetTransactionFromBlock node;
  GenerateWallet := GenerateWallet node; GenerateHighloadWallet := GenerateHighloadWallet node;
  GetAccountCurrentState _ := Ok (10 ^ 12, AccountStatusActive);
  GetWalletData := GetWalletData node; GetLastWalletData := GetLastWalletData node;
  JettonClient_GetJettonWallet := JettonClient_GetJettonWallet node; WaitStatus := WaitStatus node |}.

Definition jetton_request : withdrawal_request_row :=
  {| wr_query_id := 2; wr_bounceable := false; wr_status := Some WithdrawalStatusPending;
     wr_processing := false; wr_processed := false; wr_is_internal := false; wr_amount := 5;
     wr_user_id := "u"; wr_user_query_id := "2"; wr_currency := "USDT"; wr_dest_address := addr32 11;
     wr_comment := "paid" |}.
Definition service_request : service_request_row :=
  {| sv_memo := uuid16 50; sv_expired_at := None; sv_filled := false; sv_processed := false; sv_ton_amount := 0;
     sv_jetton_amount := 0; sv_from_address := addr32 2; sv_jetton_master := Some (addr32 30) |}.
Definition batch_tables : DB :=
  set_service_requests [service_request]
    (set_withdrawal_requests [request_row 1 10 false; jetton_request]
      (set_external_incomes [external_income 3 6]
        (set_jetton_wallets [jetton_row 12 3]
          (set_ton_wallets [ton_row TonHotWallet 1 1; ton_row TonDepositWallet 11 2; ton_row JettonOwner 12 12;
                            ton_row TonDepositWallet 13 77]
            (empty_db query_schema))))).

Definition full_build : res withdrawals * World Out :=
  buildWithdrawalMessages config (book_ops batch_book) rich_node batch_wallets withdrawal_repo (st_ret 42)
    (world batch_tables).
Definition full_batch : withdrawals := result (Build_withdrawals [] [] [] []) full_build.
Definition full_info : HighLoadWalletExtMsgInfo :=
  match getHighLoadWalletExtMsgInfo (highload (w_Messages full_batch)) with
  | Ok i => i
  | _ => Build_HighLoadWalletExtMsgInfo (uuid16 0) 0 []
  end.
(** All of it goes out. *)
Definition as_sent (m : OutMessage tonaddr Cell) : InternalMessage tonaddr Cell := {|
  im_SrcAddr := Some (std 1); im_DstAddr := Some (om_DstAddr m); im_Amount := om_Amount m; im_CreatedLT := 14;
  im_CreatedAt := 100; im_Payload := om_Body m; im_Comment := "" |}.
Definition full_run : Transaction tonaddr Cell := {|
  tx_Now := 100; tx_LT := 12; tx_In := Some (MsgTypeExternalIn (highload (w_Messages full_batch)));
  tx_Out := Some {| ml_ToSlice := Ok (map (λ x, MsgTypeInternal (as_sent (wm_Message x))) (w_Messages full_batch));
                    ml_All := [] |};
  tx_Description := TransactionDescriptionOrdinary |}.

Lemma batch_known : wallets_known batch_book batch_wallets.
Proof.
  split.
  - exists (addr32 1). by vm_compute.
  - intros cur jw H. change (({[ "USDT" := {| jwal_Address := std 5; jwal_Currency := "USDT" |} ]} : gmap string JettonWallet) !! cur = Some jw) in H.
    apply lookup_singleton_Some in H as [<- <-]. exists (addr32 5). by vm_compute.
  - intros a n [= <-]. lia.
Qed.

Lemma proxy_12 : proxy_at (hot_address batch_wallets) 12 (addr32 12).
Proof.
  intros p Hp. assert (match NewJettonProxy 12 (Some (hot_address batch_wallets)) with
    | Ok p => AddressFromTonutilsAddress (Some (px_address p)) | _ => Panic end = Ok (addr32 12)) as H by (vm_compute; reflexivity).
  by rewrite Hp in H.
Qed.

Lemma batch_wallets_sound : wallets_sound (hot_address batch_wallets) batch_tables.
Proof.
  split.
  - evaluate.
  - evaluate.
  - intros t [->|[->|[->|[->|[]%elem_of_nil]%elem_of_cons]%elem_of_cons]%elem_of_cons]%elem_of_cons; try done.
    intros _. apply proxy_12.
  - intros j ->%list_elem_of_singleton _. exists (ton_row JettonOwner 12 12). split; [|done]. do 2 right. left.
  - intros j j' ->%list_elem_of_singleton ->%list_elem_of_singleton. done.
Qed.

Lemma batch_tables_known : tables_known batch_book batch_wallets batch_tables.
Proof.
  split; [exact batch_wallets_sound| |rewrite <- (Forall_forall _ _); evaluate].
  intros t [->|[->|[->|[->|[]%elem_of_nil]%elem_of_cons]%elem_of_cons]%elem_of_cons]%elem_of_cons; try (intros _; evaluate).
  intros [Hin|(j & i & ->%list_elem_of_singleton & Hid & _)]; [|done]. exfalso. revert Hin. evaluate.
Qed.

(** A TON and a jetton deposit created on these tables. *)
Definition new_deposit (currency : string) : res string * World unit :=
  uc_CreateAddress config repository found found_proxy (std 1) 5 currency (world batch_tables).
Definition reloaded (d : DB) : res (gmap Address AddressInfo) * World unit := loadAddressBook (world d).

Lemma new_deposit_Ok currency : is_Ok (new_deposit currency).1 = true →
  new_deposit currency = (Ok (result "" (new_deposit currency)), (new_deposit currency).2).
Proof. apply result_Ok. Qed.


Lemma full_info_Ok : getHighLoadWalletExtMsgInfo (highload (w_Messages full_batch)) = Ok full_info.
Proof.
  assert (is_Ok (getHighLoadWalletExtMsgInfo (highload (w_Messages full_batch))) = true) as H by (vm_compute; reflexivity).
  unfold full_info. destruct (getHighLoadWalletExtMsgInfo _); [reflexivity|discriminate H..].
Qed.

Lemma full_outs m : m ∈ map (λ x, MsgTypeInternal (as_sent (wm_Message x))) (w_Messages full_batch) →
  ∃ x im, x ∈ w_Messages full_batch ∧ m = MsgTypeInternal im ∧ carries (wm_Message x) im.
Proof. intros (x & -> & Hx)%list_elem_of_fmap. exists x. by eexists. Qed.

Lemma quiet_int63 : db_rel (O:=Out) same_wallets (st_ret 42).
Proof. by intros w. Qed.

Lemma batch_accepted_witness :
  (length (w_Messages full_batch), length (w_Service full_batch), length (w_Internal full_batch),
   length (w_External full_batch)) = (4%nat, 1%nat, 1%nat, 2%nat) ∧
  (∃ addrs, parseExternalMessage (Some (highload (w_Messages full_batch))) = Ok (Some (hi_UUID full_info, addrs)) ∧
     size addrs = length (w_Messages full_batch)) ∧
  ∃ e, processTonHotWalletExternalInMsg (book_ops batch_book) (highload (w_Messages full_batch)) full_run = Ok e.
Proof.
  split; [vm_compute; reflexivity|].
  destruct (batch_accepted config batch_book rich_node batch_wallets (st_ret 42) batch_known quiet_int63
    (world batch_tables) full_build.2 full_batch (highload (w_Messages full_batch)) full_info batch_tables_known)
    as [(addrs & H1 & H2 & _) H].
  - apply result_Ok. vm_compute. reflexivity.
  - exact full_info_Ok.
  - exact (build_many_wraps (w_Messages full_batch) (world batch_tables) _ _ _ eq_refl full_info_Ok).
  - split; [exists addrs; split; [exact H1|exact H2]|].
    exact (H (highload (w_Messages full_batch)) full_run _ eq_refl eq_refl full_outs).
Defined.

(** ** The sweep of the jetton deposit [3] *)

Definition jetton_due_tables : DB := set_service_requests [] (set_withdrawal_requests [] batch_tables).
Definition jetton_pass : res unit * World Out :=
  withdrawals_pass config (book_ops batch_book) rich_node batch_wallets withdrawal_repo None (st_ret 42) build_many
    send (world jetton_due_tables).
Definition jetton_message : Out := default batch (head (w_out jetton_pass.2)).

(** A message read from a reference of a cell, and as the chain sends it. *)
Definition blank : InternalMessage tonaddr Cell := {|
  im_SrcAddr := None; im_DstAddr := None; im_Amount := 0; im_CreatedLT := 0; im_CreatedAt := 0;
  im_Payload := None; im_Comment := "" |}.
Definition read_ref (c : cell) : InternalMessage tonaddr Cell :=
  match LoadRef (BeginParse c) with
  | Some sl => default blank (LoadFromCell_message sl)
  | None => blank
  end.
Definition sent_at (from lt : Z) (im : InternalMessage tonaddr Cell) : InternalMessage tonaddr Cell := {|
  im_SrcAddr := Some (std from); im_DstAddr := im_DstAddr im; im_Amount := 1; im_CreatedLT := lt;
  im_CreatedAt := 100; im_Payload := im_Payload im; im_Comment := "" |}.
Definition batch_cells (msg : Out) : list cell :=
  match em_Payload msg with Some c => refs_of (stores c) | None => [] end.
Definition called : InternalMessage tonaddr Cell := read_ref (default (mkCell []) (head (batch_cells jetton_message))).
Definition asked_for : InternalMessage tonaddr Cell := read_ref (default (mkCell []) (im_Payload called)).

Definition chain_tx (lt : Z) (inMsg : Message tonaddr Cell) (outs : list (Message tonaddr Cell)) : Transaction tonaddr Cell := {|
  tx_Now := 100; tx_LT := lt; tx_In := Some inMsg; tx_Out := Some {| ml_ToSlice := Ok outs; ml_All := [mkCell []] |};
  tx_Description := TransactionDescriptionOrdinary |}.
Definition hot_run : Transaction tonaddr Cell :=
  chain_tx 12 (MsgTypeExternalIn jetton_message) [MsgTypeInternal (sent_at 1 14 called)].
Definition deposit_run : Transaction tonaddr Cell := chain_tx 20 (MsgTypeInternal (sent_at 12 18 asked_for)) [].

(** The block [7] holds the call of the proxy, the block [8] the transfer. *)
Definition sweep_chain : Blockchain := {|
  GetTransactionIDsFromBlock b :=
    Ok (if decide (blk_SeqNo <$> b = Some 8) then [entry_of 3 20] else [entry_of 1 12]);
  GetTransactionFromBlock b _ := Ok (if decide (blk_SeqNo <$> b = Some 8) then deposit_run else hot_run);
  GenerateWallet := GenerateWallet node; GenerateHighloadWallet := GenerateHighloadWallet node;
  GetAccountCurrentState := GetAccountCurrentState node;
  GetWalletData := GetWalletData node; GetLastWalletData := GetLastWalletData node;
  JettonClient_GetJettonWallet := JettonClient_GetJettonWallet node; WaitStatus := WaitStatus node |}.
Definition scan_at (n : Z) (d : DB) : res unit * World Out :=
  processBlock (book_ops batch_book) batch_wallets sweep_chain config [] (header_of n) (world d).
Definition after_call : DB := w_db (scan_at 7 (w_db jetton_pass.2)).2.
Definition after_transfer : DB := w_db (scan_at 8 after_call).2.
Definition sweep_rows (d : DB) := map (λ r, (iwr_sending_lt r, iwr_finish_lt r)) (internal_withdrawals d).

Lemma batch_cells_highload l : batch_cells (highload l) = map wrapped l.
Proof. unfold batch_cells. cbn [em_Payload highload stores]. rewrite <- refs_of_map. reflexivity. Qed.

Lemma build_many_msg l (v v' : World Out) msg : build_many l v = (Ok msg, v') → msg = highload l.
Proof. by intros [= <- _]. Qed.

Lemma sole_message l : jetton_message = highload l → ∃ m, l = [m].
Proof.
  intros E. assert (length (batch_cells jetton_message) = 1%nat) as Hl by (vm_compute; reflexivity).
  rewrite E, batch_cells_highload, length_map in Hl. destruct l as [|m [|]]; try discriminate Hl. by exists m.
Qed.

Lemma read_wrapped x : carries (wm_Message x) (read_ref (wrapped x)).
Proof. destruct x as [? [? ? ? [c|] ?]]; by split. Qed.

Lemma called_carries m : jetton_message = highload [m] → carries (wm_Message m) called.
Proof. intros E. unfold called. rewrite E, batch_cells_highload. apply read_wrapped. Qed.

Lemma asked_carries i inner m :
  jetton_message = highload [m] → jetton_sweep batch_wallets i inner m → carries inner asked_for.
Proof.
  intros [_ Hp]%called_carries (b & sl & im & Hb & Hsl & Him & Hc)%sweep_inner. unfold asked_for. rewrite Hp, Hb.
  unfold read_ref. change (default (mkCell []) (Some b)) with b. rewrite Hsl, Him. exact Hc.
Qed.

Lemma call_seen m : jetton_message = highload [m] → proxy_called batch_book sweep_chain m (header_of 7).
Proof.
  intros E. exists (addr32 1), hot_run, jetton_message, [MsgTypeInternal (sent_at 1 14 called)], (sent_at 1 14 called).
  split_and!; [|reflexivity|reflexivity|apply list_elem_of_here|exact (called_carries m E)].
  exists (block_id 7), [entry_of 1 12], (entry_of 1 12).
  split_and!; first [apply list_elem_of_here|vm_compute; reflexivity|reflexivity].
Qed.

Lemma transfer_seen i inner m : jetton_message = highload [m] → jetton_sweep batch_wallets i inner m →
  transfer_made batch_book sweep_chain (addr32 3) inner (header_of 8).
Proof.
  intros E Hs. exists deposit_run, (sent_at 12 18 asked_for), [mkCell []].
  split_and!; [|reflexivity|exact (asked_carries i inner m E Hs)|reflexivity|discriminate].
  exists (block_id 8), [entry_of 3 20], (entry_of 3 20).
  split_and!; first [apply list_elem_of_here|vm_compute; reflexivity|reflexivity].
Qed.

Lemma proxy_called_known m : jetton_message = highload [m] →
  GetWalletTypeByTonutilsAddress (book_ops batch_book) (Some (om_DstAddr (wm_Message m))) = Ok (Some JettonOwner).
Proof. intros [<- _]%called_carries. vm_compute. reflexivity. Qed.

Lemma sweep_rows_run : sweep_rows (w_db jetton_pass.2) = [(None, None)] ∧ sweep_rows after_call = [(Some 14, None)] ∧
  sweep_rows after_transfer = [(Some 14, Some 18)].
Proof. vm_compute. done. Qed.

Lemma sweep_from task ttl memo :
  new_internal task ttl memo ∈ internal_withdrawals (w_db jetton_pass.2) → it_From task = addr32 3.
Proof.
  assert (∀ r, r ∈ internal_withdrawals (w_db jetton_pass.2) → iwr_from_address r = addr32 3) as H.
  { rewrite <- (Forall_forall _ _). evaluate. }
  intros Hr. apply (H _ Hr).
Qed.

Lemma balance_known a n : GetLastJettonBalance batch_wallets a = Ok n → 0 ≤ n.
Proof. intros [= <-]. done. Qed.
Lemma hot_1_known : GetWalletTypeByTonutilsAddress (book_ops batch_book) (Some (hot_address batch_wallets)) =
  Ok (Some TonHotWallet).
Proof. vm_compute. reflexivity. Qed.

Lemma call_changes : after_call ≠ w_db jetton_pass.2.
Proof. destruct sweep_rows_run as (H1 & H2 & _). intros E. rewrite E, H1 in H2. discriminate H2. Qed.
Lemma transfer_changes : after_transfer ≠ after_call.
Proof. destruct sweep_rows_run as (_ & H2 & H3). intros E. rewrite E, H2 in H3. discriminate H3. Qed.

Lemma after_pass_inv : db_inv (w_db jetton_pass.2).
Proof. concrete_inv. Qed.

Lemma scan_Ok n d : is_Ok (scan_at n d).1 = true → scan_at n d = (Ok tt, (scan_at n d).2).
Proof. apply done_Ok. Qed.
Lemma scan_evolves n d : db_inv d → is_Ok (scan_at n d).1 = true → evolves d (w_db (scan_at n d).2).
Proof.
  intros I H%scan_Ok. by eapply (processBlock_evolves config batch_book batch_wallets sweep_chain [] no_senders)
    in H as [_ H].
Qed.
Lemma call_scanned : is_Ok (scan_at 7 (w_db jetton_pass.2)).1 = true.
Proof. vm_compute. reflexivity. Qed.
Lemma transfer_scanned : is_Ok (scan_at 8 after_call).1 = true.
Proof. vm_compute. reflexivity. Qed.
Lemma call_evolves : evolves (w_db jetton_pass.2) after_call.
Proof. exact (scan_evolves 7 _ after_pass_inv call_scanned). Qed.
Lemma after_call_inv : db_inv after_call.
Proof. concrete_inv. Qed.

Lemma jetton_sweep_followed_witness :
  (sweep_rows (w_db jetton_pass.2) = [(None, None)] ∧ sweep_rows after_call = [(Some 14, None)] ∧
   sweep_rows after_transfer = [(Some 14, Some 18)]) ∧
  ∃ wd, (∃ v1 v2 : World Out, build_many (w_Messages wd) v1 = (Ok jetton_message, v2)) ∧
    ∀ i, i ∈ w_Internal wd → noted (inw_Memo i) after_call ∧
      ∃ row, row ∈ internal_withdrawals after_transfer ∧ iwr_memo row = inw_Memo i ∧
        iwr_from_address row = it_From (inw_Task i) ∧ is_Some (iwr_sending_lt row) ∧ is_Some (iwr_finish_lt row).
Proof.
  split; [exact sweep_rows_run|].
  destruct (jetton_sweep_followed config batch_book batch_wallets rich_node sweep_chain None (st_ret 42) build_many
    send (λ m, m) [] quiet_42 quiet_build send_out no_senders hot_1_known balance_known
    (world jetton_due_tables) jetton_pass.2 jetton_pass.1 (surjective_pairing _))
    as [H|(wd & msg & info & Hout & _ & _ & (v1 & v2 & Hmsg) & H)].
  { exfalso. assert (length (w_out jetton_pass.2) = 1%nat) as Hl by (vm_compute; reflexivity).
    rewrite H in Hl. discriminate Hl. }
  assert (jetton_message = msg) as E by (unfold jetton_message; rewrite Hout; reflexivity). rewrite <- E in Hmsg.
  exists wd. split; [exists v1, v2; exact Hmsg|]. pose proof (build_many_msg _ _ _ _ Hmsg) as Hl.
  destruct (sole_message _ Hl) as [m0 Hm0]. intros i Hi. destruct (H i Hi) as (Hrow & inner & m & Hm & Hs & Hb).
  rewrite Hm0 in Hm. apply list_elem_of_singleton in Hm as ->. rewrite Hm0 in Hl.
  apply sweep_from in Hrow as Hfrom.
  assert (∀ n d d', evolves (w_db jetton_pass.2) d → db_inv d → is_Ok (scan_at n d).1 = true →
    w_db (scan_at n d).2 = d' →
    (ab_GetWalletType batch_book (it_From (inw_Task i)) = Ok (Some JettonDepositWallet) →
     GetWalletTypeByTonutilsAddress (book_ops batch_book) (Some (om_DstAddr (wm_Message m0))) = Ok (Some JettonOwner) →
     proxy_called batch_book sweep_chain m0 (header_of n) → d' = d ∨ noted (inw_Memo i) d') ∧
    (transfer_made batch_book sweep_chain (it_From (inw_Task i)) inner (header_of n) →
     d' = d ∨ ∃ row, row ∈ internal_withdrawals d' ∧ iwr_memo row = inw_Memo i ∧
       iwr_from_address row = it_From (inw_Task i) ∧ iwr_since_lt row = it_Lt (inw_Task i) ∧
       is_Some (iwr_sending_lt row) ∧ is_Some (iwr_finish_lt row))) as Hscan.
  { intros n d d' Ev I Hok <-.
    destruct (Hb (world d) (scan_at n d).2 (header_of n) Ev I (scan_Ok n d Hok)) as (H1 & H2 & _).
    split; [exact H1|exact H2]. }
  destruct (Hscan 7 (w_db jetton_pass.2) after_call (PreOrder_Reflexive _) after_pass_inv call_scanned eq_refl) as [H1 _].
  destruct (Hscan 8 after_call after_transfer call_evolves after_call_inv transfer_scanned eq_refl) as [_ H2].
  specialize (H1 ltac:(rewrite Hfrom; vm_compute; reflexivity) (proxy_called_known m0 Hl) (call_seen m0 Hl)).
  rewrite Hfrom in H2. specialize (H2 (transfer_seen i inner m0 Hl Hs)). split.
  - destruct H1 as [H1|H1]; [|exact H1]. exfalso. exact (call_changes H1).
  - destruct H2 as [H2|(row & R1 & R2 & R3 & _ & R4 & R5)]; [exfalso; exact (transfer_changes H2)|].
    exists row. rewrite Hfrom. split_and!; [exact R1|exact R2|exact R3|exact R4|exact R5].
Defined.
